(** * O2 network layer (src/network.cpp): socket registry, reactor,
      framed TCP send/receive and UDP utility senders.

    The C++ module keeps two parallel vectors ([o2n_fds], [o2n_fds_info]),
    heap-allocated [Fds_info] objects and a process-wide deletion flag.  The
    embedding threads all of that through one state record [net]; the
    operating system (sockets, poll, errno) is part of the state as a small
    kernel model, and every externally visible effect that is not a state
    change (freeing a message, closing a handle, perror, owner callbacks) is
    appended to [trace]. *)

From Stdlib Require Import ZArith Lia String Ascii.
From stdpp Require Import base option list strings gmap pretty.

Local Open Scope Z_scope.

(** ** Bytes, messages and the wire format *)

Definition byte := Z.

(** [o2n_message]: the [next] link is the list structure of the queue that
    holds the message; [length] is renamed [m_length] (clash with lists). *)
Record o2n_message := Message {
  m_length : Z;
  payload : list byte
}.

Global Instance o2n_message_eq_dec : EqDecision o2n_message.
Proof. solve_decision. Defined.

(** The four bytes found at [(char * ) &msg->length] after
    [msg->length = htonl(len)]: network (big-endian) byte order. *)
Definition htonl_bytes (len : Z) : list byte :=
  [ Z.land (Z.shiftr len 24) 255; Z.land (Z.shiftr len 16) 255;
    Z.land (Z.shiftr len 8) 255; Z.land len 255 ].

(** Conversion of a 32-bit pattern to [int32_t]. *)
Definition to_int32 (v : Z) : Z :=
  let u := v mod 2 ^ 32 in if u <? 2 ^ 31 then u else u - 2 ^ 32.

(** Value of [htonl(in_length)] once the four bytes [bs] received from the
    network have been stored at [PTR(&in_length)]. *)
Definition ntohl_bytes (bs : list byte) : Z :=
  match bs with
  | [b0; b1; b2; b3] =>
      to_int32 (Z.lor (Z.shiftl b0 24)
                 (Z.lor (Z.shiftl b1 16) (Z.lor (Z.shiftl b2 8) b3)))
  | _ => 0
  end.

(** Memory starting at [&msg->length] with the length byte-swapped: what a
    framed send reads from. *)
Definition frame (m : o2n_message) : list byte :=
  htonl_bytes (m_length m) ++ payload m.

(** ** Enumerations *)

Inductive net_tag_t :=
| NET_UDP_SERVER | NET_TCP_SERVER | NET_TCP_CONNECTING
| NET_TCP_CLIENT | NET_TCP_CONNECTION | NET_INFO_CLOSED.

Inductive O2err :=
| O2_SUCCESS | O2_FAIL | O2_BLOCKED | O2_TCP_HUP | O2_SOCKET_ERROR.

Inductive errno_t := ENONE | EAGAIN | EINTR | EINPROGRESS | EOTHER (code : Z).

Global Instance net_tag_eq_dec : EqDecision net_tag_t.
Proof. solve_decision. Defined.
Global Instance O2err_eq_dec : EqDecision O2err.
Proof. solve_decision. Defined.
Global Instance errno_eq_dec : EqDecision errno_t.
Proof. solve_decision. Defined.

Definition INVALID_SOCKET : Z := -1.
Definition POLLIN : Z := 1.
Definition POLLOUT : Z := 4.
Definition POLLERR : Z := 8.
Definition POLLHUP : Z := 16.
Definition POLLNVAL : Z := 32.

(** C truth value of [x & mask]. *)
Definition has_flag (x mask : Z) : bool := negb (Z.land x mask =? 0).

(** ** Program state *)

Definition ptr := nat.
Definition owner_t := nat.

Record pollfd := Pollfd { fd : Z; events : Z; revents : Z }.

Record Fds_info := Info {
  net_tag : net_tag_t;
  fds_index : nat;
  delete_me : bool;
  raw_flag : bool;
  in_length : Z;
  (** bytes stored so far at [PTR(&in_length)]; [in_length] is the value
      the cell holds after [htonl] *)
  in_length_mem : list byte;
  in_message : option o2n_message;
  in_length_got : Z;
  in_msg_got : Z;
  (** [out_message] with its [next] chain *)
  out_message : list o2n_message;
  out_msg_sent : Z;
  port : Z;
  owner : option owner_t
}.

Record Net_address := Addr { sin_addr : Z; sin_port : Z }.

(** *** Kernel model *)

Inductive tx_outcome := TxAccept (k : nat) | TxError (e : errno_t).
Inductive rx_idle_t := RxNothing (e : errno_t) | RxShutdown.

(** One kernel socket.  [tx_script] lists what the next calls of [send] /
    [sendto] will do (accept at most [k] bytes, or fail with an errno); when
    it is exhausted the socket buffer is full ([EAGAIN]).  [tx_wire] is the
    byte stream handed to the peer so far.  [rx_buf] is the received TCP
    stream not yet read; [rx_idle] says what [recvfrom] reports when it is
    empty. *)
Record ksock := Ksock {
  tx_script : list tx_outcome;
  tx_wire : list byte;
  rx_buf : list byte;
  rx_idle : rx_idle_t;
  rx_dgrams : list (list byte);
  backlog : list Z;
  sel_script : list (Z * errno_t);
  so_error : Z
}.

Inductive event :=
| EvFree (m : o2n_message)
| EvShutdown (s : Z)
| EvClose (s : Z)
| EvSendto (s : Z) (a : Net_address) (bs : list byte)
| EvPerror (what : string)
| EvConnected (p : ptr) (o : owner_t)
| EvAccepted (o : owner_t) (conn : ptr)
| EvDeliver (o : owner_t) (m : o2n_message)
| EvRemove (o : owner_t).

Global Instance Net_address_eq_dec : EqDecision Net_address.
Proof. solve_decision. Defined.
Global Instance event_eq_dec : EqDecision event.
Proof. solve_decision. Defined.

Record net := Net {
  o2n_fds : list pollfd;
  o2n_fds_info : list ptr;
  heap : gmap ptr Fds_info;
  o2n_socket_delete_flag : bool;
  o2n_udp_send_sock : Z;
  o2n_broadcast_sock : Z;
  local_to_addr : Net_address;
  o2n_broadcast_to_addr : Net_address;
  o2_ensemble_name : bool;
  errno : errno_t;
  kernel : gmap Z ksock;
  trace : list event
}.

(** *** Field updates *)

Definition set_net_tag (v : net_tag_t) (f : Fds_info) : Fds_info :=
  Info v (fds_index f) (delete_me f) (raw_flag f) (in_length f)
    (in_length_mem f) (in_message f) (in_length_got f) (in_msg_got f)
    (out_message f) (out_msg_sent f) (port f) (owner f).
Definition set_fds_index (v : nat) (f : Fds_info) : Fds_info :=
  Info (net_tag f) v (delete_me f) (raw_flag f) (in_length f)
    (in_length_mem f) (in_message f) (in_length_got f) (in_msg_got f)
    (out_message f) (out_msg_sent f) (port f) (owner f).
Definition set_delete_me (v : bool) (f : Fds_info) : Fds_info :=
  Info (net_tag f) (fds_index f) v (raw_flag f) (in_length f)
    (in_length_mem f) (in_message f) (in_length_got f) (in_msg_got f)
    (out_message f) (out_msg_sent f) (port f) (owner f).
Definition set_in_length (v : Z) (f : Fds_info) : Fds_info :=
  Info (net_tag f) (fds_index f) (delete_me f) (raw_flag f) v
    (in_length_mem f) (in_message f) (in_length_got f) (in_msg_got f)
    (out_message f) (out_msg_sent f) (port f) (owner f).
Definition set_in_length_mem (v : list byte) (f : Fds_info) : Fds_info :=
  Info (net_tag f) (fds_index f) (delete_me f) (raw_flag f) (in_length f)
    v (in_message f) (in_length_got f) (in_msg_got f)
    (out_message f) (out_msg_sent f) (port f) (owner f).
Definition set_in_message (v : option o2n_message) (f : Fds_info) : Fds_info :=
  Info (net_tag f) (fds_index f) (delete_me f) (raw_flag f) (in_length f)
    (in_length_mem f) v (in_length_got f) (in_msg_got f)
    (out_message f) (out_msg_sent f) (port f) (owner f).
Definition set_in_length_got (v : Z) (f : Fds_info) : Fds_info :=
  Info (net_tag f) (fds_index f) (delete_me f) (raw_flag f) (in_length f)
    (in_length_mem f) (in_message f) v (in_msg_got f)
    (out_message f) (out_msg_sent f) (port f) (owner f).
Definition set_in_msg_got (v : Z) (f : Fds_info) : Fds_info :=
  Info (net_tag f) (fds_index f) (delete_me f) (raw_flag f) (in_length f)
    (in_length_mem f) (in_message f) (in_length_got f) v
    (out_message f) (out_msg_sent f) (port f) (owner f).
Definition set_out_message (v : list o2n_message) (f : Fds_info) : Fds_info :=
  Info (net_tag f) (fds_index f) (delete_me f) (raw_flag f) (in_length f)
    (in_length_mem f) (in_message f) (in_length_got f) (in_msg_got f)
    v (out_msg_sent f) (port f) (owner f).
Definition set_out_msg_sent (v : Z) (f : Fds_info) : Fds_info :=
  Info (net_tag f) (fds_index f) (delete_me f) (raw_flag f) (in_length f)
    (in_length_mem f) (in_message f) (in_length_got f) (in_msg_got f)
    (out_message f) v (port f) (owner f).
Definition set_owner (v : option owner_t) (f : Fds_info) : Fds_info :=
  Info (net_tag f) (fds_index f) (delete_me f) (raw_flag f) (in_length f)
    (in_length_mem f) (in_message f) (in_length_got f) (in_msg_got f)
    (out_message f) (out_msg_sent f) (port f) v.

Definition set_fd (v : Z) (p : pollfd) : pollfd :=
  Pollfd v (events p) (revents p).
Definition set_events (v : Z) (p : pollfd) : pollfd :=
  Pollfd (fd p) v (revents p).
Definition set_revents (v : Z) (p : pollfd) : pollfd :=
  Pollfd (fd p) (events p) v.

Definition upd_fds (g : list pollfd -> list pollfd) (s : net) : net :=
  Net (g (o2n_fds s)) (o2n_fds_info s) (heap s) (o2n_socket_delete_flag s)
    (o2n_udp_send_sock s) (o2n_broadcast_sock s) (local_to_addr s)
    (o2n_broadcast_to_addr s) (o2_ensemble_name s) (errno s) (kernel s)
    (trace s).
Definition upd_fds_info (g : list ptr -> list ptr) (s : net) : net :=
  Net (o2n_fds s) (g (o2n_fds_info s)) (heap s) (o2n_socket_delete_flag s)
    (o2n_udp_send_sock s) (o2n_broadcast_sock s) (local_to_addr s)
    (o2n_broadcast_to_addr s) (o2_ensemble_name s) (errno s) (kernel s)
    (trace s).
Definition upd_heap (g : gmap ptr Fds_info -> gmap ptr Fds_info) (s : net)
  : net :=
  Net (o2n_fds s) (o2n_fds_info s) (g (heap s)) (o2n_socket_delete_flag s)
    (o2n_udp_send_sock s) (o2n_broadcast_sock s) (local_to_addr s)
    (o2n_broadcast_to_addr s) (o2_ensemble_name s) (errno s) (kernel s)
    (trace s).
Definition set_delete_flag (v : bool) (s : net) : net :=
  Net (o2n_fds s) (o2n_fds_info s) (heap s) v
    (o2n_udp_send_sock s) (o2n_broadcast_sock s) (local_to_addr s)
    (o2n_broadcast_to_addr s) (o2_ensemble_name s) (errno s) (kernel s)
    (trace s).
Definition set_local_to_addr (v : Net_address) (s : net) : net :=
  Net (o2n_fds s) (o2n_fds_info s) (heap s) (o2n_socket_delete_flag s)
    (o2n_udp_send_sock s) (o2n_broadcast_sock s) v
    (o2n_broadcast_to_addr s) (o2_ensemble_name s) (errno s) (kernel s)
    (trace s).
Definition set_broadcast_to_addr (v : Net_address) (s : net) : net :=
  Net (o2n_fds s) (o2n_fds_info s) (heap s) (o2n_socket_delete_flag s)
    (o2n_udp_send_sock s) (o2n_broadcast_sock s) (local_to_addr s)
    v (o2_ensemble_name s) (errno s) (kernel s) (trace s).
Definition set_errno (v : errno_t) (s : net) : net :=
  Net (o2n_fds s) (o2n_fds_info s) (heap s) (o2n_socket_delete_flag s)
    (o2n_udp_send_sock s) (o2n_broadcast_sock s) (local_to_addr s)
    (o2n_broadcast_to_addr s) (o2_ensemble_name s) v (kernel s) (trace s).
Definition upd_kernel (g : gmap Z ksock -> gmap Z ksock) (s : net) : net :=
  Net (o2n_fds s) (o2n_fds_info s) (heap s) (o2n_socket_delete_flag s)
    (o2n_udp_send_sock s) (o2n_broadcast_sock s) (local_to_addr s)
    (o2n_broadcast_to_addr s) (o2_ensemble_name s) (errno s) (g (kernel s))
    (trace s).
Definition emit (e : event) (s : net) : net :=
  Net (o2n_fds s) (o2n_fds_info s) (heap s) (o2n_socket_delete_flag s)
    (o2n_udp_send_sock s) (o2n_broadcast_sock s) (local_to_addr s)
    (o2n_broadcast_to_addr s) (o2_ensemble_name s) (errno s) (kernel s)
    (trace s ++ [e]).

(** ** The state-and-abort monad

    [None] is a run that does not return: a failed [assert], an access
    through a dangling pointer or outside a [Vec], or exhausted fuel. *)

Definition M (A : Type) : Type := net -> option (A * net).

Definition ret {A} (a : A) : M A := fun s => Some (a, s).
Definition bind {A B} (m : M A) (k : A -> M B) : M B :=
  fun s => match m s with Some (a, s') => k a s' | None => None end.
Definition abort {A} : M A := fun _ => None.
Definition gets {A} (g : net -> A) : M A := fun s => Some (g s, s).
Definition modify (g : net -> net) : M unit := fun s => Some (tt, g s).
Definition assert (b : bool) : M unit := if b then ret tt else abort.
Definition when (b : bool) (m : M unit) : M unit := if b then m else ret tt.

Notation "x <- m ;; k" := (bind m (fun x => k))
  (at level 100, m at next level, right associativity).
Notation "m ;;; k" := (bind m (fun _ => k))
  (at level 100, right associativity).

(** [*p] for an [Fds_info *] *)
Definition deref (p : ptr) : M Fds_info :=
  fun s => match heap s !! p with Some f => Some (f, s) | None => None end.
(** [p->field = v] *)
Definition store (p : ptr) (g : Fds_info -> Fds_info) : M unit :=
  f <- deref p ;; modify (upd_heap <[p := g f]>).
(** [o2n_fds[i]] *)
Definition pfd_at (i : nat) : M pollfd :=
  fun s => match o2n_fds s !! i with Some d => Some (d, s) | None => None end.
Definition pfd_store (i : nat) (g : pollfd -> pollfd) : M unit :=
  d <- pfd_at i ;; modify (upd_fds <[i := g d]>).
(** [o2n_fds_info[i]] *)
Definition info_at (i : nat) : M ptr :=
  fun s => match o2n_fds_info s !! i with
           | Some p => Some (p, s) | None => None end.

Definition O2_FREE (m : o2n_message) : M unit := modify (emit (EvFree m)).
Definition perror (what : string) : M unit := modify (emit (EvPerror what)).

(** [TERMINATING_SOCKET_ERROR] *)
Definition TERMINATING_SOCKET_ERROR : M bool :=
  e <- gets errno ;;
  ret (negb (bool_decide (e = EAGAIN)) && negb (bool_decide (e = EINTR))).

(** ** System calls *)

Definition set_tx (sc : list tx_outcome) (w : list byte) (k : ksock) : ksock :=
  Ksock sc w (rx_buf k) (rx_idle k) (rx_dgrams k) (backlog k)
    (sel_script k) (so_error k).
Definition set_rx_buf (b : list byte) (k : ksock) : ksock :=
  Ksock (tx_script k) (tx_wire k) b (rx_idle k) (rx_dgrams k) (backlog k)
    (sel_script k) (so_error k).
Definition set_rx_dgrams (d : list (list byte)) (k : ksock) : ksock :=
  Ksock (tx_script k) (tx_wire k) (rx_buf k) (rx_idle k) d (backlog k)
    (sel_script k) (so_error k).
Definition set_backlog (b : list Z) (k : ksock) : ksock :=
  Ksock (tx_script k) (tx_wire k) (rx_buf k) (rx_idle k) (rx_dgrams k) b
    (sel_script k) (so_error k).
Definition set_sel_script (sc : list (Z * errno_t)) (k : ksock) : ksock :=
  Ksock (tx_script k) (tx_wire k) (rx_buf k) (rx_idle k) (rx_dgrams k)
    (backlog k) sc (so_error k).

Definition EBADF : errno_t := EOTHER 9.

(** [::send(s, from, n, flags)] on a stream socket: the kernel takes the
    first [min k n] bytes of [from]; the result is that count, or -1 with
    [errno] set. *)
Definition sys_send (s : Z) (from : list byte) (n : Z) : M Z := fun st =>
  match kernel st !! s with
  | None => Some (-1, set_errno EBADF st)
  | Some k =>
      match tx_script k with
      | [] => Some (-1, set_errno EAGAIN st)
      | TxError e :: sc =>
          Some (-1, set_errno e
                      (upd_kernel <[s := set_tx sc (tx_wire k) k]> st))
      | TxAccept a :: sc =>
          let got := Z.min (Z.of_nat a) n in
          Some (got, upd_kernel
                       <[s := set_tx sc
                                (tx_wire k ++ take (Z.to_nat got) from) k]> st)
      end
  end.

(** [sendto] of one datagram: all of it or an error. *)
Definition sys_sendto (s : Z) (bs : list byte) (n : Z) (a : Net_address)
  : M Z := fun st =>
  let st := emit (EvSendto s a (take (Z.to_nat n) bs)) st in
  match kernel st !! s with
  | None => Some (-1, set_errno EBADF st)
  | Some k =>
      match tx_script k with
      | [] => Some (-1, set_errno EAGAIN st)
      | TxError e :: sc =>
          Some (-1, set_errno e
                      (upd_kernel <[s := set_tx sc (tx_wire k) k]> st))
      | TxAccept _ :: sc =>
          Some (n, upd_kernel <[s := set_tx sc (tx_wire k) k]> st)
      end
  end.

(** [recvfrom(s, buf, n, 0, NULL, NULL)] on a stream socket; the bytes read
    are returned next to the count. *)
Definition sys_recv (s : Z) (n : Z) : M (Z * list byte) := fun st =>
  match kernel st !! s with
  | None => Some ((-1, []), set_errno EBADF st)
  | Some k =>
      match rx_buf k with
      | [] =>
          match rx_idle k with
          | RxShutdown => Some ((0, []), st)
          | RxNothing e => Some ((-1, []), set_errno e st)
          end
      | _ :: _ =>
          let bs := take (Z.to_nat n) (rx_buf k) in
          Some ((Z.of_nat (length bs), bs),
                upd_kernel
                  <[s := set_rx_buf (drop (Z.to_nat n) (rx_buf k)) k]> st)
      end
  end.

(** [ioctlsocket(s, FIONREAD, &len)] on a datagram socket. *)
Definition sys_fionread (s : Z) : M (Z * Z) := fun st =>
  match kernel st !! s with
  | None => Some ((-1, 0), set_errno EBADF st)
  | Some k =>
      match rx_dgrams k with
      | [] => Some ((0, 0), st)
      | d :: _ => Some ((0, Z.of_nat (length d)), st)
      end
  end.

(** [recvfrom] of one datagram, truncated to [n] bytes. *)
Definition sys_recv_dgram (s : Z) (n : Z) : M (Z * list byte) := fun st =>
  match kernel st !! s with
  | None => Some ((-1, []), set_errno EBADF st)
  | Some k =>
      match rx_dgrams k with
      | [] => Some ((-1, []), set_errno EAGAIN st)
      | d :: ds =>
          let bs := take (Z.to_nat n) d in
          Some ((Z.of_nat (length bs), bs),
                upd_kernel <[s := set_rx_dgrams ds k]> st)
      end
  end.

(** [accept(s, NULL, NULL)] *)
Definition sys_accept (s : Z) : M Z := fun st =>
  match kernel st !! s with
  | None => Some (INVALID_SOCKET, set_errno EBADF st)
  | Some k =>
      match backlog k with
      | [] => Some (INVALID_SOCKET, set_errno EAGAIN st)
      | c :: cs => Some (c, upd_kernel <[s := set_backlog cs k]> st)
      end
  end.

(** [select(s + 1, NULL, {s}, NULL, NULL)] *)
Definition sys_select (s : Z) : M Z := fun st =>
  match kernel st !! s with
  | None => Some (-1, set_errno EBADF st)
  | Some k =>
      match sel_script k with
      | [] => Some (1, st)
      | (total, e) :: sc =>
          Some (total, (if total <? 0 then set_errno e else id)
                         (upd_kernel <[s := set_sel_script sc k]> st))
      end
  end.

(** [getsockopt(s, SOL_SOCKET, SO_ERROR, ...)] *)
Definition sys_so_error (s : Z) : M Z := fun st =>
  match kernel st !! s with
  | None => Some (0, st)
  | Some k => Some (so_error k, st)
  end.

Definition sys_shutdown (s : Z) : M unit := modify (emit (EvShutdown s)).

(** [closesocket(s)]: the handle is gone from the kernel. *)
Definition o2_closesocket (s : Z) : M unit :=
  modify (fun st => emit (EvClose s) (upd_kernel (delete s) st)).

(** [poll(&o2n_fds[0], size, 0)]: [ready] is what the kernel finds ready on
    each descriptor; a negative [fd] is skipped, and only the requested
    events, errors and hang-ups are reported. *)
Definition poll_one (d : pollfd) (r : Z) : pollfd :=
  set_revents
    (if fd d <? 0 then 0
     else Z.land r (Z.lor (events d) (Z.lor POLLERR (Z.lor POLLHUP POLLNVAL))))
    d.
Fixpoint poll_all (ds : list pollfd) (ready : list Z) : list pollfd :=
  match ds with
  | [] => []
  | d :: ds' =>
      match ready with
      | [] => poll_one d 0 :: poll_all ds' []
      | r :: ready' => poll_one d r :: poll_all ds' ready'
      end
  end.
Definition sys_poll (ready : list Z) : M unit :=
  modify (upd_fds (fun ds => poll_all ds ready)).

(** ** Registry: construction *)

(** [Vec::pop_back] *)
Definition pop_back {A} (l : list A) : option (list A) :=
  match l with [] => None | _ => Some (take (Nat.pred (length l)) l) end.
Definition fds_pop_back : M unit := fun st =>
  match pop_back (o2n_fds st) with
  | Some l => Some (tt, upd_fds (fun _ => l) st)
  | None => None
  end.
Definition fds_info_pop_back : M unit := fun st =>
  match pop_back (o2n_fds_info st) with
  | Some l => Some (tt, upd_fds_info (fun _ => l) st)
  | None => None
  end.

(** [new Fds_info(sock, net_tag_, port_)]: allocation at an unused address
    followed by the constructor body. *)
Definition Fds_info_new (sock : Z) (net_tag_ : net_tag_t) (port_ : Z)
  : M ptr :=
  this <- gets (fun st => fresh (dom (heap st))) ;;
  sz <- gets (fun st => length (o2n_fds st)) ;;
  modify (upd_heap
    <[this := Info net_tag_ sz false false 0 [] None 0 0 [] 0 port_ None]>) ;;;
  modify (upd_fds_info (fun l => l ++ [this])) ;;;
  modify (upd_fds (fun l => l ++ [Pollfd sock 0 0])) ;;;
  assert (negb (sock =? INVALID_SOCKET)) ;;;
  pfd_store sz (fun d => set_revents 0 (set_events POLLIN d)) ;;;
  ret this.

(** ** [Fds_info::close_socket] *)

Fixpoint free_chain (q : list o2n_message) : M unit :=
  match q with
  | [] => ret tt
  | p :: next => O2_FREE p ;;; free_chain next
  end.

Definition close_socket (this : ptr) : M unit :=
  f <- deref this ;;
  match in_message f with Some m => O2_FREE m | None => ret tt end ;;;
  store this (set_in_message None) ;;;
  free_chain (out_message f) ;;;
  store this (set_out_message []) ;;;
  pfd <- pfd_at (fds_index f) ;;
  let sock := fd pfd in
  when (negb (sock =? INVALID_SOCKET))
    (sys_shutdown sock ;;;
     o2_closesocket sock ;;;
     pfd_store (fds_index f) (set_fd INVALID_SOCKET) ;;;
     store this (set_net_tag NET_INFO_CLOSED)) ;;;
  f' <- deref this ;;
  pfd' <- pfd_at (fds_index f) ;;
  assert (bool_decide (net_tag f' = NET_INFO_CLOSED)
          && (fd pfd' =? INVALID_SOCKET)) ;;;
  store this (set_delete_me true) ;;;
  modify (set_delete_flag true).

(** ** [Fds_info::send], [enqueue], [send_tcp] *)

(** The [select] loop that waits for a connecting socket to become
    writable; [false] stands for the early [return O2_SOCKET_ERROR]. *)
Fixpoint select_wait (fuel : nat) (sock : Z) : M bool :=
  match fuel with
  | O => abort
  | S fuel' =>
      total <- sys_select sock ;;
      if total =? 1 then ret true
      else
        e <- gets errno ;;
        if (total <? 0) && negb (bool_decide (e = EINTR)) then ret false
        else select_wait fuel' sock
  end.

(** Conversion to [size_t] (64 bits). *)
Definition to_size_t (v : Z) : Z := v mod 2 ^ 64.

(** The [while ((msg = out_message))] loop; one unit of fuel per test of
    the loop condition.  [n] and [err] are [int]s: [n] is the remaining
    size converted to [int] (in the framed case the sum is computed in
    [size_t] because of [sizeof]), it is passed to [::send] as a [size_t],
    and the [ssize_t] result is cast to [int]. *)
Fixpoint send_loop (fuel : nat) (block : bool) (this : ptr) : M O2err :=
  match fuel with
  | O => abort
  | S fuel' =>
      f <- deref this ;;
      match out_message f with
      | [] => ret O2_SUCCESS
      | msg :: next =>
          let len := m_length msg in
          let sent := out_msg_sent f in
          let from :=
            if raw_flag f then drop (Z.to_nat sent) (payload msg)
            else drop (Z.to_nat sent) (frame msg) in
          let n := if raw_flag f then to_int32 (len - sent)
                   else to_int32 (len + 4 - sent) in
          pfd <- pfd_at (fds_index f) ;;
          r <- sys_send (fd pfd) from (to_size_t n) ;;
          let err := to_int32 r in
          if err <? 0 then
            terminating <- TERMINATING_SOCKET_ERROR ;;
            if negb block && negb terminating then
              pfd_store (fds_index f)
                (fun d => set_events (Z.lor (events d) POLLOUT) d) ;;;
              ret O2_BLOCKED
            else if terminating then
              close_socket this ;;;
              ret O2_FAIL
            else send_loop fuel' block this
          else
            store this (set_out_msg_sent (to_int32 (sent + err))) ;;;
            if err >=? n then
              assert (err =? n) ;;;
              store this (set_out_msg_sent 0) ;;;
              O2_FREE msg ;;;
              store this (set_out_message next) ;;;
              send_loop fuel' block this
            else if negb block then
              pfd_store (fds_index f)
                (fun d => set_events (Z.lor (events d) POLLOUT) d) ;;;
              ret O2_BLOCKED
            else send_loop fuel' block this
      end
  end.

Definition send (fuel : nat) (block : bool) (this : ptr) : M O2err :=
  f <- deref this ;;
  if bool_decide (net_tag f = NET_INFO_CLOSED) then ret O2_FAIL
  else
    pfd <- pfd_at (fds_index f) ;;
    proceed <-
      (if bool_decide (net_tag f = NET_TCP_CONNECTING) && block then
         writable <- select_wait fuel (fd pfd) ;;
         if writable then
           socket_error <- sys_so_error (fd pfd) ;;
           if negb (socket_error =? 0) then ret false
           else store this (set_net_tag NET_TCP_CLIENT) ;;; ret true
         else ret false
       else ret true) ;;
    if proceed then send_loop fuel block this else ret O2_SOCKET_ERROR.

(** [send(false)]: a non-blocking pass returns or dequeues a message at
    every turn of the loop, so it needs at most one loop test more than
    there are queued messages (lemma [send_loop_run]). *)
Definition send_nonblocking (this : ptr) : M O2err :=
  f <- deref this ;;
  send (S (length (out_message f))) false this.

Definition enqueue (this : ptr) (msg : o2n_message) : M unit :=
  f <- deref this ;;
  if bool_decide (out_message f = [])
     && negb (bool_decide (net_tag f = NET_TCP_CONNECTING)) then
    store this (set_out_message [msg]) ;;;
    store this (set_out_msg_sent 0) ;;;
    _ <- send_nonblocking this ;;
    ret tt
  else
    store this (set_out_message (out_message f ++ [msg])).

Definition send_tcp (fuel : nat) (block : bool) (this : ptr)
  (msg : o2n_message) : M O2err :=
  f <- deref this ;;
  rslt <- (if negb (bool_decide (out_message f = [])) && block
           then send fuel true this else ret O2_SUCCESS) ;;
  if negb (bool_decide (rslt = O2_SUCCESS)) then
    O2_FREE msg ;;; ret rslt
  else
    enqueue this msg ;;; ret O2_SUCCESS.

(** ** The owner capability

    [Fds_info::owner] points to an object of a class implemented by the
    layers above ([remove], [connected], [accepted], [deliver]); those
    classes are not part of this module.  The development is parametric in
    what they do, within these bounds: [remove()] may close a set of other
    connections (the cascade the sweep is written for), [deliver] and
    [connected] report a status, [accepted] may attach an owner to the new
    connection. *)
Record Owner_ops := {
  remove_closes : owner_t -> list ptr;
  deliver_status : owner_t -> o2n_message -> O2err;
  accepted_owner : owner_t -> ptr -> option owner_t
}.

Section Reactor.

Context (ops : Owner_ops).

Definition is_registered (q : ptr) (st : net) : bool :=
  bool_decide (q ∈ o2n_fds_info st).

(** A connection closed by a hook: the owner only closes connections that
    are still in the registry. *)
Fixpoint close_each (qs : list ptr) : M unit :=
  match qs with
  | [] => ret tt
  | q :: qs' =>
      live <- gets (is_registered q) ;;
      when live (close_socket q) ;;;
      close_each qs'
  end.

Definition owner_remove (o : owner_t) : M unit :=
  modify (emit (EvRemove o)) ;;;
  close_each (remove_closes ops o).

Definition owner_connected (p : ptr) (o : owner_t) : M unit :=
  modify (emit (EvConnected p o)).

Definition owner_accepted (o : owner_t) (conn : ptr) : M unit :=
  modify (emit (EvAccepted o conn)) ;;;
  store conn (set_owner (accepted_owner ops o conn)).

Definition owner_deliver (o : owner_t) (msg : o2n_message) : M O2err :=
  modify (emit (EvDeliver o msg)) ;;;
  ret (deliver_status ops o msg).

(** ** Registry: removal *)

(** [delete fi]: the destructor [Fds_info::~Fds_info], then the memory is
    released. *)
Definition Fds_info_delete (this : ptr) : M unit :=
  f <- deref this ;;
  sz <- gets (fun st => length (o2n_fds st)) ;;
  assert (fds_index f <? sz)%nat ;;;
  when (fds_index f + 1 <? sz)%nat
    (lastfd <- pfd_at (sz - 1)%nat ;;
     pfd_store (fds_index f) (fun _ => lastfd) ;;;
     isz <- gets (fun st => length (o2n_fds_info st)) ;;
     replace <- info_at (isz - 1)%nat ;;
     _ <- info_at (fds_index f) ;;
     modify (upd_fds_info <[fds_index f := replace]>) ;;;
     store replace (set_fds_index (fds_index f))) ;;;
  fds_pop_back ;;;
  fds_info_pop_back ;;;
  f' <- deref this ;;
  assert (bool_decide (net_tag f' = NET_INFO_CLOSED)) ;;;
  match owner f' with Some o => owner_remove o | None => ret tt end ;;;
  modify (upd_heap (delete this)).

(** The inner [while (i < o2n_fds_info.size())] scan. *)
Fixpoint scan (fuel : nat) (i : nat) : M unit :=
  match fuel with
  | O => abort
  | S fuel' =>
      sz <- gets (fun st => length (o2n_fds_info st)) ;;
      if (i <? sz)%nat then
        fi <- info_at i ;;
        f <- deref fi ;;
        if delete_me f then Fds_info_delete fi ;;; scan fuel' i
        else scan fuel' (S i)
      else ret tt
  end.

(** The outer [while (o2n_socket_delete_flag)] loop.  A scan over [sz]
    entries tests its condition at most [sz + 1] times. *)
Fixpoint sweep (fuel : nat) : M unit :=
  match fuel with
  | O => abort
  | S fuel' =>
      flag <- gets o2n_socket_delete_flag ;;
      if flag then
        modify (set_delete_flag false) ;;;
        sz <- gets (fun st => length (o2n_fds_info st)) ;;
        scan (S sz) 0%nat ;;;
        sweep fuel'
      else ret tt
  end.

(** [o2n_free_deleted_sockets]: every pass but the last deletes at least
    one entry, so [size + 2] tests of the outer condition are enough
    (lemma [sweep_spec]). *)
Definition o2n_free_deleted_sockets : M unit :=
  sz <- gets (fun st => length (o2n_fds_info st)) ;;
  sweep (S (S sz)).

(** ** Receiving *)

Definition message_cleanup (this : ptr) : M unit :=
  store this (fun f =>
    set_in_length_got 0
      (set_in_length_mem [] (set_in_length 0
        (set_in_msg_got 0 (set_in_message None f))))).

(** The code after the label [error_exit] of [read_whole_message]. *)
Definition error_exit (this : ptr) (n : Z) : M O2err :=
  if n =? 0 then message_cleanup this ;;; ret O2_TCP_HUP
  else if n <? 0 then
    terminating <- TERMINATING_SOCKET_ERROR ;;
    if terminating then
      perror "recvfrom in read_whole_message" ;;;
      f <- deref this ;;
      match in_message f with Some m => O2_FREE m | None => ret tt end ;;;
      message_cleanup this ;;;
      ret O2_TCP_HUP
    else ret O2_FAIL
  else ret O2_FAIL.

(** [o2n_message_new(size)]: [payload] lists the part of the buffer
    written so far. *)
Definition o2n_message_new (size : Z) : o2n_message := Message size [].

Definition in_message_of (f : Fds_info) : M o2n_message :=
  match in_message f with Some m => ret m | None => abort end.

(** Phase 1 of the framed case: [Some r] stands for [return r]. *)
Definition read_length (this : ptr) (sock : Z) : M (option O2err) :=
  f <- deref this ;;
  if in_length_got f <? 4 then
    r <- sys_recv sock (4 - in_length_got f) ;;
    let n := fst r in
    if n <=? 0 then e <- error_exit this n ;; ret (Some e)
    else
      store this (fun f =>
        set_in_length_got (in_length_got f + n)
          (set_in_length_mem (in_length_mem f ++ snd r) f)) ;;;
      f1 <- deref this ;;
      assert (in_length_got f1 <? 5) ;;;
      if in_length_got f1 <? 4 then ret (Some O2_FAIL)
      else
        store this (set_in_length (ntohl_bytes (in_length_mem f1))) ;;;
        f2 <- deref this ;;
        assert (bool_decide (in_message f2 = None)) ;;;
        store this (set_in_message (Some (o2n_message_new (in_length f2)))) ;;;
        store this (set_in_msg_got 0) ;;;
        ret None
  else ret None.

(** Phase 2 of the framed case. *)
Definition read_body (this : ptr) (sock : Z) : M (option O2err) :=
  f <- deref this ;;
  if in_msg_got f <? in_length f then
    m <- in_message_of f ;;
    r <- sys_recv sock (in_length f - in_msg_got f) ;;
    let n := fst r in
    if n <=? 0 then e <- error_exit this n ;; ret (Some e)
    else
      store this (fun f =>
        set_in_msg_got (in_msg_got f + n)
          (set_in_message
             (Some (Message (m_length m) (payload m ++ snd r))) f)) ;;;
      f1 <- deref this ;;
      if in_msg_got f1 <? in_length f1 then ret (Some O2_FAIL)
      else ret None
  else ret None.

(** From the comment "read the full message" to the final
    [return O2_SUCCESS]. *)
Definition read_rest (this : ptr) (sock : Z) : M O2err :=
  r2 <- read_body this sock ;;
  match r2 with
  | Some e => ret e
  | None =>
      f' <- deref this ;;
      m <- in_message_of f' ;;
      store this
        (set_in_message (Some (Message (in_length f') (payload m)))) ;;;
      ret O2_SUCCESS
  end.

Definition read_whole_message (this : ptr) (sock : Z) : M O2err :=
  f <- deref this ;;
  assert (in_length_got f <? 5) ;;;
  if raw_flag f then
    assert (bool_decide (net_tag f = NET_TCP_SERVER)
            || bool_decide (net_tag f = NET_TCP_CLIENT)) ;;;
    store this (set_in_message (Some (Message 0 []))) ;;;
    r <- sys_recv sock 512 ;;
    let n := fst r in
    if n <? 0 then error_exit this n
    else
      store this (set_in_message (Some (Message n (snd r)))) ;;;
      ret O2_SUCCESS
  else
    r1 <- read_length this sock ;;
    match r1 with
    | Some e => ret e
    | None => read_rest this sock
    end.

Definition is_tcp_data (t : net_tag_t) : bool :=
  bool_decide (t = NET_TCP_CONNECTION) || bool_decide (t = NET_TCP_CLIENT).

(** The common tail of [read_event_handler]: hand the message over. *)
Definition deliver_in_message (this : ptr) : M O2err :=
  f <- deref this ;;
  let msg := in_message f in
  message_cleanup this ;;;
  err <- match owner f with
         | Some o =>
             match msg with
             | Some m => owner_deliver o m
             | None => abort
             end
         | None =>
             match msg with Some m => O2_FREE m | None => ret tt end ;;;
             ret O2_FAIL
         end ;;
  f' <- deref this ;;
  when (negb (bool_decide (err = O2_SUCCESS))
        && (bool_decide (net_tag f' = NET_TCP_CONNECTING)
            || bool_decide (net_tag f' = NET_TCP_CLIENT)
            || bool_decide (net_tag f' = NET_TCP_CONNECTION)))
    (close_socket this) ;;;
  ret O2_SUCCESS.

Definition read_event_handler (this : ptr) (sock : Z) : M O2err :=
  f <- deref this ;;
  if is_tcp_data (net_tag f) then
    n <- read_whole_message this sock ;;
    if bool_decide (n = O2_FAIL) then ret O2_SUCCESS
    else if negb (bool_decide (n = O2_SUCCESS)) then ret n
    else deliver_in_message this
  else if bool_decide (net_tag f = NET_UDP_SERVER) then
    q <- sys_fionread sock ;;
    if fst q =? -1 then perror "udp_recv_handler" ;;; ret O2_FAIL
    else
      let len := snd q in
      assert (bool_decide (in_message f = None)) ;;;
      store this (set_in_message (Some (o2n_message_new len))) ;;;
      r <- sys_recv_dgram sock len ;;
      let n := fst r in
      if n <=? 0 then
        perror "recvfrom in udp_recv_handler" ;;;
        O2_FREE (o2n_message_new len) ;;;
        store this (set_in_message None) ;;;
        ret O2_FAIL
      else
        store this (set_in_message (Some (Message n (snd r)))) ;;;
        deliver_in_message this
  else if bool_decide (net_tag f = NET_TCP_SERVER) then
    connection <- sys_accept sock ;;
    if connection =? INVALID_SOCKET then ret O2_FAIL
    else
      conn <- Fds_info_new connection NET_TCP_CONNECTION 0 ;;
      match owner f with
      | Some o => owner_accepted o conn
      | None => close_socket conn
      end ;;;
      ret O2_SUCCESS
  else abort.

(** ** The reactor tick, [o2n_recv] (poll version) *)

(** Body of the [for] loop for descriptor [i]; [Some r] is [return r]. *)
Definition dispatch (i : nat) : M (option O2err) :=
  pfd <- pfd_at i ;;
  (if has_flag (revents pfd) POLLERR then ret tt
   else if has_flag (revents pfd) POLLHUP then
     fi <- info_at i ;;
     close_socket fi
   else if has_flag (revents pfd) POLLOUT then
     fi <- info_at i ;;
     f <- deref fi ;;
     when (bool_decide (net_tag f = NET_TCP_CONNECTING))
       (store fi (set_net_tag NET_TCP_CLIENT) ;;;
        match owner f with
        | Some o => owner_connected fi o
        | None => ret tt
        end) ;;;
     f' <- deref fi ;;
     if negb (bool_decide (out_message f' = [])) then
       rslt <- send_nonblocking fi ;;
       when (bool_decide (rslt = O2_SUCCESS))
         (pfd_store i
            (fun d => set_events (Z.land (events d) (Z.lnot POLLOUT)) d))
     else
       pfd_store i
         (fun d => set_events (Z.land (events d) (Z.lnot POLLOUT)) d)
   else if has_flag (revents pfd) POLLIN then
     fi <- info_at i ;;
     f <- deref fi ;;
     assert (in_length_got f <? 5) ;;;
     r <- read_event_handler fi (fd pfd) ;;
     when (negb (bool_decide (r = O2_SUCCESS))) (close_socket fi)
   else ret tt) ;;;
  alive <- gets o2_ensemble_name ;;
  if alive then ret None else ret (Some O2_FAIL).

(** [for (i = 0; i < len; i++)], written as a count-down on [len - i]. *)
Fixpoint dispatch_from (todo : nat) (i : nat) : M (option O2err) :=
  match todo with
  | O => ret None
  | S todo' =>
      r <- dispatch i ;;
      match r with
      | Some e => ret (Some e)
      | None => dispatch_from todo' (S i)
      end
  end.

Definition o2n_recv (ready : list Z) : M O2err :=
  flag <- gets o2n_socket_delete_flag ;;
  when flag o2n_free_deleted_sockets ;;;
  sys_poll ready ;;;
  len <- gets (fun st => length (o2n_fds st)) ;;
  r <- dispatch_from len 0%nat ;;
  match r with
  | Some e => ret e
  | None =>
      flag' <- gets o2n_socket_delete_flag ;;
      when flag' o2n_free_deleted_sockets ;;;
      ret O2_SUCCESS
  end.

(** ** Connecting *)

Inductive connect_outcome := ConnectDone | ConnectError (e : errno_t).

(** [o2n_tcp_socket_new]: [fresh_sock] is what [socket()] hands out
    ([None] for [INVALID_SOCKET]). *)
Definition o2n_tcp_socket_new (fresh_sock : option (Z * ksock)) : M Z :=
  match fresh_sock with
  | None => modify (emit (EvPerror "tcp socket creation error")) ;;;
            ret INVALID_SOCKET
  | Some (s, k) => modify (upd_kernel <[s := k]>) ;;; ret s
  end.

(** [Fds_info::cleanup]; [delete this] runs the destructor. *)
Definition cleanup (this : ptr) (error : string) (sock : Z)
  : M (option ptr) :=
  perror error ;;;
  o2_closesocket sock ;;;
  fds_info_pop_back ;;;
  fds_pop_back ;;;
  Fds_info_delete this ;;;
  ret None.

(** [connect(sock, ...)] *)
Definition sys_connect (sock : Z) (c : connect_outcome) : M Z :=
  match c with
  | ConnectDone => ret 0
  | ConnectError e => modify (set_errno e) ;;; ret (-1)
  end.

Definition create_tcp_client (fresh_sock : option (Z * ksock))
  (c : connect_outcome) : M (option ptr) :=
  sock <- o2n_tcp_socket_new fresh_sock ;;
  if sock =? INVALID_SOCKET then ret None
  else
    info <- Fds_info_new sock NET_TCP_CONNECTING 0 ;;
    f <- deref info ;;
    r <- sys_connect sock c ;;
    if r =? -1 then
      e <- gets errno ;;
      if negb (bool_decide (e = EINPROGRESS)) then
        cleanup info "connect error" sock
      else
        pfd_store (fds_index f)
          (fun d => set_events (Z.lor (events d) POLLOUT) d) ;;;
        ret (Some info)
    else
      q <- info_at (fds_index f) ;;
      store q (set_net_tag NET_TCP_CLIENT) ;;;
      ret (Some info).

End Reactor.

(** ** UDP utility senders *)

Definition o2n_send_udp_via_socket (socket : Z) (ua : Net_address)
  (msg : o2n_message) : M O2err :=
  err <- sys_sendto socket (payload msg) (m_length msg) ua ;;
  O2_FREE msg ;;;
  if err <? 0 then
    perror "error sending udp to port" ;;;
    perror "o2n_send_udp_via_socket" ;;;
    ret O2_FAIL
  else ret O2_SUCCESS.

Definition o2n_send_udp (ua : Net_address) (msg : o2n_message) : M O2err :=
  sock <- gets o2n_udp_send_sock ;;
  o2n_send_udp_via_socket sock ua msg.

(** [local_to_addr.sin_port = port]: the [int] is stored in the 16-bit
    field. *)
Definition o2n_send_udp_local (port : Z) (msg : o2n_message) : M unit :=
  modify (fun st =>
    set_local_to_addr
      (Addr (sin_addr (local_to_addr st)) (port mod 2 ^ 16)) st) ;;;
  sock <- gets o2n_udp_send_sock ;;
  to <- gets local_to_addr ;;
  err <- sys_sendto sock (payload msg) (m_length msg) to ;;
  when (err <? 0) (perror "Error attempting to send udp message locally") ;;;
  O2_FREE msg.

(** [Net_address::set_port] is declared outside this file; it stores the
    port in the 16-bit field [sin_port] of the address. *)
Definition o2n_send_broadcast (port : Z) (msg : o2n_message) : M Z :=
  modify (fun st =>
    set_broadcast_to_addr
      (Addr (sin_addr (o2n_broadcast_to_addr st)) (port mod 2 ^ 16)) st) ;;;
  sock <- gets o2n_broadcast_sock ;;
  to <- gets o2n_broadcast_to_addr ;;
  err <- sys_sendto sock (payload msg) (m_length msg) to ;;
  when (err <? 0)
    (perror "Error attempting to broadcast discovery message") ;;;
  ret err.

(** [Fds_info::get_socket] *)
Definition get_socket (this : ptr) (st : net) : option Z :=
  match heap st !! this with
  | Some f =>
      match o2n_fds st !! fds_index f with
      | Some d => Some (fd d)
      | None => None
      end
  | None => None
  end.

(** * Verification *)

(** ** Symbolic execution of the monad *)

Definition add_trace (es : list event) (st : net) : net :=
  Net (o2n_fds st) (o2n_fds_info st) (heap st)
    (o2n_socket_delete_flag st) (o2n_udp_send_sock st) (o2n_broadcast_sock st)
    (local_to_addr st) (o2n_broadcast_to_addr st) (o2_ensemble_name st)
    (errno st) (kernel st) (trace st ++ es).

Ltac munfold :=
  cbv beta delta [bind ret gets modify assert when abort deref store pfd_at
    pfd_store info_at O2_FREE perror sys_shutdown o2_closesocket
    TERMINATING_SOCKET_ERROR].

Ltac mnorm :=
  cbv beta iota delta [upd_fds upd_fds_info upd_heap set_delete_flag
    set_local_to_addr set_broadcast_to_addr set_errno upd_kernel emit
    add_trace set_net_tag set_fds_index set_delete_me set_in_length set_in_length_mem
    set_in_message set_in_length_got set_in_msg_got set_out_message
    set_out_msg_sent set_owner set_fd set_events set_revents].

Lemma free_chain_run q st :
  free_chain q st = Some (tt, add_trace (map EvFree q) st).
Proof.
  revert st. induction q as [|m q IH]; intros [] ; simpl.
  - unfold add_trace; cbn. by rewrite app_nil_r.
  - munfold. cbn. rewrite IH. unfold add_trace; cbn. by rewrite <- app_assoc.
Qed.

(** Decide a comparison between two numerals. *)
Ltac eval_cmp c :=
  let v := eval compute in c in
  match v with
  | true => change c with true
  | false => change c with false
  end.

Ltac mstep :=
  match goal with
  | |- context [Z.ltb ?a ?b] => eval_cmp (Z.ltb a b)
  | |- context [Z.leb ?a ?b] => eval_cmp (Z.leb a b)
  | |- context [Z.geb ?a ?b] => eval_cmp (Z.geb a b)
  | |- context [Z.eqb ?a ?b] => eval_cmp (Z.eqb a b)
  | H : ?h !! ?p = Some _ |- context [?h !! ?p] => rewrite H
  | |- context [<[?p := _]> _ !! ?p] =>
      first [ rewrite lookup_insert_eq
            | rewrite list_lookup_insert_eq
                by (rewrite ?length_insert; assumption) ]
  | |- context [free_chain _ _] => rewrite free_chain_run
  | H : ?b = true |- context [?b] => rewrite H
  | H : ?b = false |- context [?b] => rewrite H
  | |- context [(?x =? ?x)%Z] => rewrite (Z.eqb_refl x)
  | |- context [bool_decide ?P] =>
      first [ rewrite (bool_decide_eq_true_2 P) by (done || congruence)
            | rewrite (bool_decide_eq_false_2 P) by (done || congruence) ]
  end.

Ltac msimpl :=
  cbn -[Nat.ltb Nat.leb Nat.sub Nat.add Z.add Z.sub Z.ltb Z.leb Z.eqb Z.geb
        Z.lor Z.land Z.lnot Z.min Z.of_nat Z.to_nat Z.pow Z.modulo
        take drop frame htonl_bytes ntohl_bytes].

Ltac mrun := munfold; mnorm; msimpl; repeat (mstep; mnorm; msimpl).

(** ** Integer conversions *)

Lemma to_int32_small x : 0 ≤ x < 2 ^ 31 → to_int32 x = x.
Proof.
  intros Hx. unfold to_int32. rewrite Z.mod_small by lia.
  destruct (Z.ltb_spec x (2 ^ 31)); lia.
Qed.

Lemma to_size_t_small x : 0 ≤ x < 2 ^ 64 → to_size_t x = x.
Proof. intros Hx. unfold to_size_t. by rewrite Z.mod_small. Qed.

Lemma to_int32_range x : - 2 ^ 31 ≤ to_int32 x < 2 ^ 31.
Proof.
  unfold to_int32.
  pose proof (Z.mod_pos_bound x (2 ^ 32) ltac:(lia)).
  destruct (Z.ltb_spec (x mod 2 ^ 32) (2 ^ 31)); lia.
Qed.

Lemma store_run p g f st :
  heap st !! p = Some f →
  store p g st = Some (tt, upd_heap <[p := g f]> st).
Proof. intros Hp. unfold store, bind, deref, modify. by rewrite Hp. Qed.

(** ** [close_socket] *)

Definition closed_info (f : Fds_info) : Fds_info :=
  set_delete_me true
    (set_net_tag NET_INFO_CLOSED (set_out_message [] (set_in_message None f))).

Definition pending_frees (f : Fds_info) : list event :=
  match in_message f with Some m => [EvFree m] | None => [] end
  ++ map EvFree (out_message f).

(** State after [close_socket] on a connection whose socket is open. *)
Definition closed_state (p : ptr) (f : Fds_info) (d : pollfd) (st : net)
  : net :=
  Net (<[fds_index f := set_fd INVALID_SOCKET d]> (o2n_fds st))
    (o2n_fds_info st) (<[p := closed_info f]> (heap st)) true
    (o2n_udp_send_sock st) (o2n_broadcast_sock st) (local_to_addr st)
    (o2n_broadcast_to_addr st) (o2_ensemble_name st) (errno st)
    (delete (fd d) (kernel st))
    (trace st ++ pending_frees f ++ [EvShutdown (fd d); EvClose (fd d)]).

Lemma close_socket_open st p f d :
  heap st !! p = Some f → o2n_fds st !! fds_index f = Some d →
  fd d ≠ INVALID_SOCKET →
  close_socket p st = Some (tt, closed_state p f d st).
Proof.
  intros Hp Hd Hs.
  destruct st as [fds infos hp flag us bs la ba en er kn tr].
  destruct f as [tag idx dm raw il ilm im ilg img om oms pt ow].
  destruct d as [s ev rev]. cbn in Hp, Hd, Hs.
  assert (Hl : (idx < length fds)%nat) by (eapply lookup_lt_Some; eauto).
  unfold close_socket, closed_state, closed_info, pending_frees.
  assert (Hne : (s =? INVALID_SOCKET) = false) by lia.
  destruct im as [m|]; mrun.
  all: rewrite ?insert_insert_eq, ?list_insert_insert_eq, <- ?app_assoc.
  all: reflexivity.
Qed.

(** State after [close_socket] on a connection that is closed already. *)
Lemma close_socket_closed st p f d :
  heap st !! p = Some f → o2n_fds st !! fds_index f = Some d →
  fd d = INVALID_SOCKET → net_tag f = NET_INFO_CLOSED →
  close_socket p st =
    Some (tt, Net (o2n_fds st) (o2n_fds_info st)
                (<[p := closed_info f]> (heap st)) true
                (o2n_udp_send_sock st) (o2n_broadcast_sock st)
                (local_to_addr st) (o2n_broadcast_to_addr st)
                (o2_ensemble_name st) (errno st) (kernel st)
                (trace st ++ pending_frees f)).
Proof.
  intros Hp Hd Hs Ht.
  destruct st as [fds infos hp flag us bs la ba en er kn tr].
  destruct f as [tag idx dm raw il ilm im ilg img om oms pt ow].
  destruct d as [s ev rev]. cbn in Hp, Hd, Hs, Ht. subst s tag.
  unfold close_socket, closed_info, pending_frees.
  destruct im as [m|]; mrun.
  all: rewrite ?insert_insert_eq, <- ?app_assoc.
  all: reflexivity.
Qed.

Lemma closed_info_idem f : closed_info (closed_info f) = closed_info f.
Proof. by destruct f. Qed.

Lemma pending_frees_closed f : pending_frees (closed_info f) = [].
Proof. by destruct f. Qed.

Lemma close_socket_again st p f d :
  heap st !! p = Some (closed_info f) →
  o2n_fds st !! fds_index f = Some d → fd d = INVALID_SOCKET →
  o2n_socket_delete_flag st = true →
  close_socket p st = Some (tt, st).
Proof.
  intros Hp Hd Hs Hflag.
  rewrite (close_socket_closed st p (closed_info f) d); try done.
  rewrite closed_info_idem, pending_frees_closed, app_nil_r.
  rewrite (insert_id _ _ _ Hp). destruct st; cbn in *. by subst.
Qed.

(** A small registry used to run the definitions: one framed TCP client
    (address 0, socket 5) with a partly received message and two queued
    ones. *)
Definition ksock0 : ksock := Ksock [] [] [] (RxNothing EAGAIN) [] [] [] 0.
Definition demo_msg1 : o2n_message := Message 2 [7; 8].
Definition demo_msg2 : o2n_message := Message 0 [].
Definition demo_info : Fds_info :=
  Info NET_TCP_CLIENT 0 false false 3 [0; 0; 0; 3] (Some (Message 3 [1]))
    4 1 [demo_msg1; demo_msg2] 0 0 (Some 1%nat).
Definition demo_pfd : pollfd := Pollfd 5 POLLIN 0.
Definition demo_net : net :=
  Net [demo_pfd] [0%nat] {[ 0%nat := demo_info ]} false 100 101
    (Addr 2130706433 0) (Addr 4294967295 0) true ENONE
    {[ 5 := ksock0 ]} [].

(** C10: [close_socket] on a connection (whose descriptor is invalid only
    if it is already closed, which the assertion in the function demands)
    returns with the inbound message NULL, the outbound queue empty, the
    descriptor's fd INVALID_SOCKET, the tag CLOSED and [delete_me] set; a
    second call returns the very same state: no field, no kernel socket and
    no trace event (free, shutdown, closesocket) is added. *)
Theorem close_socket_idempotent st p f d :
  heap st !! p = Some f → o2n_fds st !! fds_index f = Some d →
  (fd d = INVALID_SOCKET → net_tag f = NET_INFO_CLOSED) →
  ∃ st1 f1,
    close_socket p st = Some (tt, st1) ∧
    heap st1 !! p = Some f1 ∧
    in_message f1 = None ∧ out_message f1 = [] ∧
    get_socket p st1 = Some INVALID_SOCKET ∧
    net_tag f1 = NET_INFO_CLOSED ∧ delete_me f1 = true ∧
    close_socket p st1 = Some (tt, st1).
Proof.
  intros Hp Hd Hinv.
  assert (Hl : (fds_index f < length (o2n_fds st))%nat)
    by (eapply lookup_lt_Some; eauto).
  destruct (decide (fd d = INVALID_SOCKET)) as [Hs|Hs].
  - specialize (Hinv Hs).
    eexists _, (closed_info f). split; [by apply (close_socket_closed st p f d)|].
    assert (Hfi : fds_index (closed_info f) = fds_index f) by by destruct f.
    unfold get_socket. cbn. rewrite lookup_insert_eq, Hfi, Hd, Hs.
    repeat split; try by destruct f.
    apply close_socket_again with (f := f) (d := d); cbn; try done.
    apply lookup_insert_eq.
  - eexists _, (closed_info f). split; [by apply (close_socket_open st p f d)|].
    assert (Hfi : fds_index (closed_info f) = fds_index f) by by destruct f.
    unfold get_socket, closed_state. cbn.
    rewrite lookup_insert_eq, Hfi, list_lookup_insert_eq by done.
    repeat split; try by destruct f.
    apply close_socket_again with (f := f) (d := set_fd INVALID_SOCKET d);
      cbn; try done.
    + apply lookup_insert_eq.
    + by apply list_lookup_insert_eq.
Qed.

Lemma close_socket_idempotent_witness :
  ∃ st1 f1,
    close_socket 0%nat demo_net = Some (tt, st1) ∧
    heap st1 !! 0%nat = Some f1 ∧
    in_message f1 = None ∧ out_message f1 = [] ∧
    get_socket 0%nat st1 = Some INVALID_SOCKET ∧
    net_tag f1 = NET_INFO_CLOSED ∧ delete_me f1 = true ∧
    close_socket 0%nat st1 = Some (tt, st1).
Proof.
  apply (close_socket_idempotent demo_net 0%nat demo_info demo_pfd).
  - reflexivity.
  - reflexivity.
  - intros H; vm_compute in H; discriminate H.
Defined.

(** ** [send]: errors *)

Definition retryable (e : errno_t) : Prop := e = EAGAIN ∨ e = EINTR.

(** What the next [::send] on kernel socket [k] fails with, if it fails. *)
Definition tx_fails_with (k : option ksock) (e : errno_t) : Prop :=
  match k with
  | None => e = EBADF
  | Some k =>
      match tx_script k with
      | [] => e = EAGAIN
      | TxError e' :: _ => e = e'
      | TxAccept _ :: _ => False
      end
  end.

(** The kernel after that failed call. *)
Definition tx_failed (s : Z) (kn : gmap Z ksock) : gmap Z ksock :=
  match kn !! s with
  | Some k =>
      match tx_script k with
      | _ :: sc => <[s := set_tx sc (tx_wire k) k]> kn
      | [] => kn
      end
  | None => kn
  end.

Definition after_tx_error (s : Z) (e : errno_t) (st : net) : net :=
  set_errno e (upd_kernel (tx_failed s) st).

Definition want_pollout (i : nat) (d : pollfd) (st : net) : net :=
  upd_fds <[i := set_events (Z.lor (events d) POLLOUT) d]> st.

Lemma sys_send_fails st s from n e :
  tx_fails_with (kernel st !! s) e →
  sys_send s from n st = Some (-1, after_tx_error s e st).
Proof.
  destruct st as [fds infos hp flag us bs la ba en er kn tr].
  unfold sys_send, tx_fails_with, after_tx_error, tx_failed. cbn.
  destruct (kn !! s) as [[sc w rb ri rd bl ss se]|] eqn:Hk; cbn.
  - destruct sc as [|[a|e'] sc]; cbn; intros He; subst; try done.
    all: unfold upd_kernel, set_errno; cbn; by rewrite Hk.
  - intros ->. unfold upd_kernel, set_errno; cbn; by rewrite Hk.
Qed.

Lemma send_loop_retryable fuel st p f d msg next e :
  heap st !! p = Some f → out_message f = msg :: next →
  o2n_fds st !! fds_index f = Some d →
  tx_fails_with (kernel st !! fd d) e → retryable e →
  send_loop (S fuel) false p st =
    Some (O2_BLOCKED,
          want_pollout (fds_index f) d (after_tx_error (fd d) e st)).
Proof.
  intros Hp Hq Hd Hk He. cbn [send_loop]. unfold bind at 1, deref at 1.
  rewrite Hp, Hq. unfold bind at 1, pfd_at at 1. rewrite Hd.
  unfold bind at 1. rewrite (sys_send_fails _ _ _ _ e Hk).
  change (to_int32 (-1) <? 0) with true. cbv iota.
  unfold bind at 1, TERMINATING_SOCKET_ERROR, bind, gets, ret.
  assert (Hterm : negb (bool_decide (e = EAGAIN))
                  && negb (bool_decide (e = EINTR)) = false).
  { destruct He as [-> | ->]; done. }
  replace (errno (after_tx_error (fd d) e st)) with e
    by (by destruct st).
  rewrite Hterm. cbn. unfold pfd_store, bind, pfd_at, modify.
  replace (o2n_fds (after_tx_error (fd d) e st)) with (o2n_fds st)
    by (by destruct st).
  by rewrite Hd.
Qed.


Lemma send_enters_loop fuel block st p f d :
  heap st !! p = Some f → net_tag f ≠ NET_INFO_CLOSED →
  (net_tag f = NET_TCP_CONNECTING → block = false) →
  o2n_fds st !! fds_index f = Some d →
  send fuel block p st = send_loop fuel block p st.
Proof.
  intros Hp Ht Hb Hd. unfold send. unfold bind at 1, deref at 1.
  rewrite Hp, bool_decide_eq_false_2 by done.
  unfold bind at 1, pfd_at at 1. rewrite Hd.
  destruct block; [|by rewrite andb_false_r].
  rewrite bool_decide_eq_false_2; [done|]. intros H. by specialize (Hb H).
Qed.

Lemma send_on_closed fuel block st p f :
  heap st !! p = Some f → net_tag f = NET_INFO_CLOSED →
  send fuel block p st = Some (O2_FAIL, st).
Proof.
  intros Hp Ht. unfold send, bind, deref.
  by rewrite Hp, bool_decide_eq_true_2.
Qed.

Lemma has_flag_lor x m : 0 < m → has_flag (Z.lor x m) m = true.
Proof.
  intros Hm. unfold has_flag.
  rewrite Z.land_lor_distr_l, Z.land_diag.
  apply negb_true_iff, Z.eqb_neq. intros H.
  apply Z.lor_eq_0_iff in H. lia.
Qed.



Lemma poll_skips_closed d r :
  revents (poll_one (set_fd INVALID_SOCKET d) r) = 0.
Proof. reflexivity. Qed.

(** *** The wait of a blocking [send] for a connecting socket *)

(** What the [select] loop makes of the answers [sc] that [select] will
    give: whether the socket was found writable, and the answers left. *)
Fixpoint select_outcome (sc : list (Z * errno_t))
  : bool * list (Z * errno_t) :=
  match sc with
  | [] => (true, [])
  | (total, e) :: sc' =>
      if total =? 1 then (true, sc')
      else if (total <? 0) && negb (bool_decide (e = EINTR)) then (false, sc')
      else select_outcome sc'
  end.






(** The socket [s] after the wait: only the pending answers of [select]
    have changed. *)
Definition waited (k k' : ksock) : Prop :=
  tx_script k' = tx_script k ∧ tx_wire k' = tx_wire k ∧
  so_error k' = so_error k ∧
  sel_script k' = snd (select_outcome (sel_script k)).


(** *** A [send] that reports O2_FAIL *)










Lemma tx_fails_with_waited k k' e :
  waited k k' → tx_fails_with (Some k) e → tx_fails_with (Some k') e.
Proof. intros (Hsc & _). unfold tx_fails_with. by rewrite Hsc. Qed.








(** ** The registry invariant *)

(** The two vectors have the same length and the connection stored in slot
    [i] is a live object whose [fds_index] is [i]; its socket, which
    [get_socket] reads through that index, is then the one in descriptor
    [i]. *)
Definition registry_ok (st : net) : Prop :=
  length (o2n_fds st) = length (o2n_fds_info st) ∧
  ∀ i p, o2n_fds_info st !! i = Some p →
    ∃ f, heap st !! p = Some f ∧ fds_index f = i.

(** Life-cycle consistency of the registered connections: a descriptor is
    invalid, and a connection is marked for deletion, only when the tag is
    CLOSED (both are established together by [close_socket]). *)
Definition conns_ok (st : net) : Prop :=
  ∀ i p f d, o2n_fds_info st !! i = Some p → heap st !! p = Some f →
    o2n_fds st !! i = Some d →
    (fd d = INVALID_SOCKET → net_tag f = NET_INFO_CLOSED) ∧
    (delete_me f = true → net_tag f = NET_INFO_CLOSED).

Lemma registry_ok_slot st i j p :
  registry_ok st → o2n_fds_info st !! i = Some p →
  o2n_fds_info st !! j = Some p → i = j.
Proof.
  intros [_ H] Hi Hj.
  destruct (H _ _ Hi) as (f & Hf & <-), (H _ _ Hj) as (f' & Hf' & <-).
  congruence.
Qed.

Lemma registry_ok_socket st i p :
  registry_ok st → o2n_fds_info st !! i = Some p →
  get_socket p st = fd <$> o2n_fds st !! i.
Proof.
  intros [_ H] Hi. destruct (H _ _ Hi) as (f & Hf & <-).
  unfold get_socket. rewrite Hf. by destruct (o2n_fds st !! fds_index f).
Qed.

Definition new_info (tag : net_tag_t) (sz : nat) (port_ : Z) : Fds_info :=
  Info tag sz false false 0 [] None 0 0 [] 0 port_ None.

(** State after [new Fds_info(sock, tag, port_)]. *)
Definition registered (sock : Z) (tag : net_tag_t) (port_ : Z) (st : net)
  : net :=
  Net (o2n_fds st ++ [Pollfd sock POLLIN 0])
    (o2n_fds_info st ++ [fresh (dom (heap st))])
    (<[fresh (dom (heap st)) := new_info tag (length (o2n_fds st)) port_]>
       (heap st))
    (o2n_socket_delete_flag st) (o2n_udp_send_sock st) (o2n_broadcast_sock st)
    (local_to_addr st) (o2n_broadcast_to_addr st) (o2_ensemble_name st)
    (errno st) (kernel st) (trace st).

Lemma Fds_info_new_run sock tag port_ st :
  sock ≠ INVALID_SOCKET →
  Fds_info_new sock tag port_ st =
    Some (fresh (dom (heap st)), registered sock tag port_ st).
Proof.
  intros Hs. destruct st as [fds infos hp flag us bs la ba en er kn tr].
  assert (Hne : (sock =? INVALID_SOCKET) = false) by lia.
  unfold Fds_info_new, registered, new_info. mrun.
  rewrite lookup_app_r, Nat.sub_diag by lia. cbn.
  rewrite insert_app_r_alt, Nat.sub_diag by lia. reflexivity.
Qed.

Lemma fresh_ptr_unused (hp : gmap ptr Fds_info) : hp !! fresh (dom hp) = None.
Proof. apply not_elem_of_dom, is_fresh. Qed.

Lemma registry_ok_registered sock tag port_ st :
  registry_ok st → registry_ok (registered sock tag port_ st).
Proof.
  intros [Hlen Hidx]. split; cbn.
  - rewrite !length_app. cbn. lia.
  - intros i p Hi. apply lookup_app_Some in Hi as [Hi | [Hge Hi]].
    + destruct (Hidx _ _ Hi) as (f & Hf & Hfi). exists f. split; [|done].
      rewrite lookup_insert_ne; [done|]. intros <-.
      by rewrite fresh_ptr_unused in Hf.
    + apply list_lookup_singleton_Some in Hi as [Hi <-].
      rewrite lookup_insert_eq. eexists; split; [done|]. cbn. lia.
Qed.

(** *** Removal: swap-with-last compaction *)

Definition compact {A} (i : nat) (l : list A) : list A :=
  match l !! (length l - 1)%nat with
  | Some x => take (length l - 1) (<[i := x]> l)
  | None => l
  end.

(** The heap once the moved connection, if any, carries its new index. *)
Definition restamp (i : nat) (st : net) : gmap ptr Fds_info :=
  match o2n_fds_info st !! (length (o2n_fds_info st) - 1)%nat with
  | Some r =>
      match heap st !! r with
      | Some fr =>
          if (i + 1 <? length (o2n_fds st))%nat
          then <[r := set_fds_index i fr]> (heap st) else heap st
      | None => heap st
      end
  | None => heap st
  end.

(** State of the destructor of the connection in slot [i] when it reaches
    the owner's [remove()] hook. *)
Definition unlinked (i : nat) (st : net) : net :=
  Net (compact i (o2n_fds st)) (compact i (o2n_fds_info st)) (restamp i st)
    (o2n_socket_delete_flag st) (o2n_udp_send_sock st) (o2n_broadcast_sock st)
    (local_to_addr st) (o2n_broadcast_to_addr st) (o2_ensemble_name st)
    (errno st) (kernel st) (trace st).

Lemma pop_back_take {A} (l : list A) :
  (0 < length l)%nat → pop_back l = Some (take (length l - 1) l).
Proof.
  destruct l; cbn; [lia|]. intros _. by rewrite Nat.sub_0_r.
Qed.

Lemma compact_last {A} (l : list A) :
  compact (length l - 1) l = take (length l - 1) l.
Proof.
  unfold compact. destruct (l !! (length l - 1)%nat) eqn:H.
  - by rewrite list_insert_id.
  - apply lookup_ge_None_1 in H. rewrite take_ge by lia.
    destruct l; [done|]. cbn in H. lia.
Qed.

Lemma Fds_info_delete_run ops st i p f :
  registry_ok st → o2n_fds_info st !! i = Some p →
  heap st !! p = Some f → net_tag f = NET_INFO_CLOSED →
  Fds_info_delete ops p st =
    match match owner f with
          | Some o => owner_remove ops o
          | None => ret tt
          end (unlinked i st) with
    | Some (_, s') => Some (tt, upd_heap (delete p) s')
    | None => None
    end.
Proof.
  intros Hok Hi Hp Ht. pose proof Hok as [Hlen Hidx].
  destruct (Hidx _ _ Hi) as (f0 & Hf0 & Hfi). simplify_eq.
  assert (Hil : (fds_index f < length (o2n_fds_info st))%nat)
    by (eapply lookup_lt_Some; eauto).
  destruct st as [fds infos hp flag us bs la ba en er kn tr]. cbn in *.
  unfold Fds_info_delete, unlinked, restamp. msimpl.
  destruct (fds_index f + 1 <? length fds)%nat eqn:Hlt.
  - pose proof Hlt as Hltb. apply Nat.ltb_lt in Hlt.
    destruct (lookup_lt_is_Some_2 fds (length fds - 1)) as [lastfd Hlast];
      [lia|].
    destruct (lookup_lt_is_Some_2 fds (fds_index f)) as [d Hd]; [lia|].
    destruct (lookup_lt_is_Some_2 infos (length infos - 1)) as [r Hr]; [lia|].
    destruct (Hidx _ _ Hr) as (fr & Hfr & Hri).
    assert (Hpr : r ≠ p) by (intros ->; simplify_eq; lia).
    assert (Hlt' : (fds_index f <? length fds)%nat = true)
      by (apply Nat.ltb_lt; lia).
    unfold compact. rewrite Hlast, Hr, Hfr.
    unfold fds_pop_back, fds_info_pop_back. mrun.
    rewrite pop_back_take by (rewrite ?length_insert; lia). msimpl.
    rewrite pop_back_take by (rewrite ?length_insert; lia). msimpl.
    rewrite lookup_insert_ne by done. rewrite Hp. msimpl.
    rewrite bool_decide_eq_true_2 by done. msimpl.
    rewrite !length_insert. reflexivity.
  - pose proof Hlt as Hltb. apply Nat.ltb_ge in Hlt.
    assert (Hlast : fds_index f = (length fds - 1)%nat) by lia.
    assert (Hlt' : (fds_index f <? length fds)%nat = true)
      by (apply Nat.ltb_lt; lia).
    destruct (lookup_lt_is_Some_2 infos (length infos - 1)) as [r Hr]; [lia|].
    destruct (Hidx _ _ Hr) as (fr & Hfr & Hri).
    rewrite Hr, Hfr.
    replace (compact (fds_index f) fds) with (take (length fds - 1) fds)
      by (rewrite Hlast; symmetry; apply compact_last).
    replace (compact (fds_index f) infos) with (take (length infos - 1) infos)
      by (rewrite Hlast, Hlen; symmetry; apply compact_last).
    unfold fds_pop_back, fds_info_pop_back. mrun.
    rewrite pop_back_take by lia. msimpl.
    rewrite pop_back_take by lia. msimpl. rewrite Hp. msimpl.
    rewrite bool_decide_eq_true_2 by done. reflexivity.
Qed.

Lemma compact_length {A} (i : nat) (l : list A) :
  (0 < length l)%nat → length (compact i l) = (length l - 1)%nat.
Proof.
  intros Hl. unfold compact.
  destruct (lookup_lt_is_Some_2 l (length l - 1)) as [x ->]; [lia|].
  rewrite length_take, length_insert. lia.
Qed.

Lemma compact_lookup {A} (i j : nat) (l : list A) :
  (i < length l)%nat → (j < length l - 1)%nat →
  compact i l !! j = if decide (j = i) then l !! (length l - 1)%nat
                     else l !! j.
Proof.
  intros Hi Hj. unfold compact.
  destruct (lookup_lt_is_Some_2 l (length l - 1)) as [x Hx]; [lia|].
  rewrite Hx, lookup_take_lt by lia.
  destruct (decide (j = i)) as [->|Hne].
  - by rewrite list_lookup_insert_eq.
  - by rewrite list_lookup_insert_ne.
Qed.

Lemma compact_lookup_ge {A} (i j : nat) (l : list A) :
  (0 < length l)%nat → (length l - 1 ≤ j)%nat → compact i l !! j = None.
Proof.
  intros Hl Hj. apply lookup_ge_None_2. rewrite compact_length; lia.
Qed.

(** Every slot of the compacted vector comes from a slot of the old one:
    itself, or the last one for slot [i]. *)
Lemma compact_lookup_Some {A} (i j : nat) (l : list A) x :
  (i < length l)%nat → compact i l !! j = Some x →
  (j < length l - 1)%nat ∧
  ((j ≠ i ∧ l !! j = Some x) ∨ (j = i ∧ l !! (length l - 1)%nat = Some x)).
Proof.
  intros Hi Hx.
  assert (Hj : (j < length l - 1)%nat).
  { apply lookup_lt_Some in Hx. rewrite compact_length in Hx; lia. }
  split; [done|]. rewrite compact_lookup in Hx by done.
  destruct (decide (j = i)); [right|left]; done.
Qed.

Definition inv (st : net) : Prop := registry_ok st ∧ conns_ok st.

(** [closing st st']: [st'] is [st] after some registered connections were
    closed (and possibly some trace was written). *)
Record closing (st st' : net) : Prop := {
  cl_infos : o2n_fds_info st' = o2n_fds_info st;
  cl_heap : ∀ x,
    match heap st !! x, heap st' !! x with
    | Some f, Some f' =>
        fds_index f' = fds_index f ∧ owner f' = owner f ∧
        (delete_me f = true → delete_me f' = true) ∧
        (f' = f ∨ o2n_socket_delete_flag st' = true)
    | None, None => True
    | _, _ => False
    end;
  cl_fds : ∀ j,
    match o2n_fds st !! j, o2n_fds st' !! j with
    | Some d, Some d' => fd d' = fd d ∨ fd d' = INVALID_SOCKET
    | None, None => True
    | _, _ => False
    end;
  cl_flag : o2n_socket_delete_flag st = true →
            o2n_socket_delete_flag st' = true;
  cl_alive : o2_ensemble_name st' = o2_ensemble_name st
}.

Lemma closing_refl st : closing st st.
Proof.
  split; try done.
  - intros x. destruct (heap st !! x); auto.
  - intros j. destruct (o2n_fds st !! j); auto.
Qed.

Lemma closing_trans st1 st2 st3 :
  closing st1 st2 → closing st2 st3 → closing st1 st3.
Proof.
  intros [Hi1 Hh1 Hf1 Hg1 Ha1] [Hi2 Hh2 Hf2 Hg2 Ha2]. split.
  - congruence.
  - intros x. specialize (Hh1 x). specialize (Hh2 x).
    destruct (heap st1 !! x), (heap st2 !! x), (heap st3 !! x); try done.
    destruct Hh1 as (? & ? & ? & Hc1), Hh2 as (? & ? & ? & Hc2).
    split; [congruence|]. split; [congruence|]. split; [tauto|].
    destruct Hc2 as [->|]; [|tauto]. destruct Hc1 as [->|]; auto.
  - intros j. specialize (Hf1 j). specialize (Hf2 j).
    destruct (o2n_fds st1 !! j), (o2n_fds st2 !! j), (o2n_fds st3 !! j);
      try done.
    destruct Hf1, Hf2; first [by right | left; congruence | right; congruence].
  - auto.
  - congruence.
Qed.

Lemma closing_emit e st : closing st (emit e st).
Proof.
  split; cbn; try done.
  - intros x. destruct (heap st !! x); auto.
  - intros j. destruct (o2n_fds st !! j); auto.
Qed.

Lemma close_socket_registered st i q :
  inv st → o2n_fds_info st !! i = Some q →
  ∃ st', close_socket q st = Some (tt, st') ∧ inv st' ∧ closing st st' ∧
         o2n_socket_delete_flag st' = true.
Proof.
  intros [Hok Hc] Hi. pose proof Hok as [Hlen Hidx].
  destruct (Hidx _ _ Hi) as (f & Hf & Hfi).
  destruct (lookup_lt_is_Some_2 (o2n_fds st) i) as [d Hd].
  { rewrite Hlen. eapply lookup_lt_Some; eauto. }
  destruct (Hc _ _ _ _ Hi Hf Hd) as [Hc1 Hc2].
  assert (Hil : (i < length (o2n_fds st))%nat)
    by (eapply lookup_lt_Some; eauto).
  assert (Hslot : ∀ j x, o2n_fds_info st !! j = Some x → x ≠ q → j ≠ i).
  { intros j x Hj Hne ->. congruence. }
  assert (Hfc : fds_index (closed_info f) = i) by by destruct f.
  assert (Hown : owner (closed_info f) = owner f) by by destruct f.
  assert (Hdm : delete_me (closed_info f) = true) by by destruct f.
  assert (Htag : net_tag (closed_info f) = NET_INFO_CLOSED) by by destruct f.
  destruct (decide (fd d = INVALID_SOCKET)) as [Hs|Hs].
  - eexists. split.
    { apply (close_socket_closed st q f d); subst i; auto. }
    split; [|split; [|done]].
    + split; [split|unfold conns_ok]; cbn.
      * done.
      * intros j x Hj. destruct (decide (x = q)) as [->|Hne].
        -- rewrite lookup_insert_eq. eexists; split; [done|].
           rewrite Hfc. eapply registry_ok_slot; eauto.
        -- rewrite lookup_insert_ne by done. eauto.
      * intros j x fx dx Hj Hx Hdx. destruct (decide (x = q)) as [->|Hne].
        -- rewrite lookup_insert_eq in Hx. by simplify_eq.
        -- rewrite lookup_insert_ne in Hx by done. eauto.
    + split; cbn; try done.
      * intros x. destruct (decide (x = q)) as [->|Hne].
        -- rewrite Hf, lookup_insert_eq. repeat split; auto; congruence.
        -- rewrite lookup_insert_ne by done.
           destruct (heap st !! x); auto.
      * intros j. destruct (o2n_fds st !! j); auto.
  - eexists. split.
    { apply (close_socket_open st q f d); subst i; auto. }
    subst i. split; [|split; [|done]].
    + split; [split|unfold conns_ok]; cbn.
      * by rewrite length_insert.
      * intros j x Hj. destruct (decide (x = q)) as [->|Hne].
        -- rewrite lookup_insert_eq. eexists; split; [done|].
           rewrite Hfc. eapply registry_ok_slot; eauto.
        -- rewrite lookup_insert_ne by done. eauto.
      * intros j x fx dx Hj Hx Hdx. destruct (decide (x = q)) as [->|Hne].
        -- rewrite lookup_insert_eq in Hx. by simplify_eq.
        -- rewrite lookup_insert_ne in Hx by done.
           rewrite list_lookup_insert_ne in Hdx; [eauto|].
           intros Heq. eapply Hslot; eauto.
    + split; cbn; try done.
      * intros x. destruct (decide (x = q)) as [->|Hne].
        -- rewrite Hf, lookup_insert_eq. repeat split; auto; congruence.
        -- rewrite lookup_insert_ne by done.
           destruct (heap st !! x); auto.
      * intros j. destruct (decide (j = fds_index f)) as [->|Hne].
        -- rewrite Hd, list_lookup_insert_eq by done. by right.
        -- rewrite list_lookup_insert_ne by done.
           destruct (o2n_fds st !! j); auto.
Qed.

Lemma inv_emit e st : inv st → inv (emit e st).
Proof. by destruct st. Qed.

Lemma close_each_inv qs st :
  inv st →
  ∃ st', close_each qs st = Some (tt, st') ∧ inv st' ∧ closing st st'.
Proof.
  revert st. induction qs as [|q qs IH]; intros st Hinv.
  - exists st. split; [done|]. split; [done|apply closing_refl].
  - cbn [close_each]. unfold bind at 1, gets at 1.
    unfold is_registered, when. case_bool_decide as Hq.
    + apply list_elem_of_lookup in Hq as [i Hi].
      destruct (close_socket_registered st i q Hinv Hi)
        as (st1 & Hrun & Hinv1 & Hcl1 & _).
      destruct (IH st1 Hinv1) as (st2 & Hrun2 & Hinv2 & Hcl2).
      exists st2. unfold bind. rewrite Hrun, Hrun2.
      split; [done|]. split; [done|]. by eapply closing_trans.
    + destruct (IH st Hinv) as (st2 & Hrun2 & Hinv2 & Hcl2).
      exists st2. unfold bind, ret. by rewrite Hrun2.
Qed.

Lemma owner_hook_inv ops (o : option owner_t) st :
  inv st →
  ∃ st', match o with
         | Some o => owner_remove ops o
         | None => ret tt
         end st = Some (tt, st') ∧ inv st' ∧ closing st st'.
Proof.
  intros Hinv. destruct o as [o|].
  - unfold owner_remove, bind, modify.
    destruct (close_each_inv (remove_closes ops o) (emit (EvRemove o) st))
      as (st' & Hrun & Hinv' & Hcl); [by apply inv_emit|].
    exists st'. rewrite Hrun. split; [done|]. split; [done|].
    eapply closing_trans; [apply closing_emit|done].
  - exists st. split; [done|]. split; [done|apply closing_refl].
Qed.

Lemma unlinked_inv st i p :
  inv st → o2n_fds_info st !! i = Some p → inv (unlinked i st).
Proof.
  intros [Hok Hc] Hi. pose proof Hok as [Hlen Hidx].
  assert (Hil : (i < length (o2n_fds_info st))%nat)
    by (eapply lookup_lt_Some; eauto).
  destruct (lookup_lt_is_Some_2 (o2n_fds_info st)
              (length (o2n_fds_info st) - 1)) as [r Hr]; [lia|].
  destruct (Hidx _ _ Hr) as (fr & Hfr & Hri).
  assert (Hheap : ∀ j x, (j < length (o2n_fds_info st) - 1)%nat →
            o2n_fds_info st !! j = Some x →
            restamp i st !! x = heap st !! x).
  { intros j x Hj Hx. unfold restamp. rewrite Hr, Hfr.
    destruct (i + 1 <? length (o2n_fds st))%nat; [|done].
    rewrite lookup_insert_ne; [done|]. intros ->.
    pose proof (registry_ok_slot _ _ _ _ Hok Hr Hx). lia. }
  assert (Hmoved : (i < length (o2n_fds_info st) - 1)%nat →
            restamp i st !! r = Some (set_fds_index i fr)).
  { intros Hlt. unfold restamp. rewrite Hr, Hfr.
    destruct (Nat.ltb_spec (i + 1) (length (o2n_fds st))); [|lia].
    apply lookup_insert_eq. }
  split; [split|unfold conns_ok]; cbn.
  - rewrite !compact_length; lia.
  - intros j x Hj.
    destruct (compact_lookup_Some _ _ _ _ Hil Hj)
      as [Hjl [[Hne Hj']|[-> Hj']]]; clear Hj.
    + rewrite (Hheap j x) by done. eauto.
    + simplify_eq. rewrite Hmoved by done. eauto.
  - intros j x fx dx Hj Hx Hdx.
    destruct (compact_lookup_Some _ _ _ _ Hil Hj)
      as [Hjl [[Hne Hj']|[-> Hj']]]; clear Hj.
    + rewrite (Hheap j x) in Hx by done.
      rewrite compact_lookup in Hdx by lia.
      rewrite decide_False in Hdx by done. eauto.
    + simplify_eq. rewrite Hmoved in Hx by done.
      rewrite compact_lookup in Hdx by lia.
      rewrite decide_True in Hdx by done. rewrite Hlen in Hdx.
      destruct (Hc _ _ _ _ Hr Hfr Hdx). simplify_eq. by destruct fr.
Qed.

Lemma unlinked_drops st i p :
  registry_ok st → o2n_fds_info st !! i = Some p →
  p ∉ o2n_fds_info (unlinked i st).
Proof.
  intros Hok Hi Hin. cbn in Hin.
  assert (Hil : (i < length (o2n_fds_info st))%nat)
    by (eapply lookup_lt_Some; eauto).
  apply list_elem_of_lookup in Hin as [j Hj].
  destruct (compact_lookup_Some _ _ _ _ Hil Hj)
    as [Hjl [[Hne Hj']|[-> Hj']]]; clear Hj.
  - apply Hne. eapply registry_ok_slot; eauto.
  - pose proof (registry_ok_slot _ _ _ _ Hok Hi Hj'). lia.
Qed.

(** The destructor on a closed, registered connection: it returns, in the
    state the hook leaves behind minus the object itself. *)
Lemma Fds_info_delete_inv ops st i p f :
  inv st → o2n_fds_info st !! i = Some p → heap st !! p = Some f →
  net_tag f = NET_INFO_CLOSED →
  ∃ st1,
    Fds_info_delete ops p st = Some (tt, upd_heap (delete p) st1) ∧
    closing (unlinked i st) st1 ∧ inv st1 ∧
    inv (upd_heap (delete p) st1).
Proof.
  intros Hinv Hi Hp Ht. pose proof Hinv as [Hok Hc].
  rewrite (Fds_info_delete_run ops st i p f) by done.
  destruct (owner_hook_inv ops (owner f) (unlinked i st))
    as (st1 & Hrun & Hinv1 & Hcl); [by eapply unlinked_inv|].
  exists st1. rewrite Hrun. split; [done|]. split; [done|]. split; [done|].
  assert (Hnot : p ∉ o2n_fds_info st1).
  { rewrite (cl_infos _ _ Hcl). by eapply unlinked_drops. }
  destruct Hinv1 as [[Hlen1 Hidx1] Hc1].
  split; [split|unfold conns_ok]; cbn.
  - done.
  - intros j x Hj. destruct (Hidx1 _ _ Hj) as (fx & Hfx & Hfi).
    exists fx. split; [|done]. rewrite lookup_delete_ne; [done|].
    intros ->. apply Hnot. by eapply list_elem_of_lookup_2.
  - intros j x fx dx Hj Hx Hdx.
    apply lookup_delete_Some in Hx as [_ Hx]. eauto.
Qed.

(** *** C2 *)

(** The invariant in the words of the data model: equal lengths, and for
    every valid index the descriptor and the connection are those of one
    socket, the connection's stored index being that index. *)
Definition slots_agree (st : net) : Prop :=
  length (o2n_fds st) = length (o2n_fds_info st) ∧
  ∀ j x, o2n_fds_info st !! j = Some x →
    ∃ f d, heap st !! x = Some f ∧ fds_index f = j ∧
           o2n_fds st !! j = Some d ∧ get_socket x st = Some (fd d).

Lemma registry_ok_slots_agree st : registry_ok st → slots_agree st.
Proof.
  intros Hok. pose proof Hok as [Hlen Hidx]. split; [done|].
  intros j x Hj. destruct (Hidx _ _ Hj) as (f & Hf & Hfi).
  destruct (lookup_lt_is_Some_2 (o2n_fds st) j) as [d Hd].
  { rewrite Hlen. eapply lookup_lt_Some; eauto. }
  exists f, d. repeat split; try done.
  by rewrite (registry_ok_socket st j x), Hd.
Qed.

(** The connection that was last in [st] sits in slot [i] of [st'] with
    its stored index equal to [i]. *)
Definition moved_last_to (i : nat) (st st' : net) : Prop :=
  ∃ l fl,
    o2n_fds_info st !! (length (o2n_fds_info st) - 1)%nat = Some l ∧
    o2n_fds_info st' !! i = Some l ∧
    heap st' !! l = Some fl ∧ fds_index fl = i.

Definition no_hooks : Owner_ops :=
  Build_Owner_ops (fun _ => []) (fun _ _ => O2_SUCCESS) (fun _ _ => None).

(** Two registered connections; the second one is closed and marked. *)
Definition two_conns : net :=
  Net [Pollfd 5 POLLIN 0; Pollfd INVALID_SOCKET POLLIN 0] [0%nat; 1%nat]
    {[ 0%nat := new_info NET_TCP_CLIENT 0 0;
       1%nat := closed_info (new_info NET_TCP_CONNECTION 1 0) ]}
    true 100 101 (Addr 2130706433 0) (Addr 4294967295 0) true ENONE
    {[ 5 := ksock0 ]} [].

Lemma two_conns_inv : inv two_conns.
Proof.
  split; [split|unfold conns_ok]; cbn.
  - done.
  - intros [|[|i]] p Hi; cbn in Hi; simplify_eq; eexists; split; done.
  - intros [|[|i]] p f d Hi Hf Hd; cbn in Hi, Hd; simplify_eq;
      vm_compute in Hf; simplify_eq; done.
Qed.

(** C2, refuted as stated: index 1 is valid in [two_conns] and holds the
    last connection; deleting it leaves slot 0 alone and moves nothing to
    index 1, which no longer exists. *)
Lemma delete_at_last_index_moves_nothing :
  inv two_conns ∧ o2n_fds_info two_conns !! 1%nat = Some 1%nat ∧
  ∃ st', Fds_info_delete no_hooks 1%nat two_conns = Some (tt, st') ∧
         o2n_fds_info st' = [0%nat] ∧
         ¬ moved_last_to 1 two_conns st'.
Proof.
  split; [apply two_conns_inv|]. split; [done|].
  eexists. split; [vm_compute; reflexivity|]. split; [done|].
  intros (l & fl & _ & Hl & _). discriminate Hl.
Qed.

Lemma registered_sockets sock tag port_ st j x :
  registry_ok st → o2n_fds_info st !! j = Some x →
  o2n_fds_info (registered sock tag port_ st) !! j = Some x ∧
  get_socket x (registered sock tag port_ st) = get_socket x st.
Proof.
  intros Hok Hj. pose proof Hok as [Hlen Hidx].
  destruct (Hidx _ _ Hj) as (f & Hf & Hfi).
  split; [by apply lookup_app_l_Some|].
  unfold get_socket. cbn. rewrite lookup_insert_ne.
  - rewrite Hf, lookup_app_l; [done|].
    rewrite Hfi, Hlen. eapply lookup_lt_Some; eauto.
  - intros Heq. rewrite <- Heq in Hf. by rewrite fresh_ptr_unused in Hf.
Qed.

(** [close_socket] on a registered connection touches that connection and
    its descriptor only, and leaves the descriptor invalid. *)
Lemma close_socket_local st i q :
  inv st → o2n_fds_info st !! i = Some q →
  ∃ st', close_socket q st = Some (tt, st') ∧
         (∀ x, x ≠ q → heap st' !! x = heap st !! x) ∧
         (∀ j, j ≠ i → o2n_fds st' !! j = o2n_fds st !! j) ∧
         ∃ d, o2n_fds st' !! i = Some d ∧ fd d = INVALID_SOCKET.
Proof.
  intros [Hok Hc] Hi. pose proof Hok as [Hlen Hidx].
  destruct (Hidx _ _ Hi) as (f & Hf & Hfi).
  destruct (lookup_lt_is_Some_2 (o2n_fds st) i) as [d Hd].
  { rewrite Hlen. eapply lookup_lt_Some; eauto. }
  destruct (Hc _ _ _ _ Hi Hf Hd) as [Hc1 Hc2].
  assert (Hil : (i < length (o2n_fds st))%nat)
    by (eapply lookup_lt_Some; eauto).
  subst i. destruct (decide (fd d = INVALID_SOCKET)) as [Hs|Hs].
  - eexists. split; [apply (close_socket_closed st q f d); auto|]. cbn.
    split; [intros x Hx; by rewrite lookup_insert_ne|].
    split; [done|]. by exists d.
  - eexists. split; [apply (close_socket_open st q f d); auto|]. cbn.
    split; [intros x Hx; by rewrite lookup_insert_ne|].
    split; [intros j Hj; by rewrite list_lookup_insert_ne|].
    exists (set_fd INVALID_SOCKET d).
    split; [by apply list_lookup_insert_eq|done].
Qed.

(** The connections that a hook closes end with an invalid descriptor;
    every other registered connection keeps its object and its
    descriptor. *)
Lemma close_each_local qs : ∀ st,
  inv st →
  ∃ st', close_each qs st = Some (tt, st') ∧ inv st' ∧ closing st st' ∧
    (∀ j x, o2n_fds_info st !! j = Some x → x ∉ qs →
       heap st' !! x = heap st !! x ∧ o2n_fds st' !! j = o2n_fds st !! j) ∧
    (∀ j x, o2n_fds_info st !! j = Some x → x ∈ qs →
       ∃ d, o2n_fds st' !! j = Some d ∧ fd d = INVALID_SOCKET).
Proof.
  induction qs as [|q qs IH]; intros st Hinv.
  - exists st. split; [done|]. split; [done|]. split; [apply closing_refl|].
    split; [done|]. intros j x _ Hx. by apply not_elem_of_nil in Hx.
  - cbn [close_each]. unfold bind at 1, gets at 1.
    unfold is_registered, when. case_bool_decide as Hq.
    + apply list_elem_of_lookup in Hq as [i Hi].
      destruct (close_socket_registered st i q Hinv Hi)
        as (st1 & Hrun & Hinv1 & Hcl1 & _).
      destruct (close_socket_local st i q Hinv Hi)
        as (st1' & Hrun' & Hheap1 & Hfds1 & d1 & Hd1 & Hfd1).
      assert (st1' = st1) as -> by congruence.
      destruct (IH st1 Hinv1) as (st2 & Hrun2 & Hinv2 & Hcl2 & Hkeep & Hshut).
      exists st2. unfold bind. rewrite Hrun, Hrun2.
      split; [done|]. split; [done|].
      split; [by eapply closing_trans|].
      pose proof (cl_infos _ _ Hcl1) as Hinfos1.
      destruct Hinv as [Hok _].
      split.
      * intros j x Hj Hx. rewrite not_elem_of_cons in Hx.
        destruct Hx as [Hne Hx].
        destruct (Hkeep j x) as [Hh Hf]; [by rewrite Hinfos1|done|].
        rewrite Hh, Hf, Hheap1 by done. split; [done|].
        apply Hfds1. intros ->. apply Hne. congruence.
      * intros j x Hj Hx.
        destruct (decide (x ∈ qs)) as [Hin|Hnin].
        { apply (Hshut j x); [by rewrite Hinfos1|done]. }
        apply elem_of_cons in Hx as [->|Hx]; [|done].
        assert (j = i) as -> by (eapply registry_ok_slot; eauto).
        pose proof (cl_fds _ _ Hcl2 i) as Hfds. rewrite Hd1 in Hfds.
        destruct (o2n_fds st2 !! i) as [d2|]; [|done].
        exists d2. split; [done|]. destruct Hfds; congruence.
    + destruct (IH st Hinv) as (st2 & Hrun2 & Hinv2 & Hcl2 & Hkeep & Hshut).
      exists st2. unfold bind, ret. rewrite Hrun2.
      split; [done|]. split; [done|]. split; [done|]. split.
      * intros j x Hj Hx. rewrite not_elem_of_cons in Hx.
        destruct Hx as [_ Hx]. by apply Hkeep.
      * intros j x Hj Hx. apply elem_of_cons in Hx as [->|Hx].
        { exfalso. apply Hq. by eapply list_elem_of_lookup_2. }
        by apply (Hshut j x).
Qed.

(** The connections that the [remove()] hook of owner [o] closes. *)
Definition hook_closes (ops : Owner_ops) (o : option owner_t) : list ptr :=
  match o with Some o => remove_closes ops o | None => [] end.

Lemma owner_hook_local ops (o : option owner_t) st :
  inv st →
  ∃ st', match o with
         | Some o => owner_remove ops o
         | None => ret tt
         end st = Some (tt, st') ∧ inv st' ∧ closing st st' ∧
    (∀ j x, o2n_fds_info st !! j = Some x → x ∉ hook_closes ops o →
       heap st' !! x = heap st !! x ∧ o2n_fds st' !! j = o2n_fds st !! j) ∧
    (∀ j x, o2n_fds_info st !! j = Some x → x ∈ hook_closes ops o →
       ∃ d, o2n_fds st' !! j = Some d ∧ fd d = INVALID_SOCKET).
Proof.
  intros Hinv. destruct o as [o|]; cbn [hook_closes].
  - unfold owner_remove, bind, modify.
    destruct (close_each_local (remove_closes ops o) (emit (EvRemove o) st))
      as (st' & Hrun & Hinv' & Hcl & Hkeep & Hshut); [by apply inv_emit|].
    exists st'. rewrite Hrun. split; [done|]. split; [done|].
    split; [eapply closing_trans; [apply closing_emit|done]|].
    split; [intros j x Hj Hx; by apply (Hkeep j x)|].
    intros j x Hj Hx; by apply (Hshut j x).
  - exists st. split; [done|]. split; [done|]. split; [apply closing_refl|].
    split; [done|]. intros j x _ Hx. by apply not_elem_of_nil in Hx.
Qed.

(** In the compacted registry every connection has the socket it had. *)
Lemma unlinked_socket st i p j x :
  inv st → o2n_fds_info st !! i = Some p →
  o2n_fds_info (unlinked i st) !! j = Some x →
  fd <$> o2n_fds (unlinked i st) !! j = get_socket x st.
Proof.
  intros [Hok Hc] Hi Hj. pose proof Hok as [Hlen Hidx].
  assert (Hil : (i < length (o2n_fds_info st))%nat)
    by (eapply lookup_lt_Some; eauto).
  cbn in *.
  destruct (compact_lookup_Some _ _ _ _ Hil Hj)
    as [Hjl [[Hne Hj']|[-> Hj']]].
  - rewrite compact_lookup, decide_False by (done || lia).
    by rewrite (registry_ok_socket _ j x Hok).
  - rewrite compact_lookup, decide_True by (done || lia).
    by rewrite (registry_ok_socket _ _ x Hok Hj'), <- Hlen.
Qed.

(** The destructor on a closed, registered connection, with what its
    hook does to the other connections. *)
Lemma Fds_info_delete_local ops st i p f :
  inv st → o2n_fds_info st !! i = Some p → heap st !! p = Some f →
  net_tag f = NET_INFO_CLOSED →
  ∃ st1,
    Fds_info_delete ops p st = Some (tt, upd_heap (delete p) st1) ∧
    closing (unlinked i st) st1 ∧ inv st1 ∧
    inv (upd_heap (delete p) st1) ∧
    (∀ j x, o2n_fds_info (unlinked i st) !! j = Some x →
       x ∉ hook_closes ops (owner f) →
       heap st1 !! x = heap (unlinked i st) !! x ∧
       o2n_fds st1 !! j = o2n_fds (unlinked i st) !! j) ∧
    (∀ j x, o2n_fds_info (unlinked i st) !! j = Some x →
       x ∈ hook_closes ops (owner f) →
       ∃ d, o2n_fds st1 !! j = Some d ∧ fd d = INVALID_SOCKET).
Proof.
  intros Hinv Hi Hp Ht. pose proof Hinv as [Hok Hc].
  rewrite (Fds_info_delete_run ops st i p f) by done.
  destruct (owner_hook_local ops (owner f) (unlinked i st))
    as (st1 & Hrun & Hinv1 & Hcl & Hkeep & Hshut); [by eapply unlinked_inv|].
  exists st1. rewrite Hrun. split; [done|]. split; [done|]. split; [done|].
  split; [|done].
  assert (Hnot : p ∉ o2n_fds_info st1).
  { rewrite (cl_infos _ _ Hcl). by eapply unlinked_drops. }
  destruct Hinv1 as [[Hlen1 Hidx1] Hc1].
  split; [split|unfold conns_ok]; cbn.
  - done.
  - intros j x Hj. destruct (Hidx1 _ _ Hj) as (fx & Hfx & Hfi).
    exists fx. split; [|done]. rewrite lookup_delete_ne; [done|].
    intros ->. apply Hnot. by eapply list_elem_of_lookup_2.
  - intros j x fx dx Hj Hx Hdx.
    apply lookup_delete_Some in Hx as [_ Hx]. eauto.
Qed.

(** C2 (amended): registration ([new Fds_info]) and removal ([delete] of a
    closed connection) both return and keep the invariant: equal lengths,
    and every slot's connection has that slot as stored index and that
    slot's descriptor as socket.  Registration appends one entry to both
    vectors and leaves the others and their sockets alone.  Removal of the
    connection in slot [i] shrinks both vectors by exactly one; every other
    slot below the last keeps its connection; when [i] is not the last
    index, the formerly-last connection now occupies slot [i] with its
    stored index re-stamped to [i]; every surviving connection keeps its
    socket, except those that the [remove()] hook of the deleted
    connection's owner closes, whose descriptor becomes INVALID_SOCKET. *)
Theorem registry_invariant_maintained ops st sock tag port_ st2 i p f :
  registry_ok st → sock ≠ INVALID_SOCKET →
  inv st2 → o2n_fds_info st2 !! i = Some p → heap st2 !! p = Some f →
  net_tag f = NET_INFO_CLOSED →
  (∃ q st',
      Fds_info_new sock tag port_ st = Some (q, st') ∧
      registry_ok st' ∧ slots_agree st' ∧
      length (o2n_fds st') = S (length (o2n_fds st)) ∧
      length (o2n_fds_info st') = S (length (o2n_fds_info st)) ∧
      o2n_fds_info st' !! length (o2n_fds_info st) = Some q ∧
      get_socket q st' = Some sock ∧
      ∀ j x, o2n_fds_info st !! j = Some x →
        o2n_fds_info st' !! j = Some x ∧ get_socket x st' = get_socket x st) ∧
  (∃ st',
      Fds_info_delete ops p st2 = Some (tt, st') ∧
      registry_ok st' ∧ slots_agree st' ∧
      S (length (o2n_fds st')) = length (o2n_fds st2) ∧
      S (length (o2n_fds_info st')) = length (o2n_fds_info st2) ∧
      ((i < length (o2n_fds_info st2) - 1)%nat → moved_last_to i st2 st') ∧
      (∀ j, (j < length (o2n_fds_info st2) - 1)%nat → j ≠ i →
         o2n_fds_info st' !! j = o2n_fds_info st2 !! j) ∧
      (∀ j x, o2n_fds_info st' !! j = Some x →
         if bool_decide (x ∈ hook_closes ops (owner f))
         then get_socket x st' = Some INVALID_SOCKET
         else get_socket x st' = get_socket x st2) ∧
      heap st' !! p = None).
Proof.
  intros Hok Hsock Hinv2 Hi Hp Ht. split.
  - exists (fresh (dom (heap st))), (registered sock tag port_ st).
    pose proof (registry_ok_registered sock tag port_ st Hok) as Hok'.
    pose proof Hok as [Hlen Hidx].
    split; [by apply Fds_info_new_run|]. split; [done|].
    split; [by apply registry_ok_slots_agree|]. cbn.
    rewrite !length_app. cbn.
    split; [lia|]. split; [lia|]. split.
    { by rewrite lookup_app_r, Nat.sub_diag. }
    split.
    { unfold get_socket. cbn. rewrite lookup_insert_eq. cbn.
      by rewrite lookup_app_r, Nat.sub_diag. }
    intros j x Hj. by apply registered_sockets.
  - destruct (Fds_info_delete_local ops st2 i p f Hinv2 Hi Hp Ht)
      as (st1 & Hrun & Hcl & Hinv1 & Hinv' & Hkeep & Hshut).
    pose proof Hinv2 as [[Hlen Hidx] Hc]. pose proof Hinv' as [Hok' _].
    pose proof Hok' as [Hlen' Hidx'].
    assert (Hil : (i < length (o2n_fds_info st2))%nat)
      by (eapply lookup_lt_Some; eauto).
    assert (Hinfos : o2n_fds_info st1 = compact i (o2n_fds_info st2))
      by apply (cl_infos _ _ Hcl).
    exists (upd_heap (delete p) st1).
    split; [done|]. split; [done|].
    split; [by apply registry_ok_slots_agree|].
    cbn in *. rewrite Hlen', Hinfos, compact_length by lia.
    split; [lia|]. split; [lia|]. split; [|split; [|split]].
    + intros Hlt.
      destruct (lookup_lt_is_Some_2 (o2n_fds_info st2)
                  (length (o2n_fds_info st2) - 1)) as [l Hl]; [lia|].
      assert (Hl' : o2n_fds_info st1 !! i = Some l).
      { by rewrite Hinfos, compact_lookup, decide_True. }
      destruct (Hidx' _ _ Hl') as (fl & Hfl & Hfli).
      by exists l, fl.
    + intros j Hj Hne. by rewrite compact_lookup, decide_False.
    + intros j x Hj.
      rewrite (registry_ok_socket _ j x Hok') by (cbn; by rewrite Hinfos).
      cbn.
      assert (Hju : o2n_fds_info (unlinked i st2) !! j = Some x) by done.
      case_bool_decide as Hx.
      * destruct (Hshut j x Hju Hx) as (d & -> & Hfd). cbn. by rewrite Hfd.
      * destruct (Hkeep j x Hju Hx) as [_ ->].
        by apply (unlinked_socket st2 i p j x).
    + apply lookup_delete_eq.
Qed.

(** Three registered connections; the first one is closed and marked. *)
Definition three_conns : net :=
  Net [Pollfd INVALID_SOCKET POLLIN 0; Pollfd 6 POLLIN 0; Pollfd 7 POLLIN 0]
    [0%nat; 1%nat; 2%nat]
    {[ 0%nat := closed_info (new_info NET_TCP_CONNECTION 0 0);
       1%nat := new_info NET_TCP_CLIENT 1 0;
       2%nat := new_info NET_TCP_CONNECTION 2 0 ]}
    true 100 101 (Addr 2130706433 0) (Addr 4294967295 0) true ENONE
    {[ 6 := ksock0; 7 := ksock0 ]} [].

Lemma three_conns_inv : inv three_conns.
Proof.
  split; [split|unfold conns_ok]; cbn.
  - done.
  - intros [|[|[|i]]] p Hi; cbn in Hi; simplify_eq; eexists; split; done.
  - intros [|[|[|i]]] p f d Hi Hf Hd; cbn in Hi, Hd; simplify_eq;
      vm_compute in Hf; simplify_eq; done.
Qed.

(** Registration of socket 8 in [three_conns], and removal of the
    connection in slot 0: the connection of slot 2 (the last) moves to
    slot 0 and is re-stamped, slot 1 stays, and both survivors keep their
    sockets. *)
Lemma registry_invariant_maintained_witness :
  (∃ q st',
      Fds_info_new 8 NET_TCP_CONNECTION 0 three_conns = Some (q, st') ∧
      registry_ok st' ∧ slots_agree st' ∧
      length (o2n_fds st') = 4%nat ∧ length (o2n_fds_info st') = 4%nat ∧
      o2n_fds_info st' !! 3%nat = Some q ∧ get_socket q st' = Some 8) ∧
  (∃ st',
      Fds_info_delete no_hooks 0%nat three_conns = Some (tt, st') ∧
      registry_ok st' ∧ slots_agree st' ∧
      length (o2n_fds st') = 2%nat ∧ length (o2n_fds_info st') = 2%nat ∧
      moved_last_to 0 three_conns st' ∧
      o2n_fds_info st' !! 1%nat = Some 1%nat ∧
      (∀ j x, o2n_fds_info st' !! j = Some x →
         get_socket x st' = get_socket x three_conns) ∧
      heap st' !! 0%nat = None).
Proof.
  destruct (registry_invariant_maintained no_hooks three_conns 8
              NET_TCP_CONNECTION 0 three_conns 0%nat 0%nat
              (closed_info (new_info NET_TCP_CONNECTION 0 0)))
    as [Hreg Hdel].
  - apply three_conns_inv.
  - discriminate.
  - apply three_conns_inv.
  - reflexivity.
  - reflexivity.
  - reflexivity.
  - split.
    + destruct Hreg as (q & st' & Hrun & Hok & Hagree & Hl1 & Hl2 & Hq & Hs
                        & _).
      exists q, st'. split; [exact Hrun|]. split; [exact Hok|].
      split; [exact Hagree|]. split; [exact Hl1|]. split; [exact Hl2|].
      split; [exact Hq|exact Hs].
    + destruct Hdel as (st' & Hrun & Hok & Hagree & Hl1 & Hl2 & Hmove & Hkeep
                        & Hsock & Hgone).
      exists st'. split; [exact Hrun|]. split; [exact Hok|].
      split; [exact Hagree|]. cbn in Hl1, Hl2.
      split; [lia|]. split; [lia|].
      split; [apply Hmove; cbn; lia|].
      split; [apply (Hkeep 1%nat); cbn; lia|].
      split; [|exact Hgone].
      intros j x Hj. apply (Hsock j x Hj).
Defined.


(** ** The deferred sweep *)

(** No registered connection is marked for deletion. *)
Definition clean (st : net) : Prop :=
  ∀ j x fx, o2n_fds_info st !! j = Some x → heap st !! x = Some fx →
    delete_me fx = false.

Definition clean_below (i : nat) (st : net) : Prop :=
  ∀ j x fx, (j < i)%nat → o2n_fds_info st !! j = Some x →
    heap st !! x = Some fx → delete_me fx = false.

(** [st'] has no connection and no object that [st] had not, and marks
    are never taken back. *)
Definition shrinks (st st' : net) : Prop :=
  (∀ x, x ∈ o2n_fds_info st' → x ∈ o2n_fds_info st) ∧
  (∀ x fx', heap st' !! x = Some fx' →
     ∃ fx, heap st !! x = Some fx ∧
           (delete_me fx = true → delete_me fx' = true)).

Lemma shrinks_refl st : shrinks st st.
Proof. split; eauto. Qed.

Lemma shrinks_trans st1 st2 st3 :
  shrinks st1 st2 → shrinks st2 st3 → shrinks st1 st3.
Proof.
  intros [Ha1 Hb1] [Ha2 Hb2]. split; [eauto|].
  intros x f3 H3. destruct (Hb2 _ _ H3) as (f2 & H2 & Hm2).
  destruct (Hb1 _ _ H2) as (f1 & H1 & Hm1). eauto.
Qed.

Lemma restamp_lookup i st x fu :
  restamp i st !! x = Some fu →
  ∃ fx, heap st !! x = Some fx ∧ delete_me fu = delete_me fx.
Proof.
  unfold restamp.
  destruct (o2n_fds_info st !! _) as [r|]; [|eauto].
  destruct (heap st !! r) as [fr|] eqn:Hr; [|eauto].
  destruct (_ <? _)%nat; [|eauto].
  destruct (decide (x = r)) as [->|Hne].
  - rewrite lookup_insert_eq. intros [= <-]. exists fr. by destruct fr.
  - rewrite lookup_insert_ne by done. eauto.
Qed.

Lemma delete_shrinks st i p st1 :
  (i < length (o2n_fds_info st))%nat →
  closing (unlinked i st) st1 → shrinks st (upd_heap (delete p) st1).
Proof.
  intros Hil Hcl. split; cbn.
  - intros x Hx. rewrite (cl_infos _ _ Hcl) in Hx. cbn in Hx.
    apply list_elem_of_lookup in Hx as [j Hj].
    destruct (compact_lookup_Some _ _ _ _ Hil Hj) as [_ [[_ H]|[_ H]]];
      by eapply list_elem_of_lookup_2.
  - intros x fx' Hx. apply lookup_delete_Some in Hx as [_ Hx].
    pose proof (cl_heap _ _ Hcl x) as Hh. cbn in Hh. rewrite Hx in Hh.
    destruct (restamp i st !! x) as [fu|] eqn:Hu; [|done].
    destruct (restamp_lookup _ _ _ _ Hu) as (fx & Hfx & Hdm).
    exists fx. split; [done|]. rewrite <- Hdm. tauto.
Qed.

Lemma scan_spec ops fuel : ∀ i st,
  inv st → (length (o2n_fds_info st) - i < fuel)%nat →
  o2n_socket_delete_flag st = true ∨ clean_below i st →
  ∃ st',
    scan ops fuel i st = Some (tt, st') ∧ inv st' ∧ shrinks st st' ∧
    (o2n_socket_delete_flag st' = true ∨ clean st') ∧
    (o2n_socket_delete_flag st' = true →
       o2n_socket_delete_flag st = true ∨
       (length (o2n_fds_info st') < length (o2n_fds_info st))%nat) ∧
    (length (o2n_fds_info st') ≤ length (o2n_fds_info st))%nat.
Proof.
  induction fuel as [|fuel IH]; intros i st Hinv Hfuel Hpre; [lia|].
  cbn [scan]. unfold bind at 1, gets at 1.
  destruct (Nat.ltb_spec i (length (o2n_fds_info st))) as [Hlt|Hge].
  - pose proof Hinv as [[Hlen Hidx] Hc].
    destruct (lookup_lt_is_Some_2 (o2n_fds_info st) i) as [p Hp]; [done|].
    destruct (Hidx _ _ Hp) as (f & Hf & Hfi).
    unfold bind at 1, info_at at 1. rewrite Hp.
    unfold bind at 1, deref at 1. rewrite Hf.
    destruct (delete_me f) eqn:Hdm.
    + destruct (lookup_lt_is_Some_2 (o2n_fds st) i) as [d Hd]; [lia|].
      destruct (Hc _ _ _ _ Hp Hf Hd) as [_ Htag]. specialize (Htag Hdm).
      destruct (Fds_info_delete_inv ops st i p f Hinv Hp Hf Htag)
        as (st1 & Hrun & Hcl & Hinv1 & Hinv2).
      unfold bind. rewrite Hrun.
      set (st2 := upd_heap (delete p) st1) in *.
      assert (Hlen2 : length (o2n_fds_info st2)
                      = (length (o2n_fds_info st) - 1)%nat).
      { cbn. rewrite (cl_infos _ _ Hcl). cbn.
        rewrite compact_length; lia. }
      destruct (IH i st2) as (st' & Hrun' & Hinv' & Hsh' & Hpost & Hprog & Hle);
        [done|lia| |].
      { destruct Hpre as [Hflag|Hclean].
        - left. cbn. by apply (cl_flag _ _ Hcl).
        - destruct (o2n_socket_delete_flag st1) eqn:Hfl1; [by left|right].
          intros j x fx' Hj Hjx Hx. cbn in Hjx, Hx.
          apply lookup_delete_Some in Hx as [_ Hx].
          rewrite (cl_infos _ _ Hcl) in Hjx. cbn in Hjx.
          rewrite compact_lookup, decide_False in Hjx by lia.
          pose proof (cl_heap _ _ Hcl x) as Hh. cbn in Hh. rewrite Hx in Hh.
          destruct (restamp i st !! x) as [fu|] eqn:Hu; [|done].
          destruct Hh as (_ & _ & _ & [-> | Hbad]); [|congruence].
          destruct (restamp_lookup _ _ _ _ Hu) as (fx & Hfx & ->).
          by eapply Hclean. }
      exists st'. split; [done|]. split; [done|]. split.
      { eapply shrinks_trans; [|done]. by eapply delete_shrinks. }
      split; [done|]. split; [right|]; lia.
    + destruct (IH (S i) st) as (st' & Hrun' & Hinv' & Hsh' & Hpost & Hprog & Hle);
        [done|lia| |by exists st'].
      destruct Hpre as [Hflag|Hclean]; [by left|right].
      intros j x fx Hj Hjx Hx.
      destruct (decide (j = i)) as [->|Hne]; [by simplify_eq|].
      eapply Hclean; [|done..]. lia.
  - exists st. split; [done|]. split; [done|]. split; [apply shrinks_refl|].
    split; [|split; [tauto|lia]].
    destruct Hpre as [Hflag|Hclean]; [by left|right].
    intros j x fx Hjx Hx. eapply Hclean; [|done..].
    apply lookup_lt_Some in Hjx. lia.
Qed.

Lemma inv_set_flag b st : inv st → inv (set_delete_flag b st).
Proof. by destruct st. Qed.

Lemma shrinks_set_flag b st : shrinks st (set_delete_flag b st).
Proof. split; cbn; eauto. Qed.

Lemma sweep_spec ops fuel : ∀ st,
  inv st →
  (o2n_socket_delete_flag st = false → clean st) →
  (1 ≤ fuel)%nat →
  (o2n_socket_delete_flag st = true →
     length (o2n_fds_info st) + 2 ≤ fuel)%nat →
  ∃ st',
    sweep ops fuel st = Some (tt, st') ∧ inv st' ∧ shrinks st st' ∧
    o2n_socket_delete_flag st' = false ∧ clean st'.
Proof.
  induction fuel as [|fuel IH]; intros st Hinv Hflagok Hone Hfuel; [lia|].
  cbn [sweep]. unfold bind at 1, gets at 1.
  destruct (o2n_socket_delete_flag st) eqn:Hflag.
  - specialize (Hfuel eq_refl).
    unfold bind at 1, modify at 1. unfold bind at 1, gets at 1.
    destruct (scan_spec ops (S (length (o2n_fds_info (set_delete_flag false st))))
                0 (set_delete_flag false st))
      as (st1 & Hrun & Hinv1 & Hsh1 & Hpost & Hprog & Hle).
    { by apply inv_set_flag. }
    { lia. }
    { right. intros j x fx Hj. lia. }
    unfold bind at 1. rewrite Hrun.
    assert (Hlen0 : length (o2n_fds_info (set_delete_flag false st))
                    = length (o2n_fds_info st)) by by destruct st.
    rewrite Hlen0 in *.
    destruct (IH st1) as (st' & Hrun' & Hinv' & Hsh' & Hfl' & Hcl');
      [done| | lia | |].
    { intros Hf1. destruct Hpost; [congruence|done]. }
    { intros Hf1. destruct (Hprog Hf1) as [Hbad|Hlt]; [|lia].
      by destruct st. }
    exists st'. split; [done|]. split; [done|]. split; [|done].
    eapply shrinks_trans; [apply shrinks_set_flag|].
    by eapply shrinks_trans.
  - exists st. split; [done|]. split; [done|].
    split; [apply shrinks_refl|]. split; [done|]. by apply Hflagok.
Qed.





(** A listener (address 0), closed and marked, whose owner's [remove()]
    closes the two connections it had accepted (addresses 1 and 2). *)
Definition cascade_ops : Owner_ops :=
  Build_Owner_ops (fun o => if (o =? 1)%nat then [1%nat; 2%nat] else [])
    (fun _ _ => O2_SUCCESS) (fun _ _ => None).

Definition cascade_net : net :=
  Net [Pollfd 6 POLLIN 0; Pollfd INVALID_SOCKET POLLIN 0; Pollfd 7 POLLIN 0]
    [1%nat; 0%nat; 2%nat]
    {[ 0%nat := set_owner (Some 1%nat)
                  (closed_info (new_info NET_TCP_SERVER 1 8000));
       1%nat := new_info NET_TCP_CONNECTION 0 0;
       2%nat := new_info NET_TCP_CONNECTION 2 0 ]}
    true 100 101 (Addr 2130706433 0) (Addr 4294967295 0) true ENONE
    {[ 6 := ksock0; 7 := ksock0 ]} [].



(** The cascade of [cascade_net] empties the registry in one call. *)
Example sweep_cascade :
  (o2n_fds_info <$> (snd <$> o2n_free_deleted_sockets cascade_ops cascade_net))
  = Some [].
Proof. vm_compute. reflexivity. Qed.

(** ** UDP utility senders *)

Definition free_events (m : o2n_message) (t : list event) : list event :=
  filter (λ e, e = EvFree m) t.

Lemma sys_sendto_run s bs n a st :
  ∃ err st1,
    sys_sendto s bs n a st = Some (err, st1) ∧
    (err = n ∨ err = -1) ∧
    trace st1 = trace st ++ [EvSendto s a (take (Z.to_nat n) bs)].
Proof.
  destruct st as [fds infos hp flag us bs' la ba en er kn tr].
  unfold sys_sendto. cbn.
  destruct (kn !! s) as [[sc w rb ri rd bl ss se]|]; cbn.
  - destruct sc as [|[k|e] sc]; cbn; eauto 10.
  - eauto 10.
Qed.

(** A datagram socket set-up: the general send socket accepts datagrams,
    the broadcast socket accepts one and then fails. *)
Definition udp_net : net :=
  Net [] [] ∅ false 100 101 (Addr 2130706433 0) (Addr 4294967295 0)
    true ENONE
    {[ 100 := set_tx [TxAccept 0; TxAccept 0] [] ksock0;
       101 := set_tx [TxAccept 0; TxError (EOTHER 101)] [] ksock0 ]} [].

(** C9, refuted as stated: [o2n_send_broadcast] does not free the message
    it is given, neither when [sendto] succeeds (first call) nor when it
    fails (second call): the trace holds the two [sendto] calls and the
    diagnostic, and no [EvFree]. *)
Lemma broadcast_does_not_free :
  ∃ err1 st1 err2 st2,
    o2n_send_broadcast 8000 demo_msg1 udp_net = Some (err1, st1) ∧
    err1 = 2 ∧
    o2n_send_broadcast 8000 demo_msg1 st1 = Some (err2, st2) ∧
    err2 = -1 ∧
    trace st2 =
      [ EvSendto 101 (Addr 4294967295 8000) [7; 8];
        EvSendto 101 (Addr 4294967295 8000) [7; 8];
        EvPerror "Error attempting to broadcast discovery message" ] ∧
    free_events demo_msg1 (trace st2) = [].
Proof.
  eexists _, _, _, _. split; [vm_compute; reflexivity|]. split; [done|].
  split; [vm_compute; reflexivity|]. repeat split.
Qed.

(** Whether the next [sendto] on the kernel socket [k] succeeds. *)
Definition sendto_ok (k : option ksock) : bool :=
  match k with
  | Some k => match tx_script k with TxAccept _ :: _ => true | _ => false end
  | None => false
  end.

(** The state after one [sendto] on socket [s]. *)
Definition after_sendto (s : Z) (a : Net_address) (bs : list byte) (n : Z)
  (st st1 : net) : Prop :=
  trace st1 = trace st ++ [EvSendto s a (take (Z.to_nat n) bs)] ∧
  o2n_fds st1 = o2n_fds st ∧ o2n_fds_info st1 = o2n_fds_info st ∧
  heap st1 = heap st ∧ o2n_udp_send_sock st1 = o2n_udp_send_sock st ∧
  o2n_broadcast_sock st1 = o2n_broadcast_sock st ∧
  local_to_addr st1 = local_to_addr st ∧
  o2n_broadcast_to_addr st1 = o2n_broadcast_to_addr st.

Lemma sys_sendto_exact s bs n a st :
  ∃ st1,
    sys_sendto s bs n a st
      = Some (if sendto_ok (kernel st !! s) then n else -1, st1) ∧
    after_sendto s a bs n st st1.
Proof.
  destruct st as [fds infos hp flag us bs' la ba en er kn tr].
  unfold sys_sendto, sendto_ok, after_sendto. cbn.
  destruct (kn !! s) as [[sc w rb ri rd bl ss se]|]; cbn.
  - destruct sc as [|[k|e] sc]; cbn; eexists; (split; [reflexivity|done]).
  - eexists. split; [reflexivity|done].
Qed.

(** The diagnostics of the three senders. *)
Definition udp_diag : list event :=
  [EvPerror "error sending udp to port"; EvPerror "o2n_send_udp_via_socket"].
Definition local_diag : list event :=
  [EvPerror "Error attempting to send udp message locally"].
Definition broadcast_diag : list event :=
  [EvPerror "Error attempting to broadcast discovery message"].

(** C9 (amended): each of the three senders issues exactly one [sendto],
    of the [m_length] payload bytes of the message, and returns; none
    tries again.  [o2n_send_udp] and [o2n_send_udp_local] free the message
    whether [sendto] succeeds or fails; [o2n_send_broadcast] frees
    nothing: the message stays with its caller.  A failure of [sendto],
    and only a failure, is reported: by diagnostics in all three, and in
    addition to the caller by [o2n_send_udp] (O2_FAIL instead of
    O2_SUCCESS) and by [o2n_send_broadcast] (the -1 of [sendto] instead of
    the length); [o2n_send_udp_local] returns nothing.
    [o2n_send_udp_local] and [o2n_send_broadcast] send to the low 16
    bits of the port they are given. *)
Theorem udp_senders_consume st ua port_l port_b msg :
  0 ≤ m_length msg →
  let dgram := take (Z.to_nat (m_length msg)) (payload msg) in
  let sent_u := sendto_ok (kernel st !! o2n_udp_send_sock st) in
  let sent_b := sendto_ok (kernel st !! o2n_broadcast_sock st) in
  (∃ st',
      o2n_send_udp ua msg st
        = Some (if sent_u then O2_SUCCESS else O2_FAIL, st') ∧
      trace st' =
        trace st ++ [EvSendto (o2n_udp_send_sock st) ua dgram; EvFree msg]
        ++ (if sent_u then [] else udp_diag)) ∧
  (∃ st',
      o2n_send_udp_local port_l msg st = Some (tt, st') ∧
      local_to_addr st'
        = Addr (sin_addr (local_to_addr st)) (port_l mod 2 ^ 16) ∧
      trace st' =
        trace st ++ [EvSendto (o2n_udp_send_sock st) (local_to_addr st') dgram]
        ++ (if sent_u then [] else local_diag) ++ [EvFree msg]) ∧
  (∃ st',
      o2n_send_broadcast port_b msg st
        = Some (if sent_b then m_length msg else -1, st') ∧
      trace st' =
        trace st ++
        [EvSendto (o2n_broadcast_sock st)
           (Addr (sin_addr (o2n_broadcast_to_addr st)) (port_b mod 2 ^ 16))
           dgram]
        ++ (if sent_b then [] else broadcast_diag)).
Proof.
  intros Hlen dgram sent_u sent_b. split; [|split].
  - unfold o2n_send_udp, o2n_send_udp_via_socket.
    unfold bind at 1, gets at 1. unfold bind at 1.
    destruct (sys_sendto_exact (o2n_udp_send_sock st) (payload msg)
                (m_length msg) ua st) as (st1 & -> & Htr & _).
    fold sent_u. destruct sent_u.
    + destruct (Z.ltb_spec (m_length msg) 0); [lia|].
      eexists. mrun. split; [reflexivity|].
      rewrite Htr, <- ?app_assoc. by cbn.
    + change (-1 <? 0) with true.
      eexists. mrun. split; [reflexivity|].
      rewrite Htr, <- ?app_assoc. by cbn.
  - unfold o2n_send_udp_local.
    unfold bind at 1, modify at 1. unfold bind at 1, gets at 1.
    unfold bind at 1, gets at 1. unfold bind at 1.
    set (st0 := set_local_to_addr
                  (Addr (sin_addr (local_to_addr st)) (port_l mod 2 ^ 16))
                  st).
    destruct (sys_sendto_exact (o2n_udp_send_sock st0) (payload msg)
                (m_length msg) (local_to_addr st0) st0)
      as (st1 & -> & Htr & _ & _ & _ & _ & _ & Hla & _).
    change (kernel st0 !! o2n_udp_send_sock st0)
      with (kernel st !! o2n_udp_send_sock st).
    fold sent_u.
    change (trace st0) with (trace st) in Htr.
    change (o2n_udp_send_sock st0) with (o2n_udp_send_sock st) in Htr.
    change (local_to_addr st0)
      with (Addr (sin_addr (local_to_addr st)) (port_l mod 2 ^ 16))
      in Htr, Hla.
    destruct sent_u.
    + destruct (Z.ltb_spec (m_length msg) 0); [lia|].
      eexists. mrun. split; [reflexivity|].
      destruct st1. cbn in *. subst. split; [done|].
      by rewrite <- ?app_assoc.
    + change (-1 <? 0) with true.
      eexists. mrun. split; [reflexivity|].
      destruct st1. cbn in *. subst. split; [done|].
      by rewrite <- ?app_assoc.
  - unfold o2n_send_broadcast.
    unfold bind at 1, modify at 1. unfold bind at 1, gets at 1.
    unfold bind at 1, gets at 1. unfold bind at 1.
    set (st0 := set_broadcast_to_addr
                  (Addr (sin_addr (o2n_broadcast_to_addr st))
                     (port_b mod 2 ^ 16)) st).
    destruct (sys_sendto_exact (o2n_broadcast_sock st0) (payload msg)
                (m_length msg) (o2n_broadcast_to_addr st0) st0)
      as (st1 & -> & Htr & _).
    change (kernel st0 !! o2n_broadcast_sock st0)
      with (kernel st !! o2n_broadcast_sock st).
    fold sent_b.
    change (trace st0) with (trace st) in Htr.
    change (o2n_broadcast_sock st0) with (o2n_broadcast_sock st) in Htr.
    change (o2n_broadcast_to_addr st0)
      with (Addr (sin_addr (o2n_broadcast_to_addr st)) (port_b mod 2 ^ 16))
      in Htr.
    destruct sent_b.
    + destruct (Z.ltb_spec (m_length msg) 0); [lia|].
      eexists. mrun. split; [reflexivity|].
      destruct st1. cbn in *. subst. by rewrite <- ?app_assoc, ?app_nil_r.
    + change (-1 <? 0) with true.
      eexists. mrun. split; [reflexivity|].
      destruct st1. cbn in *. subst. by rewrite <- ?app_assoc.
Qed.

(** On [udp_net] both sockets accept the datagram; it is sent to port
    4464, the low 16 bits of 70000, and broadcast to port 8000, the low 16
    bits of 73536. *)
Lemma udp_senders_consume_witness :
  (∃ st',
      o2n_send_udp (Addr 2130706433 8000) demo_msg1 udp_net
        = Some (O2_SUCCESS, st') ∧
      trace st' =
        [EvSendto 100 (Addr 2130706433 8000) [7; 8]; EvFree demo_msg1]) ∧
  (∃ st',
      o2n_send_udp_local 70000 demo_msg1 udp_net = Some (tt, st') ∧
      local_to_addr st' = Addr 2130706433 4464 ∧
      trace st' =
        [EvSendto 100 (local_to_addr st') [7; 8]; EvFree demo_msg1]) ∧
  (∃ st',
      o2n_send_broadcast 73536 demo_msg1 udp_net = Some (2, st') ∧
      trace st' = [EvSendto 101 (Addr 4294967295 8000) [7; 8]]).
Proof.
  apply (udp_senders_consume udp_net (Addr 2130706433 8000) 70000 73536
           demo_msg1).
  cbn. lia.
Defined.
(** ** Framed receive *)

(** The kernel appends an arriving chunk to the socket's receive buffer. *)
Definition arrive (s : Z) (c : list byte) (st : net) : net :=
  upd_kernel (alter (fun k => set_rx_buf (rx_buf k ++ c) k) s) st.

(** One read-ready event of the framed-TCP receive path: the chunk [c] has
    arrived and [read_whole_message] is run. *)
Definition read_ready (this : ptr) (s : Z) (c : list byte) : M O2err :=
  modify (arrive s c) ;;; read_whole_message this s.

(** Successive read-ready events, one per chunk. *)
Fixpoint feed (this : ptr) (s : Z) (cs : list (list byte)) : M (list O2err) :=
  match cs with
  | [] => ret []
  | c :: cs' =>
      r <- read_ready this s c ;;
      rs <- feed this s cs' ;;
      ret (r :: rs)
  end.

Definition rx_set (p : ptr) (f' : Fds_info) (s : Z) (k' : ksock)
  (e : errno_t) (st : net) : net :=
  Net (o2n_fds st) (o2n_fds_info st) (<[p := f']> (heap st))
    (o2n_socket_delete_flag st) (o2n_udp_send_sock st) (o2n_broadcast_sock st)
    (local_to_addr st) (o2n_broadcast_to_addr st) (o2_ensemble_name st)
    e (<[s := k']> (kernel st)) (trace st).

Lemma sys_recv_data st s k n :
  kernel st !! s = Some k → rx_buf k ≠ [] →
  sys_recv s n st =
    Some ((Z.of_nat (length (take (Z.to_nat n) (rx_buf k))),
           take (Z.to_nat n) (rx_buf k)),
          upd_kernel <[s := set_rx_buf (drop (Z.to_nat n) (rx_buf k)) k]> st).
Proof.
  intros Hk Hb. unfold sys_recv. rewrite Hk.
  by destruct (rx_buf k).
Qed.

Lemma sys_recv_idle st s k e n :
  kernel st !! s = Some k → rx_buf k = [] → rx_idle k = RxNothing e →
  sys_recv s n st = Some ((-1, []), set_errno e st).
Proof.
  intros Hk Hb Hi. unfold sys_recv. by rewrite Hk, Hb, Hi.
Qed.

(** Phase 1, header still incomplete after this read. *)
Lemma read_length_partial st p s f k :
  heap st !! p = Some f → kernel st !! s = Some k →
  in_length_got f = Z.of_nat (length (in_length_mem f)) →
  rx_buf k ≠ [] →
  (length (in_length_mem f) + length (rx_buf k) < 4)%nat →
  read_length p s st =
    Some (Some O2_FAIL,
          rx_set p
            (set_in_length_got (in_length_got f + Z.of_nat (length (rx_buf k)))
               (set_in_length_mem (in_length_mem f ++ rx_buf k) f))
            s (set_rx_buf [] k) (errno st) st).
Proof.
  intros Hp Hk Hgot Hne Hlen. unfold read_length.
  unfold bind at 1, deref at 1. rewrite Hp.
  destruct (Z.ltb_spec (in_length_got f) 4); [|lia].
  unfold bind at 1. rewrite (sys_recv_data st s k) by done.
  cbn [fst snd].
  assert (Hn : (length (rx_buf k) ≤ Z.to_nat (4 - in_length_got f))%nat)
    by lia.
  rewrite take_ge, drop_ge by done.
  destruct (Z.leb_spec (Z.of_nat (length (rx_buf k))) 0).
  { destruct (rx_buf k); [done|cbn in *; lia]. }
  destruct st as [fds infos hp flag us bs la ba en er kn tr].
  destruct f as [tag idx dm raw il ilm im ilg img om oms pt ow].
  cbn in *. mrun.
  destruct (Z.ltb_spec (ilg + Z.of_nat (length (rx_buf k))) 5); [|lia].
  destruct (Z.ltb_spec (ilg + Z.of_nat (length (rx_buf k))) 4); [|lia].
  msimpl. unfold rx_set. msimpl. by rewrite ?insert_insert_eq.
Qed.

(** Phase 1, header completed by this read: the length is decoded, the
    buffer allocated, and the function goes on to phase 2. *)
Lemma read_length_done st p s f k :
  heap st !! p = Some f → kernel st !! s = Some k →
  in_length_got f = Z.of_nat (length (in_length_mem f)) →
  in_message f = None →
  rx_buf k ≠ [] →
  (length (in_length_mem f) < 4)%nat →
  (4 ≤ length (in_length_mem f) + length (rx_buf k))%nat →
  let bs := take (4 - length (in_length_mem f)) (rx_buf k) in
  read_length p s st =
    Some (None,
          rx_set p
            (set_in_msg_got 0
               (set_in_message
                  (Some (o2n_message_new
                           (ntohl_bytes (in_length_mem f ++ bs))))
                  (set_in_length (ntohl_bytes (in_length_mem f ++ bs))
                     (set_in_length_got 4
                        (set_in_length_mem (in_length_mem f ++ bs) f)))))
            s (set_rx_buf (drop (4 - length (in_length_mem f)) (rx_buf k)) k)
            (errno st) st).
Proof.
  intros Hp Hk Hgot Hmsg Hne Hlt Hge bs. unfold read_length.
  unfold bind at 1, deref at 1. rewrite Hp.
  destruct (Z.ltb_spec (in_length_got f) 4); [|lia].
  unfold bind at 1. rewrite (sys_recv_data st s k) by done.
  cbn [fst snd].
  replace (Z.to_nat (4 - in_length_got f))
    with (4 - length (in_length_mem f))%nat by lia.
  fold bs.
  assert (Hbs : length bs = (4 - length (in_length_mem f))%nat).
  { unfold bs. rewrite length_take. lia. }
  rewrite Hbs.
  destruct (Z.leb_spec (Z.of_nat (4 - length (in_length_mem f))) 0); [lia|].
  destruct st as [fds infos hp flag us bs' la ba en er kn tr].
  destruct f as [tag idx dm raw il ilm im ilg img om oms pt ow].
  cbn in *. subst im. mrun.
  replace (ilg + Z.of_nat (4 - length ilm)) with 4 by lia.
  msimpl. mrun. unfold rx_set, o2n_message_new. msimpl.
  by rewrite ?insert_insert_eq.
Qed.

(** *** Byte order *)

Lemma lor_shiftl_small x k b :
  0 ≤ k → 0 ≤ b < 2 ^ k → Z.lor (Z.shiftl x k) b = x * 2 ^ k + b.
Proof.
  intros Hk Hb. rewrite Z.shiftl_mul_pow2 by lia.
  assert (Hland : Z.land (x * 2 ^ k) b = 0).
  { apply Z.bits_inj'. intros n Hn.
    rewrite Z.land_spec, Z.bits_0.
    destruct (Z.lt_ge_cases n k).
    - by rewrite Z.mul_pow2_bits_low by lia.
    - destruct (Z.eq_dec b 0) as [->|Hne].
      + rewrite Z.bits_0. apply andb_false_r.
      + rewrite (Z.bits_above_log2 b n), andb_false_r; [done|lia|].
        apply Z.log2_lt_pow2; [lia|].
        apply Z.lt_le_trans with (2 ^ k); [lia|].
        apply Z.pow_le_mono_r; lia. }
  rewrite <- (Z.lxor_lor _ _ Hland). symmetry.
  by apply Z.add_nocarry_lxor.
Qed.

(** A length sent in network byte order is read back unchanged. *)
Lemma ntohl_htonl len :
  0 ≤ len < 2 ^ 31 → ntohl_bytes (htonl_bytes len) = len.
Proof.
  intros H. unfold htonl_bytes, ntohl_bytes.
  change 255 with (Z.ones 8). rewrite !Z.land_ones, !Z.shiftr_div_pow2 by lia.
  assert (H8 : 0 ≤ len mod 2 ^ 8 < 2 ^ 8) by (apply Z.mod_pos_bound; lia).
  assert (H16 : 0 ≤ (len / 2 ^ 8) mod 2 ^ 8 < 2 ^ 8)
    by (apply Z.mod_pos_bound; lia).
  assert (H24 : 0 ≤ (len / 2 ^ 16) mod 2 ^ 8 < 2 ^ 8)
    by (apply Z.mod_pos_bound; lia).
  assert (H32 : 0 ≤ (len / 2 ^ 24) mod 2 ^ 8 < 2 ^ 8)
    by (apply Z.mod_pos_bound; lia).
  rewrite (lor_shiftl_small _ 8) by lia.
  rewrite (lor_shiftl_small _ 16) by lia.
  rewrite (lor_shiftl_small _ 24) by lia.
  assert (Hsum : (len / 2 ^ 24) mod 2 ^ 8 * 2 ^ 24 +
     ((len / 2 ^ 16) mod 2 ^ 8 * 2 ^ 16 +
      ((len / 2 ^ 8) mod 2 ^ 8 * 2 ^ 8 + len mod 2 ^ 8)) = len).
  { change (2 ^ 8) with 256 in *. change (2 ^ 16) with 65536 in *.
    change (2 ^ 24) with 16777216 in *. change (2 ^ 31) with 2147483648 in *.
    Z.div_mod_to_equations. lia. }
  rewrite Hsum. unfold to_int32.
  rewrite Z.mod_small by lia.
  destruct (Z.ltb_spec len (2 ^ 31)); lia.
Qed.

Lemma length_htonl_bytes len : length (htonl_bytes len) = 4%nat.
Proof. reflexivity. Qed.

Lemma length_frame m : length (frame m) = (4 + length (payload m))%nat.
Proof. unfold frame. by rewrite length_app. Qed.

(** A message whose length field is the size of its payload and fits the
    32-bit signed length of the wire format. *)
Definition well_formed (m : o2n_message) : Prop :=
  m_length m = Z.of_nat (length (payload m)) ∧ 0 ≤ m_length m < 2 ^ 31.

(** *** Phase 2 *)

Lemma read_body_skip st p s f :
  heap st !! p = Some f → in_length f ≤ in_msg_got f →
  read_body p s st = Some (None, st).
Proof.
  intros Hp Hle. unfold read_body, bind, deref. rewrite Hp.
  by destruct (Z.ltb_spec (in_msg_got f) (in_length f)); [lia|].
Qed.

Lemma read_body_idle st p s f k m0 e :
  heap st !! p = Some f → in_msg_got f < in_length f →
  in_message f = Some m0 →
  kernel st !! s = Some k → rx_buf k = [] → rx_idle k = RxNothing e →
  retryable e →
  read_body p s st = Some (Some O2_FAIL, set_errno e st).
Proof.
  intros Hp Hlt Hm Hk Hb Hi He. unfold read_body.
  unfold bind at 1, deref at 1. rewrite Hp.
  destruct (Z.ltb_spec (in_msg_got f) (in_length f)); [|lia].
  unfold in_message_of. rewrite Hm. unfold bind at 1, ret at 1.
  unfold bind at 1. rewrite (sys_recv_idle st s k e) by done.
  cbn [fst snd]. change (-1 <=? 0) with true. cbn match.
  unfold error_exit. change (-1 =? 0) with false.
  change (-1 <? 0) with true. cbn match.
  unfold bind, TERMINATING_SOCKET_ERROR, bind, gets, ret.
  replace (errno (set_errno e st)) with e by by destruct st.
  by destruct He as [-> | ->].
Qed.

Lemma read_body_data st p s f k m0 :
  heap st !! p = Some f → in_msg_got f < in_length f →
  in_message f = Some m0 →
  kernel st !! s = Some k → rx_buf k ≠ [] →
  Z.of_nat (length (rx_buf k)) ≤ in_length f - in_msg_got f →
  read_body p s st =
    Some ((if in_msg_got f + Z.of_nat (length (rx_buf k)) <? in_length f
           then Some O2_FAIL else None),
          rx_set p
            (set_in_msg_got (in_msg_got f + Z.of_nat (length (rx_buf k)))
               (set_in_message
                  (Some (Message (m_length m0) (payload m0 ++ rx_buf k))) f))
            s (set_rx_buf [] k) (errno st) st).
Proof.
  intros Hp Hlt Hm Hk Hne Hfit. unfold read_body.
  unfold bind at 1, deref at 1. rewrite Hp.
  destruct (Z.ltb_spec (in_msg_got f) (in_length f)); [|lia].
  unfold in_message_of. rewrite Hm. unfold bind at 1, ret at 1.
  unfold bind at 1. rewrite (sys_recv_data st s k) by done.
  cbn [fst snd].
  rewrite take_ge, drop_ge by lia.
  destruct (Z.leb_spec (Z.of_nat (length (rx_buf k))) 0).
  { destruct (rx_buf k); [done|cbn in *; lia]. }
  destruct st as [fds infos hp flag us bs la ba en er kn tr].
  destruct f as [tag idx dm raw il ilm im ilg img om oms pt ow].
  cbn in *. mrun. unfold rx_set. msimpl.
  rewrite ?insert_insert_eq.
  by destruct (img + Z.of_nat (length (rx_buf k)) <? il).
Qed.

(** *** The assembly state across read-ready events *)

(** [f'] differs from [f] in the inbound-assembly fields only. *)
Definition rx_only (f f' : Fds_info) : Prop :=
  net_tag f' = net_tag f ∧ fds_index f' = fds_index f ∧
  delete_me f' = delete_me f ∧ raw_flag f' = raw_flag f ∧
  out_message f' = out_message f ∧ out_msg_sent f' = out_msg_sent f ∧
  port f' = port f ∧ owner f' = owner f.

(** [st'] differs from [st] in connection [p], kernel socket [s] and
    [errno] only. *)
Definition rx_changed (p : ptr) (s : Z) (st st' : net) : Prop :=
  o2n_fds st' = o2n_fds st ∧ o2n_fds_info st' = o2n_fds_info st ∧
  o2n_socket_delete_flag st' = o2n_socket_delete_flag st ∧
  o2_ensemble_name st' = o2_ensemble_name st ∧
  trace st' = trace st ∧
  (∀ q, q ≠ p → heap st' !! q = heap st !! q) ∧
  (∀ t, t ≠ s → kernel st' !! t = kernel st !! t).

Lemma rx_changed_refl p s st : rx_changed p s st st.
Proof. by repeat split. Qed.

Lemma rx_changed_trans p s st1 st2 st3 :
  rx_changed p s st1 st2 → rx_changed p s st2 st3 → rx_changed p s st1 st3.
Proof.
  intros (?&?&?&?&?&Hh1&Hk1) (?&?&?&?&?&Hh2&Hk2).
  repeat split; try congruence.
  - intros q Hq. by rewrite Hh2, Hh1.
  - intros t Ht. by rewrite Hk2, Hk1.
Qed.

Lemma rx_changed_rx_set p s f' k' e st :
  rx_changed p s st (rx_set p f' s k' e st).
Proof.
  repeat split; cbn.
  - intros q Hq. by rewrite lookup_insert_ne.
  - intros t Ht. by rewrite lookup_insert_ne.
Qed.

Lemma rx_changed_set_errno p s e st : rx_changed p s st (set_errno e st).
Proof. by repeat split. Qed.

Lemma rx_changed_arrive p s c st : rx_changed p s st (arrive s c st).
Proof.
  repeat split; cbn. intros t Ht. by rewrite lookup_alter_ne.
Qed.

(** Header complete, [got] is the part of the payload received so far. *)
Definition body_ready (m : o2n_message) (got : list byte) (f : Fds_info)
  : Prop :=
  raw_flag f = false ∧ in_length_got f = 4 ∧
  in_length_mem f = htonl_bytes (m_length m) ∧
  in_length f = m_length m ∧
  in_message f = Some (Message (m_length m) got) ∧
  in_msg_got f = Z.of_nat (length got).

Lemma read_rest_step st p s f k m got post e :
  well_formed m → heap st !! p = Some f → kernel st !! s = Some k →
  rx_idle k = RxNothing e → retryable e →
  body_ready m got f → payload m = got ++ rx_buf k ++ post →
  ∃ st' f' k',
    read_rest p s st =
      Some ((if decide (post = []) then O2_SUCCESS else O2_FAIL), st') ∧
    rx_changed p s st st' ∧
    heap st' !! p = Some f' ∧ kernel st' !! s = Some k' ∧
    rx_buf k' = [] ∧ rx_idle k' = RxNothing e ∧
    rx_only f f' ∧ body_ready m (got ++ rx_buf k) f'.
Proof.
  intros [Hlen Hrange] Hp Hk Hidle He (Hraw & Hg4 & Hmem & Hil & Him & Hgot)
    Hpay.
  assert (Hsz : Z.of_nat (length got) + Z.of_nat (length (rx_buf k))
                + Z.of_nat (length post) = m_length m).
  { rewrite Hlen, Hpay, !length_app. lia. }
  unfold read_rest. unfold bind at 1.
  destruct (decide (rx_buf k = [])) as [Hempty|Hdata].
  - rewrite Hempty in *. rewrite app_nil_r. cbn in Hsz.
    destruct (decide (post = [])) as [->|Hpost].
    + (* the message was complete already (empty payload) *)
      cbn in Hsz.
      rewrite (read_body_skip st p s f) by (done || lia).
      unfold bind at 1, deref at 1. rewrite Hp.
      unfold in_message_of. rewrite Him. unfold bind at 1, ret at 1.
      unfold bind, store, bind, deref, modify, ret. rewrite Hp.
      eexists _, _, k. split; [done|].
      split; [|split; [apply lookup_insert_eq|]].
      { repeat split; cbn. intros q Hq. by rewrite lookup_insert_ne. }
      split; [by destruct st|]. split; [done|]. split; [done|].
      split; [by destruct f|].
      destruct f; unfold body_ready; mnorm; cbn in *; subst.
      repeat split; done.
    + assert (0 < length post)%nat by (destruct post; [done|cbn; lia]).
      rewrite (read_body_idle st p s f k _ e) by (done || lia).
      eexists _, f, k. split; [done|].
      split; [apply rx_changed_set_errno|].
      split; [by destruct st|]. split; [by destruct st|].
      repeat split; done.
  - assert (0 < length (rx_buf k))%nat
      by (destruct (rx_buf k); [done|cbn; lia]).
    rewrite (read_body_data st p s f k (Message (m_length m) got))
      by (done || lia).
    rewrite Hgot, Hil. cbn [m_length payload].
    destruct (decide (post = [])) as [->|Hpost].
    + cbn in Hsz.
      destruct (Z.ltb_spec (Z.of_nat (length got)
                  + Z.of_nat (length (rx_buf k))) (m_length m)); [lia|].
      unfold bind at 1, deref at 1. cbn [heap rx_set].
      rewrite lookup_insert_eq.
      unfold in_message_of. cbn [in_message set_in_msg_got set_in_message].
      unfold bind at 1, ret at 1.
      unfold bind, store, bind, deref, modify, ret. cbn [heap rx_set].
      rewrite lookup_insert_eq.
      eexists _, _, (set_rx_buf [] k). split; [done|].
      split; [|split; [apply lookup_insert_eq|]].
      { repeat split; cbn.
        - intros q Hq. by rewrite !lookup_insert_ne.
        - intros t Ht. by rewrite lookup_insert_ne. }
      split; [cbn; apply lookup_insert_eq|].
      split; [done|]. split; [by destruct k|].
      split; [by destruct f|].
      destruct f; unfold body_ready; mnorm; cbn in *; subst.
      repeat split; try done. rewrite length_app. lia.
    + assert (0 < length post)%nat by (destruct post; [done|cbn; lia]).
      destruct (Z.ltb_spec (Z.of_nat (length got)
                  + Z.of_nat (length (rx_buf k))) (m_length m)); [|lia].
      eexists _, _, (set_rx_buf [] k). split; [done|].
      split; [apply rx_changed_rx_set|].
      split; [apply lookup_insert_eq|].
      split; [cbn; apply lookup_insert_eq|].
      split; [done|]. split; [by destruct k|].
      split; [by destruct f|].
      destruct f; unfold body_ready; mnorm; cbn in *; subst.
      repeat split; try done. rewrite length_app. lia.
Qed.

Lemma rx_only_refl f : rx_only f f.
Proof. by repeat split. Qed.

Lemma rx_only_trans f1 f2 f3 : rx_only f1 f2 → rx_only f2 f3 → rx_only f1 f3.
Proof.
  intros (?&?&?&?&?&?&?&?) (?&?&?&?&?&?&?&?). repeat split; congruence.
Qed.

(** The inbound-assembly fields after [pre], a proper prefix of the frame
    of [m], has been read. *)
Definition rx_assembling (m : o2n_message) (pre : list byte) (f : Fds_info)
  : Prop :=
  if decide (length pre < 4)%nat then
    raw_flag f = false ∧ in_length_mem f = pre ∧
    in_length_got f = Z.of_nat (length pre) ∧ in_message f = None
  else body_ready m (drop 4 pre) f.

Lemma read_length_skip st p s f :
  heap st !! p = Some f → in_length_got f = 4 →
  read_length p s st = Some (None, st).
Proof.
  intros Hp Hg. unfold read_length, bind, deref. by rewrite Hp, Hg.
Qed.

Lemma read_ready_step st p s f k m pre c post e :
  well_formed m → heap st !! p = Some f → kernel st !! s = Some k →
  rx_buf k = [] → rx_idle k = RxNothing e → retryable e →
  rx_assembling m pre f → c ≠ [] → frame m = pre ++ c ++ post →
  ∃ st' f' k',
    read_ready p s c st =
      Some ((if decide (post = []) then O2_SUCCESS else O2_FAIL), st') ∧
    rx_changed p s st st' ∧
    heap st' !! p = Some f' ∧ kernel st' !! s = Some k' ∧
    rx_buf k' = [] ∧ rx_idle k' = RxNothing e ∧
    rx_only f f' ∧ rx_assembling m (pre ++ c) f'.
Proof.
  intros Hwf Hp Hk Hbuf Hidle He Hasm Hc Hframe.
  pose proof Hwf as [Hlen Hrange].
  assert (Hclen : (0 < length c)%nat) by (destruct c; [done|cbn; lia]).
  assert (Hfl : (length pre + length c + length post
                 = 4 + length (payload m))%nat).
  { rewrite <- length_frame, Hframe, !length_app. lia. }
  set (st0 := arrive s c st).
  set (k0 := set_rx_buf (rx_buf k ++ c) k).
  assert (Hp0 : heap st0 !! p = Some f) by by destruct st.
  assert (Hk0 : kernel st0 !! s = Some k0).
  { subst st0 k0. destruct st. cbn in *. by rewrite lookup_alter_eq, Hk. }
  assert (Hbuf0 : rx_buf k0 = c) by (subst k0; destruct k; cbn in *; by subst).
  assert (Hidle0 : rx_idle k0 = RxNothing e) by (subst k0; by destruct k).
  assert (Hch0 : rx_changed p s st st0) by apply rx_changed_arrive.
  unfold read_ready. unfold bind at 1, modify at 1. fold st0.
  unfold read_whole_message. unfold bind at 1, deref at 1. rewrite Hp0.
  unfold rx_assembling in Hasm.
  destruct (decide (length pre < 4)%nat) as [Hshort|Hlong].
  - destruct Hasm as (Hraw & Hmem & Hgot & Hmsg).
    rewrite Hgot, Hraw.
    destruct (Z.ltb_spec (Z.of_nat (length pre)) 5); [|lia].
    unfold bind at 1, assert at 1, ret at 1.
    unfold bind at 1.
    destruct (decide (length pre + length c < 4)%nat) as [Hpart|Hdone].
    + assert (Hg' : in_length_got f = Z.of_nat (length (in_length_mem f)))
        by by rewrite Hmem.
      assert (Hne0 : rx_buf k0 ≠ []) by by rewrite Hbuf0.
      assert (Hl0 : (length (in_length_mem f) + length (rx_buf k0) < 4)%nat)
        by (rewrite Hmem, Hbuf0; lia).
      rewrite (read_length_partial st0 p s f k0 Hp0 Hk0 Hg' Hne0 Hl0).
      rewrite decide_False by (intros ->; cbn in Hfl; lia).
      eexists _, _, (set_rx_buf [] k0). split; [done|].
      split; [by eapply rx_changed_trans; [|apply rx_changed_rx_set]|].
      split; [apply lookup_insert_eq|].
      split; [cbn; apply lookup_insert_eq|].
      split; [done|]. split; [by destruct k|].
      split; [by destruct f|].
      unfold rx_assembling. rewrite decide_True by (rewrite length_app; lia).
      destruct f; mnorm; cbn in *; subst.
      rewrite Hbuf0, length_app. repeat split; try done. lia.
    + assert (Hg' : in_length_got f = Z.of_nat (length (in_length_mem f)))
        by by rewrite Hmem.
      assert (Hne0 : rx_buf k0 ≠ []) by by rewrite Hbuf0.
      assert (Hl0 : (length (in_length_mem f) < 4)%nat)
        by (rewrite Hmem; lia).
      assert (Hl1 : (4 ≤ length (in_length_mem f) + length (rx_buf k0))%nat)
        by (rewrite Hmem, Hbuf0; lia).
      rewrite (read_length_done st0 p s f k0 Hp0 Hk0 Hg' Hmsg Hne0 Hl0 Hl1).
      rewrite Hmem, Hbuf0.
      set (bs := take (4 - length pre) c).
      set (rest := drop (4 - length pre) c).
      assert (Hhdr : pre ++ bs = htonl_bytes (m_length m)).
      { assert (Ht : take 4 (frame m) = htonl_bytes (m_length m)).
        { unfold frame. by rewrite take_app_length'. }
        rewrite <- Ht, Hframe, take_app, (take_ge pre) by lia.
        rewrite take_app.
        replace (4 - length pre - length c)%nat with 0%nat by lia.
        by rewrite take_0, app_nil_r. }
      assert (Hpay : payload m = [] ++ rest ++ post).
      { assert (Hd : drop 4 (frame m) = payload m).
        { unfold frame. by rewrite drop_app_length'. }
        rewrite <- Hd, Hframe, drop_app, (drop_ge pre) by lia.
        cbn. rewrite drop_app.
        replace (4 - length pre - length c)%nat with 0%nat by lia. done. }
      rewrite Hhdr, ntohl_htonl by done.
      match goal with |- context [read_rest p s ?st1] =>
        destruct (read_rest_step st1 p s
                    (set_in_msg_got 0
                       (set_in_message
                          (Some (o2n_message_new (m_length m)))
                          (set_in_length (m_length m)
                             (set_in_length_got 4
                                (set_in_length_mem
                                   (htonl_bytes (m_length m)) f)))))
                    (set_rx_buf rest k0) m [] post e)
          as (st' & f' & k' & Hrun & Hch & Hp' & Hk' & Hb' & Hi' & Hro & Hbr);
          try done
      end.
      { apply lookup_insert_eq. }
      { cbn. apply lookup_insert_eq. }
      exists st', f', k'. split; [done|].
      split.
      { eapply rx_changed_trans; [done|].
        eapply rx_changed_trans; [apply rx_changed_rx_set|done]. }
      split; [done|]. split; [done|]. split; [done|]. split; [done|].
      split.
      { eapply rx_only_trans; [|done]. by destruct f. }
      unfold rx_assembling. rewrite decide_False by (rewrite length_app; lia).
      rewrite drop_app, (drop_ge pre), app_nil_l by lia.
      replace (rx_buf (set_rx_buf rest k0)) with rest in Hbr
        by by destruct k.
      done.
  - destruct Hasm as (Hraw & Hg4 & Hmem & Hil & Him & Hgot).
    rewrite Hg4, Hraw. change (4 <? 5) with true.
    unfold bind at 1, assert at 1, ret at 1.
    unfold bind at 1. rewrite (read_length_skip st0 p s f) by done.
    assert (Hpay : payload m = drop 4 pre ++ rx_buf k0 ++ post).
    { assert (Hd : drop 4 (frame m) = payload m).
      { unfold frame. by rewrite drop_app_length'. }
      rewrite <- Hd, Hframe, drop_app, Hbuf0.
      replace (4 - length pre)%nat with 0%nat by lia. done. }
    destruct (read_rest_step st0 p s f k0 m (drop 4 pre) post e)
      as (st' & f' & k' & Hrun & Hch & Hp' & Hk' & Hb' & Hi' & Hro & Hbr);
      try done.
    exists st', f', k'. split; [done|].
    split; [by eapply rx_changed_trans|].
    split; [done|]. split; [done|]. split; [done|]. split; [done|].
    split; [done|].
    unfold rx_assembling. rewrite decide_False by (rewrite length_app; lia).
    rewrite drop_app. replace (4 - length pre)%nat with 0%nat by lia.
    by rewrite Hbuf0 in Hbr.
Qed.

Lemma feed_app p s a b st ra st1 rb st2 :
  feed p s a st = Some (ra, st1) → feed p s b st1 = Some (rb, st2) →
  feed p s (a ++ b) st = Some (ra ++ rb, st2).
Proof.
  revert st ra. induction a as [|c a IH]; intros st ra Ha Hb; cbn in *.
  - unfold ret in Ha. by simplify_eq.
  - unfold bind in *.
    destruct (read_ready p s c st) as [[r st']|]; [|done].
    destruct (feed p s a st') as [[rs st'']|] eqn:Hfa; [|done].
    unfold ret in Ha. simplify_eq.
    by rewrite (IH _ _ Hfa Hb).
Qed.

(** Bytes held by the inbound-assembly fields. *)
Definition assembled_bytes (f : Fds_info) : list byte :=
  in_length_mem f ++
  match in_message f with Some m => payload m | None => [] end.

Lemma rx_assembling_bytes m pre post f :
  frame m = pre ++ post → rx_assembling m pre f →
  assembled_bytes f = pre ∧
  in_length_got f = Z.min 4 (Z.of_nat (length pre)).
Proof.
  intros Hframe. unfold rx_assembling, assembled_bytes.
  destruct (decide (length pre < 4)%nat) as [Hshort|Hlong].
  - intros (_ & -> & -> & ->). rewrite app_nil_r. split; [done|]. lia.
  - intros (_ & -> & -> & _ & -> & _). cbn [payload]. split; [|lia].
    assert (Ht : take 4 (frame m) = htonl_bytes (m_length m)).
    { unfold frame. by rewrite take_app_length'. }
    rewrite <- Ht, Hframe, take_app_le by lia. apply take_drop.
Qed.

(** *** Reads that find more, or less, than the frame needs *)

(** Phase 2 when the socket holds [c], which fits the buffer, followed by
    [extra], which belongs to the next frame: exactly [c] is taken. *)
Lemma read_body_take st p s f k m0 c extra :
  heap st !! p = Some f → in_msg_got f < in_length f →
  in_message f = Some m0 →
  kernel st !! s = Some k → rx_buf k = c ++ extra → c ≠ [] →
  Z.of_nat (length c) ≤ in_length f - in_msg_got f →
  (extra ≠ [] → Z.of_nat (length c) = in_length f - in_msg_got f) →
  read_body p s st =
    Some ((if in_msg_got f + Z.of_nat (length c) <? in_length f
           then Some O2_FAIL else None),
          rx_set p
            (set_in_msg_got (in_msg_got f + Z.of_nat (length c))
               (set_in_message
                  (Some (Message (m_length m0) (payload m0 ++ c))) f))
            s (set_rx_buf extra k) (errno st) st).
Proof.
  intros Hp Hlt Hm Hk Hbuf Hne Hfit Hex. unfold read_body.
  unfold bind at 1, deref at 1. rewrite Hp.
  destruct (Z.ltb_spec (in_msg_got f) (in_length f)); [|lia].
  unfold in_message_of. rewrite Hm. unfold bind at 1, ret at 1.
  unfold bind at 1.
  rewrite (sys_recv_data st s k) by (done || rewrite Hbuf; by destruct c).
  cbn [fst snd]. rewrite Hbuf.
  assert (Htake : take (Z.to_nat (in_length f - in_msg_got f)) (c ++ extra)
                  = c).
  { destruct extra as [|x extra].
    - rewrite app_nil_r. apply take_ge. lia.
    - rewrite <- Hex by done. rewrite Nat2Z.id. by rewrite take_app_length. }
  assert (Hdrop : drop (Z.to_nat (in_length f - in_msg_got f)) (c ++ extra)
                  = extra).
  { destruct extra as [|x extra].
    - rewrite app_nil_r. apply drop_ge. lia.
    - rewrite <- Hex by done. rewrite Nat2Z.id. by rewrite drop_app_length. }
  rewrite Htake, Hdrop.
  destruct (Z.leb_spec (Z.of_nat (length c)) 0).
  { destruct c; [done|cbn in *; lia]. }
  destruct st as [fds infos hp flag us bs la ba en er kn tr].
  destruct f as [tag idx dm raw il ilm im ilg img om oms pt ow].
  cbn in *. mrun. unfold rx_set. msimpl.
  rewrite ?insert_insert_eq.
  by destruct (img + Z.of_nat (length c) <? il).
Qed.

Lemma read_rest_take st p s f k m got c extra post e :
  well_formed m → heap st !! p = Some f → kernel st !! s = Some k →
  rx_idle k = RxNothing e → retryable e →
  body_ready m got f → payload m = got ++ c ++ post →
  rx_buf k = c ++ extra → (post ≠ [] → extra = []) →
  ∃ st' f' k',
    read_rest p s st =
      Some ((if decide (post = []) then O2_SUCCESS else O2_FAIL), st') ∧
    rx_changed p s st st' ∧
    heap st' !! p = Some f' ∧ kernel st' !! s = Some k' ∧
    rx_buf k' = extra ∧ rx_idle k' = RxNothing e ∧
    rx_only f f' ∧ body_ready m (got ++ c) f'.
Proof.
  intros Hwf Hp Hk Hidle He Hbr Hpay Hbuf Hex.
  destruct (decide (extra = [])) as [->|Hextra].
  { rewrite app_nil_r in Hbuf. subst c.
    by apply read_rest_step with (post := post) (e := e). }
  assert (post = []) as ->.
  { destruct post; [done|]. by destruct Hextra, Hex. }
  rewrite app_nil_r in Hpay. rewrite decide_True by done.
  pose proof Hwf as [Hlen Hrange].
  destruct Hbr as (Hraw & Hg4 & Hmem & Hil & Him & Hgot).
  assert (Hsz : Z.of_nat (length got) + Z.of_nat (length c) = m_length m).
  { rewrite Hlen, Hpay, length_app. lia. }
  unfold read_rest. unfold bind at 1.
  destruct (decide (c = [])) as [->|Hc].
  - cbn in Hsz. rewrite app_nil_r.
    rewrite (read_body_skip st p s f) by (done || lia).
    unfold bind at 1, deref at 1. rewrite Hp.
    unfold in_message_of. rewrite Him. unfold bind at 1, ret at 1.
    unfold bind, store, bind, deref, modify, ret. rewrite Hp.
    eexists _, _, k. split; [done|].
    split; [|split; [apply lookup_insert_eq|]].
    { repeat split; cbn. intros q Hq. by rewrite lookup_insert_ne. }
    split; [by destruct st|]. split; [done|]. split; [done|].
    split; [by destruct f|].
    destruct f; unfold body_ready; mnorm; cbn in *; subst.
    repeat split; done.
  - assert (0 < length c)%nat by (destruct c; [done|cbn; lia]).
    rewrite (read_body_take st p s f k (Message (m_length m) got) c extra)
      by (done || lia).
    rewrite Hgot, Hil. cbn [m_length payload].
    destruct (Z.ltb_spec (Z.of_nat (length got) + Z.of_nat (length c))
                (m_length m)); [lia|].
    unfold bind at 1, deref at 1. cbn [heap rx_set].
    rewrite lookup_insert_eq.
    unfold in_message_of. cbn [in_message set_in_msg_got set_in_message].
    unfold bind at 1, ret at 1.
    unfold bind, store, bind, deref, modify, ret. cbn [heap rx_set].
    rewrite lookup_insert_eq.
    eexists _, _, (set_rx_buf extra k). split; [done|].
    split; [|split; [apply lookup_insert_eq|]].
    { repeat split; cbn.
      - intros q Hq. by rewrite !lookup_insert_ne.
      - intros t Ht. by rewrite lookup_insert_ne. }
    split; [cbn; apply lookup_insert_eq|].
    split; [by destruct k|]. split; [by destruct k|].
    split; [by destruct f|].
    destruct f; unfold body_ready; mnorm; cbn in *; subst.
    repeat split; try done. rewrite length_app. lia.
Qed.

(** One call of [read_whole_message] on a socket that holds [c], part of
    the frame being assembled, followed by [extra]. *)
Lemma read_whole_take st p s f k m pre c extra post e :
  well_formed m → heap st !! p = Some f → kernel st !! s = Some k →
  rx_buf k = c ++ extra → rx_idle k = RxNothing e → retryable e →
  rx_assembling m pre f → c ≠ [] → frame m = pre ++ c ++ post →
  (post ≠ [] → extra = []) →
  ∃ st' f' k',
    read_whole_message p s st =
      Some ((if decide (post = []) then O2_SUCCESS else O2_FAIL), st') ∧
    rx_changed p s st st' ∧
    heap st' !! p = Some f' ∧ kernel st' !! s = Some k' ∧
    rx_buf k' = extra ∧ rx_idle k' = RxNothing e ∧
    rx_only f f' ∧ rx_assembling m (pre ++ c) f'.
Proof.
  intros Hwf Hp Hk Hbuf Hidle He Hasm Hc Hframe Hex.
  pose proof Hwf as [Hlen Hrange].
  assert (Hclen : (0 < length c)%nat) by (destruct c; [done|cbn; lia]).
  assert (Hfl : (length pre + length c + length post
                 = 4 + length (payload m))%nat).
  { rewrite <- length_frame, Hframe, !length_app. lia. }
  unfold read_whole_message. unfold bind at 1, deref at 1. rewrite Hp.
  unfold rx_assembling in Hasm.
  destruct (decide (length pre < 4)%nat) as [Hshort|Hlong].
  - destruct Hasm as (Hraw & Hmem & Hgot & Hmsg).
    rewrite Hgot, Hraw.
    destruct (Z.ltb_spec (Z.of_nat (length pre)) 5); [|lia].
    unfold bind at 1, assert at 1, ret at 1.
    unfold bind at 1.
    assert (Hg' : in_length_got f = Z.of_nat (length (in_length_mem f)))
      by by rewrite Hmem.
    assert (Hne0 : rx_buf k ≠ []) by (rewrite Hbuf; by destruct c).
    destruct (decide (length pre + length c < 4)%nat) as [Hpart|Hdone].
    + assert (Hpost : post ≠ []) by (intros ->; cbn in Hfl; lia).
      rewrite (Hex Hpost), app_nil_r in Hbuf.
      assert (Hl0 : (length (in_length_mem f) + length (rx_buf k) < 4)%nat)
        by (rewrite Hmem, Hbuf; lia).
      rewrite (read_length_partial st p s f k Hp Hk Hg' Hne0 Hl0).
      rewrite decide_False by done. rewrite (Hex Hpost).
      eexists _, _, (set_rx_buf [] k). split; [done|].
      split; [apply rx_changed_rx_set|].
      split; [apply lookup_insert_eq|].
      split; [cbn; apply lookup_insert_eq|].
      split; [done|]. split; [by destruct k|].
      split; [by destruct f|].
      unfold rx_assembling. rewrite decide_True by (rewrite length_app; lia).
      rewrite Hbuf.
      destruct f; mnorm; cbn in *; subst.
      rewrite length_app. repeat split; try done. lia.
    + assert (Hl0 : (length (in_length_mem f) < 4)%nat)
        by (rewrite Hmem; lia).
      assert (Hl1 : (4 ≤ length (in_length_mem f) + length (rx_buf k))%nat)
        by (rewrite Hmem, Hbuf, length_app; lia).
      rewrite (read_length_done st p s f k Hp Hk Hg' Hmsg Hne0 Hl0 Hl1).
      rewrite Hmem, Hbuf.
      rewrite take_app_le, drop_app_le by lia.
      set (bs := take (4 - length pre) c).
      set (rest := drop (4 - length pre) c).
      assert (Hhdr : pre ++ bs = htonl_bytes (m_length m)).
      { assert (Ht : take 4 (frame m) = htonl_bytes (m_length m)).
        { unfold frame. by rewrite take_app_length'. }
        rewrite <- Ht, Hframe, take_app, (take_ge pre) by lia.
        rewrite take_app.
        replace (4 - length pre - length c)%nat with 0%nat by lia.
        by rewrite take_0, app_nil_r. }
      assert (Hpay : payload m = [] ++ rest ++ post).
      { assert (Hd : drop 4 (frame m) = payload m).
        { unfold frame. by rewrite drop_app_length'. }
        rewrite <- Hd, Hframe, drop_app, (drop_ge pre) by lia.
        cbn. rewrite drop_app.
        replace (4 - length pre - length c)%nat with 0%nat by lia. done. }
      rewrite Hhdr, ntohl_htonl by done.
      match goal with |- context [read_rest p s ?st1] =>
        destruct (read_rest_take st1 p s
                    (set_in_msg_got 0
                       (set_in_message
                          (Some (o2n_message_new (m_length m)))
                          (set_in_length (m_length m)
                             (set_in_length_got 4
                                (set_in_length_mem
                                   (htonl_bytes (m_length m)) f)))))
                    (set_rx_buf (rest ++ extra) k) m [] rest extra post e)
          as (st' & f' & k' & Hrun & Hch & Hp' & Hk' & Hb' & Hi' & Hro & Hbr);
          try done
      end.
      { apply lookup_insert_eq. }
      { cbn. apply lookup_insert_eq. }
      exists st', f', k'. split; [done|].
      split.
      { eapply rx_changed_trans; [apply rx_changed_rx_set|done]. }
      split; [done|]. split; [done|]. split; [done|]. split; [done|].
      split.
      { eapply rx_only_trans; [|done]. by destruct f. }
      unfold rx_assembling. rewrite decide_False by (rewrite length_app; lia).
      rewrite drop_app, (drop_ge pre), app_nil_l by lia.
      done.
  - destruct Hasm as (Hraw & Hg4 & Hmem & Hil & Him & Hgot).
    rewrite Hg4, Hraw. change (4 <? 5) with true.
    unfold bind at 1, assert at 1, ret at 1.
    unfold bind at 1. rewrite (read_length_skip st p s f) by done.
    assert (Hpay : payload m = drop 4 pre ++ c ++ post).
    { assert (Hd : drop 4 (frame m) = payload m).
      { unfold frame. by rewrite drop_app_length'. }
      rewrite <- Hd, Hframe, drop_app.
      replace (4 - length pre)%nat with 0%nat by lia. done. }
    destruct (read_rest_take st p s f k m (drop 4 pre) c extra post e)
      as (st' & f' & k' & Hrun & Hch & Hp' & Hk' & Hb' & Hi' & Hro & Hbr);
      try done.
    exists st', f', k'. split; [done|].
    split; [done|].
    split; [done|]. split; [done|]. split; [done|]. split; [done|].
    split; [done|].
    unfold rx_assembling. rewrite decide_False by (rewrite length_app; lia).
    rewrite drop_app. replace (4 - length pre)%nat with 0%nat by lia.
    done.
Qed.

(** A call that finds the socket empty in the middle of a frame: it
    returns O2_FAIL and only [errno] changes. *)
Lemma read_whole_spurious st p s f k m pre e :
  well_formed m → heap st !! p = Some f → kernel st !! s = Some k →
  rx_buf k = [] → rx_idle k = RxNothing e → retryable e →
  rx_assembling m pre f → (length pre < length (frame m))%nat →
  read_whole_message p s st = Some (O2_FAIL, set_errno e st).
Proof.
  intros Hwf Hp Hk Hbuf Hidle He Hasm Hlt. pose proof Hwf as [Hlen Hrange].
  rewrite length_frame in Hlt.
  unfold read_whole_message. unfold bind at 1, deref at 1. rewrite Hp.
  unfold rx_assembling in Hasm.
  destruct (decide (length pre < 4)%nat) as [Hshort|Hlong].
  - destruct Hasm as (Hraw & Hmem & Hgot & Hmsg).
    rewrite Hgot, Hraw.
    destruct (Z.ltb_spec (Z.of_nat (length pre)) 5); [|lia].
    unfold bind at 1, assert at 1, ret at 1.
    unfold bind at 1. unfold read_length.
    unfold bind at 1, deref at 1. rewrite Hp, Hgot.
    destruct (Z.ltb_spec (Z.of_nat (length pre)) 4); [|lia].
    unfold bind at 1. rewrite (sys_recv_idle st s k e) by done.
    cbn [fst snd]. change (-1 <=? 0) with true. cbv iota.
    unfold error_exit. change (-1 =? 0) with false.
    change (-1 <? 0) with true. cbv iota.
    unfold bind, TERMINATING_SOCKET_ERROR, bind, gets, ret.
    replace (errno (set_errno e st)) with e by by destruct st.
    by destruct He as [-> | ->].
  - destruct Hasm as (Hraw & Hg4 & Hmem & Hil & Him & Hgot).
    rewrite Hg4, Hraw. change (4 <? 5) with true.
    unfold bind at 1, assert at 1, ret at 1.
    unfold bind at 1. rewrite (read_length_skip st p s f) by done.
    unfold read_rest. unfold bind at 1.
    assert (Hd : (length (drop 4 pre) = length pre - 4)%nat)
      by by rewrite length_drop.
    rewrite (read_body_idle st p s f k _ e) by (done || lia).
    done.
Qed.

(** The two outcomes of a call in the middle of frame [m]: the socket
    holds less than what the frame still needs, and all of it is taken;
    or it holds the rest [c] of the frame, and exactly that is taken. *)
Lemma read_whole_incomplete st p s f k m pre post e :
  well_formed m → heap st !! p = Some f → kernel st !! s = Some k →
  rx_idle k = RxNothing e → retryable e →
  rx_assembling m pre f → frame m = pre ++ rx_buf k ++ post → post ≠ [] →
  ∃ st' f' k',
    read_whole_message p s st = Some (O2_FAIL, st') ∧
    rx_changed p s st st' ∧
    heap st' !! p = Some f' ∧ kernel st' !! s = Some k' ∧
    rx_buf k' = [] ∧ rx_idle k' = RxNothing e ∧
    rx_only f f' ∧ rx_assembling m (pre ++ rx_buf k) f'.
Proof.
  intros Hwf Hp Hk Hidle He Hasm Hframe Hpost.
  destruct (decide (rx_buf k = [])) as [Hempty|Hdata].
  - rewrite Hempty in *. rewrite app_nil_r.
    rewrite (read_whole_spurious st p s f k m pre e); try done.
    + exists (set_errno e st), f, k. split; [done|].
      split; [apply rx_changed_set_errno|].
      split; [by destruct st|]. split; [by destruct st|].
      split; [done|]. split; [done|]. split; [apply rx_only_refl|done].
    + rewrite Hframe, !length_app. cbn.
      assert (0 < length post)%nat by (destruct post; [done|cbn; lia]). lia.
  - destruct (read_whole_take st p s f k m pre (rx_buf k) [] post e)
      as (st' & f' & k' & Hrun & Hrest); try done.
    { by rewrite app_nil_r. }
    rewrite decide_False in Hrun by done. by exists st', f', k'.
Qed.

Lemma read_whole_complete st p s f k m pre c extra e :
  well_formed m → heap st !! p = Some f → kernel st !! s = Some k →
  rx_idle k = RxNothing e → retryable e →
  rx_assembling m pre f → frame m = pre ++ c → c ≠ [] →
  rx_buf k = c ++ extra →
  ∃ st' f' k',
    read_whole_message p s st = Some (O2_SUCCESS, st') ∧
    rx_changed p s st st' ∧
    heap st' !! p = Some f' ∧ kernel st' !! s = Some k' ∧
    rx_buf k' = extra ∧ rx_idle k' = RxNothing e ∧
    rx_only f f' ∧ body_ready m (payload m) f' ∧ in_message f' = Some m.
Proof.
  intros Hwf Hp Hk Hidle He Hasm Hframe Hc Hbuf.
  destruct (read_whole_take st p s f k m pre c extra [] e)
    as (st' & f' & k' & Hrun & Hch & Hp' & Hk' & Hb' & Hi' & Hro & Hasm');
    try done.
  { by rewrite app_nil_r. }
  rewrite decide_True in Hrun by done.
  exists st', f', k'. repeat (split; [done|]).
  unfold rx_assembling in Hasm'. rewrite <- Hframe in Hasm'.
  rewrite decide_False in Hasm' by (rewrite length_frame; lia).
  assert (Hd : drop 4 (frame m) = payload m).
  { unfold frame. by rewrite drop_app_length'. }
  rewrite Hd in Hasm'. split; [done|].
  destruct Hasm' as (_ & _ & _ & _ & -> & _). by destruct m.
Qed.

(** The receive state the step lemmas work on: frame [m] is being
    assembled, [pre] has been taken from the socket and [buf] is still in
    it. *)
Definition rx_at (p : ptr) (s : Z) (e : errno_t) (m : o2n_message)
  (f0 : Fds_info) (pre buf : list byte) (st : net) : Prop :=
  ∃ f k, heap st !! p = Some f ∧ kernel st !! s = Some k ∧
         rx_buf k = buf ∧ rx_idle k = RxNothing e ∧
         rx_only f0 f ∧ rx_assembling m pre f.

Lemma rx_at_arrive p s e m f0 pre buf c st :
  rx_at p s e m f0 pre buf st →
  rx_at p s e m f0 pre (buf ++ c) (arrive s c st).
Proof.
  intros (f & k & Hp & Hk & Hb & Hi & Hro & Hasm).
  exists f, (set_rx_buf (rx_buf k ++ c) k).
  split; [by destruct st|].
  split; [destruct st; cbn in *; by rewrite lookup_alter_eq, Hk|].
  split; [destruct k; cbn in *; by subst|].
  split; [by destruct k|]. done.
Qed.

(** A read-ready event that does not complete the frame. *)
Lemma read_ready_incomplete p s e m f0 pre buf c post st :
  well_formed m → retryable e → rx_at p s e m f0 pre buf st →
  frame m = pre ++ (buf ++ c) ++ post → post ≠ [] →
  ∃ st', read_ready p s c st = Some (O2_FAIL, st') ∧
         rx_changed p s st st' ∧
         rx_at p s e m f0 (pre ++ buf ++ c) [] st'.
Proof.
  intros Hwf He Hat Hframe Hpost.
  apply (rx_at_arrive _ _ _ _ _ _ _ c) in Hat
    as (f & k & Hp & Hk & Hb & Hi & Hro & Hasm).
  rewrite <- Hb in Hframe.
  destruct (read_whole_incomplete (arrive s c st) p s f k m pre post e)
    as (st' & f' & k' & Hrun & Hch & Hp' & Hk' & Hb' & Hi' & Hro' & Hasm');
    try done.
  exists st'. unfold read_ready, bind, modify. rewrite Hrun.
  split; [done|].
  split; [eapply rx_changed_trans; [apply rx_changed_arrive|done]|].
  exists f', k'. rewrite <- Hb. repeat split; try done.
  all: destruct Hro as (?&?&?&?&?&?&?&?);
       destruct Hro' as (?&?&?&?&?&?&?&?); congruence.
Qed.

(** A read-ready event that completes the frame: what follows the frame
    stays in the socket. *)
Lemma read_ready_complete p s e m f0 pre buf c rest extra st :
  well_formed m → retryable e → rx_at p s e m f0 pre buf st →
  frame m = pre ++ rest → rest ≠ [] → buf ++ c = rest ++ extra →
  ∃ st' f' k',
    read_ready p s c st = Some (O2_SUCCESS, st') ∧
    rx_changed p s st st' ∧
    heap st' !! p = Some f' ∧ kernel st' !! s = Some k' ∧
    rx_buf k' = extra ∧ rx_idle k' = RxNothing e ∧
    rx_only f0 f' ∧ body_ready m (payload m) f' ∧ in_message f' = Some m.
Proof.
  intros Hwf He Hat Hframe Hrest Hbuf.
  apply (rx_at_arrive _ _ _ _ _ _ _ c) in Hat
    as (f & k & Hp & Hk & Hb & Hi & Hro & Hasm).
  rewrite Hbuf in Hb.
  destruct (read_whole_complete (arrive s c st) p s f k m pre rest extra e)
    as (st' & f' & k' & Hrun & Hch & Hp' & Hk' & Hb' & Hi' & Hro' & Hbr & Hm);
    try done.
  exists st', f', k'. unfold read_ready, bind, modify. rewrite Hrun.
  split; [done|].
  split; [eapply rx_changed_trans; [apply rx_changed_arrive|done]|].
  repeat (split; [done|]).
  split; [by eapply rx_only_trans|done].
Qed.

Lemma feed_incomplete p s e m f0 : ∀ cs pre buf post st,
  well_formed m → retryable e → rx_at p s e m f0 pre buf st →
  post ≠ [] → frame m = pre ++ buf ++ concat cs ++ post →
  ∃ st1 pre1 buf1,
    feed p s cs st = Some (replicate (length cs) O2_FAIL, st1) ∧
    rx_changed p s st st1 ∧ rx_at p s e m f0 pre1 buf1 st1 ∧
    pre1 ++ buf1 = pre ++ buf ++ concat cs ∧
    (cs ≠ [] → buf1 = []) ∧ (buf = [] → buf1 = []).
Proof.
  induction cs as [|c cs IH]; intros pre buf post st Hwf He Hat Hpost Hframe.
  - exists st, pre, buf. cbn. rewrite app_nil_r.
    split; [done|]. split; [apply rx_changed_refl|done].
  - cbn [concat] in Hframe.
    destruct (read_ready_incomplete p s e m f0 pre buf c (concat cs ++ post) st)
      as (st1 & Hrun & Hch & Hat1); try done.
    { by rewrite <- !app_assoc in *. }
    { intros Hnil. apply app_eq_nil in Hnil as [_ ?]. done. }
    destruct (IH (pre ++ buf ++ c) [] post st1)
      as (st2 & pre2 & buf2 & Hrun2 & Hch2 & Hat2 & Hcat & _ & Hb2);
      try done.
    { cbn. by rewrite <- !app_assoc in *. }
    exists st2, pre2, buf2. cbn [feed length replicate concat].
    unfold bind. rewrite Hrun, Hrun2. split; [done|].
    split; [by eapply rx_changed_trans|]. split; [done|].
    split; [rewrite Hcat; cbn; by rewrite <- !app_assoc|].
    split; intros _; by apply Hb2.
Qed.

(** C5: a connection whose inbound assembly is idle finds [b0] in its
    socket, and the chunks [cs] arrive one per read-ready event (a chunk
    may be empty: an event without new bytes).  Together they are the wire
    bytes of a framed message [m] followed by [extra], the beginning of
    whatever comes next, and the frame ends within the last chunk.  After
    every proper prefix [cs1] of the events all calls of
    [read_whole_message] so far returned O2_FAIL (incomplete), and header,
    buffer and socket hold exactly the bytes received: [in_length_got] is
    the number of header bytes (at most 4), and once an event has run the
    socket is drained.  The last event returns O2_SUCCESS with
    [in_message] equal to [m] (decoded length and payload), 4 header bytes
    and [m_length m] payload bytes counted, and exactly [extra] left in the
    socket: no read takes more than the frame needs, and there is one
    message per frame whatever the chunk boundaries.  Nothing but the
    assembly fields, the socket buffer and errno changes. *)
Theorem framed_receive_reassembles st p s f k m b0 cs extra e :
  well_formed m → heap st !! p = Some f → kernel st !! s = Some k →
  rx_buf k = b0 → rx_idle k = RxNothing e → retryable e →
  raw_flag f = false → in_length_got f = 0 → in_length_mem f = [] →
  in_message f = None →
  cs ≠ [] → b0 ++ concat cs = frame m ++ extra →
  (length (b0 ++ concat (removelast cs)) < length (frame m))%nat →
  (∀ cs1 cs2, cs = cs1 ++ cs2 → cs2 ≠ [] →
     ∃ st1 f1 k1,
       feed p s cs1 st = Some (replicate (length cs1) O2_FAIL, st1) ∧
       rx_changed p s st st1 ∧
       heap st1 !! p = Some f1 ∧ rx_only f f1 ∧
       kernel st1 !! s = Some k1 ∧
       assembled_bytes f1 ++ rx_buf k1 = b0 ++ concat cs1 ∧
       (cs1 ≠ [] → rx_buf k1 = []) ∧
       in_length_got f1 = Z.min 4 (Z.of_nat (length (assembled_bytes f1)))) ∧
  (∃ st' f' k',
     feed p s cs st =
       Some (replicate (length cs - 1) O2_FAIL ++ [O2_SUCCESS], st') ∧
     rx_changed p s st st' ∧
     heap st' !! p = Some f' ∧ rx_only f f' ∧
     in_message f' = Some m ∧ in_length f' = m_length m ∧
     in_length_got f' = 4 ∧ in_msg_got f' = m_length m ∧
     kernel st' !! s = Some k' ∧ rx_buf k' = extra).
Proof.
  intros Hwf Hp Hk Hb Hi He Hraw Hg Hmem Hmsg Hcs Hcat Hlast.
  assert (Hat : rx_at p s e m f [] b0 st).
  { exists f, k. repeat split; done. }
  destruct (exists_last (l := cs)) as (cs0 & cl & ->); [done|].
  rewrite removelast_last in Hlast.
  rewrite concat_app in Hcat. change (concat [cl]) with (cl ++ []) in Hcat.
  rewrite app_nil_r in Hcat.
  set (n := length (b0 ++ concat cs0)) in *.
  assert (Hhead : b0 ++ concat cs0 = take n (frame m)).
  { rewrite <- (take_app_le (frame m) extra) by lia.
    rewrite <- Hcat, app_assoc. subst n. by rewrite take_app_length. }
  assert (Hframe : frame m = (b0 ++ concat cs0) ++ drop n (frame m)).
  { rewrite Hhead. by rewrite take_drop. }
  assert (Hrest : drop n (frame m) ≠ []).
  { intros Hnil. pose proof (length_drop (frame m) n) as Hd.
    rewrite Hnil in Hd. cbn [length] in Hd. lia. }
  assert (Hcl : cl = drop n (frame m) ++ extra).
  { rewrite Hframe in Hcat at 1. rewrite <- !app_assoc in Hcat.
    by apply app_inv_head, app_inv_head in Hcat. }
  split.
  - intros cs1 cs2 Heq Hcs2.
    destruct (exists_last (l := cs2)) as (cs2' & cl' & ->); [done|].
    rewrite app_assoc in Heq. apply app_inj_tail in Heq as [-> ->].
    destruct (feed_incomplete p s e m f cs1 [] b0
                (concat cs2' ++ drop n (frame m)) st)
      as (st1 & pre1 & buf1 & Hrun & Hch & Hat1 & Hpb & Hb1 & _); try done.
    { intros Hnil. apply app_eq_nil in Hnil as [_ ?]. done. }
    { cbn. rewrite Hframe at 1. by rewrite concat_app, <- !app_assoc. }
    destruct Hat1 as (f1 & k1 & Hp1 & Hk1 & Hbuf1 & Hi1 & Hro & Hasm).
    destruct (rx_assembling_bytes m pre1
                (buf1 ++ concat cs2' ++ drop n (frame m)) f1)
      as [Hbytes Hgot]; try done.
    { rewrite Hframe at 1. rewrite app_assoc, Hpb. cbn.
      by rewrite concat_app, <- !app_assoc. }
    exists st1, f1, k1. split; [done|]. split; [done|]. split; [done|].
    split; [done|]. split; [done|].
    split; [by rewrite Hbytes, Hbuf1|].
    split; [by rewrite Hbuf1|]. by rewrite Hbytes.
  - destruct (feed_incomplete p s e m f cs0 [] b0 (drop n (frame m)) st)
      as (st1 & pre1 & buf1 & Hrun & Hch & Hat1 & Hpb & _); try done.
    { cbn. rewrite Hframe at 1. by rewrite <- !app_assoc. }
    cbn [app] in Hpb.
    destruct (read_ready_complete p s e m f pre1 buf1 cl
                (buf1 ++ drop n (frame m)) extra st1)
      as (st' & f' & k' & Hrun' & Hch' & Hp' & Hk' & Hb' & Hi' & Hro' & Hbr
          & Hm'); try done.
    { rewrite Hframe at 1. by rewrite <- Hpb, <- !app_assoc. }
    { intros Hnil. apply app_eq_nil in Hnil as [_ ?]. done. }
    { by rewrite Hcl, <- !app_assoc. }
    exists st', f', k'. split.
    { rewrite length_app. cbn [length].
      replace (length cs0 + 1 - 1)%nat with (length cs0) by lia.
      eapply feed_app; [done|]. cbn. unfold bind, ret. by rewrite Hrun'. }
    split; [by eapply rx_changed_trans|]. split; [done|].
    split; [done|]. split; [done|].
    destruct Hbr as (_ & Hg4 & _ & Hil & _ & Hgot).
    destruct Hwf as [Hlen _].
    split; [done|]. split; [done|].
    split; [by rewrite Hgot, Hlen|]. by split.
Qed.

(** An accepted connection (address 0, socket 5) with idle inbound
    assembly that finds the first byte of the frame of [demo_msg1] in its
    socket; the rest arrives cut before its last byte, which comes with an
    event of its own together with the first two bytes of the next frame;
    the second event brings nothing. *)
Definition rx_net : net :=
  Net [demo_pfd] [0%nat] {[ 0%nat := new_info NET_TCP_CONNECTION 0 0 ]}
    false 100 101 (Addr 2130706433 0) (Addr 4294967295 0) true ENONE
    {[ 5 := set_rx_buf [0] ksock0 ]} [].
Definition demo_chunks : list (list byte) := [[0; 0; 2; 7]; []; [8; 0; 0]].

Lemma framed_receive_reassembles_witness :
  (∀ cs1 cs2, demo_chunks = cs1 ++ cs2 → cs2 ≠ [] →
     ∃ st1 f1 k1,
       feed 0%nat 5 cs1 rx_net = Some (replicate (length cs1) O2_FAIL, st1) ∧
       rx_changed 0%nat 5 rx_net st1 ∧
       heap st1 !! 0%nat = Some f1 ∧
       rx_only (new_info NET_TCP_CONNECTION 0 0) f1 ∧
       kernel st1 !! 5 = Some k1 ∧
       assembled_bytes f1 ++ rx_buf k1 = [0] ++ concat cs1 ∧
       (cs1 ≠ [] → rx_buf k1 = []) ∧
       in_length_got f1 = Z.min 4 (Z.of_nat (length (assembled_bytes f1)))) ∧
  (∃ st' f' k',
     feed 0%nat 5 demo_chunks rx_net =
       Some (replicate (length demo_chunks - 1) O2_FAIL ++ [O2_SUCCESS], st') ∧
     rx_changed 0%nat 5 rx_net st' ∧
     heap st' !! 0%nat = Some f' ∧
     rx_only (new_info NET_TCP_CONNECTION 0 0) f' ∧
     in_message f' = Some demo_msg1 ∧ in_length f' = m_length demo_msg1 ∧
     in_length_got f' = 4 ∧ in_msg_got f' = m_length demo_msg1 ∧
     kernel st' !! 5 = Some k' ∧ rx_buf k' = [0; 0]).
Proof.
  apply (framed_receive_reassembles rx_net 0%nat 5
           (new_info NET_TCP_CONNECTION 0 0) (set_rx_buf [0] ksock0)
           demo_msg1 [0] demo_chunks [0; 0] EAGAIN).
  - split; [reflexivity|]. cbn. lia.
  - reflexivity.
  - reflexivity.
  - reflexivity.
  - reflexivity.
  - left; reflexivity.
  - reflexivity.
  - reflexivity.
  - reflexivity.
  - reflexivity.
  - discriminate.
  - reflexivity.
  - cbn. lia.
Defined.
(** ** Framed send *)

Definition tx_set (p : ptr) (f' : Fds_info) (i : nat) (d' : pollfd) (s : Z)
  (k' : ksock) (evs : list event) (st : net) : net :=
  Net (<[i := d']> (o2n_fds st)) (o2n_fds_info st) (<[p := f']> (heap st))
    (o2n_socket_delete_flag st) (o2n_udp_send_sock st) (o2n_broadcast_sock st)
    (local_to_addr st) (o2n_broadcast_to_addr st) (o2_ensemble_name st)
    (errno st) (<[s := k']> (kernel st)) (trace st ++ evs).

Lemma sys_send_accepts st s k a sc from n :
  kernel st !! s = Some k → tx_script k = TxAccept a :: sc →
  sys_send s from n st =
    Some (Z.min (Z.of_nat a) n,
          upd_kernel
            <[s := set_tx sc
                     (tx_wire k ++ take (Z.to_nat (Z.min (Z.of_nat a) n)) from)
                     k]> st).
Proof. intros Hk Hsc. unfold sys_send. by rewrite Hk, Hsc. Qed.

(** One turn of the loop on a framed connection when the kernel accepts
    part of what is left of the head message: the offset advances by the
    count accepted, POLLOUT is requested, the call returns O2_BLOCKED. *)
Lemma send_loop_partial fuel st p f d k msg next a sc :
  heap st !! p = Some f → out_message f = msg :: next →
  raw_flag f = false →
  o2n_fds st !! fds_index f = Some d →
  kernel st !! fd d = Some k → tx_script k = TxAccept a :: sc →
  0 ≤ out_msg_sent f → m_length msg + 4 < 2 ^ 31 →
  Z.of_nat a < m_length msg + 4 - out_msg_sent f →
  send_loop (S fuel) false p st =
    Some (O2_BLOCKED,
          tx_set p (set_out_msg_sent (out_msg_sent f + Z.of_nat a) f)
            (fds_index f) (set_events (Z.lor (events d) POLLOUT) d)
            (fd d)
            (set_tx sc
               (tx_wire k ++
                take a (drop (Z.to_nat (out_msg_sent f)) (frame msg))) k)
            [] st).
Proof.
  intros Hp Hq Hraw Hd Hk Hsc Hsent Hint Hlt. cbn [send_loop].
  unfold bind at 1, deref at 1. rewrite Hp, Hq, Hraw.
  unfold bind at 1, pfd_at at 1. rewrite Hd.
  rewrite (to_int32_small (m_length msg + 4 - out_msg_sent f)) by lia.
  rewrite to_size_t_small by lia.
  unfold bind at 1.
  rewrite (sys_send_accepts st (fd d) k a sc) by done.
  rewrite Z.min_l by lia. rewrite Nat2Z.id.
  rewrite (to_int32_small (Z.of_nat a)) by lia.
  rewrite (to_int32_small (out_msg_sent f + Z.of_nat a)) by lia.
  destruct (Z.ltb_spec (Z.of_nat a) 0); [lia|].
  destruct (Z.geb_spec (Z.of_nat a) (m_length msg + 4 - out_msg_sent f));
    [lia|].
  assert (Hl : (fds_index f < length (o2n_fds st))%nat)
    by (eapply lookup_lt_Some; eauto).
  destruct st as [fds infos hp flag us bs la ba en er kn tr].
  destruct f as [tag idx dm raw il ilm im ilg img om oms pt ow].
  cbn in *. subst. mrun. unfold tx_set. msimpl.
  by rewrite app_nil_r.
Qed.

(** One turn of the loop when the kernel accepts all that is left of the
    head message: the message is dequeued and freed, the offset reset,
    and the loop goes on with the next message. *)
Lemma send_loop_complete fuel st p f d k msg next a sc block :
  heap st !! p = Some f → out_message f = msg :: next →
  raw_flag f = false →
  o2n_fds st !! fds_index f = Some d →
  kernel st !! fd d = Some k → tx_script k = TxAccept a :: sc →
  0 ≤ out_msg_sent f < m_length msg + 4 → m_length msg + 4 < 2 ^ 31 →
  m_length msg + 4 - out_msg_sent f ≤ Z.of_nat a →
  send_loop (S fuel) block p st =
    send_loop fuel block p
      (tx_set p (set_out_message next (set_out_msg_sent 0 f))
         (fds_index f) d (fd d)
         (set_tx sc
            (tx_wire k ++
             take (Z.to_nat (m_length msg + 4 - out_msg_sent f))
               (drop (Z.to_nat (out_msg_sent f)) (frame msg))) k)
         [EvFree msg] st).
Proof.
  intros Hp Hq Hraw Hd Hk Hsc Hsent Hint Hge. cbn [send_loop].
  unfold bind at 1, deref at 1. rewrite Hp, Hq, Hraw.
  unfold bind at 1, pfd_at at 1. rewrite Hd.
  rewrite (to_int32_small (m_length msg + 4 - out_msg_sent f)) by lia.
  rewrite to_size_t_small by lia.
  unfold bind at 1.
  rewrite (sys_send_accepts st (fd d) k a sc) by done.
  rewrite Z.min_r by lia.
  rewrite (to_int32_small (m_length msg + 4 - out_msg_sent f)) by lia.
  replace (out_msg_sent f + (m_length msg + 4 - out_msg_sent f))
    with (m_length msg + 4) by lia.
  rewrite (to_int32_small (m_length msg + 4)) by lia.
  set (n := m_length msg + 4 - out_msg_sent f) in *.
  destruct (Z.ltb_spec n 0); [lia|].
  destruct (Z.geb_spec n n); [|lia].
  assert (Hl : (fds_index f < length (o2n_fds st))%nat)
    by (eapply lookup_lt_Some; eauto).
  destruct st as [fds infos hp flag us bs la ba en er kn tr].
  destruct f as [tag idx dm raw il ilm im ilg img om oms pt ow].
  cbn in *. subst. mrun. unfold tx_set. msimpl.
  rewrite !insert_insert_eq, (list_insert_id fds idx d) by done.
  reflexivity.
Qed.

(** The same partial write in a blocking call: the loop goes on, and
    write-interest is not touched. *)
Lemma send_loop_partial_blocking fuel st p f d k msg next a sc :
  heap st !! p = Some f → out_message f = msg :: next →
  raw_flag f = false →
  o2n_fds st !! fds_index f = Some d →
  kernel st !! fd d = Some k → tx_script k = TxAccept a :: sc →
  0 ≤ out_msg_sent f → m_length msg + 4 < 2 ^ 31 →
  Z.of_nat a < m_length msg + 4 - out_msg_sent f →
  send_loop (S fuel) true p st =
    send_loop fuel true p
      (tx_set p (set_out_msg_sent (out_msg_sent f + Z.of_nat a) f)
         (fds_index f) d (fd d)
         (set_tx sc
            (tx_wire k ++
             take a (drop (Z.to_nat (out_msg_sent f)) (frame msg))) k)
         [] st).
Proof.
  intros Hp Hq Hraw Hd Hk Hsc Hsent Hint Hlt. cbn [send_loop].
  unfold bind at 1, deref at 1. rewrite Hp, Hq, Hraw.
  unfold bind at 1, pfd_at at 1. rewrite Hd.
  rewrite (to_int32_small (m_length msg + 4 - out_msg_sent f)) by lia.
  rewrite to_size_t_small by lia.
  unfold bind at 1.
  rewrite (sys_send_accepts st (fd d) k a sc) by done.
  rewrite Z.min_l by lia. rewrite Nat2Z.id.
  rewrite (to_int32_small (Z.of_nat a)) by lia.
  rewrite (to_int32_small (out_msg_sent f + Z.of_nat a)) by lia.
  destruct (Z.ltb_spec (Z.of_nat a) 0); [lia|].
  destruct (Z.geb_spec (Z.of_nat a) (m_length msg + 4 - out_msg_sent f));
    [lia|].
  assert (Hl : (fds_index f < length (o2n_fds st))%nat)
    by (eapply lookup_lt_Some; eauto).
  destruct st as [fds infos hp flag us bs la ba en er kn tr].
  destruct f as [tag idx dm raw il ilm im ilg img om oms pt ow].
  cbn in *. subst. mrun. unfold tx_set. msimpl.
  by rewrite app_nil_r, (list_insert_id fds idx d) by done.
Qed.

(** A retryable failure in a blocking call: the loop tries again. *)
Lemma send_loop_retry_blocking fuel st p f d msg next e :
  heap st !! p = Some f → out_message f = msg :: next →
  o2n_fds st !! fds_index f = Some d →
  tx_fails_with (kernel st !! fd d) e → retryable e →
  send_loop (S fuel) true p st =
    send_loop fuel true p (after_tx_error (fd d) e st).
Proof.
  intros Hp Hq Hd Hk He. cbn [send_loop]. unfold bind at 1, deref at 1.
  rewrite Hp, Hq. unfold bind at 1, pfd_at at 1. rewrite Hd.
  unfold bind at 1. rewrite (sys_send_fails _ _ _ _ e Hk).
  change (to_int32 (-1) <? 0) with true. cbv iota.
  unfold bind at 1, TERMINATING_SOCKET_ERROR, bind, gets, ret.
  assert (Hterm : negb (bool_decide (e = EAGAIN))
                  && negb (bool_decide (e = EINTR)) = false).
  { destruct He as [-> | ->]; done. }
  replace (errno (after_tx_error (fd d) e st)) with e
    by (by destruct st).
  by rewrite Hterm.
Qed.

(** ** The reactor tick *)

(** What poll finds when only descriptor [i] is writable. *)
Definition ready_only (i : nat) : list Z := replicate i 0 ++ [POLLOUT].

Lemma poll_all_lookup ds : ∀ ready j,
  poll_all ds ready !! j
  = (λ d, poll_one d (default 0 (ready !! j))) <$> ds !! j.
Proof.
  induction ds as [|d ds IH]; intros ready j; [done|].
  destruct ready as [|r ready], j as [|j]; cbn; rewrite ?IH; done.
Qed.

Lemma poll_all_length ds : ∀ ready, length (poll_all ds ready) = length ds.
Proof.
  induction ds as [|d ds IH]; intros [|r ready]; cbn; by rewrite ?IH.
Qed.

Lemma ready_only_lookup i j :
  default 0 (ready_only i !! j) = if decide (j = i) then POLLOUT else 0.
Proof.
  unfold ready_only. destruct (decide (j = i)) as [->|Hne].
  - by rewrite lookup_app_r, length_replicate, Nat.sub_diag
      by (rewrite length_replicate; lia).
  - destruct (decide (j < i)%nat).
    + rewrite lookup_app_l by (rewrite length_replicate; lia).
      by rewrite lookup_replicate_2.
    + rewrite lookup_ge_None_2; [done|].
      rewrite length_app, length_replicate. cbn. lia.
Qed.

Lemma poll_one_nothing d : revents (poll_one d 0) = 0.
Proof. unfold poll_one. cbn. by destruct (fd d <? 0). Qed.

Lemma land_bit x n :
  0 ≤ n → Z.land x (2 ^ n) = if Z.testbit x n then 2 ^ n else 0.
Proof.
  intros Hn. apply Z.bits_inj'. intros m Hm.
  rewrite Z.land_spec, Z.pow2_bits_eqb by done.
  destruct (Z.eqb_spec n m) as [->|Hne].
  - destruct (Z.testbit x m) eqn:Hx; cbn.
    + by rewrite Z.pow2_bits_true.
    + by rewrite Z.bits_0.
  - rewrite andb_false_r.
    destruct (Z.testbit x n); [|by rewrite Z.bits_0].
    by rewrite Z.pow2_bits_false.
Qed.

Lemma has_flag_testbit x n :
  0 ≤ n → has_flag x (2 ^ n) = Z.testbit x n.
Proof.
  intros Hn. unfold has_flag. rewrite land_bit by done.
  destruct (Z.testbit x n); [|done].
  apply negb_true_iff, Z.eqb_neq.
  assert (0 < 2 ^ n) by (apply Z.pow_pos_nonneg; lia). lia.
Qed.

(** poll reports POLLOUT, and nothing else, for a valid descriptor with
    write-interest that is writable. *)
Lemma poll_one_writable d :
  0 ≤ fd d → has_flag (events d) POLLOUT = true →
  revents (poll_one d POLLOUT) = POLLOUT.
Proof.
  intros Hfd Hev. unfold poll_one. cbn.
  destruct (Z.ltb_spec (fd d) 0); [lia|].
  change POLLOUT with (2 ^ 2) in *.
  rewrite has_flag_testbit in Hev by lia.
  rewrite Z.land_comm, land_bit by lia.
  by rewrite Z.lor_spec, Hev.
Qed.

Lemma dispatch_idle ops j st d :
  o2n_fds st !! j = Some d → revents d = 0 → o2_ensemble_name st = true →
  dispatch ops j st = Some (None, st).
Proof.
  intros Hd Hr Ha. unfold dispatch.
  unfold bind at 1, pfd_at at 1. rewrite Hd, Hr.
  change (has_flag 0 POLLERR) with false.
  change (has_flag 0 POLLHUP) with false.
  change (has_flag 0 POLLOUT) with false.
  change (has_flag 0 POLLIN) with false.
  unfold bind, ret, gets. by rewrite Ha.
Qed.

Lemma dispatch_from_idle ops : ∀ todo j st,
  (∀ j', (j ≤ j' < j + todo)%nat →
     ∃ d, o2n_fds st !! j' = Some d ∧ revents d = 0) →
  o2_ensemble_name st = true →
  dispatch_from ops todo j st = Some (None, st).
Proof.
  induction todo as [|todo IH]; intros j st Hidle Ha; [done|].
  cbn [dispatch_from]. unfold bind.
  destruct (Hidle j) as (d & Hd & Hr); [lia|].
  rewrite (dispatch_idle ops j st d) by done.
  apply IH; [|done]. intros j' Hj'. apply Hidle. lia.
Qed.

Lemma dispatch_from_split ops : ∀ a b j st,
  dispatch_from ops (a + b) j st =
    match dispatch_from ops a j st with
    | Some (None, st') => dispatch_from ops b (j + a) st'
    | Some (Some e, st') => Some (Some e, st')
    | None => None
    end.
Proof.
  induction a as [|a IH]; intros b j st.
  - cbn. by rewrite Nat.add_0_r.
  - cbn [Nat.add dispatch_from]. unfold bind.
    destruct (dispatch ops j st) as [[[e|] st']|]; try done.
    rewrite IH. by replace (S j + a)%nat with (j + S a)%nat by lia.
Qed.

(** State right after [poll] found descriptor [i] writable and nothing
    else. *)
Definition polled (i : nat) (st : net) : net :=
  upd_fds (λ ds, poll_all ds (ready_only i)) st.

Definition clear_pollout (d : pollfd) : pollfd :=
  set_events (Z.land (events d) (Z.lnot POLLOUT)) d.

(** A tick in which only descriptor [i] is writable, its connection being
    established with a non-empty queue, amounts to one non-blocking [send]
    on that connection, after which POLLOUT is cleared if the queue was
    drained. *)
Lemma tick_write_ready ops st i p f d r st1 d1 :
  o2n_socket_delete_flag st = false → o2_ensemble_name st = true →
  o2n_fds_info st !! i = Some p → heap st !! p = Some f →
  net_tag f ≠ NET_TCP_CONNECTING → out_message f ≠ [] →
  o2n_fds st !! i = Some d → 0 ≤ fd d →
  has_flag (events d) POLLOUT = true →
  send_nonblocking p (polled i st) = Some (r, st1) →
  o2n_socket_delete_flag st1 = false → o2_ensemble_name st1 = true →
  length (o2n_fds st1) = length (o2n_fds st) →
  (∀ j, j ≠ i → o2n_fds st1 !! j = o2n_fds (polled i st) !! j) →
  o2n_fds st1 !! i = Some d1 →
  o2n_recv ops (ready_only i) st =
    Some (O2_SUCCESS,
          if bool_decide (r = O2_SUCCESS)
          then upd_fds <[i := clear_pollout d1]> st1 else st1).
Proof.
  intros Hflag Halive Hi Hp Htag Hq Hd Hfd Hev Hsend Hflag1 Halive1 Hlen1
    Hother Hd1.
  assert (Hil : (i < length (o2n_fds st))%nat)
    by (eapply lookup_lt_Some; eauto).
  set (st0 := polled i st) in *.
  assert (Hfds0 : ∀ j, o2n_fds st0 !! j
            = (λ d, poll_one d (if decide (j = i) then POLLOUT else 0))
                <$> o2n_fds st !! j).
  { intros j. subst st0. destruct st. cbn.
    by rewrite poll_all_lookup, ready_only_lookup. }
  assert (Hidle0 : ∀ j, j ≠ i → (j < length (o2n_fds st))%nat →
            ∃ d', o2n_fds st0 !! j = Some d' ∧ revents d' = 0).
  { intros j Hne Hj. rewrite Hfds0, decide_False by done.
    destruct (lookup_lt_is_Some_2 (o2n_fds st) j Hj) as [dj ->].
    eexists. split; [done|]. apply poll_one_nothing. }
  assert (Hlen0 : length (o2n_fds st0) = length (o2n_fds st)).
  { subst st0. destruct st. cbn. apply poll_all_length. }
  set (st2 := if bool_decide (r = O2_SUCCESS)
              then upd_fds <[i := clear_pollout d1]> st1 else st1).
  assert (Hdisp : dispatch ops i st0 = Some (None, st2)).
  { unfold dispatch. unfold bind at 1, pfd_at at 1.
    rewrite Hfds0, Hd, decide_True by done. cbn [fmap option_fmap option_map].
    rewrite poll_one_writable by done.
    change (has_flag POLLOUT POLLERR) with false.
    change (has_flag POLLOUT POLLHUP) with false.
    change (has_flag POLLOUT POLLOUT) with true.
    cbn match.
    assert (Hi0 : o2n_fds_info st0 !! i = Some p) by by destruct st.
    assert (Hp0 : heap st0 !! p = Some f) by by destruct st.
    unfold bind at 1. unfold bind at 1, info_at at 1. rewrite Hi0.
    unfold bind at 1, deref at 1. rewrite Hp0.
    rewrite bool_decide_eq_false_2 by done.
    unfold bind at 1, when at 1, ret at 1.
    unfold bind at 1, deref at 1. rewrite Hp0.
    rewrite bool_decide_eq_false_2 by done. cbn [negb].
    unfold bind at 1. rewrite Hsend.
    subst st2. unfold when, pfd_store, bind, pfd_at, modify, ret, gets.
    case_bool_decide.
    - rewrite Hd1. cbn. by rewrite Halive1.
    - by rewrite Halive1. }
  assert (Hidle2 : ∀ j, j ≠ i → (j < length (o2n_fds st))%nat →
            ∃ d', o2n_fds st2 !! j = Some d' ∧ revents d' = 0).
  { intros j Hne Hj. destruct (Hidle0 j Hne Hj) as (d' & Hd' & Hr).
    exists d'. split; [|done]. subst st2. case_bool_decide.
    - destruct st1. cbn in *. rewrite list_lookup_insert_ne by done.
      by rewrite Hother.
    - by rewrite Hother. }
  assert (Halive2 : o2_ensemble_name st2 = true).
  { subst st2. case_bool_decide; [by destruct st1|done]. }
  assert (Hflag2 : o2n_socket_delete_flag st2 = false).
  { subst st2. case_bool_decide; [by destruct st1|done]. }
  unfold o2n_recv. unfold bind at 1, gets at 1. rewrite Hflag.
  unfold bind at 1, when at 1, ret at 1.
  unfold bind at 1, sys_poll at 1, modify at 1. fold (polled i st). fold st0.
  unfold bind at 1, gets at 1. rewrite Hlen0.
  replace (length (o2n_fds st)) with (i + S (length (o2n_fds st) - i - 1))%nat
    by lia.
  unfold bind at 1. rewrite dispatch_from_split.
  rewrite dispatch_from_idle; [|intros j Hj; apply Hidle0; lia|by destruct st].
  cbn [dispatch_from Nat.add]. unfold bind at 1. rewrite Hdisp.
  rewrite dispatch_from_idle; [|intros j Hj; apply Hidle2; lia|done].
  unfold bind, gets, when, ret. by rewrite Hflag2.
Qed.

(** The same tick when the send fails an assertion: so does the tick. *)
Lemma tick_write_aborts ops st i p f d :
  o2n_socket_delete_flag st = false → o2_ensemble_name st = true →
  o2n_fds_info st !! i = Some p → heap st !! p = Some f →
  net_tag f ≠ NET_TCP_CONNECTING → out_message f ≠ [] →
  o2n_fds st !! i = Some d → 0 ≤ fd d →
  has_flag (events d) POLLOUT = true →
  send_nonblocking p (polled i st) = None →
  o2n_recv ops (ready_only i) st = None.
Proof.
  intros Hflag Halive Hi Hp Htag Hq Hd Hfd Hev Hsend.
  assert (Hil : (i < length (o2n_fds st))%nat)
    by (eapply lookup_lt_Some; eauto).
  set (st0 := polled i st) in *.
  assert (Hfds0 : ∀ j, o2n_fds st0 !! j
            = (λ d, poll_one d (if decide (j = i) then POLLOUT else 0))
                <$> o2n_fds st !! j).
  { intros j. subst st0. destruct st. cbn.
    by rewrite poll_all_lookup, ready_only_lookup. }
  assert (Hidle0 : ∀ j, j ≠ i → (j < length (o2n_fds st))%nat →
            ∃ d', o2n_fds st0 !! j = Some d' ∧ revents d' = 0).
  { intros j Hne Hj. rewrite Hfds0, decide_False by done.
    destruct (lookup_lt_is_Some_2 (o2n_fds st) j Hj) as [dj ->].
    eexists. split; [done|]. apply poll_one_nothing. }
  assert (Hlen0 : length (o2n_fds st0) = length (o2n_fds st)).
  { subst st0. destruct st. cbn. apply poll_all_length. }
  assert (Hdisp : dispatch ops i st0 = None).
  { unfold dispatch. unfold bind at 1, pfd_at at 1.
    rewrite Hfds0, Hd, decide_True by done. cbn [fmap option_fmap option_map].
    rewrite poll_one_writable by done.
    change (has_flag POLLOUT POLLERR) with false.
    change (has_flag POLLOUT POLLHUP) with false.
    change (has_flag POLLOUT POLLOUT) with true.
    cbn match.
    assert (Hi0 : o2n_fds_info st0 !! i = Some p) by by destruct st.
    assert (Hp0 : heap st0 !! p = Some f) by by destruct st.
    unfold bind at 1. unfold bind at 1, info_at at 1. rewrite Hi0.
    unfold bind at 1, deref at 1. rewrite Hp0.
    rewrite bool_decide_eq_false_2 by done.
    unfold bind at 1, when at 1, ret at 1.
    unfold bind at 1, deref at 1. rewrite Hp0.
    rewrite bool_decide_eq_false_2 by done. cbn [negb].
    unfold bind at 1. by rewrite Hsend. }
  unfold o2n_recv. unfold bind at 1, gets at 1. rewrite Hflag.
  unfold bind at 1, when at 1, ret at 1.
  unfold bind at 1, sys_poll at 1, modify at 1. fold (polled i st). fold st0.
  unfold bind at 1, gets at 1. rewrite Hlen0.
  replace (length (o2n_fds st)) with (i + S (length (o2n_fds st) - i - 1))%nat
    by lia.
  unfold bind at 1. rewrite dispatch_from_split.
  rewrite dispatch_from_idle; [|intros j Hj; apply Hidle0; lia|by destruct st].
  cbn [dispatch_from Nat.add]. unfold bind at 1. by rewrite Hdisp.
Qed.

(** *** Write-ready events on a socket that takes [k] bytes per call *)

(** A message the send loop can frame: the length field is the size of
    the payload, and the count [len + sizeof msg->length] fits the [int]
    it is computed in. *)
Definition sendable (m : o2n_message) : Prop :=
  m_length m = Z.of_nat (length (payload m)) ∧
  0 ≤ m_length m ∧ m_length m + 4 < 2 ^ 31.

Lemma sendable_well_formed m : sendable m → well_formed m.
Proof. intros (Hlen & Hnn & Hint). split; [done|lia]. Qed.

Lemma has_flag_clear_pollout d : has_flag (events (clear_pollout d)) POLLOUT = false.
Proof.
  unfold has_flag, clear_pollout. cbn.
  rewrite <- Z.land_assoc. change (Z.land (Z.lnot POLLOUT) POLLOUT) with 0.
  by rewrite Z.land_0_r.
Qed.

(** [j] write-ready events have each taken [k] bytes of the frame of [m],
    the only queued message of connection [p] (slot [i], socket [s]); the
    kernel will take [k] bytes on each of the next [left] calls. *)
Definition sending (i : nat) (p : ptr) (s : Z) (m : o2n_message) (k : nat)
  (w0 : list byte) (sc : list tx_outcome) (tr0 : list event)
  (j left : nat) (st : net) : Prop :=
  o2n_socket_delete_flag st = false ∧ o2_ensemble_name st = true ∧
  o2n_fds_info st !! i = Some p ∧
  ∃ f d kk,
    heap st !! p = Some f ∧ fds_index f = i ∧
    net_tag f ≠ NET_TCP_CONNECTING ∧ net_tag f ≠ NET_INFO_CLOSED ∧
    raw_flag f = false ∧ out_message f = [m] ∧
    out_msg_sent f = Z.of_nat (j * k) ∧
    o2n_fds st !! i = Some d ∧ fd d = s ∧
    has_flag (events d) POLLOUT = true ∧
    kernel st !! s = Some kk ∧
    tx_wire kk = w0 ++ take (j * k) (frame m) ∧
    tx_script kk = replicate left (TxAccept k) ++ sc ∧
    trace st = tr0.

(** The whole frame is on the wire, exactly once; the message is freed,
    the queue empty, write-interest cleared. *)
Definition delivered (i : nat) (p : ptr) (s : Z) (m : o2n_message)
  (w0 : list byte) (sc : list tx_outcome) (tr0 : list event) (st : net)
  : Prop :=
  o2n_socket_delete_flag st = false ∧ o2_ensemble_name st = true ∧
  o2n_fds_info st !! i = Some p ∧
  ∃ f d kk,
    heap st !! p = Some f ∧ fds_index f = i ∧
    out_message f = [] ∧ out_msg_sent f = 0 ∧
    o2n_fds st !! i = Some d ∧ fd d = s ∧
    has_flag (events d) POLLOUT = false ∧
    kernel st !! s = Some kk ∧
    tx_wire kk = w0 ++ frame m ∧ tx_script kk = sc ∧
    trace st = tr0 ++ [EvFree m].

Lemma polled_slot i st d :
  o2n_fds st !! i = Some d →
  o2n_fds (polled i st) !! i = Some (poll_one d POLLOUT).
Proof.
  intros Hd. destruct st. cbn in *.
  by rewrite poll_all_lookup, ready_only_lookup, decide_True, Hd.
Qed.

Lemma send_nonblocking_unfold st p f d :
  heap st !! p = Some f → net_tag f ≠ NET_INFO_CLOSED →
  o2n_fds st !! fds_index f = Some d →
  send_nonblocking p st = send_loop (S (length (out_message f))) false p st.
Proof.
  intros Hp Ht Hd. unfold send_nonblocking, bind, deref. rewrite Hp.
  by apply send_enters_loop with (f := f) (d := d).
Qed.

Lemma write_ready_partial ops i p s m k w0 sc tr0 j left st :
  sendable m → 0 ≤ s → (0 < k)%nat →
  (Z.of_nat ((j + 1) * k) < 4 + m_length m) →
  sending i p s m k w0 sc tr0 j (S left) st →
  ∃ st', o2n_recv ops (ready_only i) st = Some (O2_SUCCESS, st') ∧
         sending i p s m k w0 sc tr0 (j + 1) left st'.
Proof.
  intros (Hlen & Hnn & Hint) Hs Hk Hlt
    (Hflag & Halive & Hi & f & d & kk & Hp & Hfi & Ht1 & Ht2 & Hraw & Hq &
     Hsent & Hd & Hfd & Hev & Hkk & Hw & Hsc & Htr).
  set (st0 := polled i st).
  set (d0 := poll_one d POLLOUT).
  assert (Hd0 : o2n_fds st0 !! fds_index f = Some d0)
    by (rewrite Hfi; by apply polled_slot).
  assert (Hp0 : heap st0 !! p = Some f) by by destruct st.
  assert (Hkk0 : kernel st0 !! fd d0 = Some kk)
    by (destruct st; cbn in *; by rewrite Hfd).
  set (d1 := set_events (Z.lor (events d0) POLLOUT) d0).
  set (st1 :=
    tx_set p (set_out_msg_sent (out_msg_sent f + Z.of_nat k) f)
      (fds_index f) d1 (fd d0)
      (set_tx (replicate left (TxAccept k) ++ sc)
         (tx_wire kk ++ take k (drop (Z.to_nat (out_msg_sent f)) (frame m)))
         kk)
      [] st0).
  assert (Hrun : send_nonblocking p st0 = Some (O2_BLOCKED, st1)).
  { rewrite (send_nonblocking_unfold st0 p f d0) by done. rewrite Hq.
    apply send_loop_partial with (next := []); try done; lia. }
  assert (Hil : (i < length (o2n_fds st0))%nat)
    by (rewrite <- Hfi; eapply lookup_lt_Some; eauto).
  assert (Hq' : out_message f ≠ []) by by rewrite Hq.
  assert (Hfd' : 0 ≤ fd d) by lia.
  assert (Hflag1 : o2n_socket_delete_flag st1 = false) by by destruct st.
  assert (Halive1 : o2_ensemble_name st1 = true) by by destruct st.
  assert (Hlen1 : length (o2n_fds st1) = length (o2n_fds st)).
  { cbn. rewrite length_insert. subst st0. destruct st. cbn.
    apply poll_all_length. }
  assert (Hother : ∀ j', j' ≠ i → o2n_fds st1 !! j' = o2n_fds st0 !! j').
  { intros j' Hne. cbn. rewrite Hfi. by rewrite list_lookup_insert_ne. }
  assert (Hd1 : o2n_fds st1 !! i = Some d1).
  { cbn. rewrite Hfi. by apply list_lookup_insert_eq. }
  pose proof (tick_write_ready ops st i p f d O2_BLOCKED st1 d1
                Hflag Halive Hi Hp Ht1 Hq' Hd Hfd' Hev Hrun Hflag1 Halive1
                Hlen1 Hother Hd1) as Htick.
  rewrite bool_decide_eq_false_2 in Htick by done.
  exists st1. split; [done|].
  split; [done|]. split; [done|]. split; [by destruct st|].
  eexists _, d1, _. split; [apply lookup_insert_eq|].
  split; [by destruct f|]. split; [by destruct f|].
  split; [by destruct f|]. split; [by destruct f|].
  split; [by destruct f|]. split.
  { destruct f; cbn in *. lia. }
  split; [done|]. split; [done|]. split; [by apply has_flag_lor|].
  split; [cbn; subst d0; cbn; rewrite Hfd; apply lookup_insert_eq|].
  split; [|split; [done|by destruct st; cbn in *; rewrite app_nil_r]].
  cbn. rewrite Hw, Hsent, Nat2Z.id, <- app_assoc, take_take_drop.
  by replace (j * k + k)%nat with ((j + 1) * k)%nat by lia.
Qed.

Lemma write_ready_complete ops i p s m k w0 sc tr0 j left st :
  sendable m → 0 ≤ s →
  (Z.of_nat (j * k) < 4 + m_length m ≤ Z.of_nat ((j + 1) * k)) →
  sending i p s m k w0 sc tr0 j (S left) st →
  ∃ st', o2n_recv ops (ready_only i) st = Some (O2_SUCCESS, st') ∧
         delivered i p s m w0 (replicate left (TxAccept k) ++ sc) tr0 st'.
Proof.
  intros (Hlen & Hnn & Hint) Hs Hlt
    (Hflag & Halive & Hi & f & d & kk & Hp & Hfi & Ht1 & Ht2 & Hraw & Hq &
     Hsent & Hd & Hfd & Hev & Hkk & Hw & Hsc & Htr).
  set (st0 := polled i st).
  set (d0 := poll_one d POLLOUT).
  assert (Hd0 : o2n_fds st0 !! fds_index f = Some d0)
    by (rewrite Hfi; by apply polled_slot).
  assert (Hp0 : heap st0 !! p = Some f) by by destruct st.
  assert (Hkk0 : kernel st0 !! fd d0 = Some kk)
    by (destruct st; cbn in *; by rewrite Hfd).
  set (st1 :=
    tx_set p (set_out_message [] (set_out_msg_sent 0 f)) (fds_index f) d0
      (fd d0)
      (set_tx (replicate left (TxAccept k) ++ sc)
         (tx_wire kk ++
          take (Z.to_nat (m_length m + 4 - out_msg_sent f))
            (drop (Z.to_nat (out_msg_sent f)) (frame m))) kk)
      [EvFree m] st0).
  assert (Hrun : send_nonblocking p st0 = Some (O2_SUCCESS, st1)).
  { rewrite (send_nonblocking_unfold st0 p f d0) by done. rewrite Hq.
    cbn [length].
    rewrite (send_loop_complete 1 st0 p f d0 kk m [] k
               (replicate left (TxAccept k) ++ sc)); try done; try lia.
    fold st1. cbn [send_loop]. unfold bind, deref.
    replace (heap st1 !! p)
      with (Some (set_out_message [] (set_out_msg_sent 0 f))); [done|].
    subst st1. cbn. by rewrite lookup_insert_eq. }
  assert (Hil : (i < length (o2n_fds st0))%nat)
    by (rewrite <- Hfi; eapply lookup_lt_Some; eauto).
  assert (Hq' : out_message f ≠ []) by by rewrite Hq.
  assert (Hfd' : 0 ≤ fd d) by lia.
  assert (Hflag1 : o2n_socket_delete_flag st1 = false) by by destruct st.
  assert (Halive1 : o2_ensemble_name st1 = true) by by destruct st.
  assert (Hlen1 : length (o2n_fds st1) = length (o2n_fds st)).
  { cbn. rewrite length_insert. subst st0. destruct st. cbn.
    apply poll_all_length. }
  assert (Hother : ∀ j', j' ≠ i → o2n_fds st1 !! j' = o2n_fds st0 !! j').
  { intros j' Hne. cbn. rewrite Hfi. by rewrite list_lookup_insert_ne. }
  assert (Hd1 : o2n_fds st1 !! i = Some d0).
  { cbn. rewrite Hfi. by apply list_lookup_insert_eq. }
  pose proof (tick_write_ready ops st i p f d O2_SUCCESS st1 d0
                Hflag Halive Hi Hp Ht1 Hq' Hd Hfd' Hev Hrun Hflag1 Halive1
                Hlen1 Hother Hd1) as Htick.
  rewrite bool_decide_eq_true_2 in Htick by done.
  eexists. split; [done|].
  split; [done|]. split; [done|]. split; [by destruct st|].
  eexists _, (clear_pollout d0), _. split; [cbn; apply lookup_insert_eq|].
  split; [by destruct f|]. split; [by destruct f|].
  split; [by destruct f|]. split.
  { cbn. rewrite Hfi. apply list_lookup_insert_eq.
    by rewrite length_insert. }
  split; [done|]. split; [apply has_flag_clear_pollout|].
  split; [cbn; subst d0; cbn; rewrite Hfd; apply lookup_insert_eq|].
  split; [|split; [done|destruct st; cbn in *; by subst]].
  cbn [tx_wire set_tx].
  rewrite Hw, Hsent, Nat2Z.id, <- app_assoc, take_take_drop.
  rewrite take_ge; [done|].
  cbn [length]. lia.
Qed.

(** [n] successive ticks in each of which descriptor [i] is found
    writable. *)
Fixpoint write_ready_events (ops : Owner_ops) (i : nat) (n : nat) : M unit :=
  match n with
  | O => ret tt
  | S n' =>
      write_ready_events ops i n' ;;;
      _ <- o2n_recv ops (ready_only i) ;;
      ret tt
  end.

Lemma ceil_div_bounds size k :
  0 < k → 0 < size →
  let n := (size + k - 1) / k in
  0 < n ∧ (n - 1) * k < size ≤ n * k.
Proof.
  intros Hk Hs n. subst n.
  pose proof (Z.div_mod (size + k - 1) k ltac:(lia)) as Hdm.
  pose proof (Z.mod_pos_bound (size + k - 1) k Hk) as Hmod.
  set (q := (size + k - 1) / k) in *.
  set (r := (size + k - 1) mod k) in *.
  assert (0 < q) by nia. split; [done|]. nia.
Qed.

(** Connection [p] (slot [i], socket [s]) is established with nothing
    queued and no write-interest; the kernel will take [k] bytes on each of
    the next [left] calls. *)
Definition unsent (i : nat) (p : ptr) (s : Z) (k : nat) (w0 : list byte)
  (sc : list tx_outcome) (tr0 : list event) (left : nat) (st : net) : Prop :=
  o2n_socket_delete_flag st = false ∧ o2_ensemble_name st = true ∧
  o2n_fds_info st !! i = Some p ∧
  ∃ f d kk,
    heap st !! p = Some f ∧ fds_index f = i ∧
    net_tag f ≠ NET_TCP_CONNECTING ∧ net_tag f ≠ NET_INFO_CLOSED ∧
    raw_flag f = false ∧ out_message f = [] ∧
    o2n_fds st !! i = Some d ∧ fd d = s ∧
    has_flag (events d) POLLOUT = false ∧
    kernel st !! s = Some kk ∧
    tx_wire kk = w0 ∧
    tx_script kk = replicate left (TxAccept k) ++ sc ∧
    trace st = tr0.

(** [enqueue] on such a connection writes at once; the kernel takes [k]
    bytes, less than the frame, and the partial write registers
    write-interest. *)
Lemma enqueue_partial i p s m k w0 sc tr0 left st :
  sendable m → (0 < k)%nat → Z.of_nat k < 4 + m_length m →
  unsent i p s k w0 sc tr0 (S left) st →
  ∃ st1, enqueue p m st = Some (tt, st1) ∧
         sending i p s m k w0 sc tr0 1 left st1.
Proof.
  intros (Hlen & Hnn & Hint) Hk Hlt
    (Hflag & Halive & Hi & f & d & kk & Hp & Hfi & Ht1 & Ht2 & Hraw & Hq &
     Hd & Hfd & Hev & Hkk & Hw & Hsc & Htr).
  set (f1 := set_out_msg_sent 0 (set_out_message [m] f)).
  set (st0 := upd_heap <[p := f1]> st).
  assert (Hp0 : heap st0 !! p = Some f1)
    by (destruct st; cbn; apply lookup_insert_eq).
  assert (Hd0 : o2n_fds st0 !! fds_index f1 = Some d)
    by (destruct st, f; cbn in *; by subst).
  assert (Hkk0 : kernel st0 !! fd d = Some kk)
    by (destruct st; cbn in *; by subst).
  set (d1 := set_events (Z.lor (events d) POLLOUT) d).
  set (st1 :=
    tx_set p (set_out_msg_sent (out_msg_sent f1 + Z.of_nat k) f1)
      (fds_index f1) d1 (fd d)
      (set_tx (replicate left (TxAccept k) ++ sc)
         (tx_wire kk ++ take k (drop (Z.to_nat (out_msg_sent f1)) (frame m)))
         kk)
      [] st0).
  assert (Hrun : send_nonblocking p st0 = Some (O2_BLOCKED, st1)).
  { rewrite (send_nonblocking_unfold st0 p f1 d) by (done || by destruct f).
    apply send_loop_partial with (next := []); try done.
    all: try by destruct f.
    all: try lia.
    all: destruct f; cbn in *; lia. }
  exists st1. split.
  { unfold enqueue. unfold bind at 1, deref at 1. rewrite Hp, Hq.
    rewrite bool_decide_eq_true_2, bool_decide_eq_false_2 by done.
    cbn [andb negb].
    unfold bind at 1. rewrite (store_run p _ f st) by done.
    unfold bind at 1.
    rewrite (store_run p _ (set_out_message [m] f))
      by (destruct st; cbn; apply lookup_insert_eq).
    replace (upd_heap _ (upd_heap _ st)) with st0
      by (subst st0 f1; destruct st; unfold upd_heap; cbn;
          by rewrite insert_insert_eq).
    unfold bind, ret. by rewrite Hrun. }
  split; [by destruct st|]. split; [by destruct st|].
  split; [by destruct st|].
  eexists _, d1, _. split; [apply lookup_insert_eq|].
  split; [by destruct f|]. split; [by destruct f|].
  split; [by destruct f|]. split; [by destruct f|].
  split; [by destruct f|]. split.
  { destruct f; cbn in *. lia. }
  split.
  { cbn. rewrite Hfi. apply list_lookup_insert_eq.
    eapply lookup_lt_Some; eauto. }
  split; [done|]. split; [by apply has_flag_lor|].
  split; [cbn; rewrite Hfd; apply lookup_insert_eq|].
  split; [|split; [done|by destruct st; cbn in *; rewrite app_nil_r]].
  cbn [tx_wire set_tx]. rewrite Hw.
  replace (out_msg_sent f1) with 0 by by destruct f.
  cbn [Z.to_nat drop]. by rewrite Nat.mul_1_l.
Qed.

(** From the [j0]-th write on, every write-ready event but the last takes
    [k] bytes more and keeps write-interest; the last completes the
    frame. *)
Lemma write_ready_progress ops i p s m k w0 sc tr0 n j0 st0 :
  sendable m → 0 ≤ s → (1 ≤ k)%nat →
  (Z.of_nat n - 1) * Z.of_nat k < 4 + m_length m ≤ Z.of_nat n * Z.of_nat k →
  (j0 < n)%nat →
  sending i p s m k w0 sc tr0 j0 (n - j0) st0 →
  (∀ j, (j0 ≤ j < n)%nat →
     ∃ st_j, write_ready_events ops i (j - j0) st0 = Some (tt, st_j) ∧
             sending i p s m k w0 sc tr0 j (n - j) st_j) ∧
  (∃ st', write_ready_events ops i (n - j0) st0 = Some (tt, st') ∧
          delivered i p s m w0 sc tr0 st').
Proof.
  intros Hwf Hs Hk Hbounds Hj0 Hst.
  assert (Hprogress : ∀ d, (j0 + d < n)%nat →
            ∃ st_j, write_ready_events ops i d st0 = Some (tt, st_j) ∧
                    sending i p s m k w0 sc tr0 (j0 + d) (n - (j0 + d)) st_j).
  { induction d as [|d IH]; intros Hj.
    - exists st0. split; [done|]. by rewrite Nat.add_0_r.
    - destruct IH as (st_j & Hrun & Hsend); [lia|].
      replace (n - (j0 + d))%nat with (S (n - (j0 + S d))) in Hsend by lia.
      assert (Hmono : ((j0 + d + 1) * k ≤ (n - 1) * k)%nat)
        by (apply Nat.mul_le_mono_r; lia).
      assert (Hlt : Z.of_nat ((j0 + d + 1) * k) < 4 + m_length m).
      { apply Z.le_lt_trans with (Z.of_nat ((n - 1) * k)); [lia|].
        rewrite Nat2Z.inj_mul, Nat2Z.inj_sub by lia. apply Hbounds. }
      assert (Hk0 : (0 < k)%nat) by lia.
      destruct (write_ready_partial ops i p s m k w0 sc tr0 (j0 + d)
                  (n - (j0 + S d)) st_j Hwf Hs Hk0 Hlt Hsend)
        as (st' & Htick & Hsend').
      exists st'. cbn [write_ready_events]. unfold bind, ret.
      rewrite Hrun, Htick. split; [done|].
      by replace (j0 + d + 1)%nat with (j0 + S d)%nat in Hsend' by lia. }
  split.
  { intros j Hj. destruct (Hprogress (j - j0)%nat) as (st_j & Hrun & Hsend);
      [lia|].
    exists st_j. split; [done|].
    by replace (j0 + (j - j0))%nat with j in Hsend by lia. }
  destruct (Hprogress (n - 1 - j0)%nat) as (st_j & Hrun & Hsend); [lia|].
  replace (j0 + (n - 1 - j0))%nat with (n - 1)%nat in Hsend by lia.
  replace (n - (n - 1))%nat with 1%nat in Hsend by lia.
  assert (Hlast : Z.of_nat ((n - 1) * k) < 4 + m_length m
                  ≤ Z.of_nat ((n - 1 + 1) * k)).
  { replace (n - 1 + 1)%nat with n by lia.
    rewrite !Nat2Z.inj_mul, Nat2Z.inj_sub by lia. apply Hbounds. }
  destruct (write_ready_complete ops i p s m k w0 sc tr0 (n - 1) 0 st_j
              Hwf Hs Hlast Hsend)
    as (st' & Htick & Hdone).
  exists st'. replace (n - j0)%nat with (S (n - 1 - j0)) by lia.
  cbn [write_ready_events]. unfold bind, ret. by rewrite Hrun, Htick.
Qed.

(** The loop computes the count to write in an [int]: with a length field
    of 2^31 - 4 or more the count wraps to a negative number, and whatever
    the socket takes fails the assertion [err == n]. *)
Lemma send_loop_count_wraps fuel block st p f d k msg next a sc :
  heap st !! p = Some f → out_message f = msg :: next →
  raw_flag f = false → out_msg_sent f = 0 →
  o2n_fds st !! fds_index f = Some d →
  kernel st !! fd d = Some k → tx_script k = TxAccept (S a) :: sc →
  Z.of_nat (S a) < 2 ^ 31 →
  2 ^ 31 - 4 ≤ m_length msg < 2 ^ 31 →
  send_loop (S fuel) block p st = None.
Proof.
  intros Hp Hq Hraw Hsent Hd Hk Hsc Ha Hlen. cbn [send_loop].
  unfold bind at 1, deref at 1. rewrite Hp, Hq, Hraw, Hsent.
  unfold bind at 1, pfd_at at 1. rewrite Hd.
  replace (to_int32 (m_length msg + 4 - 0)) with (m_length msg + 4 - 2 ^ 32).
  2: { unfold to_int32.
       replace ((m_length msg + 4 - 0) mod 2 ^ 32) with (m_length msg + 4)
         by (rewrite Z.mod_small; lia).
       destruct (Z.ltb_spec (m_length msg + 4) (2 ^ 31)); lia. }
  replace (to_size_t (m_length msg + 4 - 2 ^ 32))
    with (m_length msg + 4 - 2 ^ 32 + 2 ^ 64).
  2: { unfold to_size_t. symmetry.
       rewrite <- (Z.mod_small (m_length msg + 4 - 2 ^ 32 + 2 ^ 64) (2 ^ 64))
         by lia.
       rewrite <- (Z.mul_1_l (2 ^ 64)) at 2. by rewrite Z.mod_add. }
  unfold bind at 1.
  rewrite (sys_send_accepts st (fd d) k (S a) sc) by done.
  rewrite Z.min_l by lia.
  rewrite (to_int32_small (Z.of_nat (S a))) by lia.
  destruct (Z.ltb_spec (Z.of_nat (S a)) 0); [lia|].
  destruct (Z.geb_spec (Z.of_nat (S a)) (m_length msg + 4 - 2 ^ 32)); [|lia].
  destruct (Z.eqb_spec (Z.of_nat (S a)) (m_length msg + 4 - 2 ^ 32)); [lia|].
  unfold bind at 1.
  match goal with |- context [store p ?g ?s0] =>
    rewrite (store_run p g f s0) by (by destruct st) end.
  done.
Qed.

(** A message of 2^31 - 4 bytes, queued alone on the client of
    [demo_net] with write-interest registered, on a socket that takes 4
    bytes per call. *)
Definition huge_msg : o2n_message :=
  Message (2 ^ 31 - 4) (replicate (Z.to_nat (2 ^ 31 - 4)) 0).
Definition huge_queued : net :=
  Net [Pollfd 5 (Z.lor POLLIN POLLOUT) 0] [0%nat]
    {[ 0%nat := set_out_message [huge_msg] (new_info NET_TCP_CLIENT 0 0) ]}
    false 100 101 (Addr 2130706433 0) (Addr 4294967295 0) true ENONE
    {[ 5 := set_tx [TxAccept 4] [] ksock0 ]} [].

Lemma huge_msg_well_formed : well_formed huge_msg.
Proof.
  split; [|cbn [m_length huge_msg]; lia].
  unfold huge_msg. cbn [m_length payload].
  rewrite length_replicate, Z2Nat.id; lia.
Qed.

(** C4, refuted as stated: the message is well formed, the connection is
    in the state of the claim, and the first write-ready event fails the
    assertion [err == n] of [send]: the count [len + 4] does not fit the
    [int] it is stored in. *)
Lemma frame_size_overflows_int :
  well_formed huge_msg ∧
  sending 0 0%nat 5 huge_msg 4 [] [] [] 0 1 huge_queued ∧
  write_ready_events no_hooks 0 1 huge_queued = None.
Proof.
  split; [exact huge_msg_well_formed|].
  set (f := set_out_message [huge_msg] (new_info NET_TCP_CLIENT 0 0)).
  set (d := Pollfd 5 (Z.lor POLLIN POLLOUT) 0).
  set (k := set_tx [TxAccept 4] [] ksock0).
  assert (Hp : heap huge_queued !! 0%nat = Some f) by reflexivity.
  split.
  { split; [reflexivity|]. split; [reflexivity|]. split; [reflexivity|].
    exists f, d, k. split; [exact Hp|].
    split; [reflexivity|]. split; [discriminate|]. split; [discriminate|].
    split; [reflexivity|]. split; [reflexivity|]. split; [reflexivity|].
    split; [reflexivity|]. split; [reflexivity|]. split; [reflexivity|].
    split; [reflexivity|]. split; [reflexivity|]. split; reflexivity. }
  cbn [write_ready_events]. unfold bind at 1, ret at 1. unfold bind at 1.
  rewrite (tick_write_aborts no_hooks huge_queued 0 0%nat f d);
    [reflexivity|reflexivity|reflexivity|reflexivity|exact Hp|discriminate
    |discriminate|reflexivity|cbn; lia|reflexivity|].
  set (st0 := polled 0 huge_queued).
  assert (Hp0 : heap st0 !! 0%nat = Some f) by reflexivity.
  assert (Hd0 : o2n_fds st0 !! fds_index f = Some (poll_one d POLLOUT))
    by reflexivity.
  rewrite (send_nonblocking_unfold st0 0%nat f (poll_one d POLLOUT));
    [|exact Hp0|discriminate|exact Hd0].
  apply (send_loop_count_wraps _ false st0 0%nat f (poll_one d POLLOUT) k
           huge_msg [] 3 []);
    [exact Hp0|reflexivity|reflexivity|reflexivity|exact Hd0|reflexivity
    |reflexivity|cbn; lia|cbn [m_length huge_msg]; lia].
Qed.

(** C4 (amended): a framed message [m] of payload length L whose frame
    size 4 + L fits an [int], an established connection and a socket that
    takes at most [k] bytes per call (1 <= k < 4 + L); n = ceil((4+L)/k).
    If [m] is alone in the queue with nothing of it sent and write-interest
    registered, each of the first n - 1 write-ready events advances
    [out_msg_sent] by exactly the [k] bytes accepted, appends exactly those
    bytes of the frame to the wire and leaves POLLOUT requested; after n
    events the wire holds the bytes it held before followed by the 4-byte
    length prefix and the payload, once and in order, the message is freed,
    the queue is empty and POLLOUT is cleared.
    If the queue is empty and no write-interest is registered, [enqueue]
    makes the first write itself: [k] bytes are on the wire, the offset is
    [k] and the partial write has registered POLLOUT; the following n - 1
    write-ready events advance and deliver in the same way. *)
Theorem partial_writes_deliver_once ops i p s m k w0 sc tr0 st :
  sendable m → 0 ≤ s → (1 ≤ k)%nat → Z.of_nat k < 4 + m_length m →
  let n := Z.to_nat ((4 + m_length m + Z.of_nat k - 1) / Z.of_nat k) in
  (sending i p s m k w0 sc tr0 0 n st →
     (∀ j, (j < n)%nat →
        ∃ st_j, write_ready_events ops i j st = Some (tt, st_j) ∧
                sending i p s m k w0 sc tr0 j (n - j) st_j) ∧
     (∃ st', write_ready_events ops i n st = Some (tt, st') ∧
             delivered i p s m w0 sc tr0 st')) ∧
  (unsent i p s k w0 sc tr0 n st →
     ∃ st1, enqueue p m st = Some (tt, st1) ∧
       sending i p s m k w0 sc tr0 1 (n - 1) st1 ∧
       (∀ j, (1 ≤ j < n)%nat →
          ∃ st_j, write_ready_events ops i (j - 1) st1 = Some (tt, st_j) ∧
                  sending i p s m k w0 sc tr0 j (n - j) st_j) ∧
       (∃ st', write_ready_events ops i (n - 1) st1 = Some (tt, st') ∧
               delivered i p s m w0 sc tr0 st')).
Proof.
  intros Hwf Hs Hk Hsmall n. pose proof Hwf as (Hlen & Hnn & Hint).
  destruct (ceil_div_bounds (4 + m_length m) (Z.of_nat k)) as [Hn Hbounds];
    [lia..|].
  assert (Hnz : Z.of_nat n = (4 + m_length m + Z.of_nat k - 1) / Z.of_nat k)
    by (subst n; lia).
  rewrite <- Hnz in Hn, Hbounds.
  assert (Hn2 : (1 < n)%nat) by nia.
  split.
  - intros Hst.
    destruct (write_ready_progress ops i p s m k w0 sc tr0 n 0 st)
      as [Hsteps Hdone]; try done; try lia.
    { by rewrite Nat.sub_0_r. }
    split.
    + intros j Hj. destruct (Hsteps j) as (st_j & Hrun & Hsend); [lia|].
      rewrite Nat.sub_0_r in Hrun. by exists st_j.
    + by rewrite Nat.sub_0_r in Hdone.
  - intros Hst. replace n with (S (n - 1)) in Hst by lia.
    destruct (enqueue_partial i p s m k w0 sc tr0 (n - 1) st)
      as (st1 & Hrun & Hsend); try done; try lia.
    exists st1. split; [done|]. split; [done|].
    apply write_ready_progress; try done; lia.
Qed.

(** The client of [demo_net] with [demo_msg1] queued, write-interest
    registered, on a socket that takes 4 bytes per call. *)
Definition slow_net : net :=
  Net [Pollfd 5 (Z.lor POLLIN POLLOUT) 0] [0%nat]
    {[ 0%nat := set_out_message [demo_msg1] (new_info NET_TCP_CLIENT 0 0) ]}
    false 100 101 (Addr 2130706433 0) (Addr 4294967295 0) true ENONE
    {[ 5 := set_tx [TxAccept 4; TxAccept 4] [] ksock0 ]} [].

Lemma slow_net_sending :
  sending 0 0%nat 5 demo_msg1 4 [] [] [] 0 2 slow_net.
Proof.
  split; [reflexivity|]. split; [reflexivity|]. split; [reflexivity|].
  exists (set_out_message [demo_msg1] (new_info NET_TCP_CLIENT 0 0)),
    (Pollfd 5 (Z.lor POLLIN POLLOUT) 0),
    (set_tx [TxAccept 4; TxAccept 4] [] ksock0).
  repeat split; try reflexivity; discriminate.
Qed.

(** The same client with an empty queue and no write-interest. *)
Definition unsent_net : net :=
  Net [Pollfd 5 POLLIN 0] [0%nat]
    {[ 0%nat := new_info NET_TCP_CLIENT 0 0 ]}
    false 100 101 (Addr 2130706433 0) (Addr 4294967295 0) true ENONE
    {[ 5 := set_tx [TxAccept 4; TxAccept 4] [] ksock0 ]} [].

Lemma unsent_net_ok : unsent 0 0%nat 5 4 [] [] [] 2 unsent_net.
Proof.
  split; [reflexivity|]. split; [reflexivity|]. split; [reflexivity|].
  exists (new_info NET_TCP_CLIENT 0 0), (Pollfd 5 POLLIN 0),
    (set_tx [TxAccept 4; TxAccept 4] [] ksock0).
  repeat split; try reflexivity; discriminate.
Qed.

Lemma partial_writes_deliver_once_witness :
  ((∀ j, (j < 2)%nat →
      ∃ st_j, write_ready_events no_hooks 0 j slow_net = Some (tt, st_j) ∧
              sending 0 0%nat 5 demo_msg1 4 [] [] [] j (2 - j) st_j) ∧
   (∃ st', write_ready_events no_hooks 0 2 slow_net = Some (tt, st') ∧
           delivered 0 0%nat 5 demo_msg1 [] [] [] st')) ∧
  (∃ st1, enqueue 0%nat demo_msg1 unsent_net = Some (tt, st1) ∧
     sending 0 0%nat 5 demo_msg1 4 [] [] [] 1 1 st1 ∧
     (∃ st', write_ready_events no_hooks 0 1 st1 = Some (tt, st') ∧
             delivered 0 0%nat 5 demo_msg1 [] [] [] st')).
Proof.
  split.
  - apply (partial_writes_deliver_once no_hooks 0 0%nat 5 demo_msg1 4 [] [] []
             slow_net).
    + split; [reflexivity|]. cbn. lia.
    + lia.
    + lia.
    + cbn. lia.
    + apply slow_net_sending.
  - destruct (partial_writes_deliver_once no_hooks 0 0%nat 5 demo_msg1 4
                [] [] [] unsent_net) as [_ Hun].
    + split; [reflexivity|]. cbn. lia.
    + lia.
    + lia.
    + cbn. lia.
    + destruct (Hun unsent_net_ok) as (st1 & Hrun & Hsend & _ & Hdone).
      exists st1. split; [exact Hrun|]. split; [exact Hsend|exact Hdone].
Defined.
(** *** The outbound byte stream *)

(** Bytes of the queue not handed to the kernel yet. *)
Definition pending_bytes (f : Fds_info) : list byte :=
  match out_message f with
  | [] => []
  | m :: rest =>
      drop (Z.to_nat (out_msg_sent f)) (frame m) ++ concat (map frame rest)
  end.

(** A framed connection whose queued messages can be framed and whose
    offset lies inside the head message. *)
Definition tx_inv (f : Fds_info) : Prop :=
  raw_flag f = false ∧ Forall sendable (out_message f) ∧
  match out_message f with
  | [] => out_msg_sent f = 0
  | m :: _ => 0 ≤ out_msg_sent f < 4 + m_length m
  end.

(** The socket never fails with a terminating error. *)
Definition benign (k : ksock) : Prop :=
  Forall (λ o, match o with TxAccept _ => True | TxError e => retryable e end)
    (tx_script k).

(** Number of calls on which the kernel will take at least one byte. *)
Fixpoint accepts (sc : list tx_outcome) : nat :=
  match sc with
  | [] => 0
  | TxAccept (S _) :: sc' => S (accepts sc')
  | _ :: sc' => accepts sc'
  end.

Lemma accepts_le_length sc : (accepts sc ≤ length sc)%nat.
Proof. induction sc as [|[[|a]|e] sc IH]; cbn; lia. Qed.

Lemma accepts_app a b : accepts (a ++ b) = (accepts a + accepts b)%nat.
Proof. induction a as [|[[|n]|e] a IH]; cbn; lia. Qed.

(** From [k], [f] to [k'], [f']: the kernel went through part of its
    script, and every call that took bytes shortened the queue by at least
    one byte. *)
Definition tx_progress (k : ksock) (f : Fds_info) (k' : ksock)
  (f' : Fds_info) : Prop :=
  (∃ used, tx_script k = used ++ tx_script k') ∧
  (length (pending_bytes f') + accepts (tx_script k)
   ≤ length (pending_bytes f) + accepts (tx_script k'))%nat.

Lemma tx_progress_refl k f : tx_progress k f k f.
Proof. split; [by exists []|lia]. Qed.

Lemma tx_progress_trans k1 f1 k2 f2 k3 f3 :
  tx_progress k1 f1 k2 f2 → tx_progress k2 f2 k3 f3 →
  tx_progress k1 f1 k3 f3.
Proof.
  intros [[u1 H1] Ha] [[u2 H2] Hb]. split; [|lia].
  exists (u1 ++ u2). by rewrite H1, H2, app_assoc.
Qed.

(** What such a step has written is a prefix of what was queued, at
    least one byte for every call that took bytes. *)
Lemma tx_progress_sent k f k' f' :
  tx_wire k' ++ pending_bytes f' = tx_wire k ++ pending_bytes f →
  tx_progress k f k' f' →
  ∃ sent, tx_wire k' = tx_wire k ++ sent ∧
          pending_bytes f = sent ++ pending_bytes f' ∧
          (accepts (tx_script k)
           ≤ accepts (tx_script k') + length sent)%nat.
Proof.
  intros Hw [[used Hused] Hacc].
  assert (Hle : (length (pending_bytes f') ≤ length (pending_bytes f))%nat).
  { rewrite Hused, accepts_app in Hacc. lia. }
  apply app_eq_app in Hw as [l [[Hw Hp] | [Hw Hp]]].
  - exists l. split; [done|]. split; [done|].
    rewrite Hp, length_app in Hacc. lia.
  - rewrite Hp, length_app in Hle.
    assert (l = []) as -> by (destruct l; [done|cbn in Hle; lia]).
    exists []. rewrite app_nil_r in Hw. rewrite Hw, app_nil_r.
    split; [done|]. split; [done|]. cbn in *. rewrite Hp in Hacc. lia.
Qed.

(** [f'] differs from [f] in the outbound queue and offset only. *)
Definition tx_only (f f' : Fds_info) : Prop :=
  net_tag f' = net_tag f ∧ fds_index f' = fds_index f ∧
  delete_me f' = delete_me f ∧ raw_flag f' = raw_flag f ∧
  owner f' = owner f.

(** [st'] differs from [st] in connection [p], descriptor [i], kernel
    socket [s], errno and trace only. *)
Definition tx_frame (p : ptr) (i : nat) (s : Z) (st st' : net) : Prop :=
  o2n_fds_info st' = o2n_fds_info st ∧
  o2n_socket_delete_flag st' = o2n_socket_delete_flag st ∧
  o2_ensemble_name st' = o2_ensemble_name st ∧
  length (o2n_fds st') = length (o2n_fds st) ∧
  (∀ j, j ≠ i → o2n_fds st' !! j = o2n_fds st !! j) ∧
  (∀ q, q ≠ p → heap st' !! q = heap st !! q) ∧
  (∀ t, t ≠ s → kernel st' !! t = kernel st !! t).

Lemma tx_frame_refl p i s st : tx_frame p i s st st.
Proof. by repeat split. Qed.

Lemma tx_frame_trans p i s st1 st2 st3 :
  tx_frame p i s st1 st2 → tx_frame p i s st2 st3 → tx_frame p i s st1 st3.
Proof.
  intros (?&?&?&?&Hf1&Hh1&Hk1) (?&?&?&?&Hf2&Hh2&Hk2).
  repeat split; try congruence.
  - intros j Hj. by rewrite Hf2, Hf1.
  - intros q Hq. by rewrite Hh2, Hh1.
  - intros t Ht. by rewrite Hk2, Hk1.
Qed.

Lemma tx_frame_tx_set p f' i d' s k' evs st :
  tx_frame p i s st (tx_set p f' i d' s k' evs st).
Proof.
  repeat split; cbn.
  - apply length_insert.
  - intros j Hj. by rewrite list_lookup_insert_ne.
  - intros q Hq. by rewrite lookup_insert_ne.
  - intros t Ht. by rewrite lookup_insert_ne.
Qed.

Lemma pending_bytes_advance f m rest a :
  out_message f = m :: rest → 0 ≤ out_msg_sent f →
  take a (drop (Z.to_nat (out_msg_sent f)) (frame m)) ++
  pending_bytes (set_out_msg_sent (out_msg_sent f + Z.of_nat a) f)
  = pending_bytes f.
Proof.
  intros Hq Hs. unfold pending_bytes.
  replace (out_message (set_out_msg_sent (out_msg_sent f + Z.of_nat a) f))
    with (out_message f) by by destruct f.
  replace (out_msg_sent (set_out_msg_sent (out_msg_sent f + Z.of_nat a) f))
    with (out_msg_sent f + Z.of_nat a) by by destruct f.
  rewrite Hq, app_assoc. f_equal.
  replace (Z.to_nat (out_msg_sent f + Z.of_nat a))
    with (Z.to_nat (out_msg_sent f) + a)%nat by lia.
  rewrite <- drop_drop. apply take_drop.
Qed.

Lemma pending_bytes_next f m rest :
  out_message f = m :: rest → Forall sendable rest →
  pending_bytes (set_out_message rest (set_out_msg_sent 0 f))
  = concat (map frame rest).
Proof.
  intros Hq Hwf. unfold pending_bytes.
  replace (out_message (set_out_message rest (set_out_msg_sent 0 f)))
    with rest by by destruct f.
  replace (out_msg_sent (set_out_message rest (set_out_msg_sent 0 f)))
    with 0 by by destruct f.
  by destruct rest.
Qed.

Lemma pending_bytes_head f m rest :
  tx_inv f → out_message f = m :: rest →
  length (pending_bytes f)
  = (Z.to_nat (m_length m + 4 - out_msg_sent f)
     + length (concat (map frame rest)))%nat.
Proof.
  intros (_ & Hwf & Hsent) Hq. rewrite Hq in Hwf, Hsent.
  apply Forall_cons in Hwf as [(Hlen & _ & _) _].
  unfold pending_bytes. rewrite Hq, length_app, length_drop, length_frame.
  lia.
Qed.

Lemma pending_bytes_pos f :
  tx_inv f → out_message f ≠ [] → (0 < length (pending_bytes f))%nat.
Proof.
  intros Hinv Hq. destruct (out_message f) as [|m rest] eqn:Hq'; [done|].
  rewrite (pending_bytes_head f m rest) by done.
  destruct Hinv as (_ & _ & Hsent). rewrite Hq' in Hsent. lia.
Qed.

Lemma benign_tail k o sc : benign k → tx_script k = o :: sc → Forall
  (λ o, match o with TxAccept _ => True | TxError e => retryable e end) sc.
Proof. unfold benign. intros Hb Hsc. rewrite Hsc in Hb. by inversion Hb. Qed.

(** The kernel socket after a call that failed with a retryable error. *)
Lemma tx_error_step st s k e :
  kernel st !! s = Some k → benign k → tx_fails_with (Some k) e →
  retryable e ∧
  ∃ k', kernel (after_tx_error s e st) !! s = Some k' ∧ benign k' ∧
        tx_wire k' = tx_wire k ∧
        accepts (tx_script k') = accepts (tx_script k) ∧
        ((tx_script k = [] ∧ tx_script k' = []) ∨
         ∃ o, tx_script k = o :: tx_script k').
Proof.
  intros Hk Hb Hfail. unfold tx_fails_with in Hfail.
  assert (Hkn : kernel (after_tx_error s e st) = tx_failed s (kernel st))
    by by destruct st.
  rewrite Hkn. unfold tx_failed. rewrite Hk.
  destruct (tx_script k) as [|[a|e'] sc] eqn:Hsc; [| done |].
  - subst e. split; [by left|]. exists k. rewrite Hsc. by repeat split; auto.
  - subst e'. split.
    { unfold benign in Hb. rewrite Hsc in Hb. by inversion Hb. }
    eexists. rewrite lookup_insert_eq. split; [done|].
    split; [by eapply benign_tail|]. cbn. split; [done|]. split; [done|].
    right. by exists (TxError e).
Qed.

Lemma after_tx_error_frame p i s e st :
  tx_frame p i s st (after_tx_error s e st) ∧
  heap (after_tx_error s e st) = heap st ∧
  o2n_fds (after_tx_error s e st) = o2n_fds st.
Proof.
  destruct st as [fds infos hp flag us bs la ba en er kn tr].
  repeat split; cbn. intros t Ht. unfold tx_failed.
  destruct (kn !! s) as [k|]; [|done].
  destruct (tx_script k); [done|]. by rewrite lookup_insert_ne.
Qed.

(** What a pass of the loop is given: a non-blocking pass needs one loop
    test more than there are queued messages; a blocking pass goes through
    one entry of the script at every turn, and returns if the kernel takes
    at least one byte on as many calls as there are bytes queued. *)
Definition loop_bound (block : bool) (fuel : nat) (k : ksock) (f : Fds_info)
  : Prop :=
  if block
  then (length (tx_script k) < fuel)%nat ∧
       (length (pending_bytes f) ≤ accepts (tx_script k))%nat
  else (length (out_message f) < fuel)%nat.

(** A pass of the loop over a socket that never fails with a terminating
    error, whatever the kernel accepts at each call: the pass returns, and
    the bytes on the wire followed by the bytes still queued are the same
    before and after.  A blocking pass returns with the queue empty; a
    non-blocking pass that returns O2_BLOCKED has registered
    write-interest and used an entry of the script, if there was one. *)
Lemma send_loop_run fuel : ∀ block st p f d k,
  heap st !! p = Some f → tx_inv f →
  o2n_fds st !! fds_index f = Some d →
  kernel st !! fd d = Some k → benign k →
  loop_bound block fuel k f →
  ∃ r st' f' d' k',
    send_loop fuel block p st = Some (r, st') ∧
    heap st' !! p = Some f' ∧ tx_only f f' ∧ tx_inv f' ∧
    o2n_fds st' !! fds_index f = Some d' ∧ fd d' = fd d ∧
    revents d' = revents d ∧
    kernel st' !! fd d = Some k' ∧ benign k' ∧
    tx_wire k' ++ pending_bytes f' = tx_wire k ++ pending_bytes f ∧
    tx_frame p (fds_index f) (fd d) st st' ∧
    tx_progress k f k' f' ∧
    ((r = O2_SUCCESS ∧ out_message f' = [] ∧ events d' = events d) ∨
     (r = O2_BLOCKED ∧ block = false ∧ out_message f' ≠ [] ∧
      events d' = Z.lor (events d) POLLOUT ∧
      (tx_script k = [] ∨
       (length (tx_script k') < length (tx_script k))%nat))).
Proof.
  induction fuel as [|fuel IH]; intros block st p f d k Hp Hinv Hd Hk Hb Hfuel.
  { unfold loop_bound in Hfuel. destruct block; lia. }
  destruct (out_message f) as [|msg next] eqn:Hq.
  { exists O2_SUCCESS, st, f, d, k.
    split; [cbn [send_loop]; unfold bind, deref; by rewrite Hp, Hq|].
    split; [done|]. split; [done|]. split; [done|]. split; [done|].
    split; [done|]. split; [done|]. split; [done|]. split; [done|].
    split; [done|]. split; [apply tx_frame_refl|].
    split; [apply tx_progress_refl|]. by left. }
  pose proof Hinv as (Hraw & Hwf & Hsent). rewrite Hq in Hsent, Hwf.
  assert (Hmsg : sendable msg) by by inversion Hwf.
  assert (Hwf' : Forall sendable next) by by inversion Hwf.
  pose proof Hmsg as (Hlen & Hnn & Hint).
  assert (Hpend : length (pending_bytes f)
                  = (Z.to_nat (m_length msg + 4 - out_msg_sent f)
                     + length (concat (map frame next)))%nat)
    by by apply pending_bytes_head.
  assert (Hil : (fds_index f < length (o2n_fds st))%nat)
    by (eapply lookup_lt_Some; eauto).
  assert (Herr : ∀ e, tx_fails_with (Some k) e →
    ∃ r st' f' d' k',
      send_loop (S fuel) block p st = Some (r, st') ∧
      heap st' !! p = Some f' ∧ tx_only f f' ∧ tx_inv f' ∧
      o2n_fds st' !! fds_index f = Some d' ∧ fd d' = fd d ∧
      revents d' = revents d ∧
      kernel st' !! fd d = Some k' ∧ benign k' ∧
      tx_wire k' ++ pending_bytes f' = tx_wire k ++ pending_bytes f ∧
      tx_frame p (fds_index f) (fd d) st st' ∧
      tx_progress k f k' f' ∧
      ((r = O2_SUCCESS ∧ out_message f' = [] ∧ events d' = events d) ∨
       (r = O2_BLOCKED ∧ block = false ∧ out_message f' ≠ [] ∧
        events d' = Z.lor (events d) POLLOUT ∧
        (tx_script k = [] ∨
         (length (tx_script k') < length (tx_script k))%nat)))).
  { intros e Hfail.
    destruct (tx_error_step st (fd d) k e Hk Hb Hfail)
      as (Hre & k1 & Hk1 & Hb1 & Hw1 & Hacc1 & Hsc1).
    destruct (after_tx_error_frame p (fds_index f) (fd d) e st)
      as (Hfr1 & Hheap1 & Hfds1).
    assert (Hfail' : tx_fails_with (kernel st !! fd d) e) by by rewrite Hk.
    assert (Hprog1 : tx_progress k f k1 f).
    { split; [|lia]. destruct Hsc1 as [[-> ->] | [o ->]];
        [by exists []|by exists [o]]. }
    destruct block.
    - destruct Hfuel as [Hfuel Hcap].
      rewrite (send_loop_retry_blocking fuel st p f d msg next e) by done.
      destruct Hsc1 as [[Hnil _] | [o Ho]].
      { rewrite Hnil in Hcap. cbn in Hcap. lia. }
      assert (Hp1 : heap (after_tx_error (fd d) e st) !! p = Some f)
        by by rewrite Hheap1.
      assert (Hd1 : o2n_fds (after_tx_error (fd d) e st) !! fds_index f
                    = Some d) by by rewrite Hfds1.
      assert (Hlb1 : loop_bound true fuel k1 f).
      { split; [|lia]. rewrite Ho in Hfuel. cbn in Hfuel. lia. }
      destruct (IH true (after_tx_error (fd d) e st) p f d k1
                  Hp1 Hinv Hd1 Hk1 Hb1 Hlb1) as
        (r & st' & f' & d' & k' & Hrun & Hp' & Ho' & Hinv' & Hd' & Hfd' &
         Hrev' & Hk' & Hb' & Hw' & Hfr' & Hprog' & Hres).
      exists r, st', f', d', k'.
      split; [done|]. split; [done|]. split; [done|]. split; [done|].
      split; [done|]. split; [done|]. split; [done|]. split; [done|].
      split; [done|]. split; [by rewrite Hw', Hw1|].
      split; [by eapply tx_frame_trans|].
      split; [by eapply tx_progress_trans|].
      destruct Hres as [?|(_ & ? & _)]; [by left|done].
    - exists O2_BLOCKED, (want_pollout (fds_index f) d
                           (after_tx_error (fd d) e st)),
        f, (set_events (Z.lor (events d) POLLOUT) d), k1.
      split; [by apply send_loop_retryable with (msg := msg) (next := next)|].
      split; [destruct st; by cbn in *|]. split; [done|]. split; [done|].
      split.
      { destruct st; cbn in *. by apply list_lookup_insert_eq. }
      split; [done|]. split; [done|].
      split; [destruct st; by cbn in *|]. split; [done|].
      split; [by rewrite Hw1|].
      split.
      { eapply tx_frame_trans; [done|]. destruct st. repeat split; cbn.
        - apply length_insert.
        - intros j Hj. by rewrite list_lookup_insert_ne. }
      split; [done|]. right.
      split; [done|]. split; [done|]. split; [by rewrite Hq|].
      split; [done|].
      destruct Hsc1 as [[? _] | [o ->]]; [by left|right; cbn; lia]. }
  destruct (tx_script k) as [|[a|e] sc] eqn:Hsc.
  - apply (Herr EAGAIN). unfold tx_fails_with. by rewrite Hsc.
  - assert (Hbsc : Forall (λ o, match o with
                               | TxAccept _ => True
                               | TxError e => retryable e end) sc)
      by (eapply benign_tail; eauto).
    assert (Hacc : (accepts (TxAccept a :: sc) ≤ accepts sc + a)%nat
                   ∧ (accepts (TxAccept a :: sc) ≤ S (accepts sc))%nat)
      by (destruct a; cbn; lia).
    destruct (Z_lt_le_dec (Z.of_nat a) (m_length msg + 4 - out_msg_sent f))
      as [Hlt | Hge].
    + set (f1 := set_out_msg_sent (out_msg_sent f + Z.of_nat a) f).
      set (k1 := set_tx sc
                   (tx_wire k ++
                    take a (drop (Z.to_nat (out_msg_sent f)) (frame msg))) k).
      assert (Hinv1 : tx_inv f1).
      { split; [by destruct f|]. subst f1. destruct f; cbn in *. subst.
        split; [done|]. lia. }
      assert (Hw1 : tx_wire k1 ++ pending_bytes f1
                    = tx_wire k ++ pending_bytes f).
      { subst k1. cbn [tx_wire set_tx]. rewrite <- app_assoc. f_equal.
        by apply pending_bytes_advance with (rest := next); [|lia]. }
      assert (Hq1 : out_message f1 = msg :: next) by by destruct f.
      assert (Hpend1 : (length (pending_bytes f1) + a
                        = length (pending_bytes f))%nat).
      { rewrite Hpend, (pending_bytes_head f1 msg next) by done.
        replace (out_msg_sent f1) with (out_msg_sent f + Z.of_nat a)
          by by destruct f.
        lia. }
      assert (Hprog1 : tx_progress k f k1 f1).
      { split; [exists [TxAccept a]; by rewrite Hsc|].
        rewrite Hsc. subst k1. cbn [tx_script set_tx]. lia. }
      destruct block.
      * destruct Hfuel as [Hfuel Hcap]. rewrite Hsc in Hfuel, Hcap.
        rewrite (send_loop_partial_blocking fuel st p f d k msg next a sc)
          by (done || lia).
        fold f1 k1.
        set (st1 := tx_set p f1 (fds_index f) d (fd d) k1 [] st).
        assert (Hp1 : heap st1 !! p = Some f1) by apply lookup_insert_eq.
        assert (Hd1 : o2n_fds st1 !! fds_index f1 = Some d).
        { replace (fds_index f1) with (fds_index f) by by destruct f.
          by apply list_lookup_insert_eq. }
        assert (Hk1 : kernel st1 !! fd d = Some k1) by apply lookup_insert_eq.
        assert (Hb1 : benign k1) by done.
        assert (Hlb1 : loop_bound true fuel k1 f1).
        { split; [cbn in *; lia|]. subst k1. cbn [tx_script set_tx]. lia. }
        destruct (IH true st1 p f1 d k1 Hp1 Hinv1 Hd1 Hk1 Hb1 Hlb1) as
          (r & st' & f' & d' & k' & Hrun & Hp' & Ho' & Hinv' & Hd' & Hfd' &
           Hrev' & Hk' & Hb' & Hw' & Hfr' & Hprog' & Hres).
        replace (fds_index f1) with (fds_index f) in * by by destruct f.
        exists r, st', f', d', k'.
        split; [done|]. split; [done|].
        split.
        { destruct Ho' as (?&?&?&?&?). destruct f; cbn in *.
          by repeat split. }
        split; [done|]. split; [done|]. split; [done|]. split; [done|].
        split; [done|]. split; [done|]. split; [by rewrite Hw'|].
        split; [eapply tx_frame_trans; [apply tx_frame_tx_set|done]|].
        split; [by eapply tx_progress_trans|].
        destruct Hres as [?|(_ & ? & _)]; [by left|done].
      * eexists O2_BLOCKED, _, f1,
          (set_events (Z.lor (events d) POLLOUT) d), k1.
        split; [by eapply send_loop_partial; eauto; lia|].
        split; [apply lookup_insert_eq|]. split; [by destruct f|].
        split; [done|].
        split; [by apply list_lookup_insert_eq|]. split; [done|].
        split; [done|]. split; [apply lookup_insert_eq|]. split; [done|].
        split; [done|].
        split; [apply tx_frame_tx_set|]. split; [done|]. right.
        split; [done|]. split; [done|]. split; [by rewrite Hq1|].
        split; [done|]. right. subst k1. cbn. lia.
    + rewrite (send_loop_complete fuel st p f d k msg next a sc block)
        by (done || lia).
      set (f1 := set_out_message next (set_out_msg_sent 0 f)).
      set (k1 := set_tx sc _ k).
      set (st1 := tx_set p f1 (fds_index f) d (fd d) k1 [EvFree msg] st).
      assert (Hq1 : out_message f1 = next) by by destruct f.
      assert (Hinv1 : tx_inv f1).
      { split; [by destruct f|]. split; [by rewrite Hq1|]. rewrite Hq1.
        replace (out_msg_sent f1) with 0 by by destruct f.
        destruct next as [|m' next']; [done|].
        inversion Hwf' as [|? ? (Hm1 & Hm2 & Hm3)]. subst. lia. }
      assert (Hpb1 : pending_bytes f1 = concat (map frame next))
        by by apply pending_bytes_next with (m := msg).
      assert (Hw1 : tx_wire k1 ++ pending_bytes f1
                    = tx_wire k ++ pending_bytes f).
      { subst k1. cbn [tx_wire set_tx]. rewrite Hpb1.
        unfold pending_bytes. rewrite Hq, <- app_assoc. f_equal.
        f_equal. apply take_ge. rewrite length_drop, length_frame. lia. }
      assert (Hprog1 : tx_progress k f k1 f1).
      { split; [exists [TxAccept a]; by rewrite Hsc|].
        rewrite Hsc, Hpend, Hpb1. subst k1. cbn [tx_script set_tx]. lia. }
      assert (Hp1 : heap st1 !! p = Some f1) by apply lookup_insert_eq.
      assert (Hd1 : o2n_fds st1 !! fds_index f1 = Some d).
      { replace (fds_index f1) with (fds_index f) by by destruct f.
        by apply list_lookup_insert_eq. }
      assert (Hk1 : kernel st1 !! fd d = Some k1) by apply lookup_insert_eq.
      assert (Hb1 : benign k1) by done.
      assert (Hlb1 : loop_bound block fuel k1 f1).
      { unfold loop_bound in *. destruct block.
        - destruct Hfuel as [Hfuel Hcap]. rewrite Hsc in Hfuel, Hcap.
          subst k1. cbn [tx_script set_tx].
          rewrite Hpb1. cbn in Hfuel. split; lia.
        - rewrite Hq1. rewrite Hq in Hfuel. cbn [length] in Hfuel. lia. }
      destruct (IH block st1 p f1 d k1 Hp1 Hinv1 Hd1 Hk1 Hb1 Hlb1) as
        (r & st' & f' & d' & k' & Hrun & Hp' & Ho' & Hinv' & Hd' & Hfd' &
         Hrev' & Hk' & Hb' & Hw' & Hfr' & Hprog' & Hres).
      replace (fds_index f1) with (fds_index f) in * by by destruct f.
      exists r, st', f', d', k'.
      split; [done|]. split; [done|].
      split.
      { destruct Ho' as (?&?&?&?&?). destruct f; cbn in *.
        by repeat split. }
      split; [done|]. split; [done|]. split; [done|]. split; [done|].
      split; [done|]. split; [done|]. split; [by rewrite Hw'|].
      split; [eapply tx_frame_trans; [apply tx_frame_tx_set|done]|].
      split; [by eapply tx_progress_trans|].
      destruct Hres as [?|(? & ? & ? & ? & Hlen')]; [by left|right].
      split; [done|]. split; [done|]. split; [done|]. split; [done|].
      right. destruct Hprog' as [[used Hused] _].
      subst k1. cbn [tx_script set_tx] in *.
      destruct Hlen' as [Hnil | Hlen'].
      * rewrite Hnil in Hused. symmetry in Hused.
        apply app_eq_nil in Hused as [_ ->]. cbn. lia.
      * cbn. lia.
  - apply (Herr e). unfold tx_fails_with. by rewrite Hsc.
Qed.

Lemma poll_one_not_writable d :
  has_flag (events d) POLLOUT = false → revents (poll_one d POLLOUT) = 0.
Proof.
  intros Hev. unfold poll_one. cbn.
  destruct (fd d <? 0); [done|].
  change POLLOUT with (2 ^ 2) in *.
  rewrite has_flag_testbit in Hev by lia.
  rewrite Z.land_comm, land_bit by lia.
  by rewrite Z.lor_spec, Hev.
Qed.

(** A tick in which nothing that is polled for is ready changes the
    [revents] fields only. *)
Lemma tick_idle ops st i d :
  o2n_socket_delete_flag st = false → o2_ensemble_name st = true →
  o2n_fds st !! i = Some d → has_flag (events d) POLLOUT = false →
  o2n_recv ops (ready_only i) st = Some (O2_SUCCESS, polled i st).
Proof.
  intros Hflag Halive Hd Hev.
  set (st0 := polled i st).
  assert (Hidle : ∀ j, (j < length (o2n_fds st))%nat →
            ∃ d', o2n_fds st0 !! j = Some d' ∧ revents d' = 0).
  { intros j Hj. subst st0.
    destruct (lookup_lt_is_Some_2 (o2n_fds st) j Hj) as [dj Hdj].
    destruct st. cbn in *. rewrite poll_all_lookup, ready_only_lookup, Hdj.
    eexists. split; [done|]. case_decide.
    - subst j. replace dj with d by congruence.
      by apply poll_one_not_writable.
    - apply poll_one_nothing. }
  assert (Hlen0 : length (o2n_fds st0) = length (o2n_fds st)).
  { subst st0. destruct st. cbn. apply poll_all_length. }
  unfold o2n_recv. unfold bind at 1, gets at 1. rewrite Hflag.
  unfold bind at 1, when at 1, ret at 1.
  unfold bind at 1, sys_poll at 1, modify at 1. fold (polled i st). fold st0.
  unfold bind at 1, gets at 1. rewrite Hlen0.
  unfold bind at 1.
  rewrite dispatch_from_idle; [|intros j Hj; apply Hidle; lia|by destruct st].
  unfold bind, gets, when, ret.
  by replace (o2n_socket_delete_flag st0) with false by by destruct st.
Qed.

(** A tick that finds the descriptor writable while nothing is queued
    clears write-interest. *)
Lemma tick_clear ops st i p f d :
  o2n_socket_delete_flag st = false → o2_ensemble_name st = true →
  o2n_fds_info st !! i = Some p → heap st !! p = Some f →
  net_tag f ≠ NET_TCP_CONNECTING → out_message f = [] →
  o2n_fds st !! i = Some d → 0 ≤ fd d →
  has_flag (events d) POLLOUT = true →
  o2n_recv ops (ready_only i) st =
    Some (O2_SUCCESS,
          upd_fds <[i := clear_pollout (poll_one d POLLOUT)]> (polled i st)).
Proof.
  intros Hflag Halive Hi Hp Htag Hq Hd Hfd Hev.
  assert (Hil : (i < length (o2n_fds st))%nat)
    by (eapply lookup_lt_Some; eauto).
  set (st0 := polled i st) in *.
  set (d0 := poll_one d POLLOUT).
  assert (Hfds0 : ∀ j, o2n_fds st0 !! j
            = (λ d, poll_one d (if decide (j = i) then POLLOUT else 0))
                <$> o2n_fds st !! j).
  { intros j. subst st0. destruct st. cbn.
    by rewrite poll_all_lookup, ready_only_lookup. }
  assert (Hd0 : o2n_fds st0 !! i = Some d0).
  { rewrite Hfds0, Hd, decide_True by done. done. }
  assert (Hidle0 : ∀ j, j ≠ i → (j < length (o2n_fds st))%nat →
            ∃ d', o2n_fds st0 !! j = Some d' ∧ revents d' = 0).
  { intros j Hne Hj. rewrite Hfds0, decide_False by done.
    destruct (lookup_lt_is_Some_2 (o2n_fds st) j Hj) as [dj ->].
    eexists. split; [done|]. apply poll_one_nothing. }
  assert (Hlen0 : length (o2n_fds st0) = length (o2n_fds st)).
  { subst st0. destruct st. cbn. apply poll_all_length. }
  set (st2 := upd_fds <[i := clear_pollout d0]> st0).
  assert (Halive0 : o2_ensemble_name st0 = true) by by destruct st.
  assert (Hdisp : dispatch ops i st0 = Some (None, st2)).
  { unfold dispatch. unfold bind at 1, pfd_at at 1. rewrite Hd0.
    subst d0. rewrite poll_one_writable by done.
    change (has_flag POLLOUT POLLERR) with false.
    change (has_flag POLLOUT POLLHUP) with false.
    change (has_flag POLLOUT POLLOUT) with true.
    cbn match.
    assert (Hi0 : o2n_fds_info st0 !! i = Some p) by by destruct st.
    assert (Hp0 : heap st0 !! p = Some f) by by destruct st.
    unfold bind at 1. unfold bind at 1, info_at at 1. rewrite Hi0.
    unfold bind at 1, deref at 1. rewrite Hp0.
    rewrite bool_decide_eq_false_2 by done.
    unfold bind at 1, when at 1, ret at 1.
    unfold bind at 1, deref at 1. rewrite Hp0.
    rewrite (bool_decide_eq_true_2 (out_message f = [])) by done.
    cbn [negb].
    unfold pfd_store, bind, pfd_at, modify, ret, gets.
    rewrite Hd0.
    change (upd_fds _ st0) with st2.
    by replace (o2_ensemble_name st2) with true by by destruct st. }
  assert (Hidle2 : ∀ j, j ≠ i → (j < length (o2n_fds st))%nat →
            ∃ d', o2n_fds st2 !! j = Some d' ∧ revents d' = 0).
  { intros j Hne Hj. destruct (Hidle0 j Hne Hj) as (d' & Hd' & Hr).
    exists d'. split; [|done]. subst st2. destruct st. cbn in *.
    by rewrite list_lookup_insert_ne. }
  unfold o2n_recv. unfold bind at 1, gets at 1. rewrite Hflag.
  unfold bind at 1, when at 1, ret at 1.
  unfold bind at 1, sys_poll at 1, modify at 1. fold (polled i st). fold st0.
  unfold bind at 1, gets at 1. rewrite Hlen0.
  replace (length (o2n_fds st)) with (i + S (length (o2n_fds st) - i - 1))%nat
    by lia.
  unfold bind at 1. rewrite dispatch_from_split.
  rewrite dispatch_from_idle; [|intros j Hj; apply Hidle0; lia|by destruct st].
  cbn [dispatch_from Nat.add]. unfold bind at 1. rewrite Hdisp.
  rewrite dispatch_from_idle;
    [|intros j Hj; apply Hidle2; lia|by destruct st].
  unfold bind, gets, when, ret.
  by replace (o2n_socket_delete_flag st2) with false by by destruct st.
Qed.

(** Connection [p] (slot [i], socket [s]) is established and framed, its
    record is [f], its descriptor [d] and its kernel socket [k], which
    never fails with a terminating error; write-interest is registered
    whenever messages are queued. *)
Definition tx_conn (i : nat) (p : ptr) (s : Z) (f : Fds_info) (d : pollfd)
  (k : ksock) (st : net) : Prop :=
  o2n_socket_delete_flag st = false ∧ o2_ensemble_name st = true ∧
  o2n_fds_info st !! i = Some p ∧
  heap st !! p = Some f ∧ fds_index f = i ∧
  (net_tag f = NET_TCP_CLIENT ∨ net_tag f = NET_TCP_CONNECTION) ∧
  tx_inv f ∧
  o2n_fds st !! i = Some d ∧ fd d = s ∧
  (out_message f ≠ [] → has_flag (events d) POLLOUT = true) ∧
  kernel st !! s = Some k ∧ benign k.

(** From [k], [f] to [k'], [f'] the bytes [added] were appended to the
    connection's stream, none was lost or reordered, and the kernel went
    through part of its script. *)
Definition tx_step (added : list byte) (k : ksock) (f : Fds_info)
  (k' : ksock) (f' : Fds_info) : Prop :=
  tx_wire k' ++ pending_bytes f' = tx_wire k ++ pending_bytes f ++ added ∧
  (∃ used, tx_script k = used ++ tx_script k') ∧
  (length (pending_bytes f') + accepts (tx_script k)
   ≤ length (pending_bytes f) + length added + accepts (tx_script k'))%nat.

Lemma tx_step_refl k f : tx_step [] k f k f.
Proof. split; [by rewrite app_nil_r|]. split; [by exists []|cbn; lia]. Qed.

Lemma tx_step_trans a b k1 f1 k2 f2 k3 f3 :
  tx_step a k1 f1 k2 f2 → tx_step b k2 f2 k3 f3 →
  tx_step (a ++ b) k1 f1 k3 f3.
Proof.
  intros (Hw1 & [u1 H1] & Ha) (Hw2 & [u2 H2] & Hb). split.
  { by rewrite Hw2, app_assoc, Hw1, <- !app_assoc. }
  split; [|rewrite length_app; lia].
  exists (u1 ++ u2). by rewrite H1, H2, app_assoc.
Qed.

Lemma tx_step_length a k f k' f' :
  tx_step a k f k' f' → (length (tx_script k') ≤ length (tx_script k))%nat.
Proof. intros (_ & [u ->] & _). rewrite length_app. lia. Qed.

Lemma tx_step_accepts a k f k' f' :
  tx_step a k f k' f' → (accepts (tx_script k') ≤ accepts (tx_script k))%nat.
Proof. intros (_ & [u ->] & _). rewrite accepts_app. lia. Qed.

Lemma tx_progress_step k f k' f' :
  tx_wire k' ++ pending_bytes f' = tx_wire k ++ pending_bytes f →
  tx_progress k f k' f' → tx_step [] k f k' f'.
Proof.
  intros Hw [Hu Hacc]. split; [by rewrite app_nil_r|].
  split; [done|]. cbn. lia.
Qed.

Lemma established_tags f :
  net_tag f = NET_TCP_CLIENT ∨ net_tag f = NET_TCP_CONNECTION →
  net_tag f ≠ NET_TCP_CONNECTING ∧ net_tag f ≠ NET_INFO_CLOSED.
Proof. intros [-> | ->]; done. Qed.

(** A pass of the loop on such a connection. *)
Lemma send_loop_tx fuel block i p s f d k st :
  tx_conn i p s f d k st → loop_bound block fuel k f →
  ∃ r st' f' d' k',
    send_loop fuel block p st = Some (r, st') ∧
    tx_conn i p s f' d' k' st' ∧ tx_step [] k f k' f' ∧
    revents d' = revents d ∧
    tx_frame p i s st st' ∧
    ((r = O2_SUCCESS ∧ out_message f' = [] ∧ events d' = events d) ∨
     (r = O2_BLOCKED ∧ block = false ∧ out_message f' ≠ [] ∧
      (tx_script k = [] ∨
       (length (tx_script k') < length (tx_script k))%nat))).
Proof.
  intros (Hflag & Halive & Hi & Hp & Hfi & Htag & Hinv & Hd & Hfd & Hev &
          Hk & Hb) Hfuel.
  rewrite <- Hfi in Hd. rewrite <- Hfd in Hk.
  destruct (send_loop_run fuel block st p f d k Hp Hinv Hd Hk Hb Hfuel) as
    (r & st' & f' & d' & k' & Hrun & Hp' & Ho' & Hinv' & Hd' & Hfd' &
     Hrev' & Hk' & Hb' & Hw' & Hfr' & Hprog' & Hres).
  rewrite Hfi in Hd', Hfr'. rewrite Hfd in Hk', Hfr'.
  exists r, st', f', d', k'. split; [done|].
  pose proof Hfr' as (Hinfos & Hfl & Hal & _).
  destruct Ho' as (Hot & Hoi & _ & _ & _).
  split.
  { split; [congruence|]. split; [congruence|]. split; [congruence|].
    split; [done|]. split; [congruence|]. split; [by rewrite Hot|].
    split; [done|]. split; [done|]. split; [congruence|].
    split; [|done].
    intros Hq'. destruct Hres as [(_ & ? & _) | (_ & _ & _ & -> & _)];
      [done|]. by apply has_flag_lor. }
  split; [by apply tx_progress_step|]. split; [done|]. split; [done|].
  destruct Hres as [?|(? & ? & ? & _ & ?)]; [by left|by right].
Qed.

(** [enqueue] on an established connection appends the frame of the
    message to the connection's byte stream. *)
Lemma enqueue_tx i p s f d k m st :
  tx_conn i p s f d k st → sendable m →
  ∃ st' f' d' k',
    enqueue p m st = Some (tt, st') ∧
    tx_conn i p s f' d' k' st' ∧ tx_step (frame m) k f k' f'.
Proof.
  intros Hat Hm.
  pose proof Hat as (Hflag & Halive & Hi & Hp & Hfi & Htag & Hinv & Hd &
                     Hfd & Hev & Hk & Hb).
  destruct (established_tags f Htag) as [Ht1 Ht2].
  pose proof Hinv as (Hraw & Hwf & Hsent).
  unfold enqueue. unfold bind at 1, deref at 1. rewrite Hp.
  destruct (out_message f) as [|hd rest] eqn:Hq.
  - rewrite bool_decide_eq_true_2, bool_decide_eq_false_2 by done.
    cbn [negb andb].
    set (fa := set_out_message [m] f).
    set (fb := set_out_msg_sent 0 fa).
    set (sta := upd_heap <[p := fa]> st).
    set (stb := upd_heap <[p := fb]> sta).
    unfold bind at 1. rewrite (store_run p _ f) by done. fold fa sta.
    assert (Hpa : heap sta !! p = Some fa)
      by (subst sta; destruct st; apply lookup_insert_eq).
    unfold bind at 1. rewrite (store_run p _ fa) by done. fold fb stb.
    assert (Hpb : heap stb !! p = Some fb)
      by (subst stb; destruct sta; apply lookup_insert_eq).
    assert (Hfib : fds_index fb = i) by by destruct f.
    assert (Hdb : o2n_fds stb !! fds_index fb = Some d)
      by (rewrite Hfib; subst stb sta; by destruct st).
    assert (Hkb : kernel stb !! fd d = Some k)
      by (rewrite Hfd; subst stb sta; by destruct st).
    assert (Hqb : out_message fb = [m]) by by destruct f.
    assert (Hinvb : tx_inv fb).
    { split; [by destruct f|]. rewrite Hqb. split; [by constructor|].
      replace (out_msg_sent fb) with 0 by by destruct f.
      destruct Hm as (? & ? & ?). lia. }
    assert (Htb : net_tag fb ≠ NET_INFO_CLOSED) by by destruct f.
    assert (Hpendb : pending_bytes fb = pending_bytes f ++ frame m).
    { unfold pending_bytes. rewrite Hq, Hqb.
      replace (out_msg_sent fb) with 0 by by destruct f.
      cbn [Z.to_nat drop map concat]. by rewrite !app_nil_r. }
    destruct (send_loop_run 2 false stb p fb d k Hpb Hinvb Hdb Hkb Hb) as
      (r & st' & f' & d' & k' & Hrun & Hp' & Ho' & Hinv' & Hd' & Hfd' &
       Hrev' & Hk' & Hb' & Hw' & Hfr' & Hprog' & Hres).
    { unfold loop_bound. rewrite Hqb. cbn. lia. }
    unfold bind at 1.
    rewrite (send_nonblocking_unfold stb p fb d) by done.
    rewrite Hqb. cbn [length]. rewrite Hrun. unfold ret.
    exists st', f', d', k'. split; [done|].
    destruct Hfr' as (Hinfos & Hfl & Hal & _).
    destruct Ho' as (Hot & Hoi & _ & _ & _).
    split.
    { split; [rewrite Hfl; subst stb sta; by destruct st|].
      split; [rewrite Hal; subst stb sta; by destruct st|].
      split; [rewrite Hinfos; subst stb sta; by destruct st|].
      split; [done|]. split; [congruence|].
      split; [rewrite Hot; by destruct f|]. split; [done|].
      split; [by rewrite <- Hfib|]. split; [congruence|].
      split; [|split; [by rewrite <- Hfd|done]].
      intros Hq'. destruct Hres as [(_ & ? & _) | (_ & _ & _ & -> & _)];
        [done|]. by apply has_flag_lor. }
    destruct Hprog' as [Hu Hacc]. rewrite Hpendb in Hw', Hacc.
    split; [done|]. split; [done|]. rewrite length_app in Hacc. lia.
  - rewrite bool_decide_eq_false_2 by done. cbn [andb].
    rewrite (store_run p _ f) by done.
    set (f' := set_out_message ((hd :: rest) ++ [m]) f).
    assert (Hq' : out_message f' = (hd :: rest) ++ [m]) by by destruct f.
    assert (Hpend' : pending_bytes f' = pending_bytes f ++ frame m).
    { unfold pending_bytes. rewrite Hq, Hq'.
      replace (out_msg_sent f') with (out_msg_sent f) by by destruct f.
      cbn [app]. rewrite map_app, concat_app. cbn [map concat].
      by rewrite app_nil_r, <- !app_assoc. }
    exists (upd_heap <[p := f']> st), f', d, k. split; [done|].
    split.
    { split; [by destruct st|]. split; [by destruct st|].
      split; [by destruct st|].
      split; [destruct st; apply lookup_insert_eq|].
      split; [by destruct f|]. split; [by destruct f|].
      split.
      { split; [by destruct f|]. rewrite Hq'.
        replace (out_msg_sent f') with (out_msg_sent f) by by destruct f.
        split; [|done]. apply Forall_app. split; [done|by constructor]. }
      split; [by destruct st|]. split; [done|].
      split; [|split; [by destruct st|done]].
      intros _. by apply Hev. }
    split; [by rewrite Hpend'|]. split; [by exists []|].
    rewrite Hpend', length_app. lia.
Qed.

(** A blocking [send] on an established connection returns with the queue
    empty, provided the kernel takes at least one byte on as many calls as
    there are bytes queued. *)
Lemma send_blocking_tx fuel i p s f d k st :
  tx_conn i p s f d k st →
  (length (tx_script k) < fuel)%nat →
  (length (pending_bytes f) ≤ accepts (tx_script k))%nat →
  ∃ st' f' d' k',
    send fuel true p st = Some (O2_SUCCESS, st') ∧
    tx_conn i p s f' d' k' st' ∧ tx_step [] k f k' f' ∧
    out_message f' = [].
Proof.
  intros Hat Hfuel Hcap.
  pose proof Hat as (_ & _ & _ & Hp & Hfi & Htag & _ & Hd & _).
  destruct (established_tags f Htag) as [Ht1 Ht2].
  destruct (send_loop_tx fuel true i p s f d k st Hat) as
    (r & st' & f' & d' & k' & Hrun & Hat' & Hstep & _ & _ & Hres);
    [by split|].
  destruct Hres as [(-> & Hq' & _) | (_ & ? & _)]; [|done].
  exists st', f', d', k'. split; [|done].
  rewrite <- Hrun. apply send_enters_loop with (f := f) (d := d); try done.
  by rewrite Hfi.
Qed.

(** *** Sequences of sends and write-ready events *)

Inductive tx_op :=
| Send (block : bool) (m : o2n_message)
| Writable.

Definition run_op (ops : Owner_ops) (fuel : nat) (i : nat) (p : ptr)
  (o : tx_op) : M O2err :=
  match o with
  | Send block m => send_tcp fuel block p m
  | Writable => o2n_recv ops (ready_only i)
  end.

Fixpoint run_ops (ops : Owner_ops) (fuel : nat) (i : nat) (p : ptr)
  (os : list tx_op) : M (list O2err) :=
  match os with
  | [] => ret []
  | o :: os' =>
      r <- run_op ops fuel i p o ;;
      rs <- run_ops ops fuel i p os' ;;
      ret (r :: rs)
  end.

Fixpoint messages_of (os : list tx_op) : list o2n_message :=
  match os with
  | [] => []
  | Send _ m :: os' => m :: messages_of os'
  | Writable :: os' => messages_of os'
  end.

(** [send_tcp], blocking or not, appends the frame of the message to the
    connection's byte stream and returns O2_SUCCESS. *)
Lemma send_tcp_tx fuel block i p s f d k m st :
  tx_conn i p s f d k st → sendable m →
  (block = true → (length (tx_script k) < fuel)%nat ∧
                  (length (pending_bytes f) ≤ accepts (tx_script k))%nat) →
  ∃ st' f' d' k',
    send_tcp fuel block p m st = Some (O2_SUCCESS, st') ∧
    tx_conn i p s f' d' k' st' ∧ tx_step (frame m) k f k' f'.
Proof.
  intros Hat Hm Hblock.
  pose proof Hat as (_ & _ & _ & Hp & _).
  unfold send_tcp. unfold bind at 1, deref at 1. rewrite Hp.
  destruct (negb (bool_decide (out_message f = [])) && block) eqn:Hflush.
  - apply andb_true_iff in Hflush as [_ ->].
    destruct Hblock as [Hfuel Hcap]; [done|].
    destruct (send_blocking_tx fuel i p s f d k st Hat Hfuel Hcap) as
      (st1 & f1 & d1 & k1 & Hrun1 & Hat1 & Hstep1 & _).
    destruct (enqueue_tx i p s f1 d1 k1 m st1 Hat1 Hm) as
      (st2 & f2 & d2 & k2 & Hrun2 & Hat2 & Hstep2).
    exists st2, f2, d2, k2. unfold bind at 1. rewrite Hrun1.
    rewrite bool_decide_eq_true_2 by done. cbn [negb].
    unfold bind, ret. rewrite Hrun2. split; [done|]. split; [done|].
    by apply (tx_step_trans [] (frame m) k f k1 f1).
  - destruct (enqueue_tx i p s f d k m st Hat Hm) as
      (st2 & f2 & d2 & k2 & Hrun2 & Hat2 & Hstep2).
    exists st2, f2, d2, k2. unfold bind at 1, ret at 1.
    rewrite bool_decide_eq_true_2 by done. cbn [negb].
    unfold bind, ret. by rewrite Hrun2.
Qed.

(** A tick in which the connection's descriptor is found writable leaves
    the connection's byte stream as it is: bytes move from the queue to
    the wire.  If messages stay queued, the tick has used an entry of the
    kernel's script, if there was one. *)
Lemma tick_tx ops i p s f d k st :
  tx_conn i p s f d k st → 0 ≤ s →
  ∃ st' f' d' k',
    o2n_recv ops (ready_only i) st = Some (O2_SUCCESS, st') ∧
    tx_conn i p s f' d' k' st' ∧ tx_step [] k f k' f' ∧
    (out_message f' = [] ∨
     (tx_script k = [] ∨
      (length (tx_script k') < length (tx_script k))%nat)).
Proof.
  intros Hat Hs.
  pose proof Hat as (Hflag & Halive & Hi & Hp & Hfi & Htag & Hinv & Hd &
                     Hfd & Hev & Hk & Hb).
  destruct (established_tags f Htag) as [Ht1 Ht2].
  assert (Hfd' : 0 ≤ fd d) by lia.
  set (st0 := polled i st).
  set (d0 := poll_one d POLLOUT).
  assert (Hd0 : o2n_fds st0 !! i = Some d0) by by apply polled_slot.
  assert (Hat0 : tx_conn i p s f d0 k st0).
  { split; [by destruct st|]. split; [by destruct st|].
    split; [by destruct st|]. split; [by destruct st|].
    split; [done|]. split; [done|]. split; [done|]. split; [done|].
    split; [done|]. split; [done|]. split; [by destruct st|done]. }
  assert (Hstep0 : tx_step [] k f k f).
  { split; [by rewrite app_nil_r|]. split; [by exists []|cbn; lia]. }
  destruct (has_flag (events d) POLLOUT) eqn:Hpo.
  - destruct (decide (out_message f = [])) as [Hq | Hq].
    + exists (upd_fds <[i := clear_pollout d0]> st0), f, (clear_pollout d0), k.
      split; [by apply tick_clear with (p := p) (f := f)|].
      split; [|split; [done|by left]].
      split; [by destruct st|]. split; [by destruct st|].
      split; [by destruct st|]. split; [by destruct st|].
      split; [done|]. split; [done|]. split; [done|].
      split.
      { destruct st; cbn in *. apply list_lookup_insert_eq.
        eapply lookup_lt_Some; eauto. }
      split; [done|]. split; [done|]. split; [by destruct st|done].
    + destruct (send_loop_tx (S (length (out_message f))) false i p s f d0 k
                  st0 Hat0) as
        (r & st1 & f1 & d1 & k1 & Hrun & Hat1 & Hstep1 & Hrev1 & Hfr1 & Hres);
        [unfold loop_bound; lia|].
      rewrite <- (send_nonblocking_unfold st0 p f d0) in Hrun
        by (done || by rewrite Hfi).
      pose proof Hat1 as (Hflag1 & Halive1 & Hi1 & Hp1 & Hfi1 & Htag1 &
                          Hinv1 & Hd1 & Hfd1 & Hev1 & Hk1 & Hb1).
      destruct Hfr1 as (_ & _ & _ & Hlen & Hoth & _ & _).
      assert (Hlen1 : length (o2n_fds st1) = length (o2n_fds st)).
      { rewrite Hlen. subst st0. destruct st. cbn. apply poll_all_length. }
      pose proof (tick_write_ready ops st i p f d r st1 d1
                    Hflag Halive Hi Hp Ht1 Hq Hd Hfd' Hpo Hrun Hflag1 Halive1
                    Hlen1 Hoth Hd1) as Htick.
      destruct Hres as [(-> & Hq1 & Hev1') | (-> & _ & Hq1 & Hsc1)].
      * rewrite bool_decide_eq_true_2 in Htick by done.
        exists (upd_fds <[i := clear_pollout d1]> st1), f1,
          (clear_pollout d1), k1.
        split; [done|]. split; [|split; [done|by left]].
        split; [by destruct st1|]. split; [by destruct st1|].
        split; [by destruct st1|]. split; [by destruct st1|].
        split; [done|]. split; [done|]. split; [done|].
        split.
        { destruct st1; cbn in *. apply list_lookup_insert_eq.
          eapply lookup_lt_Some; eauto. }
        split; [done|]. split; [done|]. split; [by destruct st1|done].
      * rewrite bool_decide_eq_false_2 in Htick by done.
        exists st1, f1, d1, k1. split; [done|]. split; [done|].
        split; [done|]. by right.
  - exists st0, f, d0, k. split; [by apply tick_idle with (d := d)|].
    split; [done|]. split; [done|]. left.
    destruct (out_message f); [done|]. by specialize (Hev ltac:(done)).
Qed.

Lemma run_ops_app ops fuel i p a b st ra st1 rb st2 :
  run_ops ops fuel i p a st = Some (ra, st1) →
  run_ops ops fuel i p b st1 = Some (rb, st2) →
  run_ops ops fuel i p (a ++ b) st = Some (ra ++ rb, st2).
Proof.
  revert st ra. induction a as [|o a IH]; intros st ra Ha Hb; cbn in *.
  - unfold ret in Ha. by simplify_eq.
  - unfold bind in *.
    destruct (run_op ops fuel i p o st) as [[r st']|]; [|done].
    destruct (run_ops ops fuel i p a st') as [[rs st'']|] eqn:Hra; [|done].
    unfold ret in Ha. simplify_eq.
    by rewrite (IH _ _ Hra Hb).
Qed.

(** Any sequence of sends and write-ready events: every call returns
    O2_SUCCESS and the frames of the messages sent are appended, in
    order, to the connection's byte stream. *)
Lemma run_ops_tx ops fuel i p s : ∀ os f d k st,
  tx_conn i p s f d k st → 0 ≤ s → Forall sendable (messages_of os) →
  (length (tx_script k) < fuel)%nat →
  (length (pending_bytes f) + length (concat (map frame (messages_of os)))
   ≤ accepts (tx_script k))%nat →
  ∃ st' f' d' k',
    run_ops ops fuel i p os st = Some (replicate (length os) O2_SUCCESS, st') ∧
    tx_conn i p s f' d' k' st' ∧
    tx_step (concat (map frame (messages_of os))) k f k' f'.
Proof.
  induction os as [|[block m|] os IH]; intros f d k st Hat Hs Hwf Hfuel Hcap.
  - exists st, f, d, k. split; [done|]. split; [done|].
    exact (tx_step_refl k f).
  - cbn [messages_of map concat] in *.
    apply Forall_cons in Hwf as [Hm Hwf]. rewrite length_app in Hcap.
    destruct (send_tcp_tx fuel block i p s f d k m st Hat Hm) as
      (st1 & f1 & d1 & k1 & Hrun1 & Hat1 & Hstep1); [intros _; split; lia|].
    pose proof (tx_step_length _ _ _ _ _ Hstep1) as Hlen1.
    pose proof Hstep1 as (_ & _ & Hacc1).
    destruct (IH f1 d1 k1 st1 Hat1 Hs Hwf) as
      (st2 & f2 & d2 & k2 & Hrun2 & Hat2 & Hstep2); [lia..|].
    exists st2, f2, d2, k2. cbn [run_ops run_op length replicate].
    unfold bind at 1. rewrite Hrun1. unfold bind at 1. rewrite Hrun2.
    split; [done|]. split; [done|]. by eapply tx_step_trans.
  - cbn [messages_of] in *.
    destruct (tick_tx ops i p s f d k st Hat Hs) as
      (st1 & f1 & d1 & k1 & Hrun1 & Hat1 & Hstep1 & _).
    pose proof (tx_step_length _ _ _ _ _ Hstep1) as Hlen1.
    pose proof Hstep1 as (_ & _ & Hacc1). cbn [length] in Hacc1.
    destruct (IH f1 d1 k1 st1 Hat1 Hs Hwf) as
      (st2 & f2 & d2 & k2 & Hrun2 & Hat2 & Hstep2); [lia..|].
    exists st2, f2, d2, k2. cbn [run_ops run_op length replicate].
    unfold bind at 1. rewrite Hrun1. unfold bind at 1. rewrite Hrun2.
    split; [done|]. split; [done|].
    by apply (tx_step_trans [] _ k f k1 f1).
Qed.

(** Write-ready events drain the queue: after as many of them as the
    kernel's script has entries nothing is queued, provided the kernel
    takes at least one byte on as many calls as there are bytes queued. *)
Lemma drain_tx ops fuel i p s : ∀ n f d k st,
  tx_conn i p s f d k st → 0 ≤ s →
  (length (pending_bytes f) ≤ accepts (tx_script k))%nat →
  ((length (tx_script k) ≤ n)%nat ∨ out_message f = []) →
  ∃ st' f' d' k',
    run_ops ops fuel i p (replicate n Writable) st
      = Some (replicate n O2_SUCCESS, st') ∧
    tx_conn i p s f' d' k' st' ∧ tx_step [] k f k' f' ∧
    out_message f' = [].
Proof.
  induction n as [|n IH]; intros f d k st Hat Hs Hcap Hn.
  - exists st, f, d, k. split; [done|]. split; [done|].
    split; [apply tx_step_refl|].
    destruct Hn as [Hn | Hq]; [|done].
    destruct (out_message f) as [|m rest] eqn:Hq; [done|].
    pose proof Hat as (_ & _ & _ & _ & _ & _ & Hinv & _).
    assert (0 < length (pending_bytes f))%nat
      by (apply pending_bytes_pos; [done|by rewrite Hq]).
    pose proof (accepts_le_length (tx_script k)). lia.
  - destruct (tick_tx ops i p s f d k st Hat Hs) as
      (st1 & f1 & d1 & k1 & Hrun1 & Hat1 & Hstep1 & Hres).
    pose proof (tx_step_length _ _ _ _ _ Hstep1) as Hlen1.
    pose proof Hstep1 as (_ & _ & Hacc1). cbn [length] in Hacc1.
    assert (Hn1 : (length (tx_script k1) ≤ n)%nat ∨ out_message f1 = []).
    { destruct Hres as [Hq1 | Hsc]; [by right|].
      destruct (decide (out_message f1 = [])) as [Hq1 | Hq1]; [by right|].
      left. pose proof Hat1 as (_ & _ & _ & _ & _ & _ & Hinv1 & _).
      assert (0 < length (pending_bytes f1))%nat
        by by apply pending_bytes_pos.
      pose proof (accepts_le_length (tx_script k1)).
      pose proof (tx_step_accepts _ _ _ _ _ Hstep1) as Hmono.
      destruct Hn as [Hn | Hq].
      - destruct Hsc as [Hnil | Hlt]; [|lia].
        rewrite Hnil in Hlen1. cbn [length] in Hlen1. lia.
      - assert (pending_bytes f = []) as Hpe
          by (unfold pending_bytes; by rewrite Hq).
        rewrite Hpe in Hacc1. cbn [length] in Hacc1. lia. }
    destruct (IH f1 d1 k1 st1 Hat1 Hs) as
      (st2 & f2 & d2 & k2 & Hrun2 & Hat2 & Hstep2 & Hq2); [lia|done|].
    exists st2, f2, d2, k2. cbn [replicate run_ops run_op].
    unfold bind at 1. rewrite Hrun1. unfold bind at 1. rewrite Hrun2.
    split; [done|]. split; [done|].
    split; [by apply (tx_step_trans [] [] k f k1 f1)|done].
Qed.

(** *** The peer's side *)

(** One read-ready event of the reactor on a TCP data connection: the
    chunk [c] has arrived (it may be empty: the event is raised for bytes
    that are in the socket already) and [read_event_handler] runs. *)
Definition read_event (ops : Owner_ops) (this : ptr) (s : Z) (c : list byte)
  : M O2err :=
  modify (arrive s c) ;;; read_event_handler ops this s.

Fixpoint read_events (ops : Owner_ops) (this : ptr) (s : Z)
  (cs : list (list byte)) : M unit :=
  match cs with
  | [] => ret tt
  | c :: cs' => _ <- read_event ops this s c ;; read_events ops this s cs'
  end.

(** The peer's end of the connection: a TCP data connection owned by [o]
    that has taken [pre] of the frame of [m] from its socket, in which
    [buf] is waiting. *)
Definition peer_rx (p : ptr) (s : Z) (e : errno_t) (o : owner_t)
  (m : o2n_message) (pre buf : list byte) (st : net) : Prop :=
  ∃ f k, heap st !! p = Some f ∧ kernel st !! s = Some k ∧
         rx_buf k = buf ∧ rx_idle k = RxNothing e ∧
         is_tcp_data (net_tag f) = true ∧ owner f = Some o ∧
         rx_assembling m pre f.

Lemma peer_rx_idle p s e o m m' buf st :
  peer_rx p s e o m [] buf st → peer_rx p s e o m' [] buf st.
Proof.
  intros (f & k & ? & ? & ? & ? & ? & ? & Hasm). exists f, k.
  split; [done|]. split; [done|]. split; [done|]. split; [done|].
  split; [done|]. split; [done|].
  unfold rx_assembling in *. by rewrite decide_True in * by (cbn; lia).
Qed.

Lemma peer_rx_arrive p s e o m pre buf c st :
  peer_rx p s e o m pre buf st →
  peer_rx p s e o m pre (buf ++ c) (arrive s c st).
Proof.
  intros (f & k & Hp & Hk & Hb & Hi & Htcp & Hown & Hasm).
  exists f, (set_rx_buf (rx_buf k ++ c) k).
  split; [by destruct st|].
  split; [destruct st; cbn in *; by rewrite lookup_alter_eq, Hk|].
  split; [destruct k; cbn in *; by subst|].
  split; [by destruct k|]. done.
Qed.

(** An event that does not complete the frame: everything in the socket
    is taken, nothing is delivered. *)
Lemma read_event_incomplete ops st p s e o m pre buf c post :
  well_formed m → retryable e → peer_rx p s e o m pre buf st →
  frame m = pre ++ (buf ++ c) ++ post → post ≠ [] →
  ∃ st', read_event ops p s c st = Some (O2_SUCCESS, st') ∧
         peer_rx p s e o m (pre ++ buf ++ c) [] st' ∧
         trace st' = trace st.
Proof.
  intros Hwf He Hat Hframe Hpost.
  apply (peer_rx_arrive _ _ _ _ _ _ _ c) in Hat
    as (f & k & Hp & Hk & Hb & Hi & Htcp & Hown & Hasm).
  rewrite <- Hb in Hframe.
  destruct (read_whole_incomplete (arrive s c st) p s f k m pre post e)
    as (st1 & f1 & k1 & Hrun & Hch & Hp1 & Hk1 & Hb1 & Hi1 & Hro & Hasm1);
    try done.
  unfold read_event. unfold bind at 1, modify at 1.
  unfold read_event_handler. unfold bind at 1, deref at 1.
  rewrite Hp, Htcp. unfold bind at 1. rewrite Hrun.
  rewrite bool_decide_eq_true_2 by done. unfold ret.
  destruct Hch as (_ & _ & _ & _ & Htr & _ & _).
  destruct Hro as (Htag & _ & _ & _ & _ & _ & _ & Hown1).
  exists st1. split; [done|]. split; [|by rewrite Htr; destruct st].
  exists f1, k1. rewrite <- Hb.
  repeat split; try done; congruence.
Qed.

(** An event that completes the frame: the message is handed to the
    owner, the assembly is idle again and what follows the frame stays in
    the socket. *)
Lemma read_event_complete ops st p s e o m m' pre buf c rest extra :
  well_formed m → retryable e → deliver_status ops o m = O2_SUCCESS →
  peer_rx p s e o m pre buf st →
  frame m = pre ++ rest → rest ≠ [] → buf ++ c = rest ++ extra →
  ∃ st', read_event ops p s c st = Some (O2_SUCCESS, st') ∧
         peer_rx p s e o m' [] extra st' ∧
         trace st' = trace st ++ [EvDeliver o m].
Proof.
  intros Hwf He Hok Hat Hframe Hrest Hbuf.
  apply (peer_rx_arrive _ _ _ _ _ _ _ c) in Hat
    as (f & k & Hp & Hk & Hb & Hi & Htcp & Hown & Hasm).
  rewrite Hbuf in Hb.
  destruct (read_whole_complete (arrive s c st) p s f k m pre rest extra e)
    as (st1 & f1 & k1 & Hrun & Hch & Hp1 & Hk1 & Hb1 & Hi1 & Hro & Hbr & Him);
    try done.
  unfold read_event. unfold bind at 1, modify at 1.
  unfold read_event_handler. unfold bind at 1, deref at 1.
  rewrite Hp, Htcp. unfold bind at 1. rewrite Hrun.
  destruct Hch as (_ & _ & _ & _ & Htr & _ & _).
  destruct Hro as (Htag & _ & _ & _ & _ & _ & _ & Hown1).
  rewrite bool_decide_eq_false_2, bool_decide_eq_true_2 by done.
  cbn [negb].
  unfold deliver_in_message. unfold bind at 1, deref at 1. rewrite Hp1.
  unfold bind at 1, message_cleanup at 1.
  rewrite (store_run p _ f1) by done.
  rewrite Hown1, Hown, Him.
  unfold bind at 1, owner_deliver, bind, modify, ret.
  rewrite Hok. unfold deref.
  set (fc := set_in_length_got 0 _).
  replace (heap (emit (EvDeliver o m) (upd_heap <[p:=fc]> st1)) !! p)
    with (Some fc) by (destruct st1; cbn; by rewrite lookup_insert_eq).
  rewrite bool_decide_eq_true_2 by done. cbn [negb andb when].
  eexists. split; [done|]. split.
  - exists fc, k1.
    split; [destruct st1; cbn; by rewrite lookup_insert_eq|].
    split; [by destruct st1|]. split; [done|]. split; [done|].
    split; [subst fc; destruct f1; cbn in *; congruence|].
    split; [subst fc; destruct f1; cbn in *; congruence|].
    destruct Hbr as (Hraw & _).
    unfold rx_assembling. rewrite decide_True by (cbn; lia).
    subst fc. by destruct f1.
  - destruct st1, st. cbn in *. by rewrite Htr.
Qed.

Lemma read_events_app ops p s a b st st1 st2 :
  read_events ops p s a st = Some (tt, st1) →
  read_events ops p s b st1 = Some (tt, st2) →
  read_events ops p s (a ++ b) st = Some (tt, st2).
Proof.
  revert st. induction a as [|c a IH]; intros st Ha Hb; cbn in *.
  - unfold ret in Ha. by simplify_eq.
  - unfold bind in *.
    destruct (read_event ops p s c st) as [[r st']|]; [|done]. by apply IH.
Qed.

(** The peer between two frames, its socket drained. *)
Definition peer_idle (p : ptr) (s : Z) (e : errno_t) (o : owner_t) (st : net)
  : Prop :=
  peer_rx p s e o (Message 0 []) [] [] st.

(** The peer in the stream of the frames of [msgs]: it has taken [pre] of
    the first of them, and [buf] is waiting in the socket. *)
Definition peer_mid (p : ptr) (s : Z) (e : errno_t) (o : owner_t)
  (msgs : list o2n_message) (pre buf : list byte) (st : net) : Prop :=
  match msgs with
  | [] => pre = [] ∧ peer_rx p s e o (Message 0 []) [] buf st
  | m :: _ => peer_rx p s e o m pre buf st ∧
              (length pre < length (frame m))%nat
  end.

Lemma peer_mid_start p s e o m msgs buf st :
  peer_rx p s e o m [] buf st → peer_mid p s e o msgs [] buf st.
Proof.
  intros Hat. destruct msgs as [|m' msgs]; cbn.
  - split; [done|]. by apply peer_rx_idle with (m := m).
  - split; [by apply peer_rx_idle with (m := m)|]. lia.
Qed.

(** One event in the stream: at most one message is delivered, the first
    one; it is delivered if everything has arrived. *)
Lemma read_event_stream ops p s e o msgs pre buf c tail st :
  Forall well_formed msgs → retryable e →
  Forall (λ m, deliver_status ops o m = O2_SUCCESS) msgs →
  peer_mid p s e o msgs pre buf st →
  pre ++ buf ++ c ++ tail = concat (map frame msgs) →
  ∃ st' dlv msgs' pre' buf',
    read_event ops p s c st = Some (O2_SUCCESS, st') ∧
    msgs = dlv ++ msgs' ∧ (length dlv ≤ 1)%nat ∧
    peer_mid p s e o msgs' pre' buf' st' ∧
    pre' ++ buf' ++ tail = concat (map frame msgs') ∧
    trace st' = trace st ++ map (EvDeliver o) dlv ∧
    (tail = [] → msgs ≠ [] → dlv ≠ []).
Proof.
  intros Hwf He Hok Hat Hstream.
  destruct msgs as [|m rest].
  - destruct Hat as [-> Hat]. cbn in Hstream.
    apply app_eq_nil in Hstream as [-> Hstream].
    apply app_eq_nil in Hstream as [-> ->].
    destruct (read_event_incomplete ops st p s e o (Message 0 []) [] [] []
                (frame (Message 0 [])))
      as (st' & Hrun & Hat' & Htr); try done.
    exists st', [], [], [], []. split; [done|]. split; [done|].
    split; [cbn; lia|]. split; [by split|]. split; [done|].
    split; [by rewrite app_nil_r|done].
  - destruct Hat as [Hat Hlt]. cbn [map concat] in Hstream.
    apply Forall_cons in Hwf as [Hwfm Hwf].
    apply Forall_cons in Hok as [Hokm Hok].
    set (r := drop (length pre) (frame m)).
    assert (Hframe : frame m = pre ++ r).
    { assert (Hpre : pre = take (length pre) (frame m)).
      { rewrite <- (take_app_le (frame m) (concat (map frame rest))) by lia.
        rewrite <- Hstream. by rewrite take_app_length. }
      subst r. rewrite Hpre at 1. symmetry. apply take_drop. }
    assert (Hr : r ≠ []).
    { intros Hnil. rewrite Hnil, app_nil_r in Hframe.
      rewrite <- Hframe in Hlt. lia. }
    rewrite Hframe, <- !app_assoc in Hstream.
    apply app_inv_head in Hstream. rewrite app_assoc in Hstream.
    assert (Hdone : ∀ extra, buf ++ c = r ++ extra →
              extra ++ tail = concat (map frame rest) →
      ∃ st' dlv msgs' pre' buf',
        read_event ops p s c st = Some (O2_SUCCESS, st') ∧
        m :: rest = dlv ++ msgs' ∧ (length dlv ≤ 1)%nat ∧
        peer_mid p s e o msgs' pre' buf' st' ∧
        pre' ++ buf' ++ tail = concat (map frame msgs') ∧
        trace st' = trace st ++ map (EvDeliver o) dlv ∧
        (tail = [] → m :: rest ≠ [] → dlv ≠ [])).
    { intros extra Hbuf Hrest.
      destruct (read_event_complete ops st p s e o m m pre buf c r extra)
        as (st' & Hrun & Hat' & Htr); try done.
      exists st', [m], rest, [], extra. split; [done|]. split; [done|].
      split; [cbn; lia|]. split; [by apply peer_mid_start with (m := m)|].
      split; [done|]. split; [done|]. done. }
    apply app_eq_app in Hstream as [l [[Hbuf Hrest] | [Hbuf Htail]]].
    + apply (Hdone l); done.
    + destruct l as [|x l].
      * rewrite app_nil_r in Hbuf. apply (Hdone []).
        -- by rewrite app_nil_r.
        -- by rewrite Htail.
      * destruct (read_event_incomplete ops st p s e o m pre buf c (x :: l))
          as (st' & Hrun & Hat' & Htr); try done.
        { by rewrite Hframe, Hbuf. }
        exists st', [], (m :: rest), (pre ++ buf ++ c), [].
        split; [done|]. split; [done|]. split; [cbn; lia|].
        split.
        { split; [done|]. rewrite Hframe, Hbuf, !length_app. cbn. lia. }
        split.
        { cbn [map concat app]. rewrite Hframe, Hbuf, Htail.
          by rewrite <- !app_assoc. }
        split; [by rewrite app_nil_r|]. intros ->. done.
Qed.

(** Once everything has arrived, every event delivers one message. *)
Lemma read_events_drain ops p s e o : ∀ n msgs pre buf st,
  Forall well_formed msgs → retryable e →
  Forall (λ m, deliver_status ops o m = O2_SUCCESS) msgs →
  peer_mid p s e o msgs pre buf st →
  pre ++ buf = concat (map frame msgs) → (length msgs ≤ n)%nat →
  ∃ st', read_events ops p s (replicate n []) st = Some (tt, st') ∧
         peer_idle p s e o st' ∧
         trace st' = trace st ++ map (EvDeliver o) msgs.
Proof.
  induction n as [|n IH]; intros msgs pre buf st Hwf He Hok Hat Hstream Hn.
  - destruct msgs; [|cbn in Hn; lia]. destruct Hat as [-> Hat].
    cbn in Hstream. subst buf. exists st. cbn. by rewrite app_nil_r.
  - destruct (read_event_stream ops p s e o msgs pre buf [] [] st)
      as (st1 & dlv & msgs' & pre' & buf' & Hrun & Hsplit & Hlen & Hat1 &
          Hstream1 & Htr1 & Hprog); try done.
    { by rewrite !app_nil_r. }
    rewrite app_nil_r in Hstream1. subst msgs.
    apply Forall_app in Hwf as [_ Hwf]. apply Forall_app in Hok as [_ Hok].
    destruct (IH msgs' pre' buf' st1) as (st2 & Hrun2 & Hat2 & Htr2);
      try done.
    { rewrite length_app in Hn.
      destruct dlv as [|m0 dlv]; [|cbn in *; lia].
      destruct msgs' as [|m1 msgs']; [cbn; lia|].
      by destruct Hprog. }
    exists st2. cbn [replicate read_events]. unfold bind at 1.
    rewrite Hrun. split; [done|]. split; [done|].
    by rewrite Htr2, Htr1, map_app, app_assoc.
Qed.

(** The stream of the frames of [msgs], cut into chunks anywhere, followed
    by one event for every message: the messages are handed to the owner
    once each, in order. *)
Lemma read_events_stream ops p s e o : ∀ cs n msgs pre buf st,
  Forall well_formed msgs → retryable e →
  Forall (λ m, deliver_status ops o m = O2_SUCCESS) msgs →
  peer_mid p s e o msgs pre buf st →
  pre ++ buf ++ concat cs = concat (map frame msgs) →
  (length msgs ≤ n)%nat →
  ∃ st', read_events ops p s (cs ++ replicate n []) st = Some (tt, st') ∧
         peer_idle p s e o st' ∧
         trace st' = trace st ++ map (EvDeliver o) msgs.
Proof.
  induction cs as [|c cs IH]; intros n msgs pre buf st Hwf He Hok Hat
    Hstream Hn.
  - cbn in Hstream. rewrite app_nil_r in Hstream.
    by apply read_events_drain with (pre := pre) (buf := buf).
  - cbn [concat] in Hstream.
    destruct (read_event_stream ops p s e o msgs pre buf c (concat cs) st)
      as (st1 & dlv & msgs' & pre' & buf' & Hrun & Hsplit & Hlen & Hat1 &
          Hstream1 & Htr1 & _); try done.
    subst msgs.
    apply Forall_app in Hwf as [_ Hwf]. apply Forall_app in Hok as [_ Hok].
    destruct (IH n msgs' pre' buf' st1) as (st2 & Hrun2 & Hat2 & Htr2);
      try done.
    { rewrite length_app in Hn. lia. }
    exists st2. cbn [app read_events]. unfold bind at 1.
    rewrite Hrun. split; [done|]. split; [done|].
    by rewrite Htr2, Htr1, map_app, app_assoc.
Qed.

(** A client (socket 5) whose kernel takes 3 bytes, then reports EAGAIN,
    then takes whatever is offered; and the peer's accepted connection
    (socket 6), owned by owner 1.  The first message is sent without
    blocking, the second with a blocking call; the peer gets the ten bytes
    in chunks that do not respect the frames. *)
Definition fifo_script : list tx_outcome :=
  TxAccept 3 :: TxError EAGAIN :: replicate 9 (TxAccept 100).
Definition fifo_net : net :=
  Net [demo_pfd] [0%nat] {[ 0%nat := new_info NET_TCP_CLIENT 0 0 ]}
    false 100 101 (Addr 2130706433 0) (Addr 4294967295 0) true ENONE
    {[ 5 := set_tx fifo_script [] ksock0 ]} [].
Definition fifo_peer : net :=
  Net [Pollfd 6 POLLIN 0] [0%nat]
    {[ 0%nat := set_owner (Some 1%nat) (new_info NET_TCP_CONNECTION 0 0) ]}
    false 100 101 (Addr 2130706433 0) (Addr 4294967295 0) true ENONE
    {[ 6 := ksock0 ]} [].
Definition fifo_ops : list tx_op :=
  [Send false demo_msg1; Send true demo_msg2; Writable].
Definition fifo_chunks : list (list byte) :=
  [[0]; [0; 0; 2; 7; 8; 0]; []; [0; 0; 0]].

Lemma fifo_net_tx_conn :
  tx_conn 0 0%nat 5 (new_info NET_TCP_CLIENT 0 0) demo_pfd
    (set_tx fifo_script [] ksock0) fifo_net.
Proof.
  split; [reflexivity|]. split; [reflexivity|]. split; [reflexivity|].
  split; [reflexivity|]. split; [reflexivity|]. split; [by left|].
  split; [by repeat split|].
  split; [reflexivity|]. split; [reflexivity|]. split; [done|].
  split; [reflexivity|].
  repeat constructor.
Qed.

Lemma fifo_peer_idle : peer_idle 0%nat 6 EAGAIN 1%nat fifo_peer.
Proof.
  exists (set_owner (Some 1%nat) (new_info NET_TCP_CONNECTION 0 0)), ksock0.
  repeat split; reflexivity.
Qed.

(** A message whose frame size does not fit an [int], sent on an idle
    established connection: [enqueue] writes at once, and the first write
    that takes bytes fails the assertion [err == n] of [send]. *)
Lemma send_tcp_count_wraps fuel block i p s f d k m a sc st :
  tx_conn i p s f d k st → out_message f = [] →
  tx_script k = TxAccept (S a) :: sc → Z.of_nat (S a) < 2 ^ 31 →
  2 ^ 31 - 4 ≤ m_length m < 2 ^ 31 →
  send_tcp fuel block p m st = None.
Proof.
  intros (Hflag & Halive & Hi & Hp & Hfi & Htag & Hinv & Hd & Hfd & Hev &
          Hk & Hb) Hq Hsc Ha Hm.
  destruct (established_tags f Htag) as [Ht1 Ht2].
  destruct Hinv as (Hraw & _ & _).
  unfold send_tcp. unfold bind at 1, deref at 1. rewrite Hp, Hq.
  rewrite (bool_decide_eq_true_2 ([] = [])) by done. cbn [negb andb].
  unfold bind at 1, ret at 1.
  rewrite bool_decide_eq_true_2 by done. cbn [negb].
  unfold bind at 1. unfold enqueue. unfold bind at 1, deref at 1.
  rewrite Hp, Hq.
  rewrite bool_decide_eq_true_2, bool_decide_eq_false_2 by done.
  cbn [negb andb].
  set (fa := set_out_message [m] f).
  set (fb := set_out_msg_sent 0 fa).
  set (sta := upd_heap <[p := fa]> st).
  set (stb := upd_heap <[p := fb]> sta).
  unfold bind at 1. rewrite (store_run p _ f) by done. fold fa sta.
  assert (Hpa : heap sta !! p = Some fa)
    by (subst sta; destruct st; apply lookup_insert_eq).
  unfold bind at 1. rewrite (store_run p _ fa) by done. fold fb stb.
  assert (Hpb : heap stb !! p = Some fb)
    by (subst stb; destruct sta; apply lookup_insert_eq).
  assert (Hfib : fds_index fb = i) by by destruct f.
  assert (Hdb : o2n_fds stb !! fds_index fb = Some d)
    by (rewrite Hfib; subst stb sta; by destruct st).
  assert (Hkb : kernel stb !! fd d = Some k)
    by (rewrite Hfd; subst stb sta; by destruct st).
  unfold bind at 1.
  rewrite (send_nonblocking_unfold stb p fb d)
    by (done || by destruct f).
  rewrite (send_loop_count_wraps _ false stb p fb d k m [] a sc);
    [done|done|by destruct f|by destruct f|by destruct f|done|done|done
    |done|done].
Qed.

(** C1, refuted as stated: on the client of [fifo_net] the message of
    2^31 - 4 bytes, which is well formed, makes [send_tcp] fail that
    assertion; nothing is framed. *)
Lemma huge_frame_breaks_send :
  well_formed huge_msg ∧
  send_tcp 12 false 0%nat huge_msg fifo_net = None.
Proof.
  split; [exact huge_msg_well_formed|].
  apply (send_tcp_count_wraps 12 false 0 0%nat 5
           (new_info NET_TCP_CLIENT 0 0) demo_pfd
           (set_tx fifo_script [] ksock0) huge_msg 2
           (TxError EAGAIN :: replicate 9 (TxAccept 100)) fifo_net).
  - exact fifo_net_tx_conn.
  - reflexivity.
  - reflexivity.
  - cbn. lia.
  - cbn [m_length huge_msg]. lia.
Qed.

(** C1 (amended): an established framed connection whose socket fails
    with EAGAIN or EINTR only and takes any number of bytes per call, at
    least one byte on as many calls as there are bytes to send.  Take any
    sequence [os] of [send_tcp] calls, blocking or not, of messages whose
    frame size fits an [int], and write-ready ticks.
    Every call returns O2_SUCCESS, and the bytes handed to the socket
    followed by the bytes still queued are what they were before followed
    by the frames (4-byte big-endian length, then payload) of the messages
    in the order sent.  Write-ready ticks then drain the queue: after at
    most as many as the kernel's script has entries the queue is empty and
    the bytes written are exactly those frames in that order.  A peer that
    reads these bytes cut into chunks [cs] anywhere (a chunk may hold the
    end of one frame and the beginning of the next, or nothing), followed
    by one more read-ready event for every message, hands to its owner the
    same messages in the same order, once each, and is idle afterwards. *)
Theorem fifo_framing_round_trip ops fuel i p s f d k st os ops' q t e o pst
    cs :
  tx_conn i p s f d k st → 0 ≤ s →
  Forall sendable (messages_of os) →
  (length (tx_script k) < fuel)%nat →
  (length (pending_bytes f) + length (concat (map frame (messages_of os)))
   ≤ accepts (tx_script k))%nat →
  retryable e → peer_idle q t e o pst →
  Forall (λ m, deliver_status ops' o m = O2_SUCCESS) (messages_of os) →
  concat cs = concat (map frame (messages_of os)) →
  ∃ st1 f1 k1 st2 f2 k2 pst',
    run_ops ops fuel i p os st
      = Some (replicate (length os) O2_SUCCESS, st1) ∧
    heap st1 !! p = Some f1 ∧ kernel st1 !! s = Some k1 ∧
    tx_wire k1 ++ pending_bytes f1
      = tx_wire k ++ pending_bytes f
        ++ concat (map frame (messages_of os)) ∧
    run_ops ops fuel i p (replicate (length (tx_script k)) Writable) st1
      = Some (replicate (length (tx_script k)) O2_SUCCESS, st2) ∧
    heap st2 !! p = Some f2 ∧ kernel st2 !! s = Some k2 ∧
    out_message f2 = [] ∧
    tx_wire k2 = tx_wire k ++ pending_bytes f ++ concat cs ∧
    read_events ops' q t (cs ++ replicate (length (messages_of os)) []) pst
      = Some (tt, pst') ∧
    trace pst' = trace pst ++ map (EvDeliver o) (messages_of os) ∧
    peer_idle q t e o pst'.
Proof.
  intros Hat Hs Hwf Hfuel Hcap He Hpeer Hok Hcs.
  destruct (run_ops_tx ops fuel i p s os f d k st Hat Hs Hwf Hfuel Hcap)
    as (st1 & f1 & d1 & k1 & Hrun1 & Hat1 & Hstep1).
  pose proof (tx_step_length _ _ _ _ _ Hstep1) as Hlen1.
  pose proof Hstep1 as (Hw1 & _ & Hacc1).
  destruct (drain_tx ops fuel i p s (length (tx_script k)) f1 d1 k1 st1
              Hat1 Hs) as
    (st2 & f2 & d2 & k2 & Hrun2 & Hat2 & Hstep2 & Hq2); [lia|by left|].
  destruct Hstep2 as (Hw2 & _ & _).
  destruct (read_events_stream ops' q t e o cs (length (messages_of os))
              (messages_of os) [] [] pst) as (pst' & Hrx & Hidle & Htr);
    try done.
  { eapply Forall_impl; [exact Hwf|]. apply sendable_well_formed. }
  { by apply peer_mid_start with (m := Message 0 []). }
  pose proof Hat1 as (_ & _ & _ & Hp1 & _ & _ & _ & _ & _ & _ & Hk1 & _).
  pose proof Hat2 as (_ & _ & _ & Hp2 & _ & _ & _ & _ & _ & _ & Hk2 & _).
  exists st1, f1, k1, st2, f2, k2, pst'.
  split; [done|]. split; [done|]. split; [done|]. split; [done|].
  split; [done|]. split; [done|]. split; [done|]. split; [done|].
  split; [|done].
  assert (Hpe : pending_bytes f2 = [])
    by (unfold pending_bytes; by rewrite Hq2).
  rewrite Hpe, !app_nil_r in Hw2. by rewrite Hw2, Hw1, Hcs.
Qed.

Lemma fifo_framing_round_trip_witness :
  ∃ st1 f1 k1 st2 f2 k2 pst',
    run_ops no_hooks 12 0 0%nat fifo_ops fifo_net
      = Some (replicate 3 O2_SUCCESS, st1) ∧
    heap st1 !! 0%nat = Some f1 ∧ kernel st1 !! 5 = Some k1 ∧
    tx_wire k1 ++ pending_bytes f1 = [0; 0; 0; 2; 7; 8; 0; 0; 0; 0] ∧
    run_ops no_hooks 12 0 0%nat (replicate 11 Writable) st1
      = Some (replicate 11 O2_SUCCESS, st2) ∧
    heap st2 !! 0%nat = Some f2 ∧ kernel st2 !! 5 = Some k2 ∧
    out_message f2 = [] ∧
    tx_wire k2 = [0; 0; 0; 2; 7; 8; 0; 0; 0; 0] ∧
    read_events no_hooks 0%nat 6 (fifo_chunks ++ replicate 2 []) fifo_peer
      = Some (tt, pst') ∧
    trace pst' = [EvDeliver 1%nat demo_msg1; EvDeliver 1%nat demo_msg2] ∧
    peer_idle 0%nat 6 EAGAIN 1%nat pst'.
Proof.
  apply (fifo_framing_round_trip no_hooks 12 0 0%nat 5
           (new_info NET_TCP_CLIENT 0 0) demo_pfd
           (set_tx fifo_script [] ksock0) fifo_net fifo_ops
           no_hooks 0%nat 6 EAGAIN 1%nat fifo_peer fifo_chunks).
  - apply fifo_net_tx_conn.
  - lia.
  - repeat constructor; cbn; lia.
  - cbn. lia.
  - cbn. lia.
  - left; reflexivity.
  - apply fifo_peer_idle.
  - repeat constructor.
  - reflexivity.
Defined.
(** ** [create_tcp_client] *)

(** State after a [connect] that succeeded at once, and after one that is
    in progress. *)
Definition connected_now (s : Z) (k : ksock) (st : net) : net :=
  registered s NET_TCP_CLIENT 0 (upd_kernel <[s := k]> st).

Definition connecting (s : Z) (k : ksock) (st : net) : net :=
  upd_fds <[length (o2n_fds st) := Pollfd s (Z.lor POLLIN POLLOUT) 0]>
    (set_errno EINPROGRESS
       (registered s NET_TCP_CONNECTING 0 (upd_kernel <[s := k]> st))).

Lemma create_tcp_client_done ops st s k :
  s ≠ INVALID_SOCKET → length (o2n_fds st) = length (o2n_fds_info st) →
  create_tcp_client ops (Some (s, k)) ConnectDone st =
    Some (Some (fresh (dom (heap st))), connected_now s k st).
Proof.
  intros Hs Hlen. unfold create_tcp_client, o2n_tcp_socket_new.
  unfold bind at 1, bind at 1, modify at 1, ret at 1.
  assert (Hne : (s =? INVALID_SOCKET) = false) by lia. rewrite Hne.
  unfold bind at 1. rewrite Fds_info_new_run by done.
  set (st0 := upd_kernel <[s := k]> st).
  assert (Hh : heap st0 = heap st) by by destruct st.
  assert (Hf : o2n_fds st0 = o2n_fds st) by by destruct st.
  assert (Hi : o2n_fds_info st0 = o2n_fds_info st) by by destruct st.
  rewrite Hh. set (p := fresh (dom (heap st))).
  unfold bind at 1, deref at 1. cbn [heap registered].
  rewrite Hh. fold p. rewrite lookup_insert_eq.
  unfold bind at 1, sys_connect, ret at 1. change (0 =? -1) with false.
  cbn match. unfold bind at 1, info_at at 1. cbn [o2n_fds_info registered].
  cbn [fds_index new_info]. rewrite Hf, Hi, Hlen.
  rewrite lookup_app_r, Nat.sub_diag by lia. cbn [lookup list_lookup].
  fold p. unfold bind, store, bind, deref, modify, ret.
  cbn [heap registered]. rewrite Hh. fold p. rewrite lookup_insert_eq.
  unfold connected_now, registered. fold st0. rewrite Hh, Hf, Hi.
  fold p. cbn. unfold upd_heap. cbn. by rewrite insert_insert_eq.
Qed.

Lemma create_tcp_client_in_progress ops st s k :
  s ≠ INVALID_SOCKET →
  create_tcp_client ops (Some (s, k)) (ConnectError EINPROGRESS) st =
    Some (Some (fresh (dom (heap st))), connecting s k st).
Proof.
  intros Hs. unfold create_tcp_client, o2n_tcp_socket_new.
  unfold bind at 1, bind at 1, modify at 1, ret at 1.
  assert (Hne : (s =? INVALID_SOCKET) = false) by lia. rewrite Hne.
  unfold bind at 1. rewrite Fds_info_new_run by done.
  set (st0 := upd_kernel <[s := k]> st).
  assert (Hh : heap st0 = heap st) by by destruct st.
  assert (Hf : o2n_fds st0 = o2n_fds st) by by destruct st.
  rewrite Hh. set (p := fresh (dom (heap st))).
  unfold bind at 1, deref at 1. cbn [heap registered].
  rewrite Hh. fold p. rewrite lookup_insert_eq.
  unfold bind at 1, sys_connect, bind, modify, ret, gets.
  change (-1 =? -1) with true. cbn match.
  cbv beta.
  replace (errno (set_errno EINPROGRESS (registered s NET_TCP_CONNECTING 0 st0)))
    with EINPROGRESS by done.
  rewrite bool_decide_eq_true_2 by done. cbn [negb].
  unfold pfd_store, bind, pfd_at, modify. cbn [fds_index new_info].
  cbn [o2n_fds set_errno registered]. rewrite Hf.
  rewrite lookup_app_r, Nat.sub_diag by lia. cbn [lookup list_lookup].
  reflexivity.
Qed.

(** A tick that finds the descriptor of a CONNECTING connection writable
    completes the connection: the tag becomes CLIENT, the owner's
    [connected()] runs, and with nothing queued POLLOUT is cleared. *)
Lemma tick_connect_completes ops st i p f d o :
  o2n_socket_delete_flag st = false → o2_ensemble_name st = true →
  o2n_fds_info st !! i = Some p → heap st !! p = Some f →
  net_tag f = NET_TCP_CONNECTING → owner f = Some o → out_message f = [] →
  o2n_fds st !! i = Some d → 0 ≤ fd d →
  has_flag (events d) POLLOUT = true →
  o2n_recv ops (ready_only i) st =
    Some (O2_SUCCESS,
          upd_fds <[i := clear_pollout (poll_one d POLLOUT)]>
            (emit (EvConnected p o)
               (upd_heap <[p := set_net_tag NET_TCP_CLIENT f]>
                  (polled i st)))).
Proof.
  intros Hflag Halive Hi Hp Htag Hown Hq Hd Hfd Hev.
  assert (Hil : (i < length (o2n_fds st))%nat)
    by (eapply lookup_lt_Some; eauto).
  set (st0 := polled i st).
  set (d0 := poll_one d POLLOUT).
  assert (Hfds0 : ∀ j, o2n_fds st0 !! j
            = (λ d, poll_one d (if decide (j = i) then POLLOUT else 0))
                <$> o2n_fds st !! j).
  { intros j. subst st0. destruct st. cbn.
    by rewrite poll_all_lookup, ready_only_lookup. }
  assert (Hidle0 : ∀ j, j ≠ i → (j < length (o2n_fds st))%nat →
            ∃ d', o2n_fds st0 !! j = Some d' ∧ revents d' = 0).
  { intros j Hne Hj. rewrite Hfds0, decide_False by done.
    destruct (lookup_lt_is_Some_2 (o2n_fds st) j Hj) as [dj ->].
    eexists. split; [done|]. apply poll_one_nothing. }
  assert (Hlen0 : length (o2n_fds st0) = length (o2n_fds st)).
  { subst st0. destruct st. cbn. apply poll_all_length. }
  assert (Hd0 : o2n_fds st0 !! i = Some d0) by by apply polled_slot.
  set (stA := emit (EvConnected p o)
                (upd_heap <[p := set_net_tag NET_TCP_CLIENT f]> st0)).
  set (st2 := upd_fds <[i := clear_pollout d0]> stA).
  assert (Hdisp : dispatch ops i st0 = Some (None, st2)).
  { unfold dispatch. unfold bind at 1, pfd_at at 1. rewrite Hd0.
    unfold d0 at 1 2 3. rewrite poll_one_writable by done.
    change (has_flag POLLOUT POLLERR) with false.
    change (has_flag POLLOUT POLLHUP) with false.
    change (has_flag POLLOUT POLLOUT) with true.
    cbn match.
    assert (Hi0 : o2n_fds_info st0 !! i = Some p) by by destruct st.
    assert (Hp0 : heap st0 !! p = Some f) by by destruct st.
    unfold bind at 1. unfold bind at 1, info_at at 1. rewrite Hi0.
    unfold bind at 1, deref at 1. rewrite Hp0.
    rewrite bool_decide_eq_true_2 by done. rewrite Hown.
    unfold when. unfold bind at 1. unfold bind at 1.
    rewrite (store_run p _ f) by done.
    unfold owner_connected, modify at 1. fold stA.
    unfold bind at 1, deref at 1.
    replace (heap stA !! p) with (Some (set_net_tag NET_TCP_CLIENT f))
      by (subst stA st0; destruct st; cbn; by rewrite lookup_insert_eq).
    replace (out_message (set_net_tag NET_TCP_CLIENT f)) with (@nil o2n_message)
      by (by destruct f).
    rewrite bool_decide_eq_true_2 by done. cbn [negb].
    unfold pfd_store, bind, pfd_at, modify, gets, ret.
    replace (o2n_fds stA !! i) with (Some d0)
      by (subst stA; by destruct st0).
    fold (clear_pollout d0). fold st2.
    replace (o2_ensemble_name st2) with true
      by (subst st2 stA st0; by destruct st).
    done. }
  assert (Hidle2 : ∀ j, j ≠ i → (j < length (o2n_fds st))%nat →
            ∃ d', o2n_fds st2 !! j = Some d' ∧ revents d' = 0).
  { intros j Hne Hj. destruct (Hidle0 j Hne Hj) as (d' & Hd' & Hr).
    exists d'. split; [|done]. subst st2 stA. destruct st0. cbn in *.
    by rewrite list_lookup_insert_ne. }
  assert (Halive2 : o2_ensemble_name st2 = true)
    by (subst st2 stA st0; by destruct st).
  assert (Hflag2 : o2n_socket_delete_flag st2 = false)
    by (subst st2 stA st0; by destruct st).
  unfold o2n_recv. unfold bind at 1, gets at 1. rewrite Hflag.
  unfold bind at 1, when at 1, ret at 1.
  unfold bind at 1, sys_poll at 1, modify at 1. fold (polled i st). fold st0.
  unfold bind at 1, gets at 1. rewrite Hlen0.
  replace (length (o2n_fds st)) with (i + S (length (o2n_fds st) - i - 1))%nat
    by lia.
  unfold bind at 1. rewrite dispatch_from_split.
  rewrite dispatch_from_idle; [|intros j Hj; apply Hidle0; lia|by destruct st].
  cbn [dispatch_from Nat.add]. unfold bind at 1. rewrite Hdisp.
  rewrite dispatch_from_idle; [|intros j Hj; apply Hidle2; lia|done].
  unfold bind, gets, when, ret. by rewrite Hflag2.
Qed.

(** A reactor with no connection yet. *)
Definition fresh_net : net :=
  Net [] [] ∅ false 100 101 (Addr 2130706433 0) (Addr 4294967295 0) true
    ENONE ∅ [].

(** C8, refuted as stated: [connect] succeeds at once on socket 5; the
    caller attaches owner 1 to the handle it got; on the next tick the
    socket is writable (or readable and writable): the connection is a
    CLIENT already and no [connected()] is called, the trace stays
    empty. *)
Lemma immediate_connect_not_notified :
  ∃ p st1 f,
    create_tcp_client no_hooks (Some (5, ksock0)) ConnectDone fresh_net
      = Some (Some p, st1) ∧
    heap st1 !! p = Some f ∧ net_tag f = NET_TCP_CLIENT ∧
    ∀ ready, ready = [POLLOUT] ∨ ready = [Z.lor POLLIN POLLOUT] →
      ∃ st2,
        (store p (set_owner (Some 1%nat)) ;;; o2n_recv no_hooks ready) st1
          = Some (O2_SUCCESS, st2) ∧
        trace st2 = [] ∧ ∀ o, EvConnected p o ∉ trace st2.
Proof.
  eexists _, _, _. split; [vm_compute; reflexivity|].
  split; [vm_compute; reflexivity|]. split; [reflexivity|].
  intros ready [-> | ->].
  - eexists. split; [vm_compute; reflexivity|]. split; [reflexivity|].
    intros o Hin. cbn in Hin. by apply elem_of_nil in Hin.
  - eexists. split; [vm_compute; reflexivity|]. split; [reflexivity|].
    intros o Hin. cbn in Hin. by apply elem_of_nil in Hin.
Qed.

(** C8 (amended): [create_tcp_client] on a newly created socket [s]
    registers a connection at the end of the registry and returns it.  If
    [connect] succeeds at once, the connection is a CLIENT immediately and
    no write-interest is registered; a next tick that finds the socket
    writable calls nothing: there is no [connected()] notification, the
    caller learns the state from the handle.  If [connect] reports
    EINPROGRESS, the connection is CONNECTING with POLLOUT registered; the
    tick that finds the socket writable makes it a CLIENT and calls the
    owner's [connected()] once. *)
Theorem create_tcp_client_outcomes ops st s k o :
  o2n_socket_delete_flag st = false → o2_ensemble_name st = true →
  length (o2n_fds st) = length (o2n_fds_info st) → 0 ≤ s →
  let p := fresh (dom (heap st)) in
  let i := length (o2n_fds st) in
  (∃ st1 f d,
     create_tcp_client ops (Some (s, k)) ConnectDone st
       = Some (Some p, st1) ∧
     o2n_fds_info st1 !! i = Some p ∧ heap st1 !! p = Some f ∧
     net_tag f = NET_TCP_CLIENT ∧ fds_index f = i ∧
     o2n_fds st1 !! i = Some d ∧ fd d = s ∧
     has_flag (events d) POLLOUT = false ∧ trace st1 = trace st ∧
     ∃ st2 f2,
       (store p (set_owner (Some o)) ;;; o2n_recv ops (ready_only i)) st1
         = Some (O2_SUCCESS, st2) ∧
       trace st2 = trace st ∧
       heap st2 !! p = Some f2 ∧ net_tag f2 = NET_TCP_CLIENT) ∧
  (∃ st1 f d,
     create_tcp_client ops (Some (s, k)) (ConnectError EINPROGRESS) st
       = Some (Some p, st1) ∧
     o2n_fds_info st1 !! i = Some p ∧ heap st1 !! p = Some f ∧
     net_tag f = NET_TCP_CONNECTING ∧ fds_index f = i ∧
     o2n_fds st1 !! i = Some d ∧ fd d = s ∧
     has_flag (events d) POLLOUT = true ∧ trace st1 = trace st ∧
     ∃ st2 f2,
       (store p (set_owner (Some o)) ;;; o2n_recv ops (ready_only i)) st1
         = Some (O2_SUCCESS, st2) ∧
       trace st2 = trace st ++ [EvConnected p o] ∧
       heap st2 !! p = Some f2 ∧ net_tag f2 = NET_TCP_CLIENT).
Proof.
  intros Hflag Halive Hlen Hs p i.
  assert (Hne : s ≠ INVALID_SOCKET) by (unfold INVALID_SOCKET; lia).
  split.
  - set (st1 := connected_now s k st).
    set (f := new_info NET_TCP_CLIENT i 0).
    set (d := Pollfd s POLLIN 0).
    assert (Hi1 : o2n_fds_info st1 !! i = Some p).
    { subst st1 i. destruct st. cbn in *. rewrite Hlen.
      by rewrite lookup_app_r, Nat.sub_diag by lia. }
    assert (Hp1 : heap st1 !! p = Some f)
      by (subst st1; destruct st; cbn; by rewrite lookup_insert_eq).
    assert (Hd1 : o2n_fds st1 !! i = Some d).
    { subst st1 i. destruct st. cbn in *.
      by rewrite lookup_app_r, Nat.sub_diag by lia. }
    exists st1, f, d.
    split; [by apply create_tcp_client_done|].
    split; [done|]. split; [done|]. split; [done|]. split; [done|].
    split; [done|]. split; [done|]. split; [done|].
    split; [by destruct st|].
    set (stB := upd_heap <[p := set_owner (Some o) f]> st1).
    exists (polled i stB), (set_owner (Some o) f).
    split.
    { unfold bind. rewrite (store_run p _ f) by done. fold stB.
      apply tick_idle with (d := d); [by destruct st|by destruct st| |done].
      subst stB. by destruct st1. }
    split; [by destruct st|].
    split; [|done].
    subst stB. destruct st1. cbn. by rewrite lookup_insert_eq.
  - set (st1 := connecting s k st).
    set (f := new_info NET_TCP_CONNECTING i 0).
    set (d := Pollfd s (Z.lor POLLIN POLLOUT) 0).
    assert (Hi1 : o2n_fds_info st1 !! i = Some p).
    { subst st1 i. destruct st. cbn in *. rewrite Hlen.
      by rewrite lookup_app_r, Nat.sub_diag by lia. }
    assert (Hp1 : heap st1 !! p = Some f)
      by (subst st1; destruct st; cbn; by rewrite lookup_insert_eq).
    assert (Hd1 : o2n_fds st1 !! i = Some d).
    { subst st1 i. destruct st. cbn in *.
      apply list_lookup_insert_eq. rewrite length_app. cbn. lia. }
    exists st1, f, d.
    split; [by apply create_tcp_client_in_progress|].
    split; [done|]. split; [done|]. split; [done|]. split; [done|].
    split; [done|]. split; [done|]. split; [done|].
    split; [by destruct st|].
    set (stB := upd_heap <[p := set_owner (Some o) f]> st1).
    eexists _, (set_net_tag NET_TCP_CLIENT (set_owner (Some o) f)).
    split.
    { unfold bind. rewrite (store_run p _ f) by done. fold stB.
      assert (HflagB : o2n_socket_delete_flag stB = false) by by destruct st.
      assert (HaliveB : o2_ensemble_name stB = true) by by destruct st.
      assert (HiB : o2n_fds_info stB !! i = Some p)
        by (subst stB; by destruct st1).
      assert (HpB : heap stB !! p = Some (set_owner (Some o) f))
        by (subst stB; destruct st1; cbn; by rewrite lookup_insert_eq).
      assert (HdB : o2n_fds stB !! i = Some d)
        by (subst stB; by destruct st1).
      by apply (tick_connect_completes ops stB i p (set_owner (Some o) f) d o
                  HflagB HaliveB HiB HpB). }
    split; [by destruct st|].
    split; [|done].
    subst stB. destruct st1. cbn. by rewrite lookup_insert_eq.
Qed.

Lemma create_tcp_client_outcomes_witness :
  (∃ st1 f d,
     create_tcp_client no_hooks (Some (5, ksock0)) ConnectDone fresh_net
       = Some (Some (fresh (dom (heap fresh_net))), st1) ∧
     o2n_fds_info st1 !! length (o2n_fds fresh_net)
       = Some (fresh (dom (heap fresh_net))) ∧
     heap st1 !! fresh (dom (heap fresh_net)) = Some f ∧
     net_tag f = NET_TCP_CLIENT ∧ fds_index f = length (o2n_fds fresh_net) ∧
     o2n_fds st1 !! length (o2n_fds fresh_net) = Some d ∧ fd d = 5 ∧
     has_flag (events d) POLLOUT = false ∧ trace st1 = trace fresh_net ∧
     ∃ st2 f2,
       (store (fresh (dom (heap fresh_net))) (set_owner (Some 1%nat)) ;;;
        o2n_recv no_hooks (ready_only (length (o2n_fds fresh_net)))) st1
         = Some (O2_SUCCESS, st2) ∧
       trace st2 = trace fresh_net ∧
       heap st2 !! fresh (dom (heap fresh_net)) = Some f2 ∧
       net_tag f2 = NET_TCP_CLIENT) ∧
  (∃ st1 f d,
     create_tcp_client no_hooks (Some (5, ksock0)) (ConnectError EINPROGRESS)
       fresh_net
       = Some (Some (fresh (dom (heap fresh_net))), st1) ∧
     o2n_fds_info st1 !! length (o2n_fds fresh_net)
       = Some (fresh (dom (heap fresh_net))) ∧
     heap st1 !! fresh (dom (heap fresh_net)) = Some f ∧
     net_tag f = NET_TCP_CONNECTING ∧
     fds_index f = length (o2n_fds fresh_net) ∧
     o2n_fds st1 !! length (o2n_fds fresh_net) = Some d ∧ fd d = 5 ∧
     has_flag (events d) POLLOUT = true ∧ trace st1 = trace fresh_net ∧
     ∃ st2 f2,
       (store (fresh (dom (heap fresh_net))) (set_owner (Some 1%nat)) ;;;
        o2n_recv no_hooks (ready_only (length (o2n_fds fresh_net)))) st1
         = Some (O2_SUCCESS, st2) ∧
       trace st2 = trace fresh_net
                   ++ [EvConnected (fresh (dom (heap fresh_net))) 1%nat] ∧
       heap st2 !! fresh (dom (heap fresh_net)) = Some f2 ∧
       net_tag f2 = NET_TCP_CLIENT).
Proof.
  apply (create_tcp_client_outcomes no_hooks fresh_net 5 ksock0 1%nat).
  - reflexivity.
  - reflexivity.
  - reflexivity.
  - lia.
Defined.

(** On any other [connect] error [cleanup] pops both arrays and then runs
    [delete this]; the destructor's first assertion, that [fds_index] is
    within the bounds of [o2n_fds], no longer holds. *)
Example connect_error_cleanup_asserts :
  create_tcp_client no_hooks (Some (5, ksock0)) (ConnectError (EOTHER 111))
    fresh_net = None.
Proof. vm_compute. reflexivity. Qed.

(** * Further properties of the reactor

    The rest of the development looks at ticks in which poll finds one
    descriptor ready, with any [revents], and at the parts of the module
    around the reactor. *)

(** What poll finds when only descriptor [i] is ready, with [r]. *)
Definition ready_one (i : nat) (r : Z) : list Z := replicate i 0 ++ [r].

(** State right after that [poll]. *)
Definition polled_with (ready : list Z) (st : net) : net :=
  upd_fds (λ ds, poll_all ds ready) st.

Lemma ready_one_lookup i r j :
  default 0 (ready_one i r !! j) = if decide (j = i) then r else 0.
Proof.
  unfold ready_one. destruct (decide (j = i)) as [->|Hne].
  - by rewrite lookup_app_r, length_replicate, Nat.sub_diag
      by (rewrite length_replicate; lia).
  - destruct (decide (j < i)%nat).
    + rewrite lookup_app_l by (rewrite length_replicate; lia).
      by rewrite lookup_replicate_2.
    + rewrite lookup_ge_None_2; [done|].
      rewrite length_app, length_replicate. cbn. lia.
Qed.

Lemma polled_with_lookup ready st j :
  o2n_fds (polled_with ready st) !! j
  = (λ d, poll_one d (default 0 (ready !! j))) <$> o2n_fds st !! j.
Proof. destruct st. cbn. apply poll_all_lookup. Qed.

Lemma polled_with_length ready st :
  length (o2n_fds (polled_with ready st)) = length (o2n_fds st).
Proof. destruct st. cbn. apply poll_all_length. Qed.

(** The tail of [o2n_recv]: the sweep that runs when a handler closed a
    connection. *)
Definition tick_end (ops : Owner_ops) : M O2err :=
  flag <- gets o2n_socket_delete_flag ;;
  when flag (o2n_free_deleted_sockets ops) ;;;
  ret O2_SUCCESS.

(** A tick with no deletion pending in which only descriptor [i] is ready
    amounts to the loop body for [i] followed by the closing sweep, provided
    the body leaves the other descriptors alone. *)
Lemma tick_one ops st i r st1 :
  o2n_socket_delete_flag st = false → o2_ensemble_name st = true →
  (i < length (o2n_fds st))%nat →
  dispatch ops i (polled_with (ready_one i r) st) = Some (None, st1) →
  (∀ j, j ≠ i → (j < length (o2n_fds st))%nat →
     o2n_fds st1 !! j = o2n_fds (polled_with (ready_one i r) st) !! j) →
  o2_ensemble_name st1 = true →
  o2n_recv ops (ready_one i r) st = tick_end ops st1.
Proof.
  intros Hflag Halive Hil Hdisp Hother Halive1.
  set (st0 := polled_with (ready_one i r) st) in *.
  assert (Hidle0 : ∀ j, j ≠ i → (j < length (o2n_fds st))%nat →
            ∃ d', o2n_fds st0 !! j = Some d' ∧ revents d' = 0).
  { intros j Hne Hj. subst st0.
    rewrite polled_with_lookup, ready_one_lookup, decide_False by done.
    destruct (lookup_lt_is_Some_2 (o2n_fds st) j Hj) as [dj ->].
    eexists. split; [done|]. apply poll_one_nothing. }
  assert (Hlen0 : length (o2n_fds st0) = length (o2n_fds st))
    by apply polled_with_length.
  assert (Hidle1 : ∀ j, j ≠ i → (j < length (o2n_fds st))%nat →
            ∃ d', o2n_fds st1 !! j = Some d' ∧ revents d' = 0).
  { intros j Hne Hj. rewrite Hother by done. by apply Hidle0. }
  unfold o2n_recv. unfold bind at 1, gets at 1. rewrite Hflag.
  unfold bind at 1, when at 1, ret at 1.
  unfold bind at 1, sys_poll at 1, modify at 1.
  fold (polled_with (ready_one i r) st). fold st0.
  unfold bind at 1, gets at 1. rewrite Hlen0.
  replace (length (o2n_fds st)) with (i + S (length (o2n_fds st) - i - 1))%nat
    by lia.
  unfold bind at 1. rewrite dispatch_from_split.
  rewrite dispatch_from_idle; [|intros j Hj; apply Hidle0; lia|by destruct st].
  cbn [dispatch_from Nat.add]. unfold bind at 1. rewrite Hdisp.
  rewrite dispatch_from_idle; [|intros j Hj; apply Hidle1; lia|done].
  reflexivity.
Qed.

Lemma inv_polled_with ready st : inv st → inv (polled_with ready st).
Proof.
  intros [[Hlen Hreg] Hconn]. split; [split|].
  - rewrite polled_with_length. by destruct st.
  - intros i p Hi. apply (Hreg i p). by destruct st.
  - intros i p f d Hi Hp Hd. rewrite polled_with_lookup in Hd.
    destruct (o2n_fds st !! i) as [d0|] eqn:Hd0; [|done].
    cbn in Hd. simplify_eq.
    apply (Hconn i p f d0); by destruct st.
Qed.

(** [o2n_free_deleted_sockets] from a consistent registry. *)
Lemma free_deleted_sockets_spec ops st :
  inv st → (o2n_socket_delete_flag st = false → clean st) →
  ∃ st',
    o2n_free_deleted_sockets ops st = Some (tt, st') ∧
    o2n_socket_delete_flag st' = false ∧ clean st' ∧ inv st' ∧
    shrinks st st' ∧
    (∀ x fx, heap st !! x = Some fx → delete_me fx = true →
       x ∉ o2n_fds_info st').
Proof.
  intros Hinv Hflagok.
  destruct (sweep_spec ops (S (S (length (o2n_fds_info st)))) st)
    as (st' & Hrun & Hinv' & [Hsub Hmono] & Hflag' & Hclean');
    [done|done|lia|lia|].
  exists st'. split; [done|]. split; [done|]. split; [done|].
  split; [done|]. split; [done|].
  intros x fx Hx Hdm Hin.
  apply list_elem_of_lookup in Hin as [j Hj].
  destruct Hinv' as [[_ Hidx'] _].
  destruct (Hidx' _ _ Hj) as (fx' & Hfx' & _).
  destruct (Hmono _ _ Hfx') as (fx0 & Hfx0 & Hm). simplify_eq.
  rewrite (Hclean' _ _ _ Hj Hfx') in Hm. by specialize (Hm Hdm).
Qed.

Lemma has_flag_land r x n :
  0 ≤ n → has_flag (Z.land r x) (2 ^ n) = Z.testbit r n && Z.testbit x n.
Proof. intros Hn. by rewrite has_flag_testbit, Z.land_spec. Qed.

Lemma revents_flag d r n :
  0 ≤ fd d → 0 ≤ n →
  has_flag (revents (poll_one d r)) (2 ^ n)
  = Z.testbit r n
    && (Z.testbit (events d) n
        || Z.testbit (Z.lor POLLERR (Z.lor POLLHUP POLLNVAL)) n).
Proof.
  intros Hfd Hn. unfold poll_one. cbn.
  destruct (Z.ltb_spec (fd d) 0); [lia|].
  by rewrite has_flag_land, Z.lor_spec.
Qed.

Lemma revents_err d r :
  0 ≤ fd d → has_flag (revents (poll_one d r)) POLLERR = has_flag r POLLERR.
Proof.
  intros Hfd. change POLLERR with (2 ^ 3).
  rewrite revents_flag, has_flag_testbit by lia.
  change (Z.testbit (Z.lor POLLERR (Z.lor POLLHUP POLLNVAL)) 3) with true.
  by rewrite orb_true_r, andb_true_r.
Qed.

Lemma revents_hup d r :
  0 ≤ fd d → has_flag (revents (poll_one d r)) POLLHUP = has_flag r POLLHUP.
Proof.
  intros Hfd. change POLLHUP with (2 ^ 4).
  rewrite revents_flag, has_flag_testbit by lia.
  change (Z.testbit (Z.lor POLLERR (Z.lor POLLHUP POLLNVAL)) 4) with true.
  by rewrite orb_true_r, andb_true_r.
Qed.

Lemma revents_out d r :
  0 ≤ fd d →
  has_flag (revents (poll_one d r)) POLLOUT
  = has_flag r POLLOUT && has_flag (events d) POLLOUT.
Proof.
  intros Hfd. change POLLOUT with (2 ^ 2).
  rewrite revents_flag, !has_flag_testbit by lia.
  change (Z.testbit (Z.lor POLLERR (Z.lor POLLHUP POLLNVAL)) 2) with false.
  by rewrite orb_false_r.
Qed.

Lemma revents_in d r :
  0 ≤ fd d →
  has_flag (revents (poll_one d r)) POLLIN
  = has_flag r POLLIN && has_flag (events d) POLLIN.
Proof.
  intros Hfd. change POLLIN with (2 ^ 0).
  rewrite revents_flag, !has_flag_testbit by lia.
  change (Z.testbit (Z.lor POLLERR (Z.lor POLLHUP POLLNVAL)) 0) with false.
  by rewrite orb_false_r.
Qed.

(** [if (pfd->revents & POLLERR) { }]: a descriptor for which poll reports
    an error is left alone by the tick, whatever else is reported for it:
    it is not read, not written and not closed, and stays registered. *)
Theorem poll_error_is_ignored ops st i d r :
  o2n_socket_delete_flag st = false → o2_ensemble_name st = true →
  o2n_fds st !! i = Some d → 0 ≤ fd d → has_flag r POLLERR = true →
  o2n_recv ops (ready_one i r) st
    = Some (O2_SUCCESS, polled_with (ready_one i r) st).
Proof.
  intros Hflag Halive Hd Hfd Herr.
  assert (Hil : (i < length (o2n_fds st))%nat)
    by (eapply lookup_lt_Some; eauto).
  set (st0 := polled_with (ready_one i r) st).
  assert (Hd0 : o2n_fds st0 !! i = Some (poll_one d r)).
  { subst st0. by rewrite polled_with_lookup, ready_one_lookup, decide_True,
      Hd by done. }
  assert (Hdisp : dispatch ops i st0 = Some (None, st0)).
  { unfold dispatch. unfold bind at 1, pfd_at at 1. rewrite Hd0.
    change POLLERR with (2 ^ 3) in *.
    rewrite revents_flag by lia. rewrite has_flag_testbit in Herr by lia.
    rewrite Herr, orb_true_r. cbn [andb].
    unfold bind, ret, gets.
    by replace (o2_ensemble_name st0) with true by by destruct st. }
  rewrite (tick_one ops st i r st0) by (done || by destruct st).
  unfold tick_end, bind, gets, when, ret.
  by replace (o2n_socket_delete_flag st0) with false by by destruct st.
Qed.

Lemma poll_error_is_ignored_witness :
  o2n_recv no_hooks (ready_one 0 (Z.lor POLLERR POLLIN)) demo_net
    = Some (O2_SUCCESS,
            polled_with (ready_one 0 (Z.lor POLLERR POLLIN)) demo_net).
Proof.
  apply (poll_error_is_ignored no_hooks demo_net 0 demo_pfd
           (Z.lor POLLERR POLLIN)).
  - reflexivity.
  - reflexivity.
  - reflexivity.
  - cbn. lia.
  - reflexivity.
Defined.

(** ** What the sweep leaves behind *)

(** [st'] is [st] after handlers and hooks ran: the trace was only
    appended to and no socket handle was created. *)
Definition settles (st st' : net) : Prop :=
  trace st `prefix_of` trace st' ∧
  (∀ s, kernel st !! s = None → kernel st' !! s = None).

Lemma settles_refl st : settles st st.
Proof. split; [done|auto]. Qed.

Lemma settles_trans st1 st2 st3 :
  settles st1 st2 → settles st2 st3 → settles st1 st3.
Proof. intros [? ?] [? ?]. split; [by etrans|auto]. Qed.

(** Every object on the heap is registered. *)
Definition no_orphans (st : net) : Prop :=
  ∀ x, is_Some (heap st !! x) → x ∈ o2n_fds_info st.

Lemma close_socket_settles st i q st' :
  inv st → o2n_fds_info st !! i = Some q →
  close_socket q st = Some (tt, st') → settles st st'.
Proof.
  intros [Hok Hc] Hi Hrun. pose proof Hok as [Hlen Hidx].
  destruct (Hidx _ _ Hi) as (f & Hf & Hfi).
  destruct (lookup_lt_is_Some_2 (o2n_fds st) i) as [d Hd].
  { rewrite Hlen. eapply lookup_lt_Some; eauto. }
  destruct (Hc _ _ _ _ Hi Hf Hd) as [Hc1 Hc2]. subst i.
  destruct (decide (fd d = INVALID_SOCKET)) as [Hs|Hs].
  - rewrite (close_socket_closed st q f d) in Hrun by auto.
    simplify_eq. split; cbn; [by apply prefix_app_r|auto].
  - rewrite (close_socket_open st q f d) in Hrun by auto.
    simplify_eq. split; cbn; [by apply prefix_app_r|].
    intros s Hk. destruct (decide (s = fd d)) as [->|Hne].
    + apply lookup_delete_eq.
    + by rewrite lookup_delete_ne.
Qed.

Lemma close_each_settles qs : ∀ st st',
  inv st → close_each qs st = Some (tt, st') → settles st st'.
Proof.
  induction qs as [|q qs IH]; intros st st' Hinv Hrun.
  - cbn in Hrun. unfold ret in Hrun. simplify_eq. apply settles_refl.
  - cbn [close_each] in Hrun. unfold bind at 1, gets at 1 in Hrun.
    unfold is_registered, when in Hrun. case_bool_decide as Hq.
    + apply list_elem_of_lookup in Hq as [i Hi].
      destruct (close_socket_registered st i q Hinv Hi)
        as (st1 & Hrun1 & Hinv1 & _ & _).
      unfold bind in Hrun. rewrite Hrun1 in Hrun.
      eapply settles_trans; [by eapply close_socket_settles|by eapply IH].
    + unfold bind, ret in Hrun. by eapply IH.
Qed.

Lemma owner_hook_settles ops (o : option owner_t) st st' :
  inv st →
  match o with
  | Some o => owner_remove ops o
  | None => ret tt
  end st = Some (tt, st') →
  settles st st' ∧ ∀ ow, o = Some ow → EvRemove ow ∈ trace st'.
Proof.
  intros Hinv Hrun. destruct o as [o|].
  - unfold owner_remove, bind, modify in Hrun.
    assert (Hs : settles (emit (EvRemove o) st) st').
    { eapply close_each_settles; [by apply inv_emit|done]. }
    split.
    + eapply settles_trans; [|done]. split; cbn; [by apply prefix_app_r|auto].
    + intros ow [= <-]. destruct Hs as [[tl ->] _]. cbn.
      rewrite !elem_of_app. left. right. by apply list_elem_of_singleton.
  - unfold ret in Hrun. simplify_eq. split; [apply settles_refl|done].
Qed.

Lemma compact_elem_of st i p x :
  registry_ok st → o2n_fds_info st !! i = Some p → x ≠ p →
  x ∈ o2n_fds_info st → x ∈ compact i (o2n_fds_info st).
Proof.
  intros Hok Hi Hne Hx.
  assert (Hil : (i < length (o2n_fds_info st))%nat)
    by (eapply lookup_lt_Some; eauto).
  apply list_elem_of_lookup in Hx as [j Hj].
  assert (Hjl : (j < length (o2n_fds_info st))%nat)
    by (eapply lookup_lt_Some; eauto).
  assert (Hji : j ≠ i) by (intros ->; congruence).
  destruct (decide (j = length (o2n_fds_info st) - 1)%nat) as [Hlast|Hnl].
  - apply (list_elem_of_lookup_2 _ i).
    rewrite compact_lookup, decide_True by (done || lia). by rewrite <- Hlast.
  - apply (list_elem_of_lookup_2 _ j).
    by rewrite compact_lookup, decide_False by (done || lia).
Qed.

(** The destructor on a closed, registered connection. *)
Lemma Fds_info_delete_facts ops st i p f :
  inv st → o2n_fds_info st !! i = Some p → heap st !! p = Some f →
  net_tag f = NET_INFO_CLOSED →
  ∃ st1,
    Fds_info_delete ops p st = Some (tt, st1) ∧ inv st1 ∧ settles st st1 ∧
    (∀ o, owner f = Some o → EvRemove o ∈ trace st1) ∧
    (p ∉ o2n_fds_info st1) ∧ heap st1 !! p = None ∧
    (∀ x, x ≠ p → (x ∈ o2n_fds_info st1 ↔ x ∈ o2n_fds_info st)) ∧
    (∀ x, x ≠ p → (is_Some (heap st1 !! x) ↔ is_Some (heap st !! x))).
Proof.
  intros Hinv Hi Hp Ht. pose proof Hinv as [Hok Hc].
  assert (Hil : (i < length (o2n_fds_info st))%nat)
    by (eapply lookup_lt_Some; eauto).
  destruct (owner_hook_inv ops (owner f) (unlinked i st))
    as (s' & Hhook & Hinv1 & Hcl); [by eapply unlinked_inv|].
  assert (Hrun : Fds_info_delete ops p st
                 = Some (tt, upd_heap (delete p) s')).
  { rewrite (Fds_info_delete_run ops st i p f) by done. by rewrite Hhook. }
  assert (Hinv2 : inv (upd_heap (delete p) s')).
  { destruct (Fds_info_delete_inv ops st i p f Hinv Hi Hp Ht)
      as (s0 & Hrun0 & _ & _ & Hinv0).
    assert (Heq : upd_heap (delete p) s0 = upd_heap (delete p) s')
      by congruence.
    by rewrite <- Heq. }
  destruct (owner_hook_settles ops (owner f) (unlinked i st) s')
    as [Hset Hrem]; [by eapply unlinked_inv|done|].
  exists (upd_heap (delete p) s'). split; [done|]. split; [done|].
  split.
  { destruct Hset as [Hpre Hk]. split; [by destruct s'|].
    intros s Hs. destruct s'; cbn in *. by apply Hk. }
  split; [intros o Ho; specialize (Hrem o Ho); by destruct s'|].
  assert (Hinfos : o2n_fds_info (upd_heap (delete p) s')
                   = compact i (o2n_fds_info st)).
  { transitivity (o2n_fds_info s'); [by destruct s'|].
    apply (cl_infos _ _ Hcl). }
  split.
  { rewrite Hinfos. by apply (unlinked_drops st i p). }
  split; [destruct s'; cbn; apply lookup_delete_eq|].
  split.
  - intros x Hne. rewrite Hinfos. split.
    + intros Hx. apply list_elem_of_lookup in Hx as [j Hj].
      destruct (compact_lookup_Some _ _ _ _ Hil Hj) as [_ [[_ H]|[_ H]]];
        by eapply list_elem_of_lookup_2.
    + by apply (compact_elem_of st i p).
  - intros x Hne.
    replace (heap (upd_heap (delete p) s') !! x) with (heap s' !! x)
      by (destruct s'; cbn; by rewrite lookup_delete_ne).
    pose proof (cl_heap _ _ Hcl x) as Hh. cbn in Hh.
    assert (Hrs : is_Some (restamp i st !! x) ↔ is_Some (heap st !! x)).
    { unfold restamp.
      destruct (o2n_fds_info st !! (length (o2n_fds_info st) - 1)%nat)
        as [r|]; [|done].
      destruct (heap st !! r) as [fr|] eqn:Hr; [|done].
      destruct (i + 1 <? length (o2n_fds st))%nat; [|done].
      destruct (decide (x = r)) as [->|Hxr].
      - rewrite lookup_insert_eq, Hr. split; eauto.
      - by rewrite lookup_insert_ne. }
    rewrite <- Hrs.
    destruct (restamp i st !! x), (heap s' !! x); try done; split; eauto.
Qed.

Lemma Fds_info_delete_owner ops st i p f st1 x fx1 :
  inv st → o2n_fds_info st !! i = Some p → heap st !! p = Some f →
  net_tag f = NET_INFO_CLOSED →
  Fds_info_delete ops p st = Some (tt, st1) →
  heap st1 !! x = Some fx1 →
  ∃ fx, heap st !! x = Some fx ∧ owner fx1 = owner fx.
Proof.
  intros Hinv Hi Hp Ht Hrun Hx.
  destruct (owner_hook_inv ops (owner f) (unlinked i st))
    as (s' & Hhook & Hinv1 & Hcl); [by eapply unlinked_inv|].
  rewrite (Fds_info_delete_run ops st i p f) in Hrun by apply Hinv || done.
  rewrite Hhook in Hrun. simplify_eq.
  assert (Hx' : heap s' !! x = Some fx1).
  { destruct s'; cbn in *. by apply lookup_delete_Some in Hx as [_ ?]. }
  pose proof (cl_heap _ _ Hcl x) as Hh. cbn in Hh. rewrite Hx' in Hh.
  destruct (restamp i st !! x) as [fu|] eqn:Hu; [|done].
  destruct Hh as (_ & Hown & _).
  unfold restamp in Hu.
  destruct (o2n_fds_info st !! (length (o2n_fds_info st) - 1)%nat)
    as [r|]; [|by eauto].
  destruct (heap st !! r) as [fr|] eqn:Hr; [|by eauto].
  destruct (i + 1 <? length (o2n_fds st))%nat; [|by eauto].
  destruct (decide (x = r)) as [->|Hxr].
  - rewrite lookup_insert_eq in Hu. simplify_eq.
    exists fr. split; [done|]. rewrite Hown. by destruct fr.
  - rewrite lookup_insert_ne in Hu by done. eauto.
Qed.

(** A property kept by every destructor run is kept by the scan and by the
    whole sweep. *)
Lemma scan_keeps ops (J : net → Prop) :
  (∀ st i p f st1, inv st → J st → o2n_fds_info st !! i = Some p →
     heap st !! p = Some f → net_tag f = NET_INFO_CLOSED →
     Fds_info_delete ops p st = Some (tt, st1) → J st1) →
  ∀ fuel i st st',
    inv st → J st → scan ops fuel i st = Some (tt, st') → J st'.
Proof.
  intros Hdel. induction fuel as [|fuel IH]; intros i st st' Hinv HJ Hrun;
    [done|].
  cbn [scan] in Hrun. unfold bind at 1, gets at 1 in Hrun.
  destruct (Nat.ltb_spec i (length (o2n_fds_info st))) as [Hlt|Hge].
  - pose proof Hinv as [[Hlen Hidx] Hc].
    destruct (lookup_lt_is_Some_2 (o2n_fds_info st) i) as [p Hp]; [done|].
    destruct (Hidx _ _ Hp) as (f & Hf & Hfi).
    unfold bind at 1, info_at at 1 in Hrun. rewrite Hp in Hrun.
    unfold bind at 1, deref at 1 in Hrun. rewrite Hf in Hrun.
    destruct (delete_me f) eqn:Hdm.
    + destruct (lookup_lt_is_Some_2 (o2n_fds st) i) as [d Hd]; [lia|].
      destruct (Hc _ _ _ _ Hp Hf Hd) as [_ Htag]. specialize (Htag Hdm).
      destruct (Fds_info_delete_facts ops st i p f Hinv Hp Hf Htag)
        as (st1 & Hrun1 & Hinv1 & _).
      unfold bind in Hrun. rewrite Hrun1 in Hrun.
      apply (IH i st1 st'); [done| |done].
      by apply (Hdel st i p f st1).
    + by apply (IH (S i) st st').
  - unfold ret in Hrun. by simplify_eq.
Qed.

Lemma sweep_keeps ops (J : net → Prop) :
  (∀ st i p f st1, inv st → J st → o2n_fds_info st !! i = Some p →
     heap st !! p = Some f → net_tag f = NET_INFO_CLOSED →
     Fds_info_delete ops p st = Some (tt, st1) → J st1) →
  (∀ b st, J st → J (set_delete_flag b st)) →
  ∀ fuel st st',
    inv st → J st → sweep ops fuel st = Some (tt, st') → J st'.
Proof.
  intros Hdel Hfl. induction fuel as [|fuel IH]; intros st st' Hinv HJ Hrun;
    [done|].
  cbn [sweep] in Hrun. unfold bind at 1, gets at 1 in Hrun.
  destruct (o2n_socket_delete_flag st).
  - unfold bind at 1, modify at 1 in Hrun.
    unfold bind at 1, gets at 1 in Hrun.
    set (st2 := set_delete_flag false st) in *.
    destruct (scan_spec ops (S (length (o2n_fds_info st2))) 0 st2)
      as (st3 & Hrun3 & Hinv3 & _); [by apply inv_set_flag|lia| |].
    { right. intros j x fx Hj. lia. }
    unfold bind in Hrun. rewrite Hrun3 in Hrun.
    apply (IH st3 st'); [done| |done].
    eapply (scan_keeps ops J Hdel); [|by apply Hfl|done].
    by apply inv_set_flag.
  - unfold ret in Hrun. by simplify_eq.
Qed.

(** What the sweep has done so far, seen from its start [st0]. *)
Definition swept (st0 st : net) : Prop :=
  settles st0 st ∧ no_orphans st ∧
  (∀ x, x ∈ o2n_fds_info st → x ∈ o2n_fds_info st0) ∧
  ∀ x fx, heap st0 !! x = Some fx →
    (∃ fx', heap st !! x = Some fx' ∧ owner fx' = owner fx) ∨
    (heap st !! x = None ∧ ∀ o, owner fx = Some o → EvRemove o ∈ trace st).

Lemma swept_delete ops st0 st i p f st1 :
  inv st → swept st0 st → o2n_fds_info st !! i = Some p →
  heap st !! p = Some f → net_tag f = NET_INFO_CLOSED →
  Fds_info_delete ops p st = Some (tt, st1) → swept st0 st1.
Proof.
  intros Hinv (Hset & Horph & Hsub & Hobj) Hi Hp Ht Hrun.
  destruct (Fds_info_delete_facts ops st i p f Hinv Hi Hp Ht)
    as (st1' & Hrun' & Hinv1 & Hset1 & Hrem & Hnot & Hgone & Hreg & Hheap).
  assert (st1' = st1) as -> by congruence.
  split; [by eapply settles_trans|]. split; [|split].
  - intros x Hx. destruct (decide (x = p)) as [->|Hne].
    + rewrite Hgone in Hx. by destruct Hx.
    + apply Hreg; [done|]. apply Horph. by apply Hheap.
  - intros x Hx. destruct (decide (x = p)) as [->|Hne]; [done|].
    apply Hsub. by apply Hreg.
  - intros x fx Hx0. destruct (decide (x = p)) as [->|Hne].
    + right. split; [done|]. intros o Ho. apply Hrem.
      destruct (Hobj _ _ Hx0) as [(fx' & Hfx' & Hown)|[Hnone _]];
        [|congruence].
      simplify_eq. congruence.
    + destruct (Hobj _ _ Hx0) as [(fx' & Hfx' & Hown)|[Hnone Hev]].
      * left. destruct (proj2 (Hheap x Hne)) as [fx1 Hfx1]; [eauto|].
        exists fx1. split; [done|].
        destruct (Fds_info_delete_owner ops st i p f st1 x fx1)
          as (fx2 & Hfx2 & Hown2); try done.
        simplify_eq. congruence.
      * right. split.
        -- destruct (heap st1 !! x) eqn:Hx1; [|done].
           destruct (proj1 (Hheap x Hne)) as [? ?]; [eauto|congruence].
        -- intros o Ho. destruct Hset1 as [[tl ->] _].
           apply elem_of_app. left. by apply Hev.
Qed.

Lemma swept_set_flag st0 b st : swept st0 st → swept st0 (set_delete_flag b st).
Proof. by destruct st. Qed.

Lemma swept_refl st : no_orphans st → swept st st.
Proof.
  intros Horph. split; [apply settles_refl|]. split; [done|].
  split; [done|]. intros x fx Hx. left. eauto.
Qed.

(** The sweep at the end of a tick in which a connection was closed:
    every marked connection is unregistered and destroyed, and the
    [remove()] hook of its owner has run; the registry is consistent and
    free of marks again, nothing was registered, no socket was opened and
    the trace was only appended to. *)
Lemma closing_sweep ops st1 :
  inv st1 → no_orphans st1 →
  (o2n_socket_delete_flag st1 = false → clean st1) →
  ∃ st',
    tick_end ops st1 = Some (O2_SUCCESS, st') ∧
    inv st' ∧ clean st' ∧ o2n_socket_delete_flag st' = false ∧
    no_orphans st' ∧ settles st1 st' ∧
    (∀ x, x ∈ o2n_fds_info st' → x ∈ o2n_fds_info st1) ∧
    (∀ x fx, heap st1 !! x = Some fx → delete_me fx = true →
       (x ∉ o2n_fds_info st') ∧ heap st' !! x = None ∧
       ∀ o, owner fx = Some o → EvRemove o ∈ trace st').
Proof.
  intros Hinv Horph Hflagok. unfold tick_end, bind, gets, when.
  destruct (free_deleted_sockets_spec ops st1 Hinv Hflagok)
    as (st' & Hrun & Hflag' & Hclean' & Hinv' & _ & Hgone).
  destruct (o2n_socket_delete_flag st1) eqn:Hflag.
  - rewrite Hrun. unfold ret.
    assert (Hsw : swept st1 st').
    { unfold o2n_free_deleted_sockets, bind, gets in Hrun.
      apply (sweep_keeps ops (swept st1)) with (3 := Hinv) (5 := Hrun).
      - intros. by eapply swept_delete.
      - intros. by apply swept_set_flag.
      - by apply swept_refl. }
    destruct Hsw as (Hset & Horph' & Hsub & Hobj).
    exists st'. split; [done|]. split; [done|]. split; [done|].
    split; [done|]. split; [done|]. split; [done|]. split; [done|].
    intros x fx Hx Hdm. pose proof (Hgone x fx Hx Hdm) as Hnot.
    split; [done|].
    destruct (Hobj x fx Hx) as [(fx' & Hfx' & _)|[Hnone Hev]].
    + exfalso. apply Hnot, Horph'. eauto.
    + done.
  - clear st' Hrun Hflag' Hclean' Hinv' Hgone.
    exists st1. unfold ret. split; [done|]. split; [done|].
    split; [by apply Hflagok|]. split; [done|]. split; [done|].
    split; [apply settles_refl|]. split; [done|].
    intros x fx Hx Hdm. exfalso.
    assert (Hin : x ∈ o2n_fds_info st1) by (apply Horph; eauto).
    apply list_elem_of_lookup in Hin as [j Hj].
    specialize (Hflagok eq_refl j x fx Hj Hx). congruence.
Qed.

Lemma closed_state_inv st i p f d :
  inv st → o2n_fds_info st !! i = Some p → heap st !! p = Some f →
  o2n_fds st !! i = Some d → fd d ≠ INVALID_SOCKET →
  inv (closed_state p f d st) ∧ fds_index f = i.
Proof.
  intros Hinv Hi Hp Hd Hs.
  destruct (proj2 (proj1 Hinv) _ _ Hi) as (f' & Hf' & Hfi).
  assert (f' = f) as -> by congruence.
  split; [|done].
  destruct (close_socket_registered st i p Hinv Hi)
    as (st' & Hrun & Hinv' & _ & _).
  rewrite (close_socket_open st p f d) in Hrun by (done || congruence).
  by simplify_eq.
Qed.

Lemma closed_state_no_orphans st p f d :
  no_orphans st → heap st !! p = Some f →
  no_orphans (closed_state p f d st).
Proof.
  intros Horph Hp x Hx. cbn in *. apply Horph.
  destruct (decide (x = p)) as [->|Hne]; [eauto|].
  by rewrite lookup_insert_ne in Hx.
Qed.

Lemma no_orphans_polled_with ready st :
  no_orphans st → no_orphans (polled_with ready st).
Proof. by destruct st. Qed.

(** A tick that finds a hang-up (and no error) on a descriptor closes the
    connection and, in the sweep that ends the same tick, unregisters and
    destroys it: its queued and half-received messages are freed, the
    socket is shut down and closed once, the owner's [remove()] runs, and
    the registry is consistent again with nothing marked. *)
Theorem hangup_removes_connection ops st i p f d r :
  inv st → no_orphans st → clean st →
  o2n_socket_delete_flag st = false → o2_ensemble_name st = true →
  o2n_fds_info st !! i = Some p → heap st !! p = Some f →
  o2n_fds st !! i = Some d → 0 ≤ fd d →
  has_flag r POLLERR = false → has_flag r POLLHUP = true →
  ∃ st',
    o2n_recv ops (ready_one i r) st = Some (O2_SUCCESS, st') ∧
    inv st' ∧ clean st' ∧ o2n_socket_delete_flag st' = false ∧
    (p ∉ o2n_fds_info st') ∧ heap st' !! p = None ∧
    kernel st' !! fd d = None ∧
    (∀ x, x ∈ o2n_fds_info st' → x ∈ o2n_fds_info st) ∧
    (trace st ++ pending_frees f ++ [EvShutdown (fd d); EvClose (fd d)])
      `prefix_of` trace st' ∧
    (∀ o, owner f = Some o → EvRemove o ∈ trace st').
Proof.
  intros Hinv Horph Hclean Hflag Halive Hi Hp Hd Hfd Herr Hhup.
  assert (Hil : (i < length (o2n_fds st))%nat)
    by (eapply lookup_lt_Some; eauto).
  set (st0 := polled_with (ready_one i r) st).
  set (d0 := poll_one d r).
  assert (Hd0 : o2n_fds st0 !! i = Some d0).
  { subst st0. by rewrite polled_with_lookup, ready_one_lookup, decide_True,
      Hd by done. }
  assert (Hinv0 : inv st0) by by apply inv_polled_with.
  assert (Hi0 : o2n_fds_info st0 !! i = Some p) by by destruct st.
  assert (Hp0 : heap st0 !! p = Some f) by by destruct st.
  assert (Hfd0 : fd d0 ≠ INVALID_SOCKET)
    by (subst d0; cbn; unfold INVALID_SOCKET; lia).
  destruct (closed_state_inv st0 i p f d0 Hinv0 Hi0 Hp0 Hd0 Hfd0)
    as [Hinv1 Hfi].
  set (st1 := closed_state p f d0 st0) in *.
  assert (Hdisp : dispatch ops i st0 = Some (None, st1)).
  { unfold dispatch. unfold bind at 1, pfd_at at 1. rewrite Hd0.
    subst d0. rewrite revents_err, revents_hup, Herr, Hhup by done.
    unfold bind at 1. unfold bind at 1, info_at at 1. rewrite Hi0.
    rewrite (close_socket_open st0 p f (poll_one d r)) by (done || congruence).
    unfold bind, gets, ret.
    by replace (o2_ensemble_name (closed_state p f (poll_one d r) st0))
      with true by by destruct st. }
  assert (Hother : ∀ j, j ≠ i → (j < length (o2n_fds st))%nat →
            o2n_fds st1 !! j = o2n_fds st0 !! j).
  { intros j Hne _. subst st1. cbn. rewrite Hfi.
    by rewrite list_lookup_insert_ne. }
  rewrite (tick_one ops st i r st1) by (done || by destruct st).
  destruct (closing_sweep ops st1) as
    (st' & Hrun & Hinv' & Hclean' & Hflag' & _ & [Hpre Hkern] & Hsub & Hgone);
    [done| |done|].
  { apply closed_state_no_orphans; [|done].
    by apply no_orphans_polled_with. }
  destruct (Hgone p (closed_info f)) as (Hnot & Hnone & Hrem).
  { subst st1. cbn. apply lookup_insert_eq. }
  { by destruct f. }
  exists st'. split; [done|]. split; [done|]. split; [done|].
  split; [done|]. split; [done|]. split; [done|].
  split.
  { apply Hkern. subst st1 d0. cbn. apply lookup_delete_eq. }
  split; [intros x Hx; specialize (Hsub x Hx); by destruct st|].
  split; [|intros o Ho; apply Hrem; by destruct f].
  etrans; [|done]. subst st1 st0 d0. destruct st. by cbn.
Qed.

(** A reactor with a single connection: object 0 in slot 0. *)
Definition one_conn (f : Fds_info) (d : pollfd) (k : ksock) : net :=
  Net [d] [0%nat] {[ 0%nat := f ]} false 100 101 (Addr 2130706433 0)
    (Addr 4294967295 0) true ENONE {[ fd d := k ]} [].

Lemma one_conn_good f d k :
  fds_index f = 0%nat → fd d ≠ INVALID_SOCKET → delete_me f = false →
  inv (one_conn f d k) ∧ no_orphans (one_conn f d k) ∧
  clean (one_conn f d k).
Proof.
  intros Hfi Hfd Hdm. split; [split; [split|]|split].
  - done.
  - intros [|i] p Hi; cbn in Hi; simplify_eq.
    exists f. split; [apply lookup_singleton_eq|done].
  - intros [|i] p f' d' Hi Hf Hd; cbn in Hi, Hd; simplify_eq.
    cbn in Hf. rewrite lookup_singleton_eq in Hf. simplify_eq.
    split; [done|congruence].
  - intros x [f' Hx]. cbn in *.
    apply lookup_singleton_Some in Hx as [<- _]. by left.
  - intros [|j] x fx Hj Hx; cbn in Hj; simplify_eq.
    cbn in Hx. rewrite lookup_singleton_eq in Hx. by simplify_eq.
Qed.

Lemma hangup_removes_connection_witness :
  ∃ st',
    o2n_recv no_hooks (ready_one 0 (Z.lor POLLHUP POLLIN))
      (one_conn demo_info demo_pfd ksock0) = Some (O2_SUCCESS, st') ∧
    inv st' ∧ clean st' ∧ o2n_socket_delete_flag st' = false ∧
    (0%nat ∉ o2n_fds_info st') ∧ heap st' !! 0%nat = None ∧
    kernel st' !! fd demo_pfd = None ∧
    (∀ x, x ∈ o2n_fds_info st' →
          x ∈ o2n_fds_info (one_conn demo_info demo_pfd ksock0)) ∧
    (trace (one_conn demo_info demo_pfd ksock0) ++ pending_frees demo_info
       ++ [EvShutdown (fd demo_pfd); EvClose (fd demo_pfd)])
      `prefix_of` trace st' ∧
    (∀ o, owner demo_info = Some o → EvRemove o ∈ trace st').
Proof.
  destruct (one_conn_good demo_info demo_pfd ksock0) as (Hinv & Horph & Hcl);
    [reflexivity|discriminate|reflexivity|].
  apply (hangup_removes_connection no_hooks
           (one_conn demo_info demo_pfd ksock0) 0 0%nat demo_info demo_pfd
           (Z.lor POLLHUP POLLIN)).
  - exact Hinv.
  - exact Horph.
  - exact Hcl.
  - reflexivity.
  - reflexivity.
  - reflexivity.
  - reflexivity.
  - reflexivity.
  - cbn. lia.
  - reflexivity.
  - reflexivity.
Defined.

(** ** Receive errors *)

(** The inbound fields after [message_cleanup]. *)
Definition cleaned (f : Fds_info) : Fds_info :=
  set_in_length_got 0
    (set_in_length_mem [] (set_in_length 0
      (set_in_msg_got 0 (set_in_message None f)))).

(** A framed connection between two read events: the header or the body
    of the next message is incomplete. *)
Definition rx_pending (f : Fds_info) : Prop :=
  raw_flag f = false ∧ in_length_got f < 5 ∧
  (in_length_got f < 4 ∨
   (in_msg_got f < in_length f ∧ is_Some (in_message f))).

(** When [recvfrom] has nothing to return, [read_whole_message] goes to
    [error_exit] with its result. *)
Lemma read_whole_message_fails st p s f n str :
  heap st !! p = Some f → rx_pending f →
  (∀ cnt, sys_recv s cnt st = Some ((n, []), str)) → n ≤ 0 →
  read_whole_message p s st = error_exit p n str.
Proof.
  intros Hp (Hraw & H5 & Hphase) Hrecv Hn.
  assert (Hle : (n <=? 0) = true) by lia.
  assert (Hlt5 : (in_length_got f <? 5) = true) by lia.
  unfold read_whole_message. unfold bind at 1, deref at 1. rewrite Hp, Hlt5.
  unfold bind at 1, assert at 1, ret at 1. rewrite Hraw.
  unfold bind at 1. unfold read_length. unfold bind at 1, deref at 1.
  rewrite Hp.
  destruct (Z.ltb_spec (in_length_got f) 4) as [Hlt|Hge].
  - unfold bind at 1. rewrite Hrecv. cbn [fst snd]. rewrite Hle.
    unfold bind, ret. by destruct (error_exit p n str) as [[e st']|].
  - destruct Hphase as [?|[Hbody [m Hm]]]; [lia|].
    unfold ret at 1. unfold read_rest. unfold bind at 1.
    unfold read_body. unfold bind at 1, deref at 1. rewrite Hp.
    destruct (Z.ltb_spec (in_msg_got f) (in_length f)); [|lia].
    unfold in_message_of. rewrite Hm. unfold bind at 1, ret at 1.
    unfold bind at 1. rewrite Hrecv. cbn [fst snd]. rewrite Hle.
    unfold bind, ret. by destruct (error_exit p n str) as [[e st']|].
Qed.

Lemma error_exit_eof st p f :
  heap st !! p = Some f →
  error_exit p 0 st = Some (O2_TCP_HUP, upd_heap <[p := cleaned f]> st).
Proof.
  intros Hp. unfold error_exit. change (0 =? 0) with true. cbn match.
  unfold bind, message_cleanup. by rewrite (store_run p _ f).
Qed.

Lemma error_exit_retry st p e :
  errno st = e → retryable e → error_exit p (-1) st = Some (O2_FAIL, st).
Proof.
  intros He Hre. unfold error_exit. change (-1 =? 0) with false.
  change (-1 <? 0) with true. cbn match.
  unfold bind, TERMINATING_SOCKET_ERROR, bind, gets, ret. rewrite He.
  by destruct Hre as [-> | ->].
Qed.

Lemma error_exit_fatal st p f e :
  heap st !! p = Some f → errno st = e → ¬ retryable e →
  error_exit p (-1) st =
    Some (O2_TCP_HUP,
          upd_heap <[p := cleaned f]>
            (add_trace
               (EvPerror "recvfrom in read_whole_message"
                :: match in_message f with
                   | Some m => [EvFree m]
                   | None => []
                   end) st)).
Proof.
  intros Hp He Hre. unfold error_exit. change (-1 =? 0) with false.
  change (-1 <? 0) with true. cbn match.
  assert (Hterm : negb (bool_decide (e = EAGAIN))
                  && negb (bool_decide (e = EINTR)) = true).
  { unfold retryable in Hre.
    rewrite !bool_decide_eq_false_2; [done|intros ->; tauto..]. }
  assert (Hts : TERMINATING_SOCKET_ERROR st = Some (true, st)).
  { unfold TERMINATING_SOCKET_ERROR, bind, gets, ret. by rewrite He, Hterm. }
  unfold bind at 1. rewrite Hts. clear Hts.
  destruct st as [fds infos hp flag us bs la ba en er kn tr].
  destruct f as [tag idx dm raw il ilm im ilg img om oms pt ow].
  cbn in Hp. unfold message_cleanup, cleaned, add_trace.
  destruct im as [m|]; mrun; rewrite ?insert_insert_eq, <- ?app_assoc;
    reflexivity.
Qed.

(** ** Read-ready ticks *)

(** Poll reports descriptor [d] readable and nothing else. *)
Definition reads_only (d : pollfd) (r : Z) : Prop :=
  0 ≤ fd d ∧ has_flag r POLLERR = false ∧ has_flag r POLLHUP = false ∧
  has_flag r POLLOUT = false ∧ has_flag r POLLIN = true ∧
  has_flag (events d) POLLIN = true.

Lemma dispatch_read ops st0 i d0 d r p f :
  o2n_fds st0 !! i = Some d0 → d0 = poll_one d r → reads_only d r →
  o2n_fds_info st0 !! i = Some p → heap st0 !! p = Some f →
  in_length_got f < 5 →
  dispatch ops i st0 =
    (rr <- read_event_handler ops p (fd d) ;;
     when (negb (bool_decide (rr = O2_SUCCESS))) (close_socket p) ;;;
     alive <- gets o2_ensemble_name ;;
     if alive then ret None else ret (Some O2_FAIL)) st0.
Proof.
  intros Hd0 -> (Hfd & Herr & Hhup & Hout & Hin & Hev) Hi Hp H5.
  unfold dispatch. unfold bind at 1, pfd_at at 1. rewrite Hd0.
  rewrite revents_err, revents_hup, revents_out, revents_in by done.
  rewrite Herr, Hhup, Hout, Hin, Hev. cbn [andb].
  assert (Hlt5 : (in_length_got f <? 5) = true) by lia.
  unfold bind at 1. unfold bind at 1, info_at at 1. rewrite Hi.
  unfold bind at 1, deref at 1. rewrite Hp, Hlt5.
  unfold bind at 1, assert at 1, ret at 1.
  replace (fd (poll_one d r)) with (fd d) by done.
  unfold bind. by destruct (read_event_handler ops p (fd d) st0) as [[? ?]|].
Qed.

Lemma inv_update st p f fR :
  inv st → heap st !! p = Some f → fds_index fR = fds_index f →
  delete_me fR = delete_me f → net_tag fR = net_tag f →
  inv (upd_heap <[p := fR]> st).
Proof.
  intros [[Hlen Hidx] Hc] Hp Hfi Hdm Htag.
  split; [split|unfold conns_ok].
  - by destruct st.
  - intros j x Hj. assert (Hj' : o2n_fds_info st !! j = Some x)
      by by destruct st.
    destruct (Hidx _ _ Hj') as (fx & Hfx & Hfxi).
    destruct (decide (x = p)) as [->|Hne].
    + exists fR. split; [destruct st; apply lookup_insert_eq|].
      simplify_eq. congruence.
    + exists fx. split; [|done]. destruct st; cbn in *.
      by rewrite lookup_insert_ne.
  - intros j x fx dx Hj Hx Hdx.
    assert (Hj' : o2n_fds_info st !! j = Some x) by by destruct st.
    assert (Hdx' : o2n_fds st !! j = Some dx) by by destruct st.
    destruct (decide (x = p)) as [->|Hne].
    + assert (fx = fR) as ->
        by (destruct st; cbn in *; rewrite lookup_insert_eq in Hx; congruence).
      rewrite Hdm, Htag. by apply (Hc j p f dx).
    + apply (Hc j x fx dx); try done.
      destruct st; cbn in *. by rewrite lookup_insert_ne in Hx.
Qed.

Lemma inv_add_trace evs st : inv st → inv (add_trace evs st).
Proof. by destruct st. Qed.

Lemma inv_set_errno e st : inv st → inv (set_errno e st).
Proof. by destruct st. Qed.

Lemma inv_upd_kernel g st : inv st → inv (upd_kernel g st).
Proof. by destruct st. Qed.

(** [stR] is [st0] after a handler that changed connection [p] only (to
    [fR]), wrote [evs] to the trace, and left the registry alone; errno
    and the kernel's buffers may have changed. *)
Definition handled (p : ptr) (fR : Fds_info) (evs : list event)
  (st0 stR : net) : Prop :=
  o2n_fds stR = o2n_fds st0 ∧ o2n_fds_info stR = o2n_fds_info st0 ∧
  heap stR = <[p := fR]> (heap st0) ∧
  o2n_socket_delete_flag stR = o2n_socket_delete_flag st0 ∧
  o2_ensemble_name stR = o2_ensemble_name st0 ∧
  trace stR = trace st0 ++ evs.

Lemma handled_inv p f fR evs st0 stR :
  inv st0 → handled p fR evs st0 stR → heap st0 !! p = Some f →
  fds_index fR = fds_index f → delete_me fR = delete_me f →
  net_tag fR = net_tag f → inv stR.
Proof.
  intros [[Hlen Hidx] Hc] (Hfds & Hinfos & Hheap & _) Hp Hfi Hdm Htag.
  split; [split|unfold conns_ok]; rewrite ?Hfds, ?Hinfos, ?Hheap.
  - done.
  - intros j x Hj. destruct (Hidx _ _ Hj) as (fx & Hfx & Hfxi).
    destruct (decide (x = p)) as [->|Hne].
    + exists fR. rewrite lookup_insert_eq. split; [done|].
      simplify_eq. congruence.
    + exists fx. by rewrite lookup_insert_ne.
  - intros j x fx dx Hj Hx Hdx. destruct (decide (x = p)) as [->|Hne].
    + rewrite lookup_insert_eq in Hx. simplify_eq.
      rewrite Hdm, Htag. by apply (Hc j p f dx).
    + rewrite lookup_insert_ne in Hx by done. by apply (Hc j x fx dx).
Qed.

Lemma handled_no_orphans p f fR evs st0 stR :
  no_orphans st0 → handled p fR evs st0 stR → heap st0 !! p = Some f →
  no_orphans stR.
Proof.
  intros Horph (_ & Hinfos & Hheap & _) Hp x Hx.
  rewrite Hinfos. rewrite Hheap in Hx. apply Horph.
  destruct (decide (x = p)) as [->|Hne]; [eauto|].
  by rewrite lookup_insert_ne in Hx.
Qed.

(** A read-ready tick whose handler reports an error: the connection is
    closed, and removed by the sweep that ends the tick. *)
Lemma tick_read_closes ops st i p f d r rr fR evs stR :
  inv st → no_orphans st → clean st →
  o2n_socket_delete_flag st = false → o2_ensemble_name st = true →
  o2n_fds_info st !! i = Some p → heap st !! p = Some f →
  o2n_fds st !! i = Some d → reads_only d r → in_length_got f < 5 →
  read_event_handler ops p (fd d) (polled_with (ready_one i r) st)
    = Some (rr, stR) →
  handled p fR evs (polled_with (ready_one i r) st) stR →
  rr ≠ O2_SUCCESS →
  fds_index fR = fds_index f → delete_me fR = delete_me f →
  net_tag fR = net_tag f → owner fR = owner f →
  ∃ st',
    o2n_recv ops (ready_one i r) st = Some (O2_SUCCESS, st') ∧
    inv st' ∧ clean st' ∧ o2n_socket_delete_flag st' = false ∧
    (p ∉ o2n_fds_info st') ∧ heap st' !! p = None ∧
    kernel st' !! fd d = None ∧
    (∀ x, x ∈ o2n_fds_info st' → x ∈ o2n_fds_info st) ∧
    (trace st ++ evs ++ pending_frees fR
       ++ [EvShutdown (fd d); EvClose (fd d)]) `prefix_of` trace st' ∧
    (∀ o, owner f = Some o → EvRemove o ∈ trace st').
Proof.
  intros Hinv Horph Hclean Hflag Halive Hi Hp Hd Hro H5 Hread Hh Hrr Hfi Hdm
    Htag Hown.
  pose proof Hro as (Hfd & _).
  assert (Hil : (i < length (o2n_fds st))%nat)
    by (eapply lookup_lt_Some; eauto).
  set (st0 := polled_with (ready_one i r) st) in *.
  set (d0 := poll_one d r).
  assert (Hd0 : o2n_fds st0 !! i = Some d0).
  { subst st0. by rewrite polled_with_lookup, ready_one_lookup, decide_True,
      Hd by done. }
  assert (Hinv0 : inv st0) by by apply inv_polled_with.
  assert (Hi0 : o2n_fds_info st0 !! i = Some p) by by destruct st.
  assert (Hp0 : heap st0 !! p = Some f) by by destruct st.
  assert (HinvR : inv stR) by by apply (handled_inv p f fR evs st0).
  pose proof Hh as (Hfds & Hinfos & Hheap & HflagR & HaliveR & HtrR).
  assert (HiR : o2n_fds_info stR !! i = Some p) by by rewrite Hinfos.
  assert (HpR : heap stR !! p = Some fR)
    by (rewrite Hheap; apply lookup_insert_eq).
  assert (HdR : o2n_fds stR !! i = Some d0) by by rewrite Hfds.
  assert (Hfd0 : fd d0 ≠ INVALID_SOCKET)
    by (subst d0; cbn; unfold INVALID_SOCKET; lia).
  destruct (closed_state_inv stR i p fR d0 HinvR HiR HpR HdR Hfd0)
    as [Hinv1 HfiR].
  set (st1 := closed_state p fR d0 stR) in *.
  assert (Halive1 : o2_ensemble_name st1 = true).
  { subst st1. cbn. rewrite HaliveR. by destruct st. }
  assert (Hdisp : dispatch ops i st0 = Some (None, st1)).
  { rewrite (dispatch_read ops st0 i d0 d r p f) by done.
    unfold bind at 1. rewrite Hread.
    rewrite bool_decide_eq_false_2 by done. cbn [negb when].
    unfold bind at 1.
    rewrite (close_socket_open stR p fR d0) by (done || congruence).
    fold st1. unfold bind, gets, ret. by rewrite Halive1. }
  assert (Hother : ∀ j, j ≠ i → (j < length (o2n_fds st))%nat →
            o2n_fds st1 !! j = o2n_fds st0 !! j).
  { intros j Hne _. subst st1. cbn. rewrite HfiR.
    rewrite list_lookup_insert_ne by done. by rewrite Hfds. }
  rewrite (tick_one ops st i r st1) by done.
  destruct (closing_sweep ops st1) as
    (st' & Hrun & Hinv' & Hclean' & Hflag' & _ & [Hpre Hkern] & Hsub & Hgone);
    [done| |done|].
  { apply closed_state_no_orphans; [|done].
    apply (handled_no_orphans p f fR evs st0); [|done..].
    by apply no_orphans_polled_with. }
  destruct (Hgone p (closed_info fR)) as (Hnot & Hnone & Hrem).
  { subst st1. cbn. apply lookup_insert_eq. }
  { by destruct fR. }
  exists st'. split; [done|]. split; [done|]. split; [done|].
  split; [done|]. split; [done|]. split; [done|].
  split.
  { apply Hkern. subst st1 d0. cbn. apply lookup_delete_eq. }
  split.
  { intros x Hx. specialize (Hsub x Hx). subst st1. cbn in Hsub.
    rewrite Hinfos in Hsub. by destruct st. }
  split.
  - etrans; [|done]. subst st1 d0. cbn. rewrite HtrR.
    replace (trace st0) with (trace st) by by destruct st.
    by rewrite <- !app_assoc.
  - intros o Ho. apply Hrem. rewrite <- Ho, <- Hown. by destruct fR.
Qed.

Lemma read_event_handler_data ops st p s f :
  heap st !! p = Some f → is_tcp_data (net_tag f) = true →
  read_event_handler ops p s st =
    (n <- read_whole_message p s ;;
     if bool_decide (n = O2_FAIL) then ret O2_SUCCESS
     else if negb (bool_decide (n = O2_SUCCESS)) then ret n
     else deliver_in_message ops p) st.
Proof.
  intros Hp Ht. unfold read_event_handler. unfold bind at 1, deref at 1.
  by rewrite Hp, Ht.
Qed.

(** End of stream on a framed TCP connection: the tick that reads it
    drops the half-received message (it is not freed), closes the
    connection, which frees the queued messages and closes the socket, and
    removes it in the sweep that ends the same tick, where the owner's
    [remove()] runs. *)
Theorem eof_removes_connection ops st i p f d k r :
  inv st → no_orphans st → clean st →
  o2n_socket_delete_flag st = false → o2_ensemble_name st = true →
  o2n_fds_info st !! i = Some p → heap st !! p = Some f →
  o2n_fds st !! i = Some d → reads_only d r →
  is_tcp_data (net_tag f) = true → rx_pending f →
  kernel st !! fd d = Some k → rx_buf k = [] → rx_idle k = RxShutdown →
  ∃ st',
    o2n_recv ops (ready_one i r) st = Some (O2_SUCCESS, st') ∧
    inv st' ∧ clean st' ∧ o2n_socket_delete_flag st' = false ∧
    (p ∉ o2n_fds_info st') ∧ heap st' !! p = None ∧
    kernel st' !! fd d = None ∧
    (∀ x, x ∈ o2n_fds_info st' → x ∈ o2n_fds_info st) ∧
    (trace st ++ map EvFree (out_message f)
       ++ [EvShutdown (fd d); EvClose (fd d)]) `prefix_of` trace st' ∧
    (∀ o, owner f = Some o → EvRemove o ∈ trace st').
Proof.
  intros Hinv Horph Hclean Hflag Halive Hi Hp Hd Hro Htcp Hpend Hk Hbuf
    Hidle.
  set (st0 := polled_with (ready_one i r) st).
  assert (Hp0 : heap st0 !! p = Some f) by by destruct st.
  assert (Hk0 : kernel st0 !! fd d = Some k) by by destruct st.
  set (stR := upd_heap <[p := cleaned f]> st0).
  assert (Hread : read_event_handler ops p (fd d) st0
            = Some (O2_TCP_HUP, stR)).
  { rewrite (read_event_handler_data ops st0 p (fd d) f) by done.
    unfold bind at 1.
    rewrite (read_whole_message_fails st0 p (fd d) f 0 st0); [|done..| |lia].
    2: { intros cnt. unfold sys_recv. by rewrite Hk0, Hbuf, Hidle. }
    rewrite (error_exit_eof st0 p f) by done.
    by rewrite bool_decide_eq_false_2, bool_decide_eq_false_2 by done. }
  assert (Hh : handled p (cleaned f) [] st0 stR).
  { subst stR. destruct st. unfold handled. cbn. by rewrite app_nil_r. }
  destruct Hpend as (_ & H5 & _).
  destruct (tick_read_closes ops st i p f d r O2_TCP_HUP (cleaned f) []
              stR Hinv Horph Hclean Hflag Halive Hi Hp Hd Hro H5 Hread Hh)
    as (st' & Hrun & Hinv' & Hclean' & Hflag' & Hnot & Hnone & Hkern & Hsub &
        Hpre & Hrem); [done|by destruct f..|].
  exists st'. split; [done|]. split; [done|]. split; [done|].
  split; [done|]. split; [done|]. split; [done|]. split; [done|].
  split; [done|]. split; [|done].
  replace (pending_frees (cleaned f)) with (map EvFree (out_message f))
    in Hpre by by destruct f.
  done.
Qed.

Definition eof_sock : ksock := Ksock [] [] [] RxShutdown [] [] [] 0.

Lemma demo_reads_only : reads_only demo_pfd POLLIN.
Proof. repeat split; cbn; lia || reflexivity. Qed.

Lemma demo_rx_pending : rx_pending demo_info.
Proof.
  split; [reflexivity|]. split; [cbn; lia|]. right.
  split; [cbn; lia|]. cbn. eauto.
Qed.

Lemma eof_removes_connection_witness :
  ∃ st',
    o2n_recv no_hooks (ready_one 0 POLLIN)
      (one_conn demo_info demo_pfd eof_sock) = Some (O2_SUCCESS, st') ∧
    inv st' ∧ clean st' ∧ o2n_socket_delete_flag st' = false ∧
    (0%nat ∉ o2n_fds_info st') ∧ heap st' !! 0%nat = None ∧
    kernel st' !! fd demo_pfd = None ∧
    (∀ x, x ∈ o2n_fds_info st' →
          x ∈ o2n_fds_info (one_conn demo_info demo_pfd eof_sock)) ∧
    (trace (one_conn demo_info demo_pfd eof_sock)
       ++ map EvFree (out_message demo_info)
       ++ [EvShutdown (fd demo_pfd); EvClose (fd demo_pfd)])
      `prefix_of` trace st' ∧
    (∀ o, owner demo_info = Some o → EvRemove o ∈ trace st').
Proof.
  destruct (one_conn_good demo_info demo_pfd eof_sock) as (Hinv & Horph & Hcl);
    [reflexivity|discriminate|reflexivity|].
  apply (eof_removes_connection no_hooks
           (one_conn demo_info demo_pfd eof_sock) 0 0%nat demo_info demo_pfd
           eof_sock POLLIN).
  - exact Hinv.
  - exact Horph.
  - exact Hcl.
  - reflexivity.
  - reflexivity.
  - reflexivity.
  - reflexivity.
  - reflexivity.
  - exact demo_reads_only.
  - reflexivity.
  - exact demo_rx_pending.
  - reflexivity.
  - reflexivity.
  - reflexivity.
Defined.

(** A terminating [recvfrom] error on a framed TCP connection: the error
    is reported with [perror], the half-received message is freed, and the
    connection is closed and removed within the same tick. *)
Theorem fatal_receive_removes_connection ops st i p f d k r e :
  inv st → no_orphans st → clean st →
  o2n_socket_delete_flag st = false → o2_ensemble_name st = true →
  o2n_fds_info st !! i = Some p → heap st !! p = Some f →
  o2n_fds st !! i = Some d → reads_only d r →
  is_tcp_data (net_tag f) = true → rx_pending f →
  kernel st !! fd d = Some k → rx_buf k = [] → rx_idle k = RxNothing e →
  ¬ retryable e →
  ∃ st',
    o2n_recv ops (ready_one i r) st = Some (O2_SUCCESS, st') ∧
    inv st' ∧ clean st' ∧ o2n_socket_delete_flag st' = false ∧
    (p ∉ o2n_fds_info st') ∧ heap st' !! p = None ∧
    kernel st' !! fd d = None ∧
    (∀ x, x ∈ o2n_fds_info st' → x ∈ o2n_fds_info st) ∧
    (trace st
       ++ EvPerror "recvfrom in read_whole_message"
          :: match in_message f with Some m => [EvFree m] | None => [] end
       ++ map EvFree (out_message f)
       ++ [EvShutdown (fd d); EvClose (fd d)]) `prefix_of` trace st' ∧
    (∀ o, owner f = Some o → EvRemove o ∈ trace st').
Proof.
  intros Hinv Horph Hclean Hflag Halive Hi Hp Hd Hro Htcp Hpend Hk Hbuf
    Hidle He.
  set (st0 := polled_with (ready_one i r) st).
  set (evs := EvPerror "recvfrom in read_whole_message"
              :: match in_message f with
                 | Some m => [EvFree m]
                 | None => []
                 end).
  assert (Hp0 : heap st0 !! p = Some f) by by destruct st.
  assert (Hk0 : kernel st0 !! fd d = Some k) by by destruct st.
  set (stR := upd_heap <[p := cleaned f]>
                (add_trace evs (set_errno e st0))).
  assert (Hread : read_event_handler ops p (fd d) st0
            = Some (O2_TCP_HUP, stR)).
  { rewrite (read_event_handler_data ops st0 p (fd d) f) by done.
    unfold bind at 1.
    rewrite (read_whole_message_fails st0 p (fd d) f (-1) (set_errno e st0));
      [|done..| |lia].
    2: { intros cnt. unfold sys_recv. by rewrite Hk0, Hbuf, Hidle. }
    rewrite (error_exit_fatal (set_errno e st0) p f e);
      [|by destruct st|by destruct st|done].
    by rewrite bool_decide_eq_false_2, bool_decide_eq_false_2 by done. }
  assert (Hh : handled p (cleaned f) evs st0 stR).
  { subst stR. destruct st. by unfold handled. }
  destruct Hpend as (_ & H5 & _).
  destruct (tick_read_closes ops st i p f d r O2_TCP_HUP (cleaned f) evs
              stR Hinv Horph Hclean Hflag Halive Hi Hp Hd Hro H5 Hread Hh)
    as (st' & Hrun & Hinv' & Hclean' & Hflag' & Hnot & Hnone & Hkern & Hsub &
        Hpre & Hrem); [done|by destruct f..|].
  exists st'. split; [done|]. split; [done|]. split; [done|].
  split; [done|]. split; [done|]. split; [done|]. split; [done|].
  split; [done|]. split; [|done].
  replace (pending_frees (cleaned f)) with (map EvFree (out_message f))
    in Hpre by by destruct f.
  subst evs. by rewrite <- app_comm_cons in Hpre.
Qed.

Definition reset_sock : ksock :=
  Ksock [] [] [] (RxNothing (EOTHER 104)) [] [] [] 0.

Lemma fatal_receive_removes_connection_witness :
  ∃ st',
    o2n_recv no_hooks (ready_one 0 POLLIN)
      (one_conn demo_info demo_pfd reset_sock) = Some (O2_SUCCESS, st') ∧
    inv st' ∧ clean st' ∧ o2n_socket_delete_flag st' = false ∧
    (0%nat ∉ o2n_fds_info st') ∧ heap st' !! 0%nat = None ∧
    kernel st' !! fd demo_pfd = None ∧
    (∀ x, x ∈ o2n_fds_info st' →
          x ∈ o2n_fds_info (one_conn demo_info demo_pfd reset_sock)) ∧
    (trace (one_conn demo_info demo_pfd reset_sock)
       ++ EvPerror "recvfrom in read_whole_message"
          :: match in_message demo_info with
             | Some m => [EvFree m]
             | None => []
             end
       ++ map EvFree (out_message demo_info)
       ++ [EvShutdown (fd demo_pfd); EvClose (fd demo_pfd)])
      `prefix_of` trace st' ∧
    (∀ o, owner demo_info = Some o → EvRemove o ∈ trace st').
Proof.
  destruct (one_conn_good demo_info demo_pfd reset_sock)
    as (Hinv & Horph & Hcl); [reflexivity|discriminate|reflexivity|].
  apply (fatal_receive_removes_connection no_hooks
           (one_conn demo_info demo_pfd reset_sock) 0 0%nat demo_info
           demo_pfd reset_sock POLLIN (EOTHER 104)).
  - exact Hinv.
  - exact Horph.
  - exact Hcl.
  - reflexivity.
  - reflexivity.
  - reflexivity.
  - reflexivity.
  - reflexivity.
  - exact demo_reads_only.
  - reflexivity.
  - exact demo_rx_pending.
  - reflexivity.
  - reflexivity.
  - reflexivity.
  - intros [H | H]; discriminate H.
Defined.

(** A read-ready event with nothing to read (EAGAIN or EINTR) is not an
    error: after the tick the connection is as it was, with the partly
    assembled message and its offsets, still registered and open; only
    errno and the [revents] fields changed. *)
Theorem spurious_read_keeps_connection ops st i p f d k r e :
  o2n_socket_delete_flag st = false → o2_ensemble_name st = true →
  o2n_fds_info st !! i = Some p → heap st !! p = Some f →
  o2n_fds st !! i = Some d → reads_only d r →
  is_tcp_data (net_tag f) = true → rx_pending f →
  kernel st !! fd d = Some k → rx_buf k = [] → rx_idle k = RxNothing e →
  retryable e →
  o2n_recv ops (ready_one i r) st
    = Some (O2_SUCCESS, set_errno e (polled_with (ready_one i r) st)).
Proof.
  intros Hflag Halive Hi Hp Hd Hro Htcp Hpend Hk Hbuf Hidle He.
  assert (Hil : (i < length (o2n_fds st))%nat)
    by (eapply lookup_lt_Some; eauto).
  set (st0 := polled_with (ready_one i r) st).
  assert (Hd0 : o2n_fds st0 !! i = Some (poll_one d r)).
  { subst st0. by rewrite polled_with_lookup, ready_one_lookup, decide_True,
      Hd by done. }
  assert (Hi0 : o2n_fds_info st0 !! i = Some p) by by destruct st.
  assert (Hp0 : heap st0 !! p = Some f) by by destruct st.
  assert (Hk0 : kernel st0 !! fd d = Some k) by by destruct st.
  assert (Hdisp : dispatch ops i st0 = Some (None, set_errno e st0)).
  { rewrite (dispatch_read ops st0 i (poll_one d r) d r p f);
      [|done..|by destruct Hpend as (_ & ? & _)].
    unfold bind at 1.
    rewrite (read_event_handler_data ops st0 p (fd d) f) by done.
    unfold bind at 1.
    rewrite (read_whole_message_fails st0 p (fd d) f (-1) (set_errno e st0));
      [|done..| |lia].
    2: { intros cnt. unfold sys_recv. by rewrite Hk0, Hbuf, Hidle. }
    rewrite (error_exit_retry (set_errno e st0) p e);
      [|by destruct st|done].
    rewrite bool_decide_eq_true_2 by done. unfold ret at 1.
    rewrite bool_decide_eq_true_2 by done. cbn [negb when].
    unfold bind, ret, gets.
    by replace (o2_ensemble_name (set_errno e st0)) with true
      by by destruct st. }
  rewrite (tick_one ops st i r (set_errno e st0));
    [|done|done|done|done|intros; by destruct st|by destruct st].
  unfold tick_end, bind, gets, when, ret.
  by replace (o2n_socket_delete_flag (set_errno e st0)) with false
    by by destruct st.
Qed.

Lemma spurious_read_keeps_connection_witness :
  o2n_recv no_hooks (ready_one 0 POLLIN) (one_conn demo_info demo_pfd ksock0)
    = Some (O2_SUCCESS,
            set_errno EAGAIN
              (polled_with (ready_one 0 POLLIN)
                 (one_conn demo_info demo_pfd ksock0))).
Proof.
  apply (spurious_read_keeps_connection no_hooks
           (one_conn demo_info demo_pfd ksock0) 0 0%nat demo_info demo_pfd
           ksock0 POLLIN EAGAIN).
  - reflexivity.
  - reflexivity.
  - reflexivity.
  - reflexivity.
  - reflexivity.
  - exact demo_reads_only.
  - reflexivity.
  - exact demo_rx_pending.
  - reflexivity.
  - reflexivity.
  - reflexivity.
  - left; reflexivity.
Defined.

(** ** Registration keeps the registry consistent *)

Lemma registered_old_object sock tag port_ st x fx :
  heap (registered sock tag port_ st) !! x = Some fx →
  x ≠ fresh (dom (heap st)) → heap st !! x = Some fx.
Proof. intros Hx Hne. cbn in Hx. by rewrite lookup_insert_ne in Hx. Qed.

Lemma inv_registered sock tag port_ st :
  inv st → sock ≠ INVALID_SOCKET → inv (registered sock tag port_ st).
Proof.
  intros [Hok Hc] Hs. split; [by apply registry_ok_registered|].
  destruct Hok as [Hlen Hidx].
  intros j x fx dx Hj Hx Hdx. cbn in Hj, Hdx.
  apply lookup_app_Some in Hj as [Hj | [Hge Hj]].
  - assert (Hjl : (j < length (o2n_fds st))%nat)
      by (rewrite Hlen; eapply lookup_lt_Some; eauto).
    rewrite lookup_app_l in Hdx by done.
    destruct (Hidx _ _ Hj) as (f & Hf & _).
    apply (Hc j x fx dx); [done| |done].
    apply (registered_old_object sock tag port_); [done|].
    intros ->. by rewrite fresh_ptr_unused in Hf.
  - apply list_lookup_singleton_Some in Hj as [Hj <-].
    cbn in Hx. rewrite lookup_insert_eq in Hx. simplify_eq.
    assert (j = length (o2n_fds st)) as -> by lia.
    rewrite lookup_app_r, Nat.sub_diag in Hdx by lia. cbn in Hdx.
    simplify_eq. cbn. split; [done|discriminate].
Qed.

Lemma no_orphans_registered sock tag port_ st :
  no_orphans st → no_orphans (registered sock tag port_ st).
Proof.
  intros Horph x [fx Hx]. cbn. apply elem_of_app.
  destruct (decide (x = fresh (dom (heap st)))) as [->|Hne].
  - right. by apply list_elem_of_singleton.
  - left. apply Horph. exists fx.
    by apply (registered_old_object sock tag port_).
Qed.

Lemma clean_registered sock tag port_ st :
  registry_ok st → clean st → clean (registered sock tag port_ st).
Proof.
  intros [Hlen Hidx] Hclean j x fx Hj Hx. cbn in Hj.
  apply lookup_app_Some in Hj as [Hj | [Hge Hj]].
  - destruct (Hidx _ _ Hj) as (f & Hf & _).
    apply (Hclean j x fx); [done|].
    apply (registered_old_object sock tag port_); [done|].
    intros ->. by rewrite fresh_ptr_unused in Hf.
  - apply list_lookup_singleton_Some in Hj as [Hj <-].
    cbn in Hx. rewrite lookup_insert_eq in Hx. by simplify_eq.
Qed.

Lemma no_orphans_update st p f fR :
  no_orphans st → heap st !! p = Some f →
  no_orphans (upd_heap <[p := fR]> st).
Proof.
  intros Horph Hp x Hx.
  replace (o2n_fds_info (upd_heap <[p:=fR]> st)) with (o2n_fds_info st)
    by by destruct st.
  apply Horph. destruct (decide (x = p)) as [->|Hne]; [eauto|].
  destruct st; cbn in *. by rewrite lookup_insert_ne in Hx.
Qed.

Lemma clean_update st p f fR :
  clean st → heap st !! p = Some f → delete_me fR = delete_me f →
  clean (upd_heap <[p := fR]> st).
Proof.
  intros Hclean Hp Hdm j x fx Hj Hx.
  assert (Hj' : o2n_fds_info st !! j = Some x) by by destruct st.
  destruct (decide (x = p)) as [->|Hne].
  - assert (fx = fR) as ->
      by (destruct st; cbn in *; rewrite lookup_insert_eq in Hx; congruence).
    rewrite Hdm. by apply (Hclean j p f).
  - apply (Hclean j x fx); [done|]. destruct st; cbn in *.
    by rewrite lookup_insert_ne in Hx.
Qed.

Lemma read_event_handler_server ops st p s f :
  heap st !! p = Some f → net_tag f = NET_TCP_SERVER →
  read_event_handler ops p s st =
    (connection <- sys_accept s ;;
     if connection =? INVALID_SOCKET then ret O2_FAIL
     else
       conn <- Fds_info_new connection NET_TCP_CONNECTION 0 ;;
       match owner f with
       | Some o => owner_accepted ops o conn
       | None => close_socket conn
       end ;;;
       ret O2_SUCCESS) st.
Proof.
  intros Hp Ht. unfold read_event_handler. unfold bind at 1, deref at 1.
  by rewrite Hp, Ht.
Qed.

(** A read-ready event on a listening socket with a connection pending:
    the connection is accepted and registered in the next free slot as a
    NET_TCP_CONNECTION polled for input, the listener's owner is told
    ([accepted]) and may attach an owner to it; every other connection,
    the listener included, is left as it was and the registry stays
    consistent. *)
Theorem accept_registers_connection ops st i p f d k r c cs o :
  inv st → no_orphans st → clean st →
  o2n_socket_delete_flag st = false → o2_ensemble_name st = true →
  o2n_fds_info st !! i = Some p → heap st !! p = Some f →
  o2n_fds st !! i = Some d → reads_only d r →
  net_tag f = NET_TCP_SERVER → in_length_got f < 5 → owner f = Some o →
  kernel st !! fd d = Some k → backlog k = c :: cs → 0 ≤ c →
  let q := fresh (dom (heap st)) in
  let n := length (o2n_fds st) in
  ∃ st',
    o2n_recv ops (ready_one i r) st = Some (O2_SUCCESS, st') ∧
    inv st' ∧ no_orphans st' ∧ clean st' ∧
    o2n_socket_delete_flag st' = false ∧
    o2n_fds_info st' = o2n_fds_info st ++ [q] ∧
    heap st' !! q
      = Some (set_owner (accepted_owner ops o q)
                (new_info NET_TCP_CONNECTION n 0)) ∧
    o2n_fds st' !! n = Some (Pollfd c POLLIN 0) ∧
    (∀ x, x ≠ q → heap st' !! x = heap st !! x) ∧
    trace st' = trace st ++ [EvAccepted o q] ∧
    kernel st' = <[fd d := set_backlog cs k]> (kernel st).
Proof.
  intros Hinv Horph Hclean Hflag Halive Hi Hp Hd Hro Htag H5 Hown Hk Hbl Hc
    q n.
  pose proof Hro as (Hfd & _).
  assert (Hil : (i < length (o2n_fds st))%nat)
    by (eapply lookup_lt_Some; eauto).
  set (st0 := polled_with (ready_one i r) st).
  assert (Hd0 : o2n_fds st0 !! i = Some (poll_one d r)).
  { subst st0. by rewrite polled_with_lookup, ready_one_lookup, decide_True,
      Hd by done. }
  assert (Hi0 : o2n_fds_info st0 !! i = Some p) by by destruct st.
  assert (Hp0 : heap st0 !! p = Some f) by by destruct st.
  assert (Hk0 : kernel st0 !! fd d = Some k) by by destruct st.
  assert (Hinv0 : inv st0) by by apply inv_polled_with.
  assert (Hlen0 : length (o2n_fds st0) = length (o2n_fds st))
    by apply polled_with_length.
  set (stA := upd_kernel <[fd d := set_backlog cs k]> st0).
  set (stB := registered c NET_TCP_CONNECTION 0 stA).
  set (fq := set_owner (accepted_owner ops o q)
               (new_info NET_TCP_CONNECTION n 0)).
  set (st1 := upd_heap <[q := fq]> (emit (EvAccepted o q) stB)).
  assert (Hq : fresh (dom (heap stA)) = q) by by destruct st.
  assert (Hn : length (o2n_fds stA) = n)
    by (subst stA st0 n; destruct st; cbn; apply poll_all_length).
  assert (HqB : heap stB !! q = Some (new_info NET_TCP_CONNECTION n 0)).
  { subst stB. unfold registered. cbn [heap]. rewrite Hq, Hn.
    apply lookup_insert_eq. }
  assert (Hread : read_event_handler ops p (fd d) st0 = Some (O2_SUCCESS, st1)).
  { rewrite (read_event_handler_server ops st0 p (fd d) f) by done.
    unfold bind at 1, sys_accept at 1. rewrite Hk0, Hbl. fold stA.
    assert (Hne : (c =? INVALID_SOCKET) = false)
      by (unfold INVALID_SOCKET; lia).
    rewrite Hne. unfold bind at 1.
    rewrite Fds_info_new_run by (unfold INVALID_SOCKET; lia).
    fold stB. rewrite Hq, Hown.
    unfold bind at 1, owner_accepted, bind at 1, modify at 1.
    rewrite (store_run q _ (new_info NET_TCP_CONNECTION n 0))
      by by destruct stB.
    reflexivity. }
  assert (Hdisp : dispatch ops i st0 = Some (None, st1)).
  { rewrite (dispatch_read ops st0 i (poll_one d r) d r p f) by done.
    unfold bind at 1. rewrite Hread.
    rewrite bool_decide_eq_true_2 by done. cbn [negb when].
    unfold bind, ret, gets.
    by replace (o2_ensemble_name st1) with true by by destruct st. }
  assert (Hother : ∀ j, j ≠ i → (j < length (o2n_fds st))%nat →
            o2n_fds st1 !! j = o2n_fds st0 !! j).
  { intros j _ Hj.
    replace (o2n_fds st1) with (o2n_fds st0 ++ [Pollfd c POLLIN 0])
      by by destruct st.
    apply lookup_app_l. by rewrite Hlen0. }
  rewrite (tick_one ops st i r st1) by (done || by destruct st).
  assert (HinvB : inv stB).
  { apply inv_registered; [|unfold INVALID_SOCKET; lia].
    by apply inv_upd_kernel. }
  exists st1. split.
  { unfold tick_end, bind, gets, when, ret.
    by replace (o2n_socket_delete_flag st1) with false by by destruct st. }
  split.
  { apply (inv_update _ q (new_info NET_TCP_CONNECTION n 0) fq);
      [by apply inv_emit|by destruct stB|done..]. }
  split.
  { apply (no_orphans_update _ q (new_info NET_TCP_CONNECTION n 0));
      [|by destruct stB].
    assert (Ho : no_orphans stB).
    { apply no_orphans_registered. subst stA.
      apply (no_orphans_polled_with (ready_one i r)) in Horph.
      fold st0 in Horph. by destruct st0. }
    by destruct stB. }
  split.
  { apply (clean_update _ q (new_info NET_TCP_CONNECTION n 0));
      [|by destruct stB|done].
    assert (Hcl : clean stB).
    { apply clean_registered; [apply inv_upd_kernel, Hinv0|].
      subst stA st0. by destruct st. }
    by destruct stB. }
  split; [by destruct st|].
  split; [subst st1 stB; rewrite <- Hq; by destruct st|].
  split; [subst st1; destruct stB; apply lookup_insert_eq|].
  split.
  { replace (o2n_fds st1) with (o2n_fds st0 ++ [Pollfd c POLLIN 0])
      by by destruct st.
    rewrite lookup_app_r by (rewrite Hlen0; subst n; lia).
    rewrite Hlen0. subst n. by rewrite Nat.sub_diag. }
  split.
  { intros x Hne.
    replace (heap st1 !! x) with (heap stB !! x)
      by (subst st1; destruct stB; cbn; by rewrite lookup_insert_ne).
    subst stB. unfold registered. cbn [heap].
    rewrite Hq, lookup_insert_ne by done. by destruct st. }
  split; by destruct st.
Qed.

(** A listener on port 8000 (socket 5, owner 1) with one connection
    (socket 7) waiting to be accepted. *)
Definition listener_info : Fds_info :=
  set_owner (Some 1%nat) (new_info NET_TCP_SERVER 0 8000).
Definition listener_net : net :=
  one_conn listener_info demo_pfd (set_backlog [7] ksock0).

Lemma accept_registers_connection_witness :
  ∃ st',
    o2n_recv no_hooks (ready_one 0 POLLIN) listener_net
      = Some (O2_SUCCESS, st') ∧
    inv st' ∧ no_orphans st' ∧ clean st' ∧
    o2n_socket_delete_flag st' = false ∧
    o2n_fds_info st'
      = o2n_fds_info listener_net ++ [fresh (dom (heap listener_net))] ∧
    heap st' !! fresh (dom (heap listener_net))
      = Some (set_owner
                (accepted_owner no_hooks 1%nat
                   (fresh (dom (heap listener_net))))
                (new_info NET_TCP_CONNECTION
                   (length (o2n_fds listener_net)) 0)) ∧
    o2n_fds st' !! length (o2n_fds listener_net) = Some (Pollfd 7 POLLIN 0) ∧
    (∀ x, x ≠ fresh (dom (heap listener_net)) →
          heap st' !! x = heap listener_net !! x) ∧
    trace st' = trace listener_net
                ++ [EvAccepted 1%nat (fresh (dom (heap listener_net)))] ∧
    kernel st' = <[fd demo_pfd := set_backlog [] (set_backlog [7] ksock0)]>
                   (kernel listener_net).
Proof.
  destruct (one_conn_good listener_info demo_pfd (set_backlog [7] ksock0))
    as (Hinv & Horph & Hcl); [reflexivity|discriminate|reflexivity|].
  apply (accept_registers_connection no_hooks listener_net 0 0%nat
           listener_info demo_pfd (set_backlog [7] ksock0) POLLIN 7 []
           1%nat).
  - exact Hinv.
  - exact Horph.
  - exact Hcl.
  - reflexivity.
  - reflexivity.
  - reflexivity.
  - reflexivity.
  - reflexivity.
  - exact demo_reads_only.
  - reflexivity.
  - cbn. lia.
  - reflexivity.
  - reflexivity.
  - reflexivity.
  - lia.
Defined.

(** A listening socket that poll reports readable while no connection is
    pending: [accept] fails, the handler returns O2_FAIL, and the tick
    closes the listener and removes it, calling its owner's [remove()]. *)
Theorem failed_accept_closes_listener ops st i p f d k r :
  inv st → no_orphans st → clean st →
  o2n_socket_delete_flag st = false → o2_ensemble_name st = true →
  o2n_fds_info st !! i = Some p → heap st !! p = Some f →
  o2n_fds st !! i = Some d → reads_only d r →
  net_tag f = NET_TCP_SERVER → in_length_got f < 5 →
  kernel st !! fd d = Some k → backlog k = [] →
  ∃ st',
    o2n_recv ops (ready_one i r) st = Some (O2_SUCCESS, st') ∧
    inv st' ∧ clean st' ∧ o2n_socket_delete_flag st' = false ∧
    (p ∉ o2n_fds_info st') ∧ heap st' !! p = None ∧
    kernel st' !! fd d = None ∧
    (∀ x, x ∈ o2n_fds_info st' → x ∈ o2n_fds_info st) ∧
    (trace st ++ pending_frees f ++ [EvShutdown (fd d); EvClose (fd d)])
      `prefix_of` trace st' ∧
    (∀ o, owner f = Some o → EvRemove o ∈ trace st').
Proof.
  intros Hinv Horph Hclean Hflag Halive Hi Hp Hd Hro Htag H5 Hk Hbl.
  set (st0 := polled_with (ready_one i r) st).
  assert (Hp0 : heap st0 !! p = Some f) by by destruct st.
  assert (Hk0 : kernel st0 !! fd d = Some k) by by destruct st.
  set (stR := set_errno EAGAIN st0).
  assert (Hread : read_event_handler ops p (fd d) st0 = Some (O2_FAIL, stR)).
  { rewrite (read_event_handler_server ops st0 p (fd d) f) by done.
    unfold bind at 1, sys_accept at 1. by rewrite Hk0, Hbl. }
  assert (Hh : handled p f [] st0 stR).
  { subst stR. destruct st. unfold handled. cbn in *.
    by rewrite app_nil_r, insert_id. }
  destruct (tick_read_closes ops st i p f d r O2_FAIL f [] stR
              Hinv Horph Hclean Hflag Halive Hi Hp Hd Hro H5 Hread Hh)
    as (st' & Hrun & Hrest); [done..|].
  by exists st'.
Qed.

Lemma failed_accept_closes_listener_witness :
  ∃ st',
    o2n_recv no_hooks (ready_one 0 POLLIN)
      (one_conn listener_info demo_pfd ksock0) = Some (O2_SUCCESS, st') ∧
    inv st' ∧ clean st' ∧ o2n_socket_delete_flag st' = false ∧
    (0%nat ∉ o2n_fds_info st') ∧ heap st' !! 0%nat = None ∧
    kernel st' !! fd demo_pfd = None ∧
    (∀ x, x ∈ o2n_fds_info st' →
          x ∈ o2n_fds_info (one_conn listener_info demo_pfd ksock0)) ∧
    (trace (one_conn listener_info demo_pfd ksock0)
       ++ pending_frees listener_info
       ++ [EvShutdown (fd demo_pfd); EvClose (fd demo_pfd)])
      `prefix_of` trace st' ∧
    (∀ o, owner listener_info = Some o → EvRemove o ∈ trace st').
Proof.
  destruct (one_conn_good listener_info demo_pfd ksock0)
    as (Hinv & Horph & Hcl); [reflexivity|discriminate|reflexivity|].
  apply (failed_accept_closes_listener no_hooks
           (one_conn listener_info demo_pfd ksock0) 0 0%nat listener_info
           demo_pfd ksock0 POLLIN).
  - exact Hinv.
  - exact Horph.
  - exact Hcl.
  - reflexivity.
  - reflexivity.
  - reflexivity.
  - reflexivity.
  - reflexivity.
  - exact demo_reads_only.
  - reflexivity.
  - cbn. lia.
  - reflexivity.
  - reflexivity.
Defined.

(** ** The UDP receive socket *)

Lemma read_event_handler_udp ops st p s f :
  heap st !! p = Some f → net_tag f = NET_UDP_SERVER →
  in_message f = None →
  read_event_handler ops p s st =
    (q <- sys_fionread s ;;
     if fst q =? -1 then perror "udp_recv_handler" ;;; ret O2_FAIL
     else
       let len := snd q in
       store p (set_in_message (Some (o2n_message_new len))) ;;;
       r <- sys_recv_dgram s len ;;
       let n := fst r in
       if n <=? 0 then
         perror "recvfrom in udp_recv_handler" ;;;
         O2_FREE (o2n_message_new len) ;;;
         store p (set_in_message None) ;;;
         ret O2_FAIL
       else
         store p (set_in_message (Some (Message n (snd r)))) ;;;
         deliver_in_message ops p) st.
Proof.
  intros Hp Ht Hm. unfold read_event_handler. unfold bind at 1, deref at 1.
  rewrite Hp, Ht. cbn [is_tcp_data]. rewrite Hm.
  unfold bind at 1. unfold bind at 3.
  destruct (sys_fionread s st) as [[q st1]|]; [|done].
  destruct (fst q =? -1); [done|].
  rewrite bool_decide_eq_true_2 by done.
  unfold bind at 1, assert at 1, ret at 1. done.
Qed.

Lemma deliver_in_message_udp ops st p f m o :
  heap st !! p = Some f → in_message f = Some m → owner f = Some o →
  net_tag f = NET_UDP_SERVER →
  deliver_in_message ops p st =
    Some (O2_SUCCESS,
          emit (EvDeliver o m) (upd_heap <[p := cleaned f]> st)).
Proof.
  intros Hp Hm Hown Htag. unfold deliver_in_message.
  unfold bind at 1, deref at 1. rewrite Hp.
  unfold bind at 1, message_cleanup. rewrite (store_run p _ f) by done.
  fold (cleaned f). rewrite Hown, Hm.
  unfold bind at 1, owner_deliver, bind at 1, modify at 1, ret at 1.
  unfold bind at 1, deref at 1.
  replace (heap (emit (EvDeliver o m) (upd_heap <[p:=cleaned f]> st)) !! p)
    with (Some (cleaned f)) by (destruct st; cbn; by rewrite lookup_insert_eq).
  replace (net_tag (cleaned f)) with NET_UDP_SERVER by by destruct f.
  rewrite !(bool_decide_eq_false_2 (NET_UDP_SERVER = _)) by done.
  rewrite andb_false_r. done.
Qed.

(** A datagram waiting on the UDP receive socket is read whole (the
    handler asks for its size first) and handed to the owner as one
    message whose length is the datagram's size; the socket stays open and
    registered whatever the owner's [deliver] returns. *)
Theorem datagram_is_delivered ops st i p f d k r dg rest o :
  o2n_socket_delete_flag st = false → o2_ensemble_name st = true →
  o2n_fds_info st !! i = Some p → heap st !! p = Some f →
  o2n_fds st !! i = Some d → reads_only d r →
  net_tag f = NET_UDP_SERVER → in_message f = None → in_length_got f < 5 →
  owner f = Some o →
  kernel st !! fd d = Some k → rx_dgrams k = dg :: rest → dg ≠ [] →
  o2n_recv ops (ready_one i r) st =
    Some (O2_SUCCESS,
          emit (EvDeliver o (Message (Z.of_nat (length dg)) dg))
            (upd_heap <[p := cleaned f]>
               (upd_kernel <[fd d := set_rx_dgrams rest k]>
                  (polled_with (ready_one i r) st)))).
Proof.
  intros Hflag Halive Hi Hp Hd Hro Htag Hm H5 Hown Hk Hdg Hne.
  assert (Hil : (i < length (o2n_fds st))%nat)
    by (eapply lookup_lt_Some; eauto).
  set (st0 := polled_with (ready_one i r) st).
  assert (Hd0 : o2n_fds st0 !! i = Some (poll_one d r)).
  { subst st0. by rewrite polled_with_lookup, ready_one_lookup, decide_True,
      Hd by done. }
  assert (Hi0 : o2n_fds_info st0 !! i = Some p) by by destruct st.
  assert (Hp0 : heap st0 !! p = Some f) by by destruct st.
  assert (Hk0 : kernel st0 !! fd d = Some k) by by destruct st.
  set (len := Z.of_nat (length dg)).
  set (m := Message len dg).
  set (stK := upd_kernel <[fd d := set_rx_dgrams rest k]> st0).
  set (stF := emit (EvDeliver o m) (upd_heap <[p := cleaned f]> stK)).
  assert (Hpos : (0 < length dg)%nat) by (destruct dg; [done|cbn; lia]).
  assert (Hread : read_event_handler ops p (fd d) st0
                  = Some (O2_SUCCESS, stF)).
  { rewrite (read_event_handler_udp ops st0 p (fd d) f) by done.
    unfold bind at 1, sys_fionread at 1. rewrite Hk0, Hdg.
    cbn [fst snd]. change (0 =? -1) with false. cbn match. fold len.
    unfold bind at 1. rewrite (store_run p _ f) by done.
    set (f1 := set_in_message (Some (o2n_message_new len)) f).
    set (stA := upd_heap <[p := f1]> st0).
    unfold bind at 1, sys_recv_dgram at 1.
    replace (kernel stA !! fd d) with (Some k) by by destruct st.
    rewrite Hdg. cbn [fst snd].
    replace (take (Z.to_nat len) dg) with dg
      by (symmetry; apply take_ge; lia).
    fold len. destruct (Z.leb_spec len 0); [lia|].
    set (stB := upd_kernel <[fd d := set_rx_dgrams rest k]> stA).
    unfold bind at 1.
    rewrite (store_run p _ f1) by (subst stB stA; destruct st; cbn;
                                   by rewrite lookup_insert_eq).
    fold m. set (f2 := set_in_message (Some m) f1).
    rewrite (deliver_in_message_udp ops _ p f2 m o);
      [|subst stB stA; destruct st; cbn; by rewrite lookup_insert_eq
       |by destruct f|by destruct f|by destruct f].
    subst stF stK stB stA f2 f1 st0. destruct st, f.
    unfold cleaned, emit, upd_heap, upd_kernel, polled_with, upd_fds. cbn.
    by rewrite !insert_insert_eq. }
  assert (Hdisp : dispatch ops i st0 = Some (None, stF)).
  { rewrite (dispatch_read ops st0 i (poll_one d r) d r p f) by done.
    unfold bind at 1. rewrite Hread.
    rewrite bool_decide_eq_true_2 by done. cbn [negb when].
    unfold bind, ret, gets.
    by replace (o2_ensemble_name stF) with true by by destruct st. }
  rewrite (tick_one ops st i r stF);
    [|done|done|done|done|intros; by destruct st|by destruct st].
  unfold tick_end, bind, gets, when, ret.
  by replace (o2n_socket_delete_flag stF) with false by by destruct st.
Qed.

Lemma datagram_is_delivered_witness :
  o2n_recv no_hooks (ready_one 0 POLLIN)
    (one_conn (set_owner (Some 1%nat) (new_info NET_UDP_SERVER 0 9000))
       demo_pfd (set_rx_dgrams [[1; 2; 3]; []] ksock0)) =
    Some (O2_SUCCESS,
          emit (EvDeliver 1%nat (Message (Z.of_nat (length [1; 2; 3]))
                                   [1; 2; 3]))
            (upd_heap
               <[0%nat := cleaned (set_owner (Some 1%nat)
                                     (new_info NET_UDP_SERVER 0 9000))]>
               (upd_kernel
                  <[fd demo_pfd := set_rx_dgrams [[]]
                                     (set_rx_dgrams [[1; 2; 3]; []] ksock0)]>
                  (polled_with (ready_one 0 POLLIN)
                     (one_conn
                        (set_owner (Some 1%nat)
                           (new_info NET_UDP_SERVER 0 9000))
                        demo_pfd
                        (set_rx_dgrams [[1; 2; 3]; []] ksock0)))))).
Proof.
  apply (datagram_is_delivered no_hooks _ 0 0%nat
           (set_owner (Some 1%nat) (new_info NET_UDP_SERVER 0 9000))
           demo_pfd (set_rx_dgrams [[1; 2; 3]; []] ksock0) POLLIN
           [1; 2; 3] [[]] 1%nat).
  - reflexivity.
  - reflexivity.
  - reflexivity.
  - reflexivity.
  - reflexivity.
  - exact demo_reads_only.
  - reflexivity.
  - reflexivity.
  - cbn. lia.
  - reflexivity.
  - reflexivity.
  - reflexivity.
  - discriminate.
Defined.

(** A read event on the UDP receive socket for which [recvfrom] returns
    nothing, because no datagram is there or because the datagram is
    empty, is treated as a failure of the socket: the handler returns
    O2_FAIL, and the tick closes the UDP receive socket and removes it. *)
Theorem empty_datagram_closes_udp_socket ops st i p f d k r :
  inv st → no_orphans st → clean st →
  o2n_socket_delete_flag st = false → o2_ensemble_name st = true →
  o2n_fds_info st !! i = Some p → heap st !! p = Some f →
  o2n_fds st !! i = Some d → reads_only d r →
  net_tag f = NET_UDP_SERVER → in_message f = None → in_length_got f < 5 →
  kernel st !! fd d = Some k →
  rx_dgrams k = [] ∨ (∃ rest, rx_dgrams k = [] :: rest) →
  ∃ st',
    o2n_recv ops (ready_one i r) st = Some (O2_SUCCESS, st') ∧
    inv st' ∧ clean st' ∧ o2n_socket_delete_flag st' = false ∧
    (p ∉ o2n_fds_info st') ∧ heap st' !! p = None ∧
    kernel st' !! fd d = None ∧
    (∀ x, x ∈ o2n_fds_info st' → x ∈ o2n_fds_info st) ∧
    (trace st
       ++ [EvPerror "recvfrom in udp_recv_handler";
           EvFree (o2n_message_new 0)]
       ++ pending_frees f ++ [EvShutdown (fd d); EvClose (fd d)])
      `prefix_of` trace st' ∧
    (∀ o, owner f = Some o → EvRemove o ∈ trace st').
Proof.
  intros Hinv Horph Hclean Hflag Halive Hi Hp Hd Hro Htag Hm H5 Hk Hdg.
  set (st0 := polled_with (ready_one i r) st).
  assert (Hp0 : heap st0 !! p = Some f) by by destruct st.
  assert (Hk0 : kernel st0 !! fd d = Some k) by by destruct st.
  set (evs := [EvPerror "recvfrom in udp_recv_handler";
               EvFree (o2n_message_new 0)]).
  set (f1 := set_in_message (Some (o2n_message_new 0)) f).
  set (stA := upd_heap <[p := f1]> st0).
  assert (HkA : kernel stA !! fd d = Some k) by by destruct st.
  assert (Hf : set_in_message None f1 = f)
    by (subst f1; destruct f; cbn in *; by subst).
  assert (Hgen : ∀ n stK,
    (n <=? 0) = true →
    sys_recv_dgram (fd d) 0 stA = Some ((n, []), stK) →
    heap stK = heap stA → o2n_fds stK = o2n_fds stA →
    o2n_fds_info stK = o2n_fds_info stA → trace stK = trace stA →
    o2n_socket_delete_flag stK = o2n_socket_delete_flag stA →
    o2_ensemble_name stK = o2_ensemble_name stA →
    ∃ stR, read_event_handler ops p (fd d) st0 = Some (O2_FAIL, stR) ∧
           handled p f evs st0 stR).
  { intros n stK Hn Hrecv Hh1 Hh2 Hh3 Hh4 Hh5 Hh6.
    assert (HpK : heap stK !! p = Some f1).
    { rewrite Hh1. subst stA. destruct st. cbn. apply lookup_insert_eq. }
    eexists. split.
    - rewrite (read_event_handler_udp ops st0 p (fd d) f) by done.
      unfold bind at 1, sys_fionread at 1. rewrite Hk0.
      replace (match rx_dgrams k with
               | [] => Some (0, 0, st0)
               | d1 :: _ => Some (0, Z.of_nat (length d1), st0)
               end) with (Some (0, 0, st0))
        by (destruct Hdg as [-> | [rest ->]]; done).
      cbn [fst snd]. change (0 =? -1) with false. cbn match.
      unfold bind at 1. rewrite (store_run p _ f) by done. fold f1 stA.
      unfold bind at 1. rewrite Hrecv. cbn [fst snd]. rewrite Hn.
      unfold bind at 1, perror, modify at 1.
      unfold bind at 1, O2_FREE, modify at 1.
      unfold bind at 1.
      rewrite (store_run p _ f1) by by destruct stK.
      rewrite Hf. reflexivity.
    - unfold handled.
      split; [transitivity (o2n_fds stK); [by destruct stK|];
              rewrite Hh2; by destruct st|].
      split; [transitivity (o2n_fds_info stK); [by destruct stK|];
              rewrite Hh3; by destruct st|].
      split.
      { transitivity (<[p := f]> (heap stK)); [by destruct stK|].
        rewrite Hh1. subst stA. destruct st. cbn.
        by rewrite insert_insert_eq. }
      split; [transitivity (o2n_socket_delete_flag stK); [by destruct stK|];
              rewrite Hh5; by destruct st|].
      split; [transitivity (o2_ensemble_name stK); [by destruct stK|];
              rewrite Hh6; by destruct st|].
      transitivity (trace stK ++ evs).
      + destruct stK. cbn. by rewrite <- app_assoc.
      + rewrite Hh4. by destruct st. }
  destruct Hdg as [Hnone | [rest Hsome]].
  - destruct (Hgen (-1) (set_errno EAGAIN stA)) as (stR & Hread & Hh);
      try done.
    { unfold sys_recv_dgram. by rewrite HkA, Hnone. }
    destruct (tick_read_closes ops st i p f d r O2_FAIL f evs stR
                Hinv Horph Hclean Hflag Halive Hi Hp Hd Hro H5 Hread Hh)
      as (st' & Hrun & Hrest); [done..|].
    by exists st'.
  - destruct (Hgen 0 (upd_kernel <[fd d := set_rx_dgrams rest k]> stA))
      as (stR & Hread & Hh); try done.
    { unfold sys_recv_dgram. by rewrite HkA, Hsome. }
    destruct (tick_read_closes ops st i p f d r O2_FAIL f evs stR
                Hinv Horph Hclean Hflag Halive Hi Hp Hd Hro H5 Hread Hh)
      as (st' & Hrun & Hrest); [done..|].
    by exists st'.
Qed.

Definition udp_info : Fds_info :=
  set_owner (Some 1%nat) (new_info NET_UDP_SERVER 0 9000).

Lemma empty_datagram_closes_udp_socket_witness :
  ∃ st',
    o2n_recv no_hooks (ready_one 0 POLLIN)
      (one_conn udp_info demo_pfd (set_rx_dgrams [[]; [1; 2; 3]] ksock0))
      = Some (O2_SUCCESS, st') ∧
    inv st' ∧ clean st' ∧ o2n_socket_delete_flag st' = false ∧
    (0%nat ∉ o2n_fds_info st') ∧ heap st' !! 0%nat = None ∧
    kernel st' !! fd demo_pfd = None ∧
    (∀ x, x ∈ o2n_fds_info st' →
          x ∈ o2n_fds_info
                (one_conn udp_info demo_pfd
                   (set_rx_dgrams [[]; [1; 2; 3]] ksock0))) ∧
    (trace (one_conn udp_info demo_pfd
              (set_rx_dgrams [[]; [1; 2; 3]] ksock0))
       ++ [EvPerror "recvfrom in udp_recv_handler";
           EvFree (o2n_message_new 0)]
       ++ pending_frees udp_info
       ++ [EvShutdown (fd demo_pfd); EvClose (fd demo_pfd)])
      `prefix_of` trace st' ∧
    (∀ o, owner udp_info = Some o → EvRemove o ∈ trace st').
Proof.
  destruct (one_conn_good udp_info demo_pfd
              (set_rx_dgrams [[]; [1; 2; 3]] ksock0))
    as (Hinv & Horph & Hcl); [reflexivity|discriminate|reflexivity|].
  apply (empty_datagram_closes_udp_socket no_hooks _ 0 0%nat udp_info
           demo_pfd (set_rx_dgrams [[]; [1; 2; 3]] ksock0) POLLIN).
  - exact Hinv.
  - exact Horph.
  - exact Hcl.
  - reflexivity.
  - reflexivity.
  - reflexivity.
  - reflexivity.
  - reflexivity.
  - exact demo_reads_only.
  - reflexivity.
  - reflexivity.
  - cbn. lia.
  - reflexivity.
  - right. exists [[1; 2; 3]]. reflexivity.
Defined.

(** ** A message the owner rejects *)

(** A tick whose loop body for descriptor [i] ends with the connection
    closed by its handler: the sweep that ends the tick removes it. *)
Lemma tick_closes_core ops st i p f d r fR evs stR :
  inv st → no_orphans st → clean st →
  o2n_socket_delete_flag st = false → o2_ensemble_name st = true →
  o2n_fds_info st !! i = Some p → heap st !! p = Some f →
  o2n_fds st !! i = Some d → 0 ≤ fd d →
  handled p fR evs (polled_with (ready_one i r) st) stR →
  dispatch ops i (polled_with (ready_one i r) st)
    = Some (None, closed_state p fR (poll_one d r) stR) →
  fds_index fR = fds_index f → delete_me fR = delete_me f →
  net_tag fR = net_tag f → owner fR = owner f →
  ∃ st',
    o2n_recv ops (ready_one i r) st = Some (O2_SUCCESS, st') ∧
    inv st' ∧ clean st' ∧ o2n_socket_delete_flag st' = false ∧
    (p ∉ o2n_fds_info st') ∧ heap st' !! p = None ∧
    kernel st' !! fd d = None ∧
    (∀ x, x ∈ o2n_fds_info st' → x ∈ o2n_fds_info st) ∧
    (trace st ++ evs ++ pending_frees fR
       ++ [EvShutdown (fd d); EvClose (fd d)]) `prefix_of` trace st' ∧
    (∀ o, owner f = Some o → EvRemove o ∈ trace st').
Proof.
  intros Hinv Horph Hclean Hflag Halive Hi Hp Hd Hfd Hh Hdisp Hfi Hdm Htag
    Hown.
  assert (Hil : (i < length (o2n_fds st))%nat)
    by (eapply lookup_lt_Some; eauto).
  set (st0 := polled_with (ready_one i r) st) in *.
  set (d0 := poll_one d r) in *.
  assert (Hd0 : o2n_fds st0 !! i = Some d0).
  { subst st0. by rewrite polled_with_lookup, ready_one_lookup, decide_True,
      Hd by done. }
  assert (Hinv0 : inv st0) by by apply inv_polled_with.
  assert (Hp0 : heap st0 !! p = Some f) by by destruct st.
  assert (HinvR : inv stR) by by apply (handled_inv p f fR evs st0).
  pose proof Hh as (Hfds & Hinfos & Hheap & HflagR & HaliveR & HtrR).
  assert (HiR : o2n_fds_info stR !! i = Some p)
    by (rewrite Hinfos; by destruct st).
  assert (HpR : heap stR !! p = Some fR)
    by (rewrite Hheap; apply lookup_insert_eq).
  assert (HdR : o2n_fds stR !! i = Some d0) by by rewrite Hfds.
  assert (Hfd0 : fd d0 ≠ INVALID_SOCKET)
    by (subst d0; cbn; unfold INVALID_SOCKET; lia).
  destruct (closed_state_inv stR i p fR d0 HinvR HiR HpR HdR Hfd0)
    as [Hinv1 HfiR].
  set (st1 := closed_state p fR d0 stR) in *.
  assert (Halive1 : o2_ensemble_name st1 = true).
  { subst st1. cbn. rewrite HaliveR. by destruct st. }
  assert (Hother : ∀ j, j ≠ i → (j < length (o2n_fds st))%nat →
            o2n_fds st1 !! j = o2n_fds st0 !! j).
  { intros j Hne _. subst st1. cbn. rewrite HfiR.
    rewrite list_lookup_insert_ne by done. by rewrite Hfds. }
  rewrite (tick_one ops st i r st1) by done.
  destruct (closing_sweep ops st1) as
    (st' & Hrun & Hinv' & Hclean' & Hflag' & _ & [Hpre Hkern] & Hsub & Hgone);
    [done| |done|].
  { apply closed_state_no_orphans; [|done].
    apply (handled_no_orphans p f fR evs st0); [|done..].
    by apply no_orphans_polled_with. }
  destruct (Hgone p (closed_info fR)) as (Hnot & Hnone & Hrem).
  { subst st1. cbn. apply lookup_insert_eq. }
  { by destruct fR. }
  exists st'. split; [done|]. split; [done|]. split; [done|].
  split; [done|]. split; [done|]. split; [done|].
  split.
  { apply Hkern. subst st1 d0. cbn. apply lookup_delete_eq. }
  split.
  { intros x Hx. specialize (Hsub x Hx). subst st1. cbn in Hsub.
    rewrite Hinfos in Hsub. by destruct st. }
  split.
  - etrans; [|done]. subst st1 d0. cbn. rewrite HtrR.
    replace (trace st0) with (trace st) by by destruct st.
    by rewrite <- !app_assoc.
  - intros o Ho. apply Hrem. rewrite <- Ho, <- Hown. by destruct fR.
Qed.

Lemma deliver_in_message_rejected ops st p f m o d :
  heap st !! p = Some f → in_message f = Some m → owner f = Some o →
  is_tcp_data (net_tag f) = true →
  deliver_status ops o m ≠ O2_SUCCESS →
  o2n_fds st !! fds_index f = Some d → fd d ≠ INVALID_SOCKET →
  deliver_in_message ops p st =
    Some (O2_SUCCESS,
          closed_state p (cleaned f) d
            (emit (EvDeliver o m) (upd_heap <[p := cleaned f]> st))).
Proof.
  intros Hp Hm Hown Htcp Hrej Hd Hfd. unfold deliver_in_message.
  unfold bind at 1, deref at 1. rewrite Hp.
  unfold bind at 1, message_cleanup. rewrite (store_run p _ f) by done.
  fold (cleaned f). rewrite Hown, Hm.
  unfold bind at 1, owner_deliver, bind at 1, modify at 1, ret at 1.
  set (st2 := emit (EvDeliver o m) (upd_heap <[p:=cleaned f]> st)).
  unfold bind at 1, deref at 1.
  replace (heap st2 !! p) with (Some (cleaned f))
    by (subst st2; destruct st; cbn; by rewrite lookup_insert_eq).
  replace (net_tag (cleaned f)) with (net_tag f) by by destruct f.
  rewrite (bool_decide_eq_false_2 (deliver_status ops o m = O2_SUCCESS))
    by done.
  cbn [negb andb].
  assert (Htags : bool_decide (net_tag f = NET_TCP_CONNECTING)
                  || bool_decide (net_tag f = NET_TCP_CLIENT)
                  || bool_decide (net_tag f = NET_TCP_CONNECTION) = true).
  { unfold is_tcp_data in Htcp. apply orb_true_iff in Htcp as [H|H].
    - by rewrite H, orb_true_r.
    - by rewrite H, !orb_true_r. }
  rewrite Htags. cbn [when]. unfold bind at 1.
  rewrite (close_socket_open st2 p (cleaned f) d).
  - done.
  - subst st2. destruct st. cbn. by rewrite lookup_insert_eq.
  - replace (fds_index (cleaned f)) with (fds_index f) by by destruct f.
    subst st2. by destruct st.
  - done.
Qed.

Lemma arrive_polled_with ready s c st :
  polled_with ready (arrive s c st) = arrive s c (polled_with ready st).
Proof. by destruct st. Qed.

(** The last bytes of a frame arrive and the owner's [deliver] returns an
    error for the message: the message was handed over once, and the
    connection is closed and removed within the same tick; what was queued
    for sending is freed. *)
Theorem rejected_message_closes_connection ops st i p f d k r m pre c e o :
  inv st → no_orphans st → clean st →
  o2n_socket_delete_flag st = false → o2_ensemble_name st = true →
  o2n_fds_info st !! i = Some p → heap st !! p = Some f →
  o2n_fds st !! i = Some d → reads_only d r →
  is_tcp_data (net_tag f) = true → owner f = Some o →
  well_formed m → rx_assembling m pre f → c ≠ [] → frame m = pre ++ c →
  kernel st !! fd d = Some k → rx_buf k = [] → rx_idle k = RxNothing e →
  retryable e →
  deliver_status ops o m ≠ O2_SUCCESS →
  ∃ st',
    o2n_recv ops (ready_one i r) (arrive (fd d) c st)
      = Some (O2_SUCCESS, st') ∧
    inv st' ∧ clean st' ∧ o2n_socket_delete_flag st' = false ∧
    (p ∉ o2n_fds_info st') ∧ heap st' !! p = None ∧
    kernel st' !! fd d = None ∧
    (∀ x, x ∈ o2n_fds_info st' → x ∈ o2n_fds_info st) ∧
    (trace st ++ [EvDeliver o m] ++ map EvFree (out_message f)
       ++ [EvShutdown (fd d); EvClose (fd d)]) `prefix_of` trace st' ∧
    (∀ ow, owner f = Some ow → EvRemove ow ∈ trace st').
Proof.
  intros Hinv Horph Hclean Hflag Halive Hi Hp Hd Hro Htcp Hown Hwf Hasm Hc
    Hframe Hk Hbuf Hidle He Hrej.
  pose proof Hro as (Hfd & _).
  set (s := fd d) in *.
  set (sta := arrive s c st).
  set (stX := polled_with (ready_one i r) st).
  assert (H5 : in_length_got f < 5).
  { destruct (rx_assembling_bytes m pre c f Hframe Hasm) as [_ ->]. lia. }
  assert (HpX : heap stX !! p = Some f) by by destruct st.
  assert (HkX : kernel stX !! s = Some k) by by destruct st.
  destruct (read_ready_step stX p s f k m pre c [] e)
    as (st1 & f1 & k1 & Hrun & Hch & Hp1 & Hk1 & Hb1 & Hi1 & Hro1 & Hasm1);
    try done.
  { by rewrite app_nil_r. }
  rewrite decide_True in Hrun by done.
  unfold read_ready in Hrun. unfold bind at 1, modify at 1 in Hrun.
  unfold stX in Hrun. rewrite <- arrive_polled_with in Hrun.
  fold sta in Hrun.
  set (st0 := polled_with (ready_one i r) sta) in *.
  destruct Hch as (Hfds & Hinfos & Hfl & Hal & Htr & Hheap & Hkern).
  destruct Hro1 as (Htag1 & Hfi1 & Hdm1 & Hraw1 & Hout1 & _ & _ & Hown1).
  assert (Hm1 : in_message f1 = Some m).
  { unfold rx_assembling in Hasm1. rewrite <- Hframe in Hasm1.
    rewrite decide_False in Hasm1 by (rewrite length_frame; lia).
    assert (Hdr : drop 4 (frame m) = payload m).
    { unfold frame. by rewrite drop_app_length'. }
    rewrite Hdr in Hasm1. destruct Hasm1 as (_ & _ & _ & _ & Him & _).
    rewrite Him. by destruct m. }
  set (d0 := poll_one d r).
  assert (Hd0 : o2n_fds st0 !! i = Some d0).
  { subst st0. by rewrite polled_with_lookup, ready_one_lookup, decide_True
      by done; destruct st; cbn in *; rewrite Hd. }
  assert (Hfi : fds_index f = i).
  { destruct (proj2 (proj1 Hinv) _ _ Hi) as (f' & Hf' & ?). congruence. }
  set (stR := emit (EvDeliver o m) (upd_heap <[p := cleaned f1]> st1)).
  assert (Hh : handled p (cleaned f1) [EvDeliver o m] st0 stR).
  { unfold handled.
    split; [transitivity (o2n_fds st1); [by destruct st1|];
            rewrite Hfds; by destruct st|].
    split; [transitivity (o2n_fds_info st1); [by destruct st1|];
            rewrite Hinfos; by destruct st|].
    split.
    { transitivity (<[p := cleaned f1]> (heap st1)); [by destruct st1|].
      apply map_eq. intros x. destruct (decide (x = p)) as [->|Hne].
      - by rewrite !lookup_insert_eq.
      - rewrite !lookup_insert_ne by done. rewrite Hheap by done.
        by destruct st. }
    split; [transitivity (o2n_socket_delete_flag st1); [by destruct st1|];
            rewrite Hfl; by destruct st|].
    split; [transitivity (o2_ensemble_name st1); [by destruct st1|];
            rewrite Hal; by destruct st|].
    transitivity (trace st1 ++ [EvDeliver o m]); [by destruct st1|].
    rewrite Htr. by destruct st. }
  assert (Hd1 : o2n_fds st1 !! fds_index f1 = Some d0).
  { rewrite Hfi1, Hfi, Hfds. subst stX.
    by rewrite polled_with_lookup, ready_one_lookup, decide_True, Hd
      by done. }
  assert (Hdisp : dispatch ops i st0
                  = Some (None, closed_state p (cleaned f1) d0 stR)).
  { rewrite (dispatch_read ops st0 i d0 d r p f);
      [|done|done|done|by destruct st|by destruct st|done].
    unfold bind at 1.
    rewrite (read_event_handler_data ops st0 p (fd d) f);
      [|by destruct st|done].
    unfold bind at 1. fold s. rewrite Hrun.
    rewrite bool_decide_eq_false_2, bool_decide_eq_true_2 by done.
    cbn [negb].
    rewrite (deliver_in_message_rejected ops st1 p f1 m o d0);
      [|done|done|congruence|by rewrite Htag1|congruence|done|].
    2: { subst d0. cbn. unfold INVALID_SOCKET. fold s in Hfd. lia. }
    fold stR. rewrite bool_decide_eq_true_2 by done. cbn [negb when].
    unfold bind, ret, gets.
    replace (o2_ensemble_name (closed_state p (cleaned f1) d0 stR))
      with true; [done|].
    cbn. rewrite Hal. by destruct st. }
  destruct (tick_closes_core ops sta i p f d r (cleaned f1) [EvDeliver o m]
              stR)
    as (st' & Hrun' & Hinv' & Hclean' & Hflag' & Hnot & Hnone & Hkn & Hsub &
        Hpre & Hrem);
    [by apply inv_upd_kernel|by destruct st|by destruct st|by destruct st
    |by destruct st|by destruct st|by destruct st|by destruct st|done|done
    |done| | | | |].
  { replace (fds_index (cleaned f1)) with (fds_index f1) by by destruct f1.
    done. }
  { replace (delete_me (cleaned f1)) with (delete_me f1) by by destruct f1.
    done. }
  { replace (net_tag (cleaned f1)) with (net_tag f1) by by destruct f1.
    done. }
  { replace (owner (cleaned f1)) with (owner f1) by by destruct f1.
    done. }
  exists st'. split; [done|]. split; [done|]. split; [done|].
  split; [done|]. split; [done|]. split; [done|]. split; [done|].
  split; [intros x Hx; specialize (Hsub x Hx); by destruct st|].
  split; [|done].
  replace (pending_frees (cleaned f1)) with (map EvFree (out_message f))
    in Hpre by (rewrite <- Hout1; by destruct f1).
  by replace (trace sta) with (trace st) in Hpre by by destruct st.
Qed.

Definition reject_ops : Owner_ops :=
  Build_Owner_ops (fun _ => []) (fun _ _ => O2_FAIL) (fun _ _ => None).
Definition owned_conn : Fds_info :=
  set_owner (Some 1%nat) (new_info NET_TCP_CONNECTION 0 0).

Lemma rejected_message_closes_connection_witness :
  ∃ st',
    o2n_recv reject_ops (ready_one 0 POLLIN)
      (arrive (fd demo_pfd) [0; 0; 0; 2; 7; 8]
         (one_conn owned_conn demo_pfd ksock0))
      = Some (O2_SUCCESS, st') ∧
    inv st' ∧ clean st' ∧ o2n_socket_delete_flag st' = false ∧
    (0%nat ∉ o2n_fds_info st') ∧ heap st' !! 0%nat = None ∧
    kernel st' !! fd demo_pfd = None ∧
    (∀ x, x ∈ o2n_fds_info st' →
          x ∈ o2n_fds_info (one_conn owned_conn demo_pfd ksock0)) ∧
    (trace (one_conn owned_conn demo_pfd ksock0)
       ++ [EvDeliver 1%nat demo_msg1] ++ map EvFree (out_message owned_conn)
       ++ [EvShutdown (fd demo_pfd); EvClose (fd demo_pfd)])
      `prefix_of` trace st' ∧
    (∀ ow, owner owned_conn = Some ow → EvRemove ow ∈ trace st').
Proof.
  destruct (one_conn_good owned_conn demo_pfd ksock0)
    as (Hinv & Horph & Hcl); [reflexivity|discriminate|reflexivity|].
  apply (rejected_message_closes_connection reject_ops
           (one_conn owned_conn demo_pfd ksock0) 0 0%nat owned_conn demo_pfd
           ksock0 POLLIN demo_msg1 [] [0; 0; 0; 2; 7; 8] EAGAIN 1%nat).
  - exact Hinv.
  - exact Horph.
  - exact Hcl.
  - reflexivity.
  - reflexivity.
  - reflexivity.
  - reflexivity.
  - reflexivity.
  - exact demo_reads_only.
  - reflexivity.
  - reflexivity.
  - split; [reflexivity|]. cbn. lia.
  - repeat split; reflexivity.
  - discriminate.
  - reflexivity.
  - reflexivity.
  - reflexivity.
  - reflexivity.
  - left; reflexivity.
  - discriminate.
Defined.

(** ** Messages queued before the connection is established *)

(** [enqueue] called for each message of [msgs] in turn. *)
Fixpoint enqueue_all (this : ptr) (msgs : list o2n_message) : M unit :=
  match msgs with
  | [] => ret tt
  | m :: ms => enqueue this m ;;; enqueue_all this ms
  end.

Lemma enqueue_connecting p : ∀ msgs st f,
  heap st !! p = Some f → net_tag f = NET_TCP_CONNECTING →
  enqueue_all p msgs st
  = Some (tt, upd_heap <[p := set_out_message (out_message f ++ msgs) f]> st).
Proof.
  induction msgs as [|m ms IH]; intros st f Hp Ht.
  - cbn. unfold ret. do 2 f_equal. rewrite app_nil_r.
    replace (set_out_message (out_message f) f) with f by by destruct f.
    destruct st; unfold upd_heap; cbn in *. by rewrite insert_id.
  - cbn [enqueue_all]. unfold bind at 1. unfold enqueue.
    unfold bind at 1, deref at 1. rewrite Hp.
    rewrite (bool_decide_eq_true_2 (net_tag f = _)) by done.
    rewrite andb_false_r.
    rewrite (store_run p _ f) by done.
    rewrite (IH _ (set_out_message (out_message f ++ [m]) f)).
    + do 2 f_equal. destruct st; unfold upd_heap; cbn.
      rewrite insert_insert_eq. do 2 f_equal.
      destruct f; cbn. by rewrite <- app_assoc.
    + destruct st; cbn. by rewrite lookup_insert_eq.
    + by destruct f.
Qed.

(** *** The trace only grows *)

Definition mono {A} (m : M A) : Prop :=
  ∀ st a st', m st = Some (a, st') → trace st `prefix_of` trace st'.

Lemma mono_bind {A B} (m : M A) (k : A → M B) :
  mono m → (∀ a, mono (k a)) → mono (bind m k).
Proof.
  intros Hm Hk st b st' H. unfold bind in H.
  destruct (m st) as [[a st1]|] eqn:Hm1; [|done].
  etrans; [by eapply Hm|by eapply Hk].
Qed.

Lemma mono_ret {A} (a : A) : mono (ret a).
Proof. intros st a' st' [= _ <-]. done. Qed.

Lemma mono_abort {A} : mono (@abort A).
Proof. intros st a st' [=]. Qed.

Lemma mono_gets {A} (g : net → A) : mono (gets g).
Proof. intros st a st' [= _ <-]. done. Qed.

Lemma mono_modify g :
  (∀ st, trace st `prefix_of` trace (g st)) → mono (modify g).
Proof. intros Hg st a st' [= _ <-]. apply Hg. Qed.

Lemma mono_assert b : mono (assert b).
Proof. destruct b; [apply mono_ret|apply mono_abort]. Qed.

Lemma mono_when b m : mono m → mono (when b m).
Proof. destruct b; [done|intros _; apply mono_ret]. Qed.

Lemma mono_deref p : mono (deref p).
Proof.
  intros st a st' H. unfold deref in H.
  destruct (heap st !! p); by simplify_eq.
Qed.

Lemma mono_store p g : mono (store p g).
Proof.
  apply mono_bind; [apply mono_deref|]. intros f.
  apply mono_modify. by intros [].
Qed.

Lemma mono_pfd_at i : mono (pfd_at i).
Proof.
  intros st a st' H. unfold pfd_at in H.
  destruct (o2n_fds st !! i); by simplify_eq.
Qed.

Lemma mono_pfd_store i g : mono (pfd_store i g).
Proof.
  apply mono_bind; [apply mono_pfd_at|]. intros f.
  apply mono_modify. by intros [].
Qed.

Lemma mono_emit e : mono (modify (emit e)).
Proof. apply mono_modify. intros []. cbn. by apply prefix_app_r. Qed.

Lemma mono_free_chain q : mono (free_chain q).
Proof.
  induction q as [|m q IH]; [apply mono_ret|].
  apply mono_bind; [apply mono_emit|done].
Qed.

Lemma mono_close_socket p : mono (close_socket p).
Proof.
  unfold close_socket.
  repeat first
    [ apply mono_deref | apply mono_store | apply mono_pfd_at
    | apply mono_pfd_store | apply mono_when | apply mono_assert
    | apply mono_emit | apply mono_free_chain | apply mono_ret
    | match goal with |- mono (match ?x with _ => _ end) => destruct x end
    | (apply mono_modify; by intros [])
    | (apply mono_modify; intros []; cbn; by apply prefix_app_r)
    | apply mono_bind; [|intros ?] ].
Qed.

Lemma mono_sys_send s from n : mono (sys_send s from n).
Proof.
  intros st a st' H. unfold sys_send in H.
  destruct (kernel st !! s) as [k|]; [|simplify_eq; by destruct st].
  destruct (tx_script k) as [|[a'|e] sc]; simplify_eq; by destruct st.
Qed.

Lemma mono_send_loop fuel : ∀ block p, mono (send_loop fuel block p).
Proof.
  induction fuel as [|fuel IH]; intros block p; [apply mono_abort|].
  cbn [send_loop].
  repeat first
    [ apply IH
    | apply mono_deref | apply mono_store | apply mono_pfd_at
    | apply mono_pfd_store | apply mono_when | apply mono_assert
    | apply mono_emit | apply mono_close_socket | apply mono_ret
    | apply mono_sys_send | apply mono_gets
    | match goal with |- mono (match ?x with _ => _ end) => destruct x end
    | match goal with |- mono (if ?x then _ else _) => destruct x end
    | apply mono_bind; [|intros ?] ].
Qed.

(** Messages handed to [enqueue] while the connection is still being
    established are only queued: nothing reaches the socket and nothing
    is freed.  The tick that finds the socket writable completes the
    connection (the tag becomes NET_TCP_CLIENT and the owner's
    [connected()] runs) and starts sending in the same tick: what it has
    written, [sent], followed by the bytes still queued are the frames of
    the messages in the order they were enqueued, and [sent] is not empty
    if there are messages and the kernel takes at least one byte at the
    first call.  After the tick POLLOUT is requested exactly if something
    is still queued. *)
Theorem queued_messages_sent_when_connected ops st i p f d k msgs :
  o2n_socket_delete_flag st = false → o2_ensemble_name st = true →
  o2n_fds_info st !! i = Some p → heap st !! p = Some f → fds_index f = i →
  net_tag f = NET_TCP_CONNECTING → raw_flag f = false →
  out_message f = [] → out_msg_sent f = 0 →
  o2n_fds st !! i = Some d → 0 ≤ fd d →
  has_flag (events d) POLLOUT = true →
  kernel st !! fd d = Some k → benign k → Forall sendable msgs →
  ∃ st1 st2 f2 d2 k2 sent,
    enqueue_all p msgs st = Some (tt, st1) ∧
    kernel st1 = kernel st ∧ trace st1 = trace st ∧
    o2n_fds st1 = o2n_fds st ∧
    o2n_recv ops (ready_only i) st1 = Some (O2_SUCCESS, st2) ∧
    tx_conn i p (fd d) f2 d2 k2 st2 ∧ net_tag f2 = NET_TCP_CLIENT ∧
    tx_wire k2 = tx_wire k ++ sent ∧
    sent ++ pending_bytes f2 = concat (map frame msgs) ∧
    (∀ a sc, tx_script k = TxAccept (S a) :: sc → msgs ≠ [] → sent ≠ []) ∧
    has_flag (events d2) POLLOUT = negb (bool_decide (out_message f2 = [])) ∧
    (∀ o, owner f = Some o → EvConnected p o ∈ trace st2).
Proof.
  intros Hflag Halive Hi Hp Hfi Htag Hraw Hq Hsent Hd Hfd Hev Hk Hb Hwf.
  set (fq := set_out_message msgs f).
  set (stq := upd_heap <[p := fq]> st).
  assert (Hrunq : enqueue_all p msgs st = Some (tt, stq)).
  { rewrite (enqueue_connecting p msgs st f) by done. by rewrite Hq. }
  assert (Hil : (i < length (o2n_fds st))%nat)
    by (eapply lookup_lt_Some; eauto).
  set (st0 := polled_with (ready_one i POLLOUT) stq).
  set (d0 := poll_one d POLLOUT).
  assert (Hd0 : o2n_fds st0 !! i = Some d0).
  { subst st0. rewrite polled_with_lookup, ready_one_lookup, decide_True
      by done. destruct st; cbn in *. by rewrite Hd. }
  assert (Hi0 : o2n_fds_info st0 !! i = Some p) by by destruct st.
  assert (Hp0 : heap st0 !! p = Some fq)
    by (destruct st; cbn; by rewrite lookup_insert_eq).
  set (fc := set_net_tag NET_TCP_CLIENT fq).
  set (stA := (match owner f with
               | Some o => emit (EvConnected p o)
               | None => id
               end) (upd_heap <[p := fc]> st0)).
  assert (HpA : heap stA !! p = Some fc).
  { subst stA. destruct (owner f), st; cbn; by rewrite lookup_insert_eq. }
  assert (HdA : o2n_fds stA = o2n_fds st0)
    by (subst stA; destruct (owner f), st; done).
  assert (HiA : o2n_fds_info stA = o2n_fds_info st)
    by (subst stA; destruct (owner f), st; done).
  assert (HkA : kernel stA = kernel st)
    by (subst stA; destruct (owner f), st; done).
  assert (HflagA : o2n_socket_delete_flag stA = false)
    by (subst stA; destruct (owner f), st; done).
  assert (HaliveA : o2_ensemble_name stA = true)
    by (subst stA; destruct (owner f), st; done).
  assert (HtrA : ∀ o, owner f = Some o → EvConnected p o ∈ trace stA).
  { intros o Ho. subst stA. rewrite Ho. destruct st; cbn.
    apply elem_of_app. right. by left. }
  assert (Hconn :
    (when (bool_decide (net_tag fq = NET_TCP_CONNECTING))
       (store p (set_net_tag NET_TCP_CLIENT) ;;;
        match owner fq with
        | Some o => owner_connected p o
        | None => ret tt
        end)) st0 = Some (tt, stA)).
  { rewrite bool_decide_eq_true_2 by by destruct f.
    unfold when. unfold bind at 1. rewrite (store_run p _ fq) by done.
    subst stA. replace (owner fq) with (owner f) by by destruct f.
    by destruct (owner f). }
  assert (Hinvc : tx_inv fc).
  { split; [by destruct f|]. split; [by destruct f|].
    replace (out_message fc) with msgs by by destruct f.
    replace (out_msg_sent fc) with 0 by by destruct f.
    destruct msgs as [|m ms]; [done|].
    apply Forall_cons in Hwf as [(_ & Hm & _) _]. lia. }
  assert (Hfic : fds_index fc = i) by by destruct f.
  assert (Hhead : ∀ st1,
    o2_ensemble_name st1 = true →
    (∀ j, j ≠ i → o2n_fds st1 !! j = o2n_fds st0 !! j) →
    (f' <- deref p ;;
     if negb (bool_decide (out_message f' = [])) then
       rslt <- send_nonblocking p ;;
       when (bool_decide (rslt = O2_SUCCESS))
         (pfd_store i
            (fun d => set_events (Z.land (events d) (Z.lnot POLLOUT)) d))
     else
       pfd_store i
         (fun d => set_events (Z.land (events d) (Z.lnot POLLOUT)) d)) stA
      = Some (tt, st1) →
    o2n_recv ops (ready_only i) stq = Some (O2_SUCCESS, st1) ∨
    o2n_socket_delete_flag st1 = true).
  { intros st1 Halive1 Hother Hrun.
    destruct (o2n_socket_delete_flag st1) eqn:Hflag1; [by right|left].
    change (ready_only i) with (ready_one i POLLOUT).
    rewrite (tick_one ops stq i POLLOUT st1).
    - unfold tick_end, bind, gets, when, ret. by rewrite Hflag1.
    - by destruct st.
    - by destruct st.
    - by destruct st.
    - fold st0. unfold dispatch. unfold bind at 1, pfd_at at 1. rewrite Hd0.
      unfold d0 at 1 2 3. rewrite poll_one_writable by done.
      change (has_flag POLLOUT POLLERR) with false.
      change (has_flag POLLOUT POLLHUP) with false.
      change (has_flag POLLOUT POLLOUT) with true.
      cbn match.
      unfold bind at 1. unfold bind at 1, info_at at 1. rewrite Hi0.
      unfold bind at 1, deref at 1. rewrite Hp0.
      unfold bind at 1. rewrite Hconn.
      rewrite Hrun. unfold bind, gets, ret. by rewrite Halive1.
    - intros j Hne _. by apply Hother.
    - done. }
  exists stq.
  destruct msgs as [|m ms] eqn:Hmsgs.
  - (* nothing was queued: the tick only completes the connection *)
    set (st2 := upd_fds <[i := clear_pollout d0]> stA).
    assert (Hrun : (f' <- deref p ;;
     if negb (bool_decide (out_message f' = [])) then
       rslt <- send_nonblocking p ;;
       when (bool_decide (rslt = O2_SUCCESS))
         (pfd_store i
            (fun d => set_events (Z.land (events d) (Z.lnot POLLOUT)) d))
     else
       pfd_store i
         (fun d => set_events (Z.land (events d) (Z.lnot POLLOUT)) d)) stA
      = Some (tt, st2)).
    { unfold bind at 1, deref at 1. rewrite HpA.
      replace (out_message fc) with (@nil o2n_message) by by destruct f.
      rewrite bool_decide_eq_true_2 by done. cbn [negb].
      unfold pfd_store, bind, pfd_at, modify. by rewrite HdA, Hd0. }
    destruct (Hhead st2) as [Htick | Hbad].
    + subst st2. by destruct stA.
    + intros j Hne. subst st2. destruct stA; cbn in *.
      rewrite list_lookup_insert_ne by done. by rewrite HdA.
    + done.
    + exists st2, fc, (clear_pollout d0), k, [].
      split; [done|]. split; [by destruct st|].
      split; [by destruct st|]. split; [by destruct st|].
      split; [done|].
      split.
      { split; [subst st2; by destruct stA|].
        split; [subst st2; by destruct stA|].
        split; [subst st2; destruct stA; cbn in *; by rewrite HiA|].
        split; [subst st2; by destruct stA|]. split; [done|].
        split; [left; by destruct f|].
        split; [done|].
        split.
        { subst st2. destruct stA; cbn in *. apply list_lookup_insert_eq.
          rewrite HdA. eapply lookup_lt_Some; eauto. }
        split; [done|].
        split; [by replace (out_message fc) with (@nil o2n_message)
                  by by destruct f|].
        split; [subst st2; destruct stA; cbn in *; by rewrite HkA|done]. }
      split; [by destruct f|]. split; [by rewrite app_nil_r|].
      split.
      { unfold pending_bytes.
        by replace (out_message fc) with (@nil o2n_message)
          by by destruct f. }
      split; [done|].
      split.
      { replace (out_message fc) with (@nil o2n_message) by by destruct f.
        rewrite bool_decide_eq_true_2 by done. apply has_flag_clear_pollout. }
      intros o Ho. subst st2. specialize (HtrA o Ho). by destruct stA.
    + subst st2. destruct stA; cbn in *. congruence.
  - rewrite <- Hmsgs in *. 
    assert (HdA' : o2n_fds stA !! fds_index fc = Some d0)
      by by rewrite Hfic, HdA.
    assert (HkA' : kernel stA !! fd d0 = Some k) by by rewrite HkA.
    destruct (send_loop_run (S (length (out_message fc))) false stA p fc d0
                k HpA Hinvc HdA' HkA' Hb) as
      (r & st1 & f1 & d1 & k1 & Hrun & Hp1 & Ho1 & Hinv1 & Hd1 & Hfd1 &
       Hrev1 & Hk1 & Hb1 & Hw1 & Hfr1 & Hprog1 & Hres);
      [unfold loop_bound; lia|].
    destruct (tx_progress_sent k fc k1 f1 Hw1 Hprog1)
      as (sent & Hsent1 & Hsent2 & Hsent3).
    assert (Htr1 : ∀ o, owner f = Some o → EvConnected p o ∈ trace st1).
    { intros o Ho. destruct (mono_send_loop _ _ _ _ _ _ Hrun) as [l ->].
      apply elem_of_app. left. by apply HtrA. }
    rewrite <- (send_nonblocking_unfold stA p fc d0) in Hrun;
      [|done|by destruct f|done].
    destruct Hfr1 as (Hinfos & Hfl & Hal & Hlen & Hoth & _ & _).
    destruct Ho1 as (Hot & Hoi & _ & _ & _).
    rewrite Hfic in Hd1, Hoth.
    set (st2 := if bool_decide (r = O2_SUCCESS)
                then upd_fds <[i := clear_pollout d1]> st1 else st1).
    assert (Hrun2 : (f' <- deref p ;;
     if negb (bool_decide (out_message f' = [])) then
       rslt <- send_nonblocking p ;;
       when (bool_decide (rslt = O2_SUCCESS))
         (pfd_store i
            (fun d => set_events (Z.land (events d) (Z.lnot POLLOUT)) d))
     else
       pfd_store i
         (fun d => set_events (Z.land (events d) (Z.lnot POLLOUT)) d)) stA
      = Some (tt, st2)).
    { unfold bind at 1, deref at 1. rewrite HpA.
      replace (out_message fc) with msgs by by destruct f.
      rewrite bool_decide_eq_false_2 by by rewrite Hmsgs. cbn [negb].
      unfold bind at 1. rewrite Hrun. subst st2.
      unfold when, pfd_store, bind, pfd_at, modify, ret.
      destruct (bool_decide (r = O2_SUCCESS)); [by rewrite Hd1|done]. }
    assert (Hpend : pending_bytes fc = concat (map frame msgs)).
    { unfold pending_bytes.
      replace (out_message fc) with msgs by by destruct f.
      replace (out_msg_sent fc) with 0 by by destruct f.
      by rewrite Hmsgs. }
    destruct (Hhead st2) as [Htick | Hbad].
    + subst st2.
      destruct (bool_decide (r = O2_SUCCESS)); [destruct st1; cbn in *|];
        congruence.
    + intros j Hne. subst st2. destruct (bool_decide (r = O2_SUCCESS)).
      * destruct st1; cbn in *. rewrite list_lookup_insert_ne by done.
        rewrite Hoth by done. by rewrite HdA.
      * rewrite Hoth by done. by rewrite HdA.
    + done.
    + assert (Hi1 : o2n_fds_info st1 !! i = Some p)
        by by rewrite Hinfos, HiA.
      assert (Htag1 : net_tag f1 = NET_TCP_CLIENT) by (rewrite Hot; by destruct f).
      assert (Hflag1 : o2n_socket_delete_flag st1 = false) by congruence.
      assert (Halive1 : o2_ensemble_name st1 = true) by congruence.
      assert (Hstart : ∀ a sc, tx_script k = TxAccept (S a) :: sc →
                msgs ≠ [] → sent ≠ []).
      { intros a sc Hsc _ ->. rewrite app_nil_r in Hsent1.
        cbn [app] in Hsent2. cbn [length] in Hsent3.
        destruct Hprog1 as [[used Hused] _].
        assert (Hq1 : out_message f1 ≠ []).
        { intros Hq1. unfold pending_bytes in Hsent2 at 2.
          rewrite Hq1 in Hsent2. rewrite Hpend, Hmsgs in Hsent2.
          apply (f_equal length) in Hsent2.
          cbn [map concat] in Hsent2.
          rewrite length_app, length_frame in Hsent2. cbn in Hsent2. lia. }
        destruct Hres as [(_ & ? & _) | (_ & _ & _ & _ & Hsc1)]; [done|].
        rewrite Hsc in Hsc1. destruct Hsc1 as [? | Hlt]; [done|].
        destruct used as [|u used].
        { cbn in Hused. rewrite <- Hused, Hsc in Hlt. lia. }
        rewrite Hsc in Hused, Hsent3. cbn [app] in Hused.
        injection Hused as <- Hused. rewrite Hused in Hsent3.
        cbn [accepts] in Hsent3. rewrite accepts_app in Hsent3. lia. }
      exists st2, f1,
        (if bool_decide (r = O2_SUCCESS) then clear_pollout d1 else d1),
        k1, sent.
      split; [done|]. split; [by destruct st|].
      split; [by destruct st|]. split; [by destruct st|].
      split; [done|].
      split.
      { subst st2.
        destruct Hres as [(-> & Hq1 & Hev1) | (-> & _ & Hq1 & Hev1 & _)].
        - rewrite !bool_decide_eq_true_2 by done.
          split; [by destruct st1|]. split; [by destruct st1|].
          split; [by destruct st1|].
          split; [by destruct st1|]. split; [congruence|].
          split; [by left|]. split; [done|].
          split.
          { destruct st1. cbn in *. apply list_lookup_insert_eq.
            eapply lookup_lt_Some; eauto. }
          split; [cbn; by rewrite Hfd1|].
          split; [done|].
          split; [by destruct st1|done].
        - rewrite !bool_decide_eq_false_2 by done.
          split; [done|]. split; [done|]. split; [done|].
          split; [done|]. split; [congruence|]. split; [by left|].
          split; [done|]. split; [done|]. split; [by rewrite Hfd1|].
          split; [intros _; rewrite Hev1; by apply has_flag_lor|].
          split; [done|done]. }
      split; [done|]. split; [done|].
      split; [by rewrite <- Hsent2, Hpend|].
      split; [done|].
      split.
      { destruct Hres as [(-> & Hq1 & Hev1) | (-> & _ & Hq1 & Hev1 & _)].
        - rewrite !bool_decide_eq_true_2 by done.
          apply has_flag_clear_pollout.
        - rewrite !bool_decide_eq_false_2 by done. rewrite Hev1.
          by apply has_flag_lor. }
      intros o Ho. specialize (Htr1 o Ho). subst st2.
      destruct (bool_decide (r = O2_SUCCESS)); by destruct st1.
    + subst st2.
      destruct (bool_decide (r = O2_SUCCESS)); [destruct st1; cbn in *|];
        congruence.
Qed.

Definition connecting_info : Fds_info :=
  set_owner (Some 1%nat) (new_info NET_TCP_CONNECTING 0 0).
Definition connecting_pfd : pollfd := Pollfd 5 (Z.lor POLLIN POLLOUT) 0.
Definition slow_sock : ksock :=
  Ksock [TxAccept 4] [] [] (RxNothing EAGAIN) [] [] [] 0.

Lemma queued_messages_sent_when_connected_witness :
  ∃ st1 st2 f2 d2 k2 sent,
    enqueue_all 0%nat [demo_msg1; demo_msg2]
      (one_conn connecting_info connecting_pfd slow_sock) = Some (tt, st1) ∧
    kernel st1 = kernel (one_conn connecting_info connecting_pfd slow_sock) ∧
    trace st1 = trace (one_conn connecting_info connecting_pfd slow_sock) ∧
    o2n_fds st1 = o2n_fds (one_conn connecting_info connecting_pfd slow_sock) ∧
    o2n_recv no_hooks (ready_only 0) st1 = Some (O2_SUCCESS, st2) ∧
    tx_conn 0 0%nat (fd connecting_pfd) f2 d2 k2 st2 ∧
    net_tag f2 = NET_TCP_CLIENT ∧
    tx_wire k2 = tx_wire slow_sock ++ sent ∧
    sent ++ pending_bytes f2 = concat (map frame [demo_msg1; demo_msg2]) ∧
    (∀ a sc, tx_script slow_sock = TxAccept (S a) :: sc →
       [demo_msg1; demo_msg2] ≠ [] → sent ≠ []) ∧
    has_flag (events d2) POLLOUT = negb (bool_decide (out_message f2 = [])) ∧
    (∀ o, owner connecting_info = Some o → EvConnected 0%nat o ∈ trace st2).
Proof.
  apply (queued_messages_sent_when_connected no_hooks
           (one_conn connecting_info connecting_pfd slow_sock) 0 0%nat
           connecting_info connecting_pfd slow_sock [demo_msg1; demo_msg2]).
  - reflexivity.
  - reflexivity.
  - reflexivity.
  - reflexivity.
  - reflexivity.
  - reflexivity.
  - reflexivity.
  - reflexivity.
  - reflexivity.
  - reflexivity.
  - cbn. lia.
  - reflexivity.
  - reflexivity.
  - repeat constructor.
  - repeat constructor; cbn; lia.
Defined.

(** ** Sending on a closed connection *)

(** Events that are calls of an owner's [remove()]. *)
Definition only_removes (l : list event) : Prop :=
  Forall (λ e, ∃ o, e = EvRemove o) l.

(** What a sweep has added to the state [st0] it started from, when no
    owner closes further connections in [remove()]: calls of [remove()],
    and nothing in the kernel. *)
Definition quiet (st0 st : net) : Prop :=
  kernel st = kernel st0 ∧ ∃ l, trace st = trace st0 ++ l ∧ only_removes l.

Lemma Fds_info_delete_quiet ops st0 st i p f st1 :
  (∀ o, remove_closes ops o = []) →
  inv st → quiet st0 st → o2n_fds_info st !! i = Some p →
  heap st !! p = Some f → net_tag f = NET_INFO_CLOSED →
  Fds_info_delete ops p st = Some (tt, st1) → quiet st0 st1.
Proof.
  intros Hops [Hok _] (Hk & l & Htr & Hl) Hi Hp Ht Hrun.
  rewrite (Fds_info_delete_run ops st i p f) in Hrun by done.
  destruct (owner f) as [o|].
  - unfold owner_remove, bind, modify in Hrun. rewrite Hops in Hrun.
    cbn in Hrun. simplify_eq. split; [done|].
    exists (l ++ [EvRemove o]). cbn. rewrite Htr, <- app_assoc.
    split; [done|]. apply Forall_app. split; [done|].
    constructor; [eauto|constructor].
  - cbn in Hrun. simplify_eq. split; [done|]. by exists l.
Qed.

Lemma sweep_quiet ops st st' :
  (∀ o, remove_closes ops o = []) → inv st →
  o2n_free_deleted_sockets ops st = Some (tt, st') → quiet st st'.
Proof.
  intros Hops Hinv Hrun.
  unfold o2n_free_deleted_sockets, bind, gets in Hrun.
  apply (sweep_keeps ops (quiet st)) with (3 := Hinv) (5 := Hrun).
  - intros. by eapply Fds_info_delete_quiet.
  - intros b s (Hk & l & Htr & Hl). split; [by destruct s|].
    exists l. by destruct s.
  - split; [done|]. exists []. split; [by rewrite app_nil_r|constructor].
Qed.

(** [send_tcp] on a connection that was closed but not swept yet reports
    O2_SUCCESS: the message is stored in the queue of the closed object,
    nothing is sent and nothing is freed.  The sweep then destroys the
    object with the message still queued: it calls [remove()] hooks only,
    so the message is neither sent nor freed. *)
Theorem send_after_close_loses_message ops fuel block st i p f msg :
  (∀ o, remove_closes ops o = []) →
  inv st → no_orphans st → o2n_socket_delete_flag st = true →
  o2n_fds_info st !! i = Some p → heap st !! p = Some f →
  net_tag f = NET_INFO_CLOSED → delete_me f = true → out_message f = [] →
  ∃ st2 l,
    let st1 := upd_heap <[p := set_out_msg_sent 0 (set_out_message [msg] f)]>
                 st in
    send_tcp fuel block p msg st = Some (O2_SUCCESS, st1) ∧
    o2n_free_deleted_sockets ops st1 = Some (tt, st2) ∧
    heap st2 !! p = None ∧ (p ∉ o2n_fds_info st2) ∧
    kernel st2 = kernel st ∧
    trace st2 = trace st ++ l ∧ only_removes l.
Proof.
  intros Hops Hinv Horph Hflag Hi Hp Htag Hdm Hq.
  set (f1 := set_out_msg_sent 0 (set_out_message [msg] f)).
  set (st1 := upd_heap <[p := f1]> st).
  assert (Hsend : send_tcp fuel block p msg st = Some (O2_SUCCESS, st1)).
  { unfold send_tcp. unfold bind at 1, deref at 1. rewrite Hp, Hq.
    rewrite bool_decide_eq_true_2 by done. cbn [negb andb].
    unfold bind at 1, ret at 1. rewrite bool_decide_eq_true_2 by done.
    cbn [negb]. unfold bind at 1. unfold enqueue.
    unfold bind at 1, deref at 1. rewrite Hp, Hq, Htag.
    rewrite bool_decide_eq_true_2 by done.
    rewrite bool_decide_eq_false_2 by done. cbn [negb andb].
    unfold bind at 1. rewrite (store_run p _ f) by done.
    unfold bind at 1.
    rewrite (store_run p _ (set_out_message [msg] f))
      by (destruct st; cbn; by rewrite lookup_insert_eq).
    assert (Hst : upd_heap <[p := f1]>
                    (upd_heap <[p := set_out_message [msg] f]> st) = st1).
    { subst st1. destruct st; unfold upd_heap; cbn.
      by rewrite insert_insert_eq. }
    fold f1. rewrite Hst.
    unfold bind at 1, send_nonblocking, bind at 1, deref at 1.
    assert (Hp1 : heap st1 !! p = Some f1)
      by (subst st1; destruct st; cbn; by rewrite lookup_insert_eq).
    rewrite Hp1.
    rewrite (send_on_closed _ false st1 p f1) by (done || by destruct f).
    done. }
  assert (Hinv1 : inv st1)
    by (apply (inv_update st p f f1); done || by destruct f).
  assert (Horph1 : no_orphans st1) by by eapply no_orphans_update.
  assert (Hflag1 : o2n_socket_delete_flag st1 = true) by by destruct st.
  assert (Hp1 : heap st1 !! p = Some f1)
    by (subst st1; destruct st; cbn; by rewrite lookup_insert_eq).
  destruct (closing_sweep ops st1 Hinv1 Horph1) as
    (st2 & Hrun & _ & _ & _ & _ & _ & _ & Hgone); [congruence|].
  unfold tick_end, bind, gets, when in Hrun. rewrite Hflag1 in Hrun.
  destruct (o2n_free_deleted_sockets ops st1) as [[[] st2']|] eqn:Hsw;
    [|done].
  unfold ret in Hrun. simplify_eq.
  destruct (sweep_quiet ops st1 st2 Hops Hinv1 Hsw) as (Hk & l & Htr & Hl).
  destruct (Hgone p f1 Hp1) as (Hnot & Hnone & _); [by destruct f|].
  exists st2, l. cbv zeta. fold f1. fold st1.
  split; [done|]. split; [done|]. split; [done|]. split; [done|].
  split; [rewrite Hk; by destruct st|].
  split; [rewrite Htr; by destruct st|done].
Qed.

Definition closed_net : net :=
  closed_state 0%nat owned_conn demo_pfd (one_conn owned_conn demo_pfd ksock0).

Lemma closed_net_good : inv closed_net ∧ no_orphans closed_net.
Proof.
  destruct (one_conn_good owned_conn demo_pfd ksock0) as (Hinv & Horph & _);
    [reflexivity|discriminate|reflexivity|].
  split.
  - by apply (closed_state_inv _ 0 0%nat owned_conn demo_pfd Hinv).
  - by apply closed_state_no_orphans.
Qed.

Lemma send_after_close_loses_message_witness :
  ∃ st2 l,
    let st1 :=
      upd_heap <[0%nat := set_out_msg_sent 0
                            (set_out_message [demo_msg1]
                               (closed_info owned_conn))]> closed_net in
    send_tcp 1 true 0%nat demo_msg1 closed_net = Some (O2_SUCCESS, st1) ∧
    o2n_free_deleted_sockets no_hooks st1 = Some (tt, st2) ∧
    heap st2 !! 0%nat = None ∧ (0%nat ∉ o2n_fds_info st2) ∧
    kernel st2 = kernel closed_net ∧
    trace st2 = trace closed_net ++ l ∧ only_removes l.
Proof.
  apply (send_after_close_loses_message no_hooks 1 true closed_net 0 0%nat
           (closed_info owned_conn) demo_msg1).
  - reflexivity.
  - exact (proj1 closed_net_good).
  - exact (proj2 closed_net_good).
  - reflexivity.
  - reflexivity.
  - reflexivity.
  - reflexivity.
  - reflexivity.
  - reflexivity.
Defined.

(** ** Raw (unframed) connections *)

Lemma deliver_in_message_accepted ops st p f m o :
  heap st !! p = Some f → in_message f = Some m → owner f = Some o →
  deliver_status ops o m = O2_SUCCESS →
  deliver_in_message ops p st =
    Some (O2_SUCCESS,
          emit (EvDeliver o m) (upd_heap <[p := cleaned f]> st)).
Proof.
  intros Hp Hm Hown Hok. unfold deliver_in_message.
  unfold bind at 1, deref at 1. rewrite Hp.
  unfold bind at 1, message_cleanup. rewrite (store_run p _ f) by done.
  fold (cleaned f). rewrite Hown, Hm.
  unfold bind at 1, owner_deliver, bind at 1, modify at 1, ret at 1.
  unfold bind at 1, deref at 1.
  replace (heap (emit (EvDeliver o m) (upd_heap <[p:=cleaned f]> st)) !! p)
    with (Some (cleaned f)) by (destruct st; cbn; by rewrite lookup_insert_eq).
  rewrite Hok. by rewrite bool_decide_eq_true_2.
Qed.

(** A read event on a raw client connection hands the owner whatever
    [recvfrom] returned, at most 512 bytes, as one message, without any
    framing.  End of stream is not told apart from data: [recvfrom]
    returns 0, the owner is handed an empty message, and the connection
    stays open and registered. *)
Theorem raw_read_delivers_chunk ops st i p f d k r o :
  o2n_socket_delete_flag st = false → o2_ensemble_name st = true →
  o2n_fds_info st !! i = Some p → heap st !! p = Some f →
  o2n_fds st !! i = Some d → reads_only d r →
  net_tag f = NET_TCP_CLIENT → raw_flag f = true → in_length_got f < 5 →
  owner f = Some o →
  kernel st !! fd d = Some k → (rx_buf k = [] → rx_idle k = RxShutdown) →
  deliver_status ops o
    (Message (Z.of_nat (length (take 512 (rx_buf k)))) (take 512 (rx_buf k)))
    = O2_SUCCESS →
  o2n_recv ops (ready_one i r) st =
    Some (O2_SUCCESS,
          emit (EvDeliver o
                  (Message (Z.of_nat (length (take 512 (rx_buf k))))
                     (take 512 (rx_buf k))))
            (upd_heap <[p := cleaned f]>
               (match rx_buf k with
                | [] => id
                | _ :: _ =>
                    upd_kernel
                      <[fd d := set_rx_buf (drop 512 (rx_buf k)) k]>
                end (polled_with (ready_one i r) st)))).
Proof.
  intros Hflag Halive Hi Hp Hd Hro Htag Hraw H5 Hown Hk Hidle Hok.
  assert (Hil : (i < length (o2n_fds st))%nat)
    by (eapply lookup_lt_Some; eauto).
  set (st0 := polled_with (ready_one i r) st).
  assert (Hd0 : o2n_fds st0 !! i = Some (poll_one d r)).
  { subst st0. by rewrite polled_with_lookup, ready_one_lookup, decide_True,
      Hd by done. }
  assert (Hi0 : o2n_fds_info st0 !! i = Some p) by by destruct st.
  assert (Hp0 : heap st0 !! p = Some f) by by destruct st.
  assert (Hk0 : kernel st0 !! fd d = Some k) by by destruct st.
  set (bs := take 512 (rx_buf k)) in *.
  set (m := Message (Z.of_nat (length bs)) bs) in *.
  set (stK := match rx_buf k with
              | [] => id
              | _ :: _ =>
                  upd_kernel <[fd d := set_rx_buf (drop 512 (rx_buf k)) k]>
              end st0).
  set (stF := emit (EvDeliver o m) (upd_heap <[p := cleaned f]> stK)).
  assert (Hlt5 : (in_length_got f <? 5) = true) by lia.
  set (f1 := set_in_message (Some (Message 0 [])) f).
  set (stA := upd_heap <[p := f1]> st0).
  set (stB := match rx_buf k with
              | [] => id
              | _ :: _ =>
                  upd_kernel <[fd d := set_rx_buf (drop 512 (rx_buf k)) k]>
              end stA).
  set (f2 := set_in_message (Some m) f1).
  assert (Hrwm : read_whole_message p (fd d) st0
                 = Some (O2_SUCCESS, upd_heap <[p := f2]> stB)).
  { unfold read_whole_message.
    unfold bind at 1, deref at 1. rewrite Hp0, Hlt5, Hraw, Htag.
    rewrite (bool_decide_eq_true_2 (NET_TCP_CLIENT = NET_TCP_CLIENT))
      by done.
    rewrite orb_true_r. unfold bind at 1, assert at 1, ret at 1.
    unfold bind at 1, assert at 1, ret at 1.
    unfold bind at 1. rewrite (store_run p _ f) by done.
    fold f1. fold stA.
    assert (HkA : kernel stA !! fd d = Some k) by by destruct st.
    assert (Hrecv : sys_recv (fd d) 512 stA
                    = Some ((Z.of_nat (length bs), bs), stB)).
    { unfold sys_recv. rewrite HkA. subst stB bs.
      destruct (rx_buf k) as [|b rest] eqn:Hbuf; [|done].
      by rewrite Hidle. }
    unfold bind at 1. rewrite Hrecv. cbn [fst snd].
    destruct (Z.ltb_spec (Z.of_nat (length bs)) 0); [lia|].
    assert (HpB : heap stB !! p = Some f1).
    { subst stB stA. destruct (rx_buf k); destruct st; cbn;
        by rewrite lookup_insert_eq. }
    unfold bind at 1. by rewrite (store_run p _ f1) by done. }
  assert (Hread : read_event_handler ops p (fd d) st0
                  = Some (O2_SUCCESS, stF)).
  { rewrite (read_event_handler_data ops st0 p (fd d) f)
      by (done || by rewrite Htag).
    unfold bind at 1. rewrite Hrwm.
    rewrite bool_decide_eq_false_2 by done.
    rewrite bool_decide_eq_true_2 by done. cbn [negb].
    rewrite (deliver_in_message_accepted ops _ p f2 m o);
      [|destruct stB; cbn; by rewrite lookup_insert_eq
       |by destruct f|by destruct f|done].
    do 2 f_equal. subst stF stK stB stA f2 f1.
    destruct (rx_buf k); destruct st0, f;
      unfold cleaned, emit, upd_heap, upd_kernel; cbn;
      by rewrite !insert_insert_eq. }
  assert (Hdisp : dispatch ops i st0 = Some (None, stF)).
  { rewrite (dispatch_read ops st0 i (poll_one d r) d r p f) by done.
    unfold bind at 1. rewrite Hread.
    rewrite bool_decide_eq_true_2 by done. cbn [negb when].
    unfold bind, ret, gets.
    replace (o2_ensemble_name stF) with true; [done|].
    subst stF stK. destruct (rx_buf k); by destruct st. }
  rewrite (tick_one ops st i r stF); [|done|done|done|done| |].
  - unfold tick_end, bind, gets, when, ret.
    replace (o2n_socket_delete_flag stF) with false; [done|].
    subst stF stK. destruct (rx_buf k); by destruct st.
  - intros. subst stF stK. destruct (rx_buf k); by destruct st.
  - subst stF stK. destruct (rx_buf k); by destruct st.
Qed.

Definition raw_client : Fds_info :=
  Info NET_TCP_CLIENT 0 false true 0 [] None 0 0 [] 0 0 (Some 1%nat).

Lemma raw_read_delivers_chunk_witness :
  o2n_recv no_hooks (ready_one 0 POLLIN) (one_conn raw_client demo_pfd eof_sock)
  = Some (O2_SUCCESS,
          emit (EvDeliver 1%nat
                  (Message (Z.of_nat (length (take 512 (rx_buf eof_sock))))
                     (take 512 (rx_buf eof_sock))))
            (upd_heap <[0%nat := cleaned raw_client]>
               (match rx_buf eof_sock with
                | [] => id
                | _ :: _ =>
                    upd_kernel
                      <[fd demo_pfd :=
                          set_rx_buf (drop 512 (rx_buf eof_sock)) eof_sock]>
                end (polled_with (ready_one 0 POLLIN)
                       (one_conn raw_client demo_pfd eof_sock))))).
Proof.
  apply (raw_read_delivers_chunk no_hooks
           (one_conn raw_client demo_pfd eof_sock) 0 0%nat raw_client
           demo_pfd eof_sock POLLIN 1%nat).
  - reflexivity.
  - reflexivity.
  - reflexivity.
  - reflexivity.
  - reflexivity.
  - exact demo_reads_only.
  - reflexivity.
  - reflexivity.
  - cbn. lia.
  - reflexivity.
  - reflexivity.
  - reflexivity.
  - reflexivity.
Defined.

(** * Address utilities (hexadecimal and dotted notation) *)

(** A [char] as its character code. *)
Definition char_code (c : ascii) : Z := Z.of_N (N_of_ascii c).

Definition isdigit (c : ascii) : bool :=
  (48 <=? char_code c) && (char_code c <=? 57).

(** [hex_to_nibble]: the value, and the lines printed on stdout (the
    diagnostic of a build without O2_NO_DEBUG). *)
Definition hex_to_nibble (hex : ascii) : Z * list string :=
  if isdigit hex then (char_code hex - 48, [])
  else if (65 <=? char_code hex) && (char_code hex <=? 70)
  then (char_code hex - 65 + 10, [])
  else if (97 <=? char_code hex) && (char_code hex <=? 102)
  then (char_code hex - 97 + 10, [])
  else (0, ["ERROR: bad hex character passed to hex_to_nibble()"%string]).

(** [hex[k]] for a C string: the characters, then the terminating NUL;
    reading further is out of bounds. *)
Definition cstr_at (hex : string) (k : nat) : option ascii :=
  match String.get k hex with
  | Some c => Some c
  | None => if (k =? String.length hex)%nat then Some zero else None
  end.

(** [hex_to_byte(hex + off)] *)
Definition hex_to_byte (hex : string) (off : nat)
  : option (Z * list string) :=
  match cstr_at hex off, cstr_at hex (off + 1) with
  | Some h0, Some h1 =>
      let a := hex_to_nibble h0 in
      let b := hex_to_nibble h1 in
      Some (Z.shiftl (fst a) 4 + fst b, snd a ++ snd b)
  | _, _ => None
  end.

(** [snprintf(buf, n, ...)] keeps the first [n - 1] characters of the
    formatted text. *)
Definition snprintf (n : nat) (text : string) : string :=
  String.substring 0 (n - 1) text.

(** The text of ["%d.%d.%d.%d"]. *)
Definition dotted (i1 i2 i3 i4 : Z) : string :=
  pretty i1 +:+ "." +:+ pretty i2 +:+ "." +:+ pretty i3 +:+ "." +:+ pretty i4.

(** [o2_hex_to_dot]: the text stored in [dot], and the lines printed. *)
Definition o2_hex_to_dot (hex : string) : option (string * list string) :=
  match hex_to_byte hex 0, hex_to_byte hex 2, hex_to_byte hex 4,
        hex_to_byte hex 6 with
  | Some i1, Some i2, Some i3, Some i4 =>
      Some (snprintf 16 (dotted (fst i1) (fst i2) (fst i3) (fst i4)),
            snd i1 ++ snd i2 ++ snd i3 ++ snd i4)
  | _, _, _, _ => None
  end.

(** The loop of [o2_hex_to_int], from the value [i] accumulated so far;
    [int] arithmetic wraps around. *)
Fixpoint hex_to_int_from (hex : string) (i : Z) : Z * list string :=
  match hex with
  | EmptyString => (i, [])
  | String h rest =>
      if Ascii.eqb h zero then (i, [])
      else
        let n := hex_to_nibble h in
        let r := hex_to_int_from rest (to_int32 (Z.shiftl i 4 + fst n)) in
        (fst r, snd n ++ snd r)
  end.

Definition o2_hex_to_int (hex : string) : Z * list string :=
  hex_to_int_from hex 0.

(** The text of ["%08x"] for a 32-bit unsigned value. *)
Definition hex_digit (n : Z) : ascii :=
  ascii_of_N (Z.to_N (if n <? 10 then 48 + n else 87 + n)).

Definition hex8 (a : Z) : string :=
  string_of_list_ascii
    (map (λ k, hex_digit (Z.land (Z.shiftr a (4 * k)) 15))
       [7; 6; 5; 4; 3; 2; 1; 0]).

Lemma nibble_cases n :
  0 ≤ n < 16 →
  n = 0 ∨ n = 1 ∨ n = 2 ∨ n = 3 ∨ n = 4 ∨ n = 5 ∨ n = 6 ∨ n = 7 ∨
  n = 8 ∨ n = 9 ∨ n = 10 ∨ n = 11 ∨ n = 12 ∨ n = 13 ∨ n = 14 ∨ n = 15.
Proof. lia. Qed.

Lemma hex_to_nibble_digit n :
  0 ≤ n < 16 →
  hex_to_nibble (hex_digit n) = (n, []) ∧ Ascii.eqb (hex_digit n) zero = false.
Proof.
  intros H. apply nibble_cases in H.
  repeat (destruct H as [->|H]; [by vm_compute|]). subst. by vm_compute.
Qed.

Lemma land_15_range x : 0 ≤ Z.land x 15 < 16.
Proof.
  change 15 with (Z.ones 4). rewrite Z.land_ones by lia.
  apply Z.mod_pos_bound. lia.
Qed.

Lemma nibble_split x : x = Z.shiftr x 4 * 16 + Z.land x 15.
Proof.
  change 15 with (Z.ones 4). rewrite Z.land_ones, Z.shiftr_div_pow2 by lia.
  change (2 ^ 4) with 16. pose proof (Z.div_mod x 16). lia.
Qed.

Lemma hex_digits_value a :
  0 ≤ a < 2 ^ 32 →
  ((((((Z.land (Z.shiftr a 28) 15 * 16 + Z.land (Z.shiftr a 24) 15) * 16
       + Z.land (Z.shiftr a 20) 15) * 16 + Z.land (Z.shiftr a 16) 15) * 16
     + Z.land (Z.shiftr a 12) 15) * 16 + Z.land (Z.shiftr a 8) 15) * 16
   + Z.land (Z.shiftr a 4) 15) * 16 + Z.land (Z.shiftr a 0) 15 = a.
Proof.
  intros Ha.
  assert (H32 : Z.shiftr a 32 = 0).
  { rewrite Z.shiftr_div_pow2 by lia. apply Z.div_small. lia. }
  pose proof (nibble_split a) as H0.
  pose proof (nibble_split (Z.shiftr a 4)) as H1.
  pose proof (nibble_split (Z.shiftr a 8)) as H2.
  pose proof (nibble_split (Z.shiftr a 12)) as H3.
  pose proof (nibble_split (Z.shiftr a 16)) as H4.
  pose proof (nibble_split (Z.shiftr a 20)) as H5.
  pose proof (nibble_split (Z.shiftr a 24)) as H6.
  pose proof (nibble_split (Z.shiftr a 28)) as H7.
  rewrite Z.shiftr_shiftr in H1, H2, H3, H4, H5, H6, H7 by lia.
  change (4 + 4) with 8 in H1. change (8 + 4) with 12 in H2.
  change (12 + 4) with 16 in H3. change (16 + 4) with 20 in H4.
  change (20 + 4) with 24 in H5. change (24 + 4) with 28 in H6.
  change (28 + 4) with 32 in H7.
  rewrite H32 in H7. rewrite Z.shiftr_0_r. lia.
Qed.

(** The hexadecimal text that [get_internal_ip] produces with ["%08x"]
    is read back by [o2_hex_to_int] as the same 32-bit pattern, without a
    diagnostic; as the result is an [int], addresses from 128.0.0.0 on
    come out negative. *)
Theorem hex_to_int_reads_hex8 a :
  0 ≤ a < 2 ^ 32 → o2_hex_to_int (hex8 a) = (to_int32 a, []).
Proof.
  intros Ha. unfold o2_hex_to_int, hex8.
  cbn [map string_of_list_ascii hex_to_int_from].
  change (4 * 7) with 28. change (4 * 6) with 24. change (4 * 5) with 20.
  change (4 * 4) with 16. change (4 * 3) with 12. change (4 * 2) with 8.
  change (4 * 1) with 4. change (4 * 0) with 0.
  repeat match goal with
  | |- context [hex_digit (Z.land ?x 15)] =>
      let H := fresh in
      destruct (hex_to_nibble_digit (Z.land x 15) (land_15_range x))
        as [H ->]; rewrite !H; clear H
  end.
  cbn [fst snd app]. rewrite !Z.shiftl_mul_pow2 by lia.
  change (2 ^ 4) with 16.
  pose proof (land_15_range (Z.shiftr a 28)).
  pose proof (land_15_range (Z.shiftr a 24)).
  pose proof (land_15_range (Z.shiftr a 20)).
  pose proof (land_15_range (Z.shiftr a 16)).
  pose proof (land_15_range (Z.shiftr a 12)).
  pose proof (land_15_range (Z.shiftr a 8)).
  pose proof (land_15_range (Z.shiftr a 4)).
  repeat match goal with
  | |- context [to_int32 ?x] => rewrite (to_int32_small x) by lia
  end.
  do 2 f_equal. pose proof (hex_digits_value a Ha). lia.
Qed.

Lemma hex_to_int_reads_hex8_witness :
  0 ≤ 3232235521 < 2 ^ 32 ∧
  o2_hex_to_int (hex8 3232235521) = (to_int32 3232235521, []).
Proof.
  split; [lia|]. apply (hex_to_int_reads_hex8 3232235521). lia.
Defined.

Lemma byte_of_nibbles x :
  Z.shiftl (Z.land (Z.shiftr x 4) 15) 4 + Z.land x 15 = Z.land x 255.
Proof.
  change 15 with (Z.ones 4). change 255 with (Z.ones 8).
  rewrite !Z.land_ones, Z.shiftr_div_pow2, Z.shiftl_mul_pow2 by lia.
  change (2 ^ 4) with 16. change (2 ^ 8) with 256.
  Z.to_euclidean_division_equations. lia.
Qed.

Lemma pretty_byte_length b :
  0 ≤ b < 256 → (String.length (pretty b) ≤ 3)%nat.
Proof.
  intros Hb.
  assert (H : forallb (λ n, (String.length (pretty (Z.of_nat n)) <=? 3)%nat)
                (seq 0 256) = true) by (vm_compute; reflexivity).
  rewrite forallb_forall in H. specialize (H (Z.to_nat b)).
  rewrite Z2Nat.id in H by lia. apply Nat.leb_le, H, in_seq. lia.
Qed.

Lemma substring_all s : ∀ n,
  (String.length s ≤ n)%nat → String.substring 0 n s = s.
Proof.
  induction s as [|c s IH]; intros [|n] Hn; cbn in *; try done; try lia.
  rewrite IH by lia. done.
Qed.

Lemma string_length_append s1 s2 :
  String.length (s1 +:+ s2) = (String.length s1 + String.length s2)%nat.
Proof.
  induction s1 as [|c s1 IH]; [done|].
  change (S (String.length (s1 +:+ s2))
          = S (String.length s1 + String.length s2)).
  by rewrite IH.
Qed.

Lemma land_255_range x : 0 ≤ Z.land x 255 < 256.
Proof.
  change 255 with (Z.ones 8). rewrite Z.land_ones by lia.
  apply Z.mod_pos_bound. lia.
Qed.

(** The dotted text of four bytes has at most 15 characters, so that
    [snprintf] into 16 bytes never truncates it. *)
Lemma snprintf_dotted b1 b2 b3 b4 :
  0 ≤ b1 < 256 → 0 ≤ b2 < 256 → 0 ≤ b3 < 256 → 0 ≤ b4 < 256 →
  snprintf 16 (dotted b1 b2 b3 b4) = dotted b1 b2 b3 b4.
Proof.
  intros H1 H2 H3 H4. unfold snprintf. apply substring_all.
  unfold dotted. rewrite !string_length_append.
  apply pretty_byte_length in H1, H2, H3, H4. cbn [String.length]. lia.
Qed.

Lemma cstr_at_hex8 a k :
  (k < 8)%nat →
  cstr_at (hex8 a) k
  = Some (hex_digit (Z.land (Z.shiftr a (4 * (7 - Z.of_nat k))) 15)).
Proof.
  intros Hk. unfold cstr_at, hex8.
  do 8 (destruct k as [|k]; [reflexivity|]). lia.
Qed.

Lemma hex_to_byte_hex8 a j :
  (j < 4)%nat →
  hex_to_byte (hex8 a) (2 * j)
  = Some (Z.land (Z.shiftr a (8 * (3 - Z.of_nat j))) 255, []).
Proof.
  intros Hj. unfold hex_to_byte.
  rewrite !cstr_at_hex8 by lia.
  destruct (hex_to_nibble_digit _
              (land_15_range (Z.shiftr a (4 * (7 - Z.of_nat (2 * j))))))
    as [-> _].
  destruct (hex_to_nibble_digit _
              (land_15_range (Z.shiftr a (4 * (7 - Z.of_nat (2 * j + 1))))))
    as [-> _].
  cbn [fst snd app]. do 2 f_equal.
  replace (4 * (7 - Z.of_nat (2 * j)))
    with (8 * (3 - Z.of_nat j) + 4) by lia.
  replace (4 * (7 - Z.of_nat (2 * j + 1)))
    with (8 * (3 - Z.of_nat j)) by lia.
  rewrite <- Z.shiftr_shiftr by lia. apply byte_of_nibbles.
Qed.

(** The hexadecimal text that [get_internal_ip] produces with ["%08x"]
    for the address [a] is turned by [o2_hex_to_dot] into the dotted
    notation of the same address, most significant byte first; the text
    always fits the 16-byte buffer, and no diagnostic is printed. *)
Theorem hex_to_dot_reads_hex8 a :
  o2_hex_to_dot (hex8 a)
  = Some (dotted (Z.land (Z.shiftr a 24) 255) (Z.land (Z.shiftr a 16) 255)
            (Z.land (Z.shiftr a 8) 255) (Z.land (Z.shiftr a 0) 255), []).
Proof.
  unfold o2_hex_to_dot.
  pose proof (hex_to_byte_hex8 a 0 ltac:(lia)) as H0.
  pose proof (hex_to_byte_hex8 a 1 ltac:(lia)) as H1.
  pose proof (hex_to_byte_hex8 a 2 ltac:(lia)) as H2.
  pose proof (hex_to_byte_hex8 a 3 ltac:(lia)) as H3.
  change (2 * 0)%nat with 0%nat in H0. change (2 * 1)%nat with 2%nat in H1.
  change (2 * 2)%nat with 4%nat in H2. change (2 * 3)%nat with 6%nat in H3.
  change (8 * (3 - Z.of_nat 0)) with 24 in H0.
  change (8 * (3 - Z.of_nat 1)) with 16 in H1.
  change (8 * (3 - Z.of_nat 2)) with 8 in H2.
  change (8 * (3 - Z.of_nat 3)) with 0 in H3.
  rewrite H0, H1, H2, H3.
  cbn [fst snd app]. do 2 f_equal.
  apply snprintf_dotted; apply land_255_range.
Qed.

(** The example of the comment above [o2_hex_to_dot], capitals, and a
    string that is too short (the second byte would be read past the
    terminator). *)
Example hex_to_dot_localhost :
  o2_hex_to_dot "7f000001" = Some ("127.0.0.1"%string, []) ∧
  o2_hex_to_int "C0A80001" = (-1062731775, []) ∧
  o2_hex_to_dot "7f" = None.
Proof. by vm_compute. Qed.

Lemma hex_digit_inj n m :
  0 ≤ n < 16 → 0 ≤ m < 16 → hex_digit n = hex_digit m → n = m.
Proof.
  intros Hn Hm H.
  destruct (hex_to_nibble_digit n Hn) as [Ha _].
  destruct (hex_to_nibble_digit m Hm) as [Hb _].
  rewrite H in Ha. congruence.
Qed.

Lemma hex8_inj a b :
  0 ≤ a < 2 ^ 32 → 0 ≤ b < 2 ^ 32 → hex8 a = hex8 b → a = b.
Proof.
  intros Ha Hb H. unfold hex8 in H. cbn [map string_of_list_ascii] in H.
  rewrite <- (hex_digits_value a Ha), <- (hex_digits_value b Hb).
  injection H. intros.
  repeat match goal with
  | H : hex_digit _ = hex_digit _ |- _ =>
      apply hex_digit_inj in H; [|apply land_15_range..]
  end.
  change (4 * 7) with 28 in *. change (4 * 6) with 24 in *.
  change (4 * 5) with 20 in *. change (4 * 4) with 16 in *.
  change (4 * 3) with 12 in *. change (4 * 2) with 8 in *.
  change (4 * 1) with 4 in *. change (4 * 0) with 0 in *.
  congruence.
Qed.

Lemma length_hex8 a : String.length (hex8 a) = 8%nat.
Proof. done. Qed.

(** * Module set-up: addresses, utility sockets, servers *)

(** The globals of the module that the reactor does not use, next to the
    reactor state [core]. *)
Record globals := Globals {
  core : net;
  o2n_network_enabled : bool;
  o2n_network_found : bool;
  o2n_public_ip : string;
  o2n_internal_ip : string;
  o2_serv_addr : Net_address
}.

Definition upd_core (g : net → net) (s : globals) : globals :=
  Globals (g (core s)) (o2n_network_enabled s) (o2n_network_found s)
    (o2n_public_ip s) (o2n_internal_ip s) (o2_serv_addr s).
Definition set_network_found (v : bool) (s : globals) : globals :=
  Globals (core s) (o2n_network_enabled s) v (o2n_public_ip s)
    (o2n_internal_ip s) (o2_serv_addr s).
Definition set_public_ip (v : string) (s : globals) : globals :=
  Globals (core s) (o2n_network_enabled s) (o2n_network_found s) v
    (o2n_internal_ip s) (o2_serv_addr s).
Definition set_internal_ip (v : string) (s : globals) : globals :=
  Globals (core s) (o2n_network_enabled s) (o2n_network_found s)
    (o2n_public_ip s) v (o2_serv_addr s).
Definition set_serv_addr (v : Net_address) (s : globals) : globals :=
  Globals (core s) (o2n_network_enabled s) (o2n_network_found s)
    (o2n_public_ip s) (o2n_internal_ip s) v.

Definition set_udp_send_sock (v : Z) (s : net) : net :=
  Net (o2n_fds s) (o2n_fds_info s) (heap s) (o2n_socket_delete_flag s) v
    (o2n_broadcast_sock s) (local_to_addr s) (o2n_broadcast_to_addr s)
    (o2_ensemble_name s) (errno s) (kernel s) (trace s).
Definition set_broadcast_sock (v : Z) (s : net) : net :=
  Net (o2n_fds s) (o2n_fds_info s) (heap s) (o2n_socket_delete_flag s)
    (o2n_udp_send_sock s) v (local_to_addr s) (o2n_broadcast_to_addr s)
    (o2_ensemble_name s) (errno s) (kernel s) (trace s).

(** One entry of the list that [getifaddrs] returns: [ifa_addr] may be
    NULL; otherwise it has a family and, for AF_INET, the address
    [ntohl(sin_addr.s_addr)]. *)
Record ifaddrs := Ifaddrs { ifa_addr : option (Z * Z) }.

Definition AF_INET : Z := 2.

(** [s[0] == 0] for a C string. *)
Definition cstr_empty (s : string) : bool :=
  match s with
  | EmptyString => true
  | String c _ => Ascii.eqb c zero
  end.

Section Setup.

(** [O2_IP_LEN] is defined in a header of the library. *)
Variable O2_IP_LEN : nat.

(** The [for (ifa = ifap; ifa; ifa = ifa->ifa_next)] loop of
    [get_internal_ip]; [None] is the dereference of a NULL [ifa_addr]. *)
Fixpoint get_internal_ip_loop (ifa : list ifaddrs) (s : globals)
  : option globals :=
  match ifa with
  | [] => Some s
  | x :: ifa_next =>
      match ifa_addr x with
      | None => None
      | Some (sa_family, addr) =>
          if sa_family =? AF_INET then
            let s1 := set_internal_ip (snprintf O2_IP_LEN (hex8 addr)) s in
            if negb (String.eqb (o2n_internal_ip s1) "7f000001")
            then Some (set_network_found true s1)
            else get_internal_ip_loop ifa_next s1
          else get_internal_ip_loop ifa_next s
      end
  end.

(** [get_internal_ip]; [ifap] is what [getifaddrs] returns ([None] when it
    fails). *)
Definition get_internal_ip (ifap : option (list ifaddrs)) (s : globals)
  : option globals :=
  if negb (cstr_empty (o2n_internal_ip s)) then Some s
  else if o2n_network_found s then None
  else if negb (o2n_network_enabled s) then None
  else
    match ifap with
    | None => Some (upd_core (emit (EvPerror "getting IP address")) s)
    | Some ifa =>
        match get_internal_ip_loop ifa s with
        | None => None
        | Some s1 =>
            if cstr_empty (o2n_internal_ip s1)
            then Some (set_internal_ip "7f000001" s1)
            else Some s1
        end
    end.

End Setup.

(** The first usable address of the list: AF_INET and not 127.0.0.1. *)
Definition usable (x : ifaddrs) : bool :=
  match ifa_addr x with
  | Some (sa_family, addr) =>
      (sa_family =? AF_INET) && negb (addr =? 2130706433)
  | None => false
  end.

Definition first_usable (ifa : list ifaddrs) : option Z :=
  match list_find (λ x, usable x = true) ifa with
  | Some (_, x) => snd <$> ifa_addr x
  | None => None
  end.

(** The entries the loop looks at: those up to and including the first
    usable one. *)
Fixpoint visited (ifa : list ifaddrs) : list ifaddrs :=
  match ifa with
  | [] => []
  | x :: rest => if usable x then [x] else x :: visited rest
  end.

(** Some entry has a NULL [ifa_addr]. *)
Definition has_null (ifa : list ifaddrs) : bool :=
  existsb (λ x, match ifa_addr x with None => true | Some _ => false end) ifa.

(** [sin_addr.s_addr] has 32 bits. *)
Definition addresses_32bit (ifa : list ifaddrs) : Prop :=
  Forall (λ x, ∀ fam a, ifa_addr x = Some (fam, a) → 0 ≤ a < 2 ^ 32) ifa.

Lemma snprintf_hex8 n a : (9 ≤ n)%nat → snprintf n (hex8 a) = hex8 a.
Proof.
  intros Hn. unfold snprintf. apply substring_all. rewrite length_hex8. lia.
Qed.

Lemma hex8_loopback a :
  0 ≤ a < 2 ^ 32 →
  String.eqb (hex8 a) "7f000001" = (a =? 2130706433).
Proof.
  intros Ha. destruct (Z.eqb_spec a 2130706433) as [->|Hne].
  - by vm_compute.
  - apply String.eqb_neq. intros H. apply Hne.
    apply hex8_inj; [done|lia|]. rewrite H. by vm_compute.
Qed.

Lemma cstr_empty_hex8 a : cstr_empty (hex8 a) = false.
Proof.
  unfold hex8. cbn [map string_of_list_ascii cstr_empty].
  apply (hex_to_nibble_digit _ (land_15_range _)).
Qed.

Lemma first_usable_cons x ifa :
  first_usable (x :: ifa)
  = if usable x then snd <$> ifa_addr x else first_usable ifa.
Proof.
  unfold first_usable. cbn [list_find].
  destruct (usable x) eqn:Hu.
  - by rewrite decide_True by done.
  - rewrite decide_False by done.
    by destruct (list_find (λ x, usable x = true) ifa) as [[j y]|].
Qed.

Lemma visited_lookup ifa :
  visited ifa
  = match list_find (λ x, usable x = true) ifa with
    | Some (j, _) => take (S j) ifa
    | None => ifa
    end.
Proof.
  induction ifa as [|x ifa IH]; [done|]. cbn [visited list_find].
  destruct (usable x) eqn:Hu.
  - by rewrite decide_True by done.
  - rewrite decide_False by done. rewrite IH.
    by destruct (list_find (λ x, usable x = true) ifa) as [[j y]|].
Qed.

Lemma get_internal_ip_loop_spec n : ∀ ifa s,
  (9 ≤ n)%nat → addresses_32bit ifa →
  if has_null (visited ifa) then get_internal_ip_loop n ifa s = None
  else
    match first_usable ifa with
    | Some a =>
        get_internal_ip_loop n ifa s
        = Some (set_network_found true (set_internal_ip (hex8 a) s))
    | None =>
        ∃ ip, get_internal_ip_loop n ifa s = Some (set_internal_ip ip s) ∧
              (ip = o2n_internal_ip s ∨ ip = "7f000001"%string)
    end.
Proof.
  induction ifa as [|x ifa IH]; intros s Hn Hok.
  - cbn. exists (o2n_internal_ip s). split; [by destruct s|by left].
  - apply Forall_cons in Hok as [Hx Hok].
    cbn [get_internal_ip_loop visited].
    rewrite first_usable_cons. unfold usable at 1 2.
    destruct (ifa_addr x) as [[fam a]|] eqn:Hax; [|by cbn; rewrite Hax].
    specialize (Hx fam a eq_refl).
    replace (o2n_internal_ip (set_internal_ip (snprintf n (hex8 a)) s))
      with (snprintf n (hex8 a)) by done.
    rewrite snprintf_hex8, hex8_loopback by done.
    destruct (fam =? AF_INET) eqn:Hfam; cbn [andb].
    + destruct (a =? 2130706433) eqn:Hlo; cbn [negb].
      * cbn [has_null existsb]. rewrite Hax. cbn [orb].
        specialize (IH (set_internal_ip (hex8 a) s) Hn Hok).
        fold (has_null (visited ifa)).
        destruct (has_null (visited ifa)); [done|].
        destruct (first_usable ifa) as [b|].
        -- rewrite IH. by destruct s.
        -- destruct IH as (ip & -> & Hip). exists ip.
           split; [by destruct s|]. destruct Hip as [-> | ->]; [|by right].
           right. apply Z.eqb_eq in Hlo as ->. by vm_compute.
      * cbn [has_null existsb]. by rewrite Hax.
    + cbn [has_null existsb]. rewrite Hax. cbn [orb].
      fold (has_null (visited ifa)). apply (IH s Hn Hok).
Qed.

(** [get_internal_ip], when the address is not known yet.  The loop goes
    through the interface list up to the first AF_INET address that is
    not 127.0.0.1 and reads the family of every entry on its way: if one
    of them has a NULL [ifa_addr] the call dereferences it.  Otherwise the
    internal address becomes that first address, in hexadecimal, and
    [o2n_network_found] is set; if there is none, the address is 7f000001
    and [o2n_network_found] stays false.  If [getifaddrs] fails the
    address stays unknown and only a diagnostic is printed. *)
Theorem get_internal_ip_picks_first_usable n ifa s :
  (9 ≤ n)%nat → cstr_empty (o2n_internal_ip s) = true →
  o2n_network_found s = false → o2n_network_enabled s = true →
  addresses_32bit ifa →
  get_internal_ip n (Some ifa) s =
    (if has_null (visited ifa) then None
     else Some match first_usable ifa with
               | Some a =>
                   set_network_found true (set_internal_ip (hex8 a) s)
               | None => set_internal_ip "7f000001" s
               end) ∧
  get_internal_ip n None s
    = Some (upd_core (emit (EvPerror "getting IP address")) s).
Proof.
  intros Hn Hip Hfound Hen Hok. unfold get_internal_ip.
  rewrite Hip, Hfound, Hen. cbn [negb]. split; [|done].
  pose proof (get_internal_ip_loop_spec n ifa s Hn Hok) as H.
  destruct (has_null (visited ifa)); [by rewrite H|].
  destruct (first_usable ifa) as [a|].
  - rewrite H.
    replace (o2n_internal_ip
               (set_network_found true (set_internal_ip (hex8 a) s)))
      with (hex8 a) by done.
    by rewrite cstr_empty_hex8.
  - destruct H as (ip & -> & [Hi|Hi]); subst ip.
    + replace (o2n_internal_ip (set_internal_ip (o2n_internal_ip s) s))
        with (o2n_internal_ip s) by done.
      rewrite Hip. by destruct s.
    + cbn. by destruct s.
Qed.

Definition no_address_yet : globals :=
  Globals fresh_net true false "" "" (Addr 0 0).
(** Loopback, an address of another family, two usable addresses, and an
    entry without address behind them; the same list with the entry
    without address in front of the usable ones. *)
Definition two_interfaces : list ifaddrs :=
  [Ifaddrs (Some (AF_INET, 2130706433)); Ifaddrs (Some (10, 0));
   Ifaddrs (Some (AF_INET, 3232235521)); Ifaddrs (Some (AF_INET, 167772161));
   Ifaddrs None].
Definition null_interface : list ifaddrs :=
  [Ifaddrs (Some (AF_INET, 2130706433)); Ifaddrs None;
   Ifaddrs (Some (AF_INET, 3232235521))].

Lemma two_interfaces_32bit : addresses_32bit two_interfaces.
Proof.
  repeat (apply Forall_cons; split; [intros ? ? [=]; subst; lia|]).
  by apply Forall_nil.
Qed.

Lemma null_interface_32bit : addresses_32bit null_interface.
Proof.
  repeat (apply Forall_cons; split; [intros ? ? [=]; subst; lia|]).
  by apply Forall_nil.
Qed.

Lemma get_internal_ip_picks_first_usable_witness :
  (get_internal_ip 16 (Some two_interfaces) no_address_yet =
     Some (set_network_found true
             (set_internal_ip "c0a80001" no_address_yet)) ∧
   get_internal_ip 16 None no_address_yet
     = Some (upd_core (emit (EvPerror "getting IP address")) no_address_yet))
  ∧ get_internal_ip 16 (Some null_interface) no_address_yet = None.
Proof.
  split.
  - apply (get_internal_ip_picks_first_usable 16 two_interfaces
             no_address_yet).
    + lia.
    + reflexivity.
    + reflexivity.
    + reflexivity.
    + apply two_interfaces_32bit.
  - apply (get_internal_ip_picks_first_usable 16 null_interface
             no_address_yet).
    + lia.
    + reflexivity.
    + reflexivity.
    + reflexivity.
    + apply null_interface_32bit.
Defined.

(** ** [o2n_initialize] and [o2n_finish] *)

(** Computations over all the globals; the reactor's computations are
    lifted. *)
Definition MM (A : Type) : Type := globals → option (A * globals).

Global Instance MM_ret : MRet MM := λ A a s, Some (a, s).
Global Instance MM_bind : MBind MM := λ A B k m s,
  match m s with Some (a, s') => k a s' | None => None end.

Definition lift {A} (m : M A) : MM A := λ s,
  match m (core s) with
  | Some (a, c) => Some (a, upd_core (λ _, c) s)
  | None => None
  end.
Definition mmodify (g : globals → globals) : MM unit := λ s, Some (tt, g s).
Definition mgets {A} (g : globals → A) : MM A := λ s, Some (g s, s).
Definition mtry (m : globals → option globals) : MM unit := λ s,
  match m s with Some s' => Some (tt, s') | None => None end.

(** [o2n_udp_send_socket_new]; [fresh_sock] is what [socket()] hands out
    ([None] for [INVALID_SOCKET]). *)
Definition o2n_udp_send_socket_new (fresh_sock : option (Z * ksock)) : M Z :=
  match fresh_sock with
  | None => perror "allocating udp send socket" ;;; ret INVALID_SOCKET
  | Some (s, k) => modify (upd_kernel <[s := k]>) ;;; ret s
  end.

(** [o2n_broadcast_socket_new]; [so_broadcast] tells whether
    [setsockopt(SO_BROADCAST)] succeeds. *)
Definition o2n_broadcast_socket_new (fresh_sock : option (Z * ksock))
  (so_broadcast : bool) : M Z :=
  sock <- o2n_udp_send_socket_new fresh_sock ;;
  if sock =? INVALID_SOCKET then ret sock
  else if negb so_broadcast then
    perror "Set socket to broadcast" ;;;
    o2_closesocket sock ;;;
    ret INVALID_SOCKET
  else ret sock.

(** [inet_pton(AF_INET, src, dst)] for the two literals the module
    passes. *)
Definition inet_pton (src : string) : option Z :=
  if String.eqb src "255.255.255.255" then Some 4294967295
  else if String.eqb src "127.0.0.1" then Some 2130706433
  else None.

(** [Vec::finish] and [Vec::init] leave an empty vector. *)
Definition o2n_finish : MM unit :=
  lift (modify (upd_fds_info (λ _, []))) ;;
  lift (modify (upd_fds (λ _, []))) ;;
  us ← lift (gets o2n_udp_send_sock);
  (if negb (us =? INVALID_SOCKET) then
     lift (o2_closesocket us ;;; modify (set_udp_send_sock INVALID_SOCKET))
   else mret tt) ;;
  bs ← lift (gets o2n_broadcast_sock);
  (if negb (bs =? INVALID_SOCKET) then
     lift (o2_closesocket bs ;;; modify (set_broadcast_sock INVALID_SOCKET))
   else mret tt) ;;
  mmodify (set_network_found false).

(** What the operating system answers during [o2n_initialize]. *)
Record init_env := Init_env {
  env_ifap : option (list ifaddrs);
  env_broadcast_sock : option (Z * ksock);
  env_so_broadcast : bool;
  env_udp_sock : option (Z * ksock)
}.

Section Initialize.

Variable O2_IP_LEN : nat.

Definition o2n_initialize (env : init_env) : MM O2err :=
  mmodify (set_network_found false) ;;
  enabled ← mgets o2n_network_enabled;
  early ←
    (if enabled : bool then
       mmodify (set_internal_ip "") ;;
       mmodify (set_public_ip "") ;;
       mtry (get_internal_ip O2_IP_LEN (env_ifap env)) ;;
       match inet_pton "255.255.255.255" with
       | None => mret (Some O2_FAIL)
       | Some a =>
           lift (modify (λ st,
             set_broadcast_to_addr
               (Addr a (sin_port (o2n_broadcast_to_addr st))) st)) ;;
           sock ← lift (o2n_broadcast_socket_new (env_broadcast_sock env)
                          (env_so_broadcast env));
           lift (modify (set_broadcast_sock sock)) ;;
           if sock =? INVALID_SOCKET then mret (Some O2_FAIL) else mret None
       end
     else
       mmodify (set_public_ip "00000000") ;;
       mmodify (set_internal_ip "7f000001") ;;
       mret None);
  match early with
  | Some e => mret e
  | None =>
      match inet_pton "127.0.0.1" with
      | None => mret O2_FAIL
      | Some a =>
          lift (modify (λ st,
            set_local_to_addr (Addr a (sin_port (local_to_addr st))) st)) ;;
          sock ← lift (o2n_udp_send_socket_new (env_udp_sock env));
          lift (modify (set_udp_send_sock sock)) ;;
          if sock =? INVALID_SOCKET then
            o2n_finish ;; mret O2_FAIL
          else
            lift (modify (upd_fds (λ _, []))) ;;
            lift (modify (upd_fds_info (λ _, []))) ;;
            mret O2_SUCCESS
      end
  end.

End Initialize.

(** The interface list makes [get_internal_ip] dereference a NULL
    [ifa_addr]. *)
Definition null_reached (ifap : option (list ifaddrs)) : bool :=
  match ifap with
  | Some ifa => has_null (visited ifa)
  | None => false
  end.

Definition addresses_ok (ifap : option (list ifaddrs)) : Prop :=
  match ifap with
  | Some ifa => addresses_32bit ifa
  | None => True
  end.

Lemma get_internal_ip_effect n ifap s :
  (9 ≤ n)%nat → addresses_ok ifap →
  cstr_empty (o2n_internal_ip s) = true →
  o2n_network_found s = false → o2n_network_enabled s = true →
  if null_reached ifap then get_internal_ip n ifap s = None
  else ∃ s1, get_internal_ip n ifap s = Some s1 ∧
             (core s1 = core s
              ∨ core s1 = emit (EvPerror "getting IP address") (core s)).
Proof.
  intros Hn Hok Hip Hfound Hen.
  destruct ifap as [ifa|]; cbn [null_reached].
  - destruct (get_internal_ip_picks_first_usable n ifa s Hn Hip Hfound Hen
                Hok) as [-> _].
    destruct (has_null (visited ifa)); [done|].
    eexists. split; [done|]. left.
    destruct (first_usable ifa); by destruct s.
  - unfold get_internal_ip. rewrite Hip, Hfound, Hen. cbn [negb].
    eexists. split; [done|]. right. by destruct s.
Qed.

(** [o2n_initialize] succeeds when the UDP send socket can be allocated
    and, with networking enabled, the broadcast socket can be allocated
    and set to broadcast. *)
Definition init_succeeds (enabled : bool) (env : init_env) : bool :=
  match env_udp_sock env with Some _ => true | None => false end
  && (negb enabled
      || (match env_broadcast_sock env with Some _ => true | None => false end
          && env_so_broadcast env)).

(** [o2n_initialize] started with no utility socket open.  With
    networking enabled it looks up the internal address first, and
    dereferences a NULL [ifa_addr] if the interface list has one before
    its first usable address.  Otherwise it returns O2_SUCCESS exactly
    when the sockets it needs can be set up, with the UDP send socket
    open and recorded, the broadcast socket too when networking is
    enabled, and the registry empty; or it returns O2_FAIL and leaves no
    socket behind: the kernel has the sockets it had before the call (a
    broadcast socket opened before the failure has been closed again) and
    both globals are INVALID_SOCKET. *)
Theorem initialize_all_or_nothing n env s :
  (9 ≤ n)%nat →
  o2n_udp_send_sock (core s) = INVALID_SOCKET →
  o2n_broadcast_sock (core s) = INVALID_SOCKET →
  addresses_ok (env_ifap env) →
  (∀ b kb, env_broadcast_sock env = Some (b, kb) →
     b ≠ INVALID_SOCKET ∧ kernel (core s) !! b = None) →
  (∀ u ku, env_udp_sock env = Some (u, ku) →
     u ≠ INVALID_SOCKET ∧ kernel (core s) !! u = None) →
  (∀ b kb u ku, env_broadcast_sock env = Some (b, kb) →
     env_udp_sock env = Some (u, ku) → b ≠ u) →
  if o2n_network_enabled s && null_reached (env_ifap env)
  then o2n_initialize n env s = None
  else
    ∃ r s',
      o2n_initialize n env s = Some (r, s') ∧
      r = (if init_succeeds (o2n_network_enabled s) env
           then O2_SUCCESS else O2_FAIL) ∧
      ((r = O2_SUCCESS ∧
        o2n_fds (core s') = [] ∧ o2n_fds_info (core s') = [] ∧
        (∃ u ku, env_udp_sock env = Some (u, ku) ∧
                 o2n_udp_send_sock (core s') = u ∧
                 kernel (core s') !! u = Some ku) ∧
        (o2n_network_enabled s = true →
         ∃ b kb, env_broadcast_sock env = Some (b, kb) ∧
                 env_so_broadcast env = true ∧
                 o2n_broadcast_sock (core s') = b ∧
                 kernel (core s') !! b = Some kb))
       ∨ (r = O2_FAIL ∧ kernel (core s') = kernel (core s) ∧
          o2n_udp_send_sock (core s') = INVALID_SOCKET ∧
          o2n_broadcast_sock (core s') = INVALID_SOCKET)).
Proof.
  intros Hn Hus Hbs Hifs Hb Hu Hbu.
  destruct env as [ifap bsock sob usock]. cbn in Hifs, Hb, Hu, Hbu.
  unfold o2n_initialize, init_succeeds.
  cbn [env_ifap env_broadcast_sock env_so_broadcast env_udp_sock].
  unfold mbind, MM_bind, mret, MM_ret, mmodify, mgets, mtry.
  replace (o2n_network_enabled (set_network_found false s))
    with (o2n_network_enabled s) by done.
  destruct (o2n_network_enabled s) eqn:Hen; cbn [andb negb orb].
  - set (s0 := set_public_ip "" (set_internal_ip ""
                 (set_network_found false s))).
    pose proof (get_internal_ip_effect n ifap s0 Hn Hifs) as Hget.
    destruct (null_reached ifap).
    { by rewrite Hget by (done || by destruct s). }
    destruct Hget as (s1 & -> & Hcore); [done|done|by destruct s|].
    assert (Hk1 : kernel (core s1) = kernel (core s))
      by (destruct Hcore as [-> | ->]; by destruct s as [[] ? ? ? ? ?]).
    assert (Hus1 : o2n_udp_send_sock (core s1) = INVALID_SOCKET)
      by (destruct Hcore as [-> | ->]; by destruct s as [[] ? ? ? ? ?]).
    assert (Hbs1 : o2n_broadcast_sock (core s1) = INVALID_SOCKET)
      by (destruct Hcore as [-> | ->]; by destruct s as [[] ? ? ? ? ?]).
    clear Hcore. destruct s1 as [c1 en1 f1 pub1 int1 sa1].
    destruct c1 as [fds infos hp flag us bs la ba al er kn tr].
    cbn in Hk1, Hus1, Hbs1. subst us bs kn.
    change (inet_pton "255.255.255.255") with (Some 4294967295).
    change (inet_pton "127.0.0.1") with (Some 2130706433).
    destruct bsock as [[b kb]|].
    + destruct (Hb b kb eq_refl) as [Hbv Hbk].
      destruct sob.
      * (* broadcast socket open *)
        destruct usock as [[u ku]|].
        -- destruct (Hu u ku eq_refl) as [Huv Huk].
           specialize (Hbu b kb u ku eq_refl eq_refl).
           unfold lift, o2n_broadcast_socket_new, o2n_udp_send_socket_new,
             o2_closesocket, perror, bind, modify, ret, gets. cbn.
           destruct (Z.eqb_spec b INVALID_SOCKET) as [|_]; [done|]. cbn.
           destruct (Z.eqb_spec b INVALID_SOCKET) as [|_]; [done|]. cbn.
           destruct (Z.eqb_spec u INVALID_SOCKET) as [|_]; [done|]. cbn.
           eexists _, _. split; [done|]. split; [done|]. left. cbn.
           split; [done|]. split; [done|]. split; [done|].
           split.
           { exists u, ku. split; [done|]. split; [done|].
             apply lookup_insert_eq. }
           intros _. exists b, kb. split; [done|]. split; [done|].
           split; [done|]. rewrite lookup_insert_ne by done.
           apply lookup_insert_eq.
        -- unfold lift, o2n_broadcast_socket_new, o2n_udp_send_socket_new,
             o2n_finish, mbind, MM_bind, mret, MM_ret, mmodify, lift,
             o2_closesocket, perror, bind, modify, ret, gets. cbn.
           destruct (Z.eqb_spec b INVALID_SOCKET) as [|_]; [done|]. cbn.
           destruct (Z.eqb_spec b INVALID_SOCKET) as [|_]; [done|]. cbn.
           destruct (Z.eqb_spec b INVALID_SOCKET) as [|_]; [done|]. cbn.
           eexists _, _. split; [done|]. split; [done|]. right. cbn.
           split; [done|]. split; [|done].
           by rewrite delete_insert_id.
      * unfold lift, o2n_broadcast_socket_new, o2n_udp_send_socket_new,
          o2_closesocket, perror, bind, modify, ret, gets. cbn.
        destruct (Z.eqb_spec b INVALID_SOCKET) as [|_]; [done|]. cbn.
        eexists _, _. split; [done|].
        split; [by destruct usock as [[? ?]|]|]. right. cbn.
        split; [done|]. split; [|done]. by rewrite delete_insert_id.
    + unfold lift, o2n_broadcast_socket_new, o2n_udp_send_socket_new,
        o2_closesocket, perror, bind, modify, ret, gets. cbn.
      eexists _, _. split; [done|].
      split; [by destruct usock as [[? ?]|]|]. right. by cbn.
  - change (inet_pton "127.0.0.1") with (Some 2130706433).
    destruct s as [c en f pub int sa].
    destruct c as [fds infos hp flag us bs la ba al er kn tr].
    cbn in Hus, Hbs, Hu, Hb. subst us bs.
    destruct usock as [[u ku]|].
    + destruct (Hu u ku eq_refl) as [Huv Huk].
      unfold lift, o2n_udp_send_socket_new, bind, modify, ret. cbn.
      destruct (Z.eqb_spec u INVALID_SOCKET) as [|_]; [done|]. cbn.
      eexists _, _. split; [done|]. split; [done|]. left. cbn.
      split; [done|]. split; [done|]. split; [done|].
      split; [|done].
      exists u, ku. split; [done|]. split; [done|]. apply lookup_insert_eq.
    + unfold lift, o2n_udp_send_socket_new, o2n_finish, mbind, MM_bind,
        mret, MM_ret, mmodify, lift, o2_closesocket, perror, bind, modify,
        ret, gets. cbn.
      eexists _, _. split; [done|]. split; [done|]. right. by cbn.
Qed.

(** The module before its first initialisation; an environment in which
    everything can be set up, one in which the UDP send socket cannot be
    allocated, and one whose interface list has an entry without address
    in front of the usable one. *)
Definition cold_start : globals :=
  Globals (Net [] [] ∅ false INVALID_SOCKET INVALID_SOCKET (Addr 0 0)
             (Addr 0 0) true ENONE ∅ [])
    true false "" "" (Addr 0 0).
Definition all_available : init_env :=
  Init_env (Some two_interfaces) (Some (7, ksock0)) true (Some (8, ksock0)).
Definition no_udp_socket : init_env :=
  Init_env (Some two_interfaces) (Some (7, ksock0)) true None.
Definition null_address : init_env :=
  Init_env (Some null_interface) (Some (7, ksock0)) true (Some (8, ksock0)).

Lemma initialize_all_or_nothing_witness :
  (∃ s', o2n_initialize 16 all_available cold_start
           = Some (O2_SUCCESS, s') ∧
         o2n_udp_send_sock (core s') = 8 ∧
         o2n_broadcast_sock (core s') = 7 ∧
         kernel (core s') !! 8 = Some ksock0 ∧
         kernel (core s') !! 7 = Some ksock0) ∧
  (∃ s', o2n_initialize 16 no_udp_socket cold_start = Some (O2_FAIL, s') ∧
         kernel (core s') = kernel (core cold_start) ∧
         o2n_udp_send_sock (core s') = INVALID_SOCKET ∧
         o2n_broadcast_sock (core s') = INVALID_SOCKET) ∧
  o2n_initialize 16 null_address cold_start = None.
Proof.
  split; [|split].
  - destruct (initialize_all_or_nothing 16 all_available cold_start)
      as (r & s' & Hrun & -> & [(_ & _ & _ & Hu & Hb) | ([=] & _)]).
    + lia.
    + reflexivity.
    + reflexivity.
    + apply two_interfaces_32bit.
    + intros b kb [= <- <-]. split; [discriminate|reflexivity].
    + intros u ku [= <- <-]. split; [discriminate|reflexivity].
    + intros b kb u ku [= <- <-] [= <- <-]. discriminate.
    + destruct Hu as (u & ku & [= <- <-] & Hu1 & Hu2).
      destruct (Hb eq_refl) as (b & kb & [= <- <-] & _ & Hb1 & Hb2).
      exists s'. split; [exact Hrun|]. split; [exact Hu1|].
      split; [exact Hb1|]. split; [exact Hu2|exact Hb2].
  - destruct (initialize_all_or_nothing 16 no_udp_socket cold_start)
      as (r & s' & Hrun & -> & [([=] & _) | (_ & Hk & Hu & Hb)]).
    + lia.
    + reflexivity.
    + reflexivity.
    + apply two_interfaces_32bit.
    + intros b kb [= <- <-]. split; [discriminate|reflexivity].
    + intros u ku [=].
    + intros b kb u ku _ [=].
    + exists s'. split; [exact Hrun|]. split; [exact Hk|].
      split; [exact Hu|exact Hb].
  - apply (initialize_all_or_nothing 16 null_address cold_start).
    + lia.
    + reflexivity.
    + reflexivity.
    + apply null_interface_32bit.
    + intros b kb [= <- <-]. split; [discriminate|reflexivity].
    + intros u ku [= <- <-]. split; [discriminate|reflexivity].
    + intros b kb u ku [= <- <-] [= <- <-]. discriminate.
Defined.

(** [o2n_finish] empties the registry and closes the two utility sockets
    that are open; it does not close the sockets of connections that are
    still registered, nor destroy their objects.  Calling it again
    changes nothing. *)
Theorem finish_closes_utility_sockets s :
  let closed (sock : Z) (st : net) :=
    if sock =? INVALID_SOCKET then st
    else emit (EvClose sock) (upd_kernel (delete sock) st) in
  let c :=
    set_broadcast_sock INVALID_SOCKET
      (closed (o2n_broadcast_sock (core s))
         (set_udp_send_sock INVALID_SOCKET
            (closed (o2n_udp_send_sock (core s))
               (upd_fds (λ _, []) (upd_fds_info (λ _, []) (core s)))))) in
  let s' := set_network_found false (upd_core (λ _, c) s) in
  o2n_finish s = Some (tt, s') ∧ heap (core s') = heap (core s) ∧
  o2n_finish s' = Some (tt, s').
Proof.
  destruct s as [c en f pub int sa].
  destruct c as [fds infos hp flag us bs la ba al er kn tr].
  cbv zeta. cbn [core o2n_broadcast_sock o2n_udp_send_sock].
  unfold o2n_finish, mbind, MM_bind, mret, MM_ret, mmodify, lift,
    o2_closesocket, bind, modify, ret, gets.
  cbn [core upd_core upd_fds upd_fds_info o2n_udp_send_sock
       o2n_broadcast_sock o2n_fds o2n_fds_info heap o2n_socket_delete_flag
       local_to_addr o2n_broadcast_to_addr o2_ensemble_name errno kernel
       trace].
  destruct (Z.eqb_spec us INVALID_SOCKET) as [->|Hus],
           (Z.eqb_spec bs INVALID_SOCKET) as [->|Hbs];
    cbn; rewrite ?(proj2 (Z.eqb_neq _ _) Hbs); cbn; done.
Qed.

(** ** Server sockets *)

(** What the operating system answers while a receive socket is set up:
    whether [setsockopt(SO_REUSEADDR)], [bind] and [listen] succeed, and
    the port that [getsockname] reports ([None] when it fails). *)
Record bind_env := Bind_env {
  env_reuseaddr : bool;
  env_bind : bool;
  env_getsockname : option Z;
  env_listen : bool
}.

(** The 16 bits that [htons] stores in [sin_port]. *)
Definition htons (port : Z) : Z := port mod 2 ^ 16.

(** [bind_recv_socket]; the result comes with the final value of
    [*port]. *)
Definition bind_recv_socket (env : bind_env) (sock : Z) (port : Z)
  (tcp_recv_flag reuse : bool) : MM (O2err * Z) :=
  mmodify (set_serv_addr (Addr 0 (htons port))) ;;
  if reuse && negb (env_reuseaddr env) then
    lift (perror "setsockopt(SO_REUSEADDR)") ;; mret (O2_FAIL, port)
  else if negb (env_bind env) then
    lift (when tcp_recv_flag (perror "Bind receive socket")) ;;
    mret (O2_FAIL, port)
  else
    r ← (if port =? 0 then
           match env_getsockname env with
           | None =>
               lift (perror "getsockname call to get port number") ;;
               mret None
           | Some assigned =>
               mmodify (set_serv_addr (Addr 0 (htons assigned))) ;;
               mret (Some (htons assigned))
           end
         else mret (Some port));
    match r with
    | None => mret (O2_FAIL, port)
    | Some port' =>
        lift (assert (negb (port' =? 0))) ;;
        mret (O2_SUCCESS, port')
    end.

Definition create_tcp_server (fresh_sock : option (Z * ksock))
  (env : bind_env) (port : Z) : MM (option ptr) :=
  sock ← lift (o2n_tcp_socket_new fresh_sock);
  if sock =? INVALID_SOCKET then mret None
  else
    b ← bind_recv_socket env sock port true true;
    if negb (bool_decide (fst b = O2_SUCCESS)) || negb (env_listen env) then
      lift (o2_closesocket sock) ;; mret None
    else
      info ← lift (Fds_info_new sock NET_TCP_SERVER (snd b));
      mret (Some info).

Definition create_udp_server (fresh_sock : option (Z * ksock))
  (env : bind_env) (port : Z) (reuse : bool) : MM (option ptr * Z) :=
  match fresh_sock with
  | None => mret (None, port)
  | Some (sock, k) =>
      lift (modify (upd_kernel <[sock := k]>)) ;;
      b ← bind_recv_socket env sock port false reuse;
      if negb (bool_decide (fst b = O2_SUCCESS)) then
        lift (o2_closesocket sock) ;; mret (None, snd b)
      else
        info ← lift (Fds_info_new sock NET_UDP_SERVER (snd b));
        mret (Some info, snd b)
  end.

(** [c'] has the registry, the objects and the kernel sockets of [c]. *)
Definition same_sockets (c c' : net) : Prop :=
  o2n_fds c' = o2n_fds c ∧ o2n_fds_info c' = o2n_fds_info c ∧
  heap c' = heap c ∧ kernel c' = kernel c.

(** The system calls that [bind_recv_socket] makes all succeed:
    [setsockopt(SO_REUSEADDR)], made only if [reuse] is set, [bind], and
    [getsockname], made only for port 0. *)
Definition calls_succeed (env : bind_env) (reuse : bool) (port : Z) : bool :=
  (negb reuse || env_reuseaddr env) && env_bind env
  && (negb (port =? 0)
      || match env_getsockname env with Some _ => true | None => false end).

(** The value of [*port] after these calls: the port asked for or, for
    port 0, the one that [getsockname] reports. *)
Definition bound_port (env : bind_env) (port : Z) : Z :=
  if port =? 0 then
    match env_getsockname env with Some a => htons a | None => 0 end
  else port.

(** [bind_recv_socket] returns O2_SUCCESS exactly when its system calls
    succeed; if they do and the port is still 0 the assertion
    [*port != 0] fails.  On failure [*port] is unchanged. *)
Lemma bind_recv_socket_run env sock port tcp reuse s :
  if calls_succeed env reuse port && (bound_port env port =? 0)
  then bind_recv_socket env sock port tcp reuse s = None
  else
    ∃ s',
      bind_recv_socket env sock port tcp reuse s
      = Some (if calls_succeed env reuse port
              then (O2_SUCCESS, bound_port env port) else (O2_FAIL, port),
              s') ∧
      o2_serv_addr s'
      = Addr 0 (htons (if calls_succeed env reuse port
                       then bound_port env port else port)) ∧
      (if calls_succeed env reuse port then core s' = core s
       else same_sockets (core s) (core s')).
Proof.
  destruct env as [ra bd gs ls]. destruct s as [c en f pub int sa].
  unfold bind_recv_socket, calls_succeed, bound_port, mbind, MM_bind, mret,
    MM_ret, mmodify, lift, perror, modify, assert, ret, abort.
  cbn [env_reuseaddr env_bind env_getsockname env_listen].
  destruct (reuse && negb ra) eqn:Hre.
  { replace (negb reuse || ra) with false by (by destruct reuse, ra).
    cbn [andb]. eexists. split; [reflexivity|]. split; [reflexivity|].
    by destruct c. }
  replace (negb reuse || ra) with true by (by destruct reuse, ra).
  cbn [andb]. destruct bd; cbn [andb negb].
  2: { destruct tcp; eexists; (split; [reflexivity|]);
         (split; [reflexivity|]); by destruct c. }
  destruct (Z.eqb_spec port 0) as [->|Hp]; cbn [negb orb andb].
  - destruct gs as [a|]; cbn [andb].
    + destruct (Z.eqb_spec (htons a) 0) as [Hz|Hz]; cbn [negb]; [done|].
      eexists. split; [reflexivity|]. split; [|done].
      cbn. unfold htons. by rewrite Z.mod_mod by lia.
    + eexists. split; [reflexivity|]. split; [reflexivity|]. by destruct c.
  - rewrite !(proj2 (Z.eqb_neq _ _) Hp). cbn [negb].
    eexists. split; [reflexivity|]. split; done.
Qed.

(** [create_tcp_server] either sets up and registers a listening socket or
    leaves nothing behind.  If no socket can be allocated it returns NULL.
    Otherwise, if [setsockopt(SO_REUSEADDR)], [bind] and [getsockname]
    (asked only for port 0) succeed but the port is still 0, the
    assertion of [bind_recv_socket] fails.  Otherwise it succeeds exactly
    when these calls and [listen] all succeed: the socket, bound to the
    low 16 bits of the port, is then registered as a NET_TCP_SERVER polled
    for input, under the requested port or, for port 0, the one the system
    assigned, and the registry stays consistent.  In every other case it
    returns NULL, the socket it made is closed again, and the registry and
    the objects are untouched. *)
Theorem create_tcp_server_all_or_nothing fresh_sock env port s :
  inv (core s) →
  (∀ sock k, fresh_sock = Some (sock, k) →
     sock ≠ INVALID_SOCKET ∧ kernel (core s) !! sock = None) →
  match fresh_sock with
  | None =>
      ∃ s', create_tcp_server fresh_sock env port s = Some (None, s') ∧
            same_sockets (core s) (core s')
  | Some (sock, k) =>
      if calls_succeed env true port && (bound_port env port =? 0)
      then create_tcp_server fresh_sock env port s = None
      else if calls_succeed env true port && env_listen env
      then
        ∃ s', create_tcp_server fresh_sock env port s
              = Some (Some (fresh (dom (heap (core s)))), s') ∧
              core s' = registered sock NET_TCP_SERVER (bound_port env port)
                          (upd_kernel <[sock := k]> (core s)) ∧
              o2_serv_addr s' = Addr 0 (htons (bound_port env port)) ∧
              inv (core s')
      else
        ∃ s', create_tcp_server fresh_sock env port s = Some (None, s') ∧
              same_sockets (core s) (core s')
  end.
Proof.
  intros Hinv Hfresh.
  destruct fresh_sock as [[sock k]|].
  - destruct (Hfresh sock k eq_refl) as [Hs Hk].
    set (s1 := upd_core (λ _, upd_kernel <[sock := k]> (core s)) s).
    assert (Hrun0 : create_tcp_server (Some (sock, k)) env port s =
      match bind_recv_socket env sock port true true s1 with
      | Some (b, s2) =>
          (if negb (bool_decide (fst b = O2_SUCCESS))
              || negb (env_listen env)
           then lift (o2_closesocket sock) ;; mret None
           else info ← lift (Fds_info_new sock NET_TCP_SERVER (snd b));
                mret (Some info)) s2
      | None => None
      end).
    { unfold create_tcp_server. unfold mbind at 1, MM_bind at 1, lift at 1.
      unfold o2n_tcp_socket_new, bind, modify, ret.
      by destruct (Z.eqb_spec sock INVALID_SOCKET). }
    rewrite Hrun0. clear Hrun0.
    pose proof (bind_recv_socket_run env sock port true true s1) as Hrun.
    destruct (calls_succeed env true port && (bound_port env port =? 0));
      [by rewrite Hrun|].
    destruct Hrun as (s2 & -> & Haddr & Hcore).
    destruct (calls_succeed env true port); cbn [fst snd andb].
    + rewrite bool_decide_eq_true_2 by done. cbn [negb orb].
      destruct (env_listen env) eqn:Hlisten; cbn [negb].
      * unfold mbind, MM_bind, mret, MM_ret, lift.
        rewrite Hcore. replace (core s1) with
          (upd_kernel <[sock := k]> (core s)) by by destruct s.
        rewrite Fds_info_new_run by done.
        eexists. split; [by destruct s as [[] ? ? ? ? ?]|].
        split; [by destruct s2|]. split; [by destruct s2|].
        replace (core (upd_core _ s2)) with
          (registered sock NET_TCP_SERVER (bound_port env port)
             (upd_kernel <[sock := k]> (core s))) by by destruct s2.
        apply inv_registered; [|done]. by apply inv_upd_kernel.
      * unfold mbind, MM_bind, mret, MM_ret, lift, o2_closesocket, modify.
        eexists. split; [reflexivity|].
        rewrite Hcore. destruct s as [[] ? ? ? ? ?]. cbn in *.
        repeat split; try reflexivity. cbn. by rewrite delete_insert_id.
    + rewrite bool_decide_eq_false_2 by done. cbn [negb orb].
      unfold mbind, MM_bind, mret, MM_ret, lift, o2_closesocket, modify.
      eexists. split; [reflexivity|].
      destruct Hcore as (H1 & H2 & H3 & H4).
      destruct s as [[] ? ? ? ? ?], s2 as [[] ? ? ? ? ?]. cbn in *.
      subst. repeat split; try reflexivity. cbn. by rewrite delete_insert_id.
  - unfold create_tcp_server. unfold mbind at 1, MM_bind at 1, lift at 1.
    unfold o2n_tcp_socket_new, bind, modify, ret. cbn.
    eexists. split; [reflexivity|].
    by destruct s as [[] ? ? ? ? ?].
Qed.

Lemma cold_start_inv : inv (core cold_start).
Proof.
  split; [split; [done|]|]; intros i p; cbn; by rewrite lookup_nil.
Qed.

(** A system that assigns port 49152; one on which [listen] fails; one
    that reports port 0 as the port assigned. *)
Definition any_port : bind_env := Bind_env true true (Some 49152) true.
Definition no_listen : bind_env := Bind_env true true (Some 49152) false.
Definition port_zero : bind_env := Bind_env true true (Some 65536) true.

Lemma fresh_socket_5 sock k :
  Some (5, ksock0) = Some (sock, k) →
  sock ≠ INVALID_SOCKET ∧ kernel (core cold_start) !! sock = None.
Proof. intros [= <- <-]. split; [discriminate|reflexivity]. Qed.

Lemma create_tcp_server_all_or_nothing_witness :
  (∃ s', create_tcp_server (Some (5, ksock0)) any_port 0 cold_start
         = Some (Some (fresh (dom (heap (core cold_start)))), s') ∧
         core s' = registered 5 NET_TCP_SERVER 49152
                     (upd_kernel <[5 := ksock0]> (core cold_start)) ∧
         o2_serv_addr s' = Addr 0 49152 ∧
         inv (core s')) ∧
  (∃ s', create_tcp_server (Some (5, ksock0)) no_listen 8000 cold_start
         = Some (None, s') ∧
         same_sockets (core cold_start) (core s')) ∧
  create_tcp_server (Some (5, ksock0)) port_zero 0 cold_start = None.
Proof.
  split; [|split].
  - apply (create_tcp_server_all_or_nothing (Some (5, ksock0)) any_port 0
             cold_start); [exact cold_start_inv|exact fresh_socket_5].
  - apply (create_tcp_server_all_or_nothing (Some (5, ksock0)) no_listen 8000
             cold_start); [exact cold_start_inv|exact fresh_socket_5].
  - apply (create_tcp_server_all_or_nothing (Some (5, ksock0)) port_zero 0
             cold_start); [exact cold_start_inv|exact fresh_socket_5].
Defined.

(** [create_udp_server] either sets up and registers a UDP receive socket
    or leaves nothing behind, like [create_tcp_server]; there is no
    [listen].  It succeeds exactly when a socket can be allocated and
    [setsockopt(SO_REUSEADDR)] (called only if [reuse] is set), [bind] and
    [getsockname] (asked only for port 0) succeed with a port that is not
    0.  The port written back through [port] is the one the socket is
    registered under; it is unchanged on failure.  Without [reuse] the
    outcome does not depend on what [setsockopt(SO_REUSEADDR)] would
    answer. *)
Theorem create_udp_server_all_or_nothing fresh_sock env port reuse s :
  inv (core s) →
  (∀ sock k, fresh_sock = Some (sock, k) →
     sock ≠ INVALID_SOCKET ∧ kernel (core s) !! sock = None) →
  match fresh_sock with
  | None => create_udp_server fresh_sock env port reuse s
            = Some ((None, port), s)
  | Some (sock, k) =>
      if calls_succeed env reuse port && (bound_port env port =? 0)
      then create_udp_server fresh_sock env port reuse s = None
      else if calls_succeed env reuse port
      then
        ∃ s', create_udp_server fresh_sock env port reuse s
              = Some ((Some (fresh (dom (heap (core s)))),
                       bound_port env port), s') ∧
              core s' = registered sock NET_UDP_SERVER (bound_port env port)
                          (upd_kernel <[sock := k]> (core s)) ∧
              o2_serv_addr s' = Addr 0 (htons (bound_port env port)) ∧
              inv (core s')
      else
        ∃ s', create_udp_server fresh_sock env port reuse s
              = Some ((None, port), s') ∧
              same_sockets (core s) (core s')
  end ∧
  (reuse = false →
   ∀ answer,
     create_udp_server fresh_sock
       (Bind_env answer (env_bind env) (env_getsockname env)
          (env_listen env)) port reuse s
     = create_udp_server fresh_sock env port reuse s).
Proof.
  intros Hinv Hfresh. split.
  2: { intros -> answer. destruct env as [ra bd gs ls].
       unfold create_udp_server, bind_recv_socket.
       by cbn [env_reuseaddr env_bind env_getsockname env_listen andb]. }
  destruct fresh_sock as [[sock k]|]; [|done].
  destruct (Hfresh sock k eq_refl) as [Hs Hk].
  set (s1 := upd_core (λ _, upd_kernel <[sock := k]> (core s)) s).
  assert (Hrun0 : create_udp_server (Some (sock, k)) env port reuse s =
    match bind_recv_socket env sock port false reuse s1 with
    | Some (b, s2) =>
        (if negb (bool_decide (fst b = O2_SUCCESS))
         then lift (o2_closesocket sock) ;; mret (None, snd b)
         else info ← lift (Fds_info_new sock NET_UDP_SERVER (snd b));
              mret (Some info, snd b)) s2
    | None => None
    end) by done.
  rewrite Hrun0. clear Hrun0.
  pose proof (bind_recv_socket_run env sock port false reuse s1) as Hrun.
  destruct (calls_succeed env reuse port && (bound_port env port =? 0));
    [by rewrite Hrun|].
  destruct Hrun as (s2 & -> & Haddr & Hcore).
  destruct (calls_succeed env reuse port); cbn [fst snd].
  - rewrite bool_decide_eq_true_2 by done. cbn [negb].
    unfold mbind, MM_bind, mret, MM_ret, lift.
    rewrite Hcore. replace (core s1) with
      (upd_kernel <[sock := k]> (core s)) by by destruct s.
    rewrite Fds_info_new_run by done.
    eexists. split; [by destruct s as [[] ? ? ? ? ?]|].
    split; [by destruct s2|]. split; [by destruct s2|].
    replace (core (upd_core _ s2)) with
      (registered sock NET_UDP_SERVER (bound_port env port)
         (upd_kernel <[sock := k]> (core s))) by by destruct s2.
    apply inv_registered; [|done]. by apply inv_upd_kernel.
  - rewrite bool_decide_eq_false_2 by done. cbn [negb].
    unfold mbind, MM_bind, mret, MM_ret, lift, o2_closesocket, modify.
    eexists. split; [reflexivity|].
    destruct Hcore as (H1 & H2 & H3 & H4).
    destruct s as [[] ? ? ? ? ?], s2 as [[] ? ? ? ? ?]. cbn in *.
    subst. repeat split; try reflexivity. cbn. by rewrite delete_insert_id.
Qed.

(** A system on which [setsockopt(SO_REUSEADDR)] fails. *)
Definition no_reuseaddr : bind_env := Bind_env false true (Some 49152) true.

Lemma create_udp_server_all_or_nothing_witness :
  (∃ s', create_udp_server (Some (5, ksock0)) no_reuseaddr 0 false cold_start
         = Some ((Some (fresh (dom (heap (core cold_start)))), 49152), s') ∧
         core s' = registered 5 NET_UDP_SERVER 49152
                     (upd_kernel <[5 := ksock0]> (core cold_start)) ∧
         o2_serv_addr s' = Addr 0 49152 ∧
         inv (core s')) ∧
  (∃ s', create_udp_server (Some (5, ksock0)) no_reuseaddr 8000 true
           cold_start
         = Some ((None, 8000), s') ∧
         same_sockets (core cold_start) (core s')) ∧
  create_udp_server (Some (5, ksock0)) port_zero 0 false cold_start = None.
Proof.
  split; [|split].
  - destruct (create_udp_server_all_or_nothing (Some (5, ksock0)) no_reuseaddr
                0 false cold_start cold_start_inv fresh_socket_5)
      as [H _].
    exact H.
  - destruct (create_udp_server_all_or_nothing (Some (5, ksock0)) no_reuseaddr
                8000 true cold_start cold_start_inv fresh_socket_5)
      as [H _].
    exact H.
  - destruct (create_udp_server_all_or_nothing (Some (5, ksock0)) port_zero 0
                false cold_start cold_start_inv fresh_socket_5) as [H _].
    exact H.
Defined.

(** * Shared-memory bridge (src/sharedmem.cpp): message queues

    Messages are heap objects linked through their [next] field; the
    embedding keeps them in a store indexed by address, so that the
    in-place list surgery of the code and the life time of each message
    are visible.  [O2queue] (declared in o2atomic.h) is the lock-free
    LIFO the comments of the file describe: [push] links a message in
    front, [grab] takes the whole list and leaves the queue empty.
    [O2time] values are only compared, with each other and with 0. *)

Definition mptr := nat.

Section Sharedmem.

Variable O2time : Type.
Variable time_zero : O2time.
Variable time_eqb : O2time → O2time → bool.
Variable time_ltb : O2time → O2time → bool.

Record O2message := Msg {
  next : option mptr;
  timestamp : O2time;
  address : string
}.

Definition set_next (v : option mptr) (m : O2message) : O2message :=
  Msg v (timestamp m) (address m).
Definition set_address (v : string) (m : O2message) : O2message :=
  Msg (next m) (timestamp m) v.

Inductive sm_event :=
| SmSend (p : mptr) (m : O2message)
| SmDispatch (p : mptr) (t : O2time) (a : string)
| SmFree (p : mptr).

Record shm := Shm {
  mem : gmap mptr O2message;
  o2sm_incoming : option mptr;
  outgoing : option mptr;
  schedule_head : option mptr;
  schedule_tail : option mptr;
  sm_trace : list sm_event
}.

Definition upd_mem (g : gmap mptr O2message → gmap mptr O2message)
  (s : shm) : shm :=
  Shm (g (mem s)) (o2sm_incoming s) (outgoing s) (schedule_head s)
    (schedule_tail s) (sm_trace s).
Definition set_incoming (v : option mptr) (s : shm) : shm :=
  Shm (mem s) v (outgoing s) (schedule_head s) (schedule_tail s) (sm_trace s).
Definition set_outgoing (v : option mptr) (s : shm) : shm :=
  Shm (mem s) (o2sm_incoming s) v (schedule_head s) (schedule_tail s)
    (sm_trace s).
Definition set_schedule_head (v : option mptr) (s : shm) : shm :=
  Shm (mem s) (o2sm_incoming s) (outgoing s) v (schedule_tail s) (sm_trace s).
Definition set_schedule_tail (v : option mptr) (s : shm) : shm :=
  Shm (mem s) (o2sm_incoming s) (outgoing s) (schedule_head s) v (sm_trace s).
Definition sm_emit (e : sm_event) (s : shm) : shm :=
  Shm (mem s) (o2sm_incoming s) (outgoing s) (schedule_head s)
    (schedule_tail s) (sm_trace s ++ [e]).

(** [None] is a run that does not return: an access through a dangling
    or NULL pointer, or exhausted fuel. *)
Definition SM (A : Type) : Type := shm → option (A * shm).

Global Instance SM_ret : MRet SM := λ A a s, Some (a, s).
Global Instance SM_bind : MBind SM := λ A B k m s,
  match m s with Some (a, s') => k a s' | None => None end.

Definition sm_gets {A} (g : shm → A) : SM A := λ s, Some (g s, s).
Definition sm_modify (g : shm → shm) : SM unit := λ s, Some (tt, g s).
Definition sm_abort {A} : SM A := λ _, None.

(** [*p], [p->field = v] and [O2_FREE(p)] for an [O2message_ptr]. *)
Definition sm_load (p : mptr) : SM O2message := λ s,
  match mem s !! p with Some m => Some (m, s) | None => None end.
Definition sm_store (p : mptr) (g : O2message → O2message) : SM unit :=
  m ← sm_load p; sm_modify (upd_mem <[p := g m]>).
Definition sm_free (p : mptr) : SM unit :=
  _ ← sm_load p;
  sm_modify (upd_mem (delete p)) ;; sm_modify (sm_emit (SmFree p)).

(** The two queues of the file. *)
Inductive O2queue := Incoming | Outgoing.

Definition queue_head (q : O2queue) (s : shm) : option mptr :=
  match q with Incoming => o2sm_incoming s | Outgoing => outgoing s end.
Definition set_queue_head (q : O2queue) (v : option mptr) : shm → shm :=
  match q with Incoming => set_incoming v | Outgoing => set_outgoing v end.

Definition push (q : O2queue) (elem : mptr) : SM unit :=
  head ← sm_gets (queue_head q);
  sm_store elem (set_next head) ;;
  sm_modify (set_queue_head q (Some elem)).

Definition grab (q : O2queue) : SM (option mptr) :=
  head ← sm_gets (queue_head q);
  sm_modify (set_queue_head q None) ;;
  mret head.

(** The [while (all)] loop of [get_messages_reversed]; one unit of fuel
    per test of the loop condition. *)
Fixpoint reverse_from (fuel : nat) (all msgs : option mptr)
  : SM (option mptr) :=
  match fuel with
  | O => sm_abort
  | S fuel' =>
      match all with
      | None => mret msgs
      | Some a =>
          m ← sm_load a;
          sm_store a (set_next msgs) ;;
          reverse_from fuel' (next m) (Some a)
      end
  end.

Definition get_messages_reversed (fuel : nat) (head : O2queue)
  : SM (option mptr) :=
  all ← grab head;
  reverse_from fuel all None.

(** [o2_message_send] belongs to another file: it takes the message over
    and reports a status, 0 being O2_SUCCESS. *)
Variable send_status : mptr → O2message → Z.

Definition o2_message_send (p : mptr) : SM Z :=
  m ← sm_load p;
  sm_modify (sm_emit (SmSend p m)) ;;
  sm_modify (upd_mem (delete p)) ;;
  mret (send_status p m).

(** The loop of [O2sm_protocol::bridge_poll]. *)
Fixpoint bridge_poll_from (fuel : nat) (msgs : option mptr) (rslt : Z)
  : SM Z :=
  match fuel with
  | O => sm_abort
  | S fuel' =>
      match msgs with
      | None => mret rslt
      | Some p =>
          m ← sm_load p;
          sm_store p (set_next None) ;;
          err ← o2_message_send p;
          bridge_poll_from fuel' (next m)
            (if negb (rslt =? 0) then err else rslt)
      end
  end.

Definition bridge_poll (fuel : nat) : SM Z :=
  msgs ← get_messages_reversed fuel Incoming;
  bridge_poll_from fuel msgs 0.

(** [O2sm_info::free_outgoing] *)
Fixpoint free_from (fuel : nat) (all : option mptr) : SM unit :=
  match fuel with
  | O => sm_abort
  | S fuel' =>
      match all with
      | None => mret tt
      | Some msg =>
          m ← sm_load msg;
          sm_free msg ;;
          free_from fuel' (next m)
      end
  end.

Definition free_outgoing (fuel : nat) : SM unit :=
  all ← grab Outgoing;
  free_from fuel all.

Definition o2sm_message_send (msg : mptr) : SM Z :=
  push Incoming msg ;; mret 0.

(** [O2sm_info::send]; [msg] is the message that [pre_send] returns. *)
Definition O2sm_info_send (msg : mptr) : SM Z :=
  push Outgoing msg ;; mret 0.

Definition append_to_schedule (msg : mptr) : SM unit :=
  head ← sm_gets schedule_head;
  match head with
  | None =>
      sm_modify (set_schedule_head (Some msg)) ;;
      sm_modify (set_schedule_tail (Some msg))
  | Some _ =>
      tail ← sm_gets schedule_tail;
      match tail with
      | None => sm_abort
      | Some t =>
          sm_store t (set_next (Some msg)) ;;
          sm_store msg (set_next None) ;;
          sm_modify (set_schedule_tail (Some msg))
      end
  end.

(** [address[0] = '/']; the address of a message is padded with NULs to a
    multiple of four bytes, so that an empty address becomes the one
    character. *)
Definition slash_first (a : string) : string :=
  match a with
  | EmptyString => String "/"%char EmptyString
  | String _ rest => String "/"%char rest
  end.

(** [o2sm_dispatch] without O2SM_PATTERNS: the first character of the
    address is overwritten, the handler found for the address, if any, is
    invoked on [msg->data] (the event [SmDispatch]; what the handler does
    is outside this file), and the message is freed. *)
Definition o2sm_dispatch (msg : mptr) : SM Z :=
  sm_store msg (λ m, set_address (slash_first (address m)) m) ;;
  m ← sm_load msg;
  sm_modify (sm_emit (SmDispatch msg (timestamp m) (address m))) ;;
  sm_free msg ;;
  mret 0.

(** [O2message_ptr *prevptr]: the address of the local [msgs] or of the
    [next] field of a message. *)
Inductive msg_loc := LocMsgs | LocNext (p : mptr).

(** The sorting loop of [poll_outgoing]; the local [msgs] is threaded
    through. *)
Fixpoint sort_from (fuel : nat) (prevptr : msg_loc) (msgs : option mptr)
  : SM (option mptr) :=
  match fuel with
  | O => sm_abort
  | S fuel' =>
      cur ← match prevptr with
            | LocMsgs => mret msgs
            | LocNext q => m ← sm_load q; mret (next m)
            end;
      match cur with
      | None => mret msgs
      | Some p =>
          m ← sm_load p;
          if negb (time_eqb (timestamp m) time_zero) then
            append_to_schedule p ;;
            match prevptr with
            | LocMsgs => sort_from fuel' prevptr (next m)
            | LocNext q =>
                sm_store q (set_next (next m)) ;;
                sort_from fuel' prevptr msgs
            end
          else sort_from fuel' (LocNext p) msgs
      end
  end.

(** [while (schedule_head) { ... O2_FREE(schedule_head) ... }] *)
Fixpoint free_schedule (fuel : nat) : SM unit :=
  match fuel with
  | O => sm_abort
  | S fuel' =>
      head ← sm_gets schedule_head;
      match head with
      | None => mret tt
      | Some h =>
          m ← sm_load h;
          sm_free h ;;
          sm_modify (set_schedule_head (next m)) ;;
          free_schedule fuel'
      end
  end.

(** [while (schedule_head && schedule_head->data.timestamp < now)] *)
Fixpoint dispatch_ready (fuel : nat) (now : O2time) : SM unit :=
  match fuel with
  | O => sm_abort
  | S fuel' =>
      head ← sm_gets schedule_head;
      match head with
      | None => mret tt
      | Some h =>
          m ← sm_load h;
          if time_ltb (timestamp m) now then
            o2sm_dispatch h ;;
            sm_modify (set_schedule_head (next m)) ;;
            dispatch_ready fuel' now
          else mret tt
      end
  end.

(** [while (msgs) { ... o2sm_dispatch(msgs) ... }] *)
Fixpoint dispatch_all (fuel : nat) (msgs : option mptr) : SM unit :=
  match fuel with
  | O => sm_abort
  | S fuel' =>
      match msgs with
      | None => mret tt
      | Some p =>
          m ← sm_load p;
          o2sm_dispatch p ;;
          dispatch_all fuel' (next m)
      end
  end.

(** [O2sm_info::poll_outgoing]; [now] is the value of
    [o2sm_time_get()]. *)
Definition poll_outgoing (fuel : nat) (now : O2time) : SM unit :=
  msgs ← get_messages_reversed fuel Outgoing;
  msgs ← sort_from fuel LocMsgs msgs;
  (if time_ltb now time_zero then free_schedule fuel
   else dispatch_ready fuel now) ;;
  dispatch_all fuel msgs.

(** ** Linked lists in the store *)

(** [p] heads the NULL-terminated list of the messages at [l]. *)
Fixpoint chain (h : gmap mptr O2message) (p : option mptr) (l : list mptr)
  : Prop :=
  match l with
  | [] => p = None
  | x :: l' => p = Some x ∧ ∃ m, h !! x = Some m ∧ chain h (next m) l'
  end.

Lemma chain_inj h : ∀ l p l', chain h p l → chain h p l' → l = l'.
Proof.
  induction l as [|x l IH]; intros p [|y l'] H H'; cbn in *.
  - done.
  - destruct H' as [? _]. congruence.
  - destruct H as [? _]. congruence.
  - destruct H as (-> & m & Hm & H), H' as ([= <-] & m' & Hm' & H').
    simplify_eq. f_equal. by eapply IH.
Qed.

Lemma chain_suffix h : ∀ l1 p l2,
  chain h p (l1 ++ l2) → ∃ q, chain h q l2.
Proof.
  induction l1 as [|x l1 IH]; intros p l2 H; [by exists p|].
  destruct H as (-> & m & Hm & H). by eapply IH.
Qed.

Lemma chain_NoDup h : ∀ l p, chain h p l → NoDup l.
Proof.
  induction l as [|x l IH]; intros p H; [constructor|].
  pose proof H as (-> & m & Hm & Hl). constructor; [|by eapply IH].
  intros Hin. apply list_elem_of_split in Hin as (l1 & l2 & ->).
  destruct (chain_suffix h l1 _ _ Hl) as (q & Hq).
  pose proof Hq as (-> & _).
  pose proof (chain_inj h _ _ _ H Hq) as Heq.
  apply (f_equal length) in Heq. rewrite !length_cons, length_app in Heq.
  cbn in Heq. lia.
Qed.

Lemma chain_allocated h l p x :
  chain h p l → x ∈ l → is_Some (h !! x).
Proof.
  revert p. induction l as [|y l IH]; intros p H Hx; [by inversion Hx|].
  destruct H as (-> & m & Hm & H).
  apply elem_of_cons in Hx as [->|Hx]; [eauto|by eapply IH].
Qed.

(** A store that agrees with [h] on the messages of the list, up to the
    fields that do not link. *)
Lemma chain_frame h h' : ∀ l p,
  chain h p l → (∀ x, x ∈ l → h' !! x = h !! x) → chain h' p l.
Proof.
  induction l as [|x l IH]; intros p H Hagree; [done|].
  destruct H as (-> & m & Hm & H). split; [done|]. exists m.
  split; [rewrite Hagree; [done|by left]|].
  apply IH; [done|]. intros y Hy. apply Hagree. by right.
Qed.

Lemma chain_head h l p : chain h p l → p = head l.
Proof. destruct l; [done|]. by intros [-> _]. Qed.

(** [s'] has the messages of [s] with their time stamps and addresses;
    only messages of [l] may be linked differently; queues, schedule and
    trace are those of [s] except for the queue [q], which is empty. *)
Definition relinked (l : list mptr) (s s' : shm) : Prop :=
  (∀ x, x ∉ l → mem s' !! x = mem s !! x) ∧
  (∀ x m, mem s !! x = Some m →
     ∃ m', mem s' !! x = Some m' ∧ timestamp m' = timestamp m ∧
           address m' = address m) ∧
  schedule_head s' = schedule_head s ∧ schedule_tail s' = schedule_tail s ∧
  sm_trace s' = sm_trace s.

Lemma relinked_refl l s : relinked l s s.
Proof. repeat split; eauto. Qed.

Lemma relinked_trans l1 l2 s1 s2 s3 :
  relinked l1 s1 s2 → relinked l2 s2 s3 → relinked (l1 ++ l2) s1 s3.
Proof.
  intros (Ha & Hb & ? & ? & ?) (Ha' & Hb' & ? & ? & ?).
  split; [|split; [|by repeat split; congruence]].
  - intros x Hx. rewrite not_elem_of_app in Hx. destruct Hx.
    by rewrite Ha', Ha.
  - intros x m Hm. destruct (Hb x m Hm) as (m' & Hm' & <- & <-).
    destruct (Hb' x m' Hm') as (m'' & Hm'' & <- & <-). eauto.
Qed.

Lemma relinked_weaken l l' s s' :
  relinked l s s' → (∀ x, x ∈ l → x ∈ l') → relinked l' s s'.
Proof.
  intros (Ha & Hb) Hsub. split; [|done]. intros x Hx. apply Ha. eauto.
Qed.

Lemma sm_store_run p g m s :
  mem s !! p = Some m →
  sm_store p g s = Some (tt, upd_mem <[p := g m]> s).
Proof.
  intros Hp. unfold sm_store, mbind, SM_bind, sm_load, sm_modify.
  by rewrite Hp.
Qed.

Lemma relinked_store p v m s :
  mem s !! p = Some m → relinked [p] s (upd_mem <[p := set_next v m]> s).
Proof.
  intros Hp. split; [|split; [|by destruct s]].
  - intros x Hx. rewrite list_elem_of_singleton in Hx.
    destruct s; cbn. by rewrite lookup_insert_ne.
  - intros x mx Hx. destruct (decide (x = p)) as [->|Hne].
    + exists (set_next v m). destruct s; cbn in *.
      rewrite lookup_insert_eq. by simplify_eq.
    + exists mx. destruct s; cbn in *. by rewrite lookup_insert_ne.
Qed.

Lemma reverse_from_spec fuel : ∀ l1 all msgs l2 s,
  (length l1 < fuel)%nat →
  chain (mem s) all l1 → chain (mem s) msgs l2 →
  (∀ x, x ∈ l1 → x ∉ l2) →
  ∃ s',
    reverse_from fuel all msgs s = Some (head (rev l1 ++ l2), s') ∧
    chain (mem s') (head (rev l1 ++ l2)) (rev l1 ++ l2) ∧
    relinked l1 s s' ∧
    o2sm_incoming s' = o2sm_incoming s ∧ outgoing s' = outgoing s.
Proof.
  induction fuel as [|fuel IH]; intros l1 all msgs l2 s Hfuel H1 H2 Hdisj;
    [lia|].
  destruct l1 as [|a l1].
  - cbn in H1. subst all. cbn [reverse_from rev app].
    exists s. rewrite <- (chain_head _ _ _ H2).
    split; [done|]. split; [done|]. split; [apply relinked_refl|done].
  - pose proof (chain_NoDup _ _ _ H1) as Hnd.
    apply NoDup_cons in Hnd as [Ha Hnd].
    destruct H1 as (-> & m & Hm & H1). cbn [reverse_from].
    unfold mbind at 1, SM_bind at 1, sm_load at 1. rewrite Hm.
    unfold mbind at 1, SM_bind at 1. rewrite (sm_store_run a _ m) by done.
    set (s1 := upd_mem <[a := set_next msgs m]> s).
    assert (Hagree : ∀ x, x ≠ a → mem s1 !! x = mem s !! x).
    { intros x Hx. subst s1. destruct s; cbn. by rewrite lookup_insert_ne. }
    destruct (IH l1 (next m) (Some a) (a :: l2) s1)
      as (s' & Hrun & Hch & Hrel & Hin & Hout).
    + cbn in Hfuel. lia.
    + apply (chain_frame (mem s)); [done|]. intros x Hx. apply Hagree.
      by intros ->.
    + split; [done|]. exists (set_next msgs m).
      split; [subst s1; destruct s; cbn; by rewrite lookup_insert_eq|].
      cbn. apply (chain_frame (mem s)); [done|]. intros x Hx.
      apply Hagree. intros ->. apply (Hdisj a); [by left|done].
    + intros x Hx Hx2. apply elem_of_cons in Hx2 as [->|Hx2]; [done|].
      apply (Hdisj x); [by right|done].
    + exists s'. cbn [rev]. rewrite <- app_assoc. cbn [app].
      split; [done|]. split; [done|].
      split; [|split].
      * apply (relinked_weaken ([a] ++ l1)); [|by intros x Hx].
        eapply relinked_trans; [|done]. by apply relinked_store.
      * rewrite Hin. by destruct s.
      * rewrite Hout. by destruct s.
Qed.

(** [get_messages_reversed] empties the queue and returns its messages
    linked in the opposite order, that is, in the order in which they were
    pushed.  The reversal is done in place: only the [next] fields of the
    queued messages change; their contents, every other message, the
    schedule and the other queue are untouched. *)
Theorem get_messages_reversed_reverses fuel q l s :
  chain (mem s) (queue_head q s) l → (length l < fuel)%nat →
  ∃ s',
    get_messages_reversed fuel q s = Some (head (rev l), s') ∧
    chain (mem s') (head (rev l)) (rev l) ∧
    queue_head q s' = None ∧
    relinked l s s' ∧
    (∀ q', q' ≠ q → queue_head q' s' = queue_head q' s).
Proof.
  intros Hch Hfuel. unfold get_messages_reversed, grab.
  unfold mbind, SM_bind, sm_gets, sm_modify, mret, SM_ret.
  set (s0 := set_queue_head q None s).
  destruct (reverse_from_spec fuel l (queue_head q s) None [] s0)
    as (s' & Hrun & Hch' & Hrel & Hin & Hout).
  - done.
  - by destruct q, s.
  - done.
  - intros x _ Hx. by inversion Hx.
  - rewrite app_nil_r in Hrun, Hch'. exists s'.
    split; [done|]. split; [done|].
    split; [destruct q; cbn; [rewrite Hin|rewrite Hout]; by destruct s|].
    split.
    { destruct Hrel as (Ha & Hb & Hc & Hd & He).
      split; [|split; [|destruct q, s; done]].
      - intros x Hx. rewrite Ha by done. by destruct q, s.
      - intros x m Hm. apply Hb. by destruct q, s. }
    intros q' Hq'. destruct q, q'; try done; cbn;
      (rewrite Hout || rewrite Hin); by destruct s.
Qed.

(** ** Messages on their way to O2: [o2sm_message_send], [bridge_poll] *)

(** [o2sm_message_send] called for each message of [ps] in turn. *)
Fixpoint send_each (ps : list mptr) : SM unit :=
  match ps with
  | [] => mret tt
  | p :: ps' => o2sm_message_send p ;; send_each ps'
  end.

Lemma push_chain q p l s :
  chain (mem s) (queue_head q s) l → is_Some (mem s !! p) → p ∉ l →
  ∃ s',
    push q p s = Some (tt, s') ∧
    chain (mem s') (queue_head q s') (p :: l) ∧ relinked [p] s s' ∧
    (∀ q', q' ≠ q → queue_head q' s' = queue_head q' s).
Proof.
  intros Hch [m Hm] Hp. unfold push.
  unfold mbind at 1, SM_bind at 1, sm_gets at 1.
  unfold mbind at 1, SM_bind at 1. rewrite (sm_store_run p _ m) by done.
  unfold sm_modify. eexists. split; [reflexivity|].
  set (s1 := upd_mem <[p := set_next (queue_head q s) m]> s).
  assert (Hhead : queue_head q (set_queue_head q (Some p) s1) = Some p)
    by by destruct q, s.
  split; [|split].
  - rewrite Hhead. split; [done|]. exists (set_next (queue_head q s) m).
    split; [destruct q, s; cbn; by rewrite lookup_insert_eq|].
    cbn. apply (chain_frame (mem s)); [done|]. intros x Hx.
    destruct q, s; cbn; rewrite lookup_insert_ne; [done| |done|];
      by intros ->.
  - destruct (relinked_store p (queue_head q s) m s Hm)
      as (Ha & Hb & Hc & Hd & He).
    split; [|split; [|destruct q, s; done]].
    + intros x Hx. rewrite <- Ha by done. by destruct q, s.
    + intros x mx Hx. destruct (Hb x mx Hx) as (m' & Hm' & ? & ?).
      exists m'. split; [|done]. by destruct q, s.
  - intros q' Hq'. by destruct q, q', s.
Qed.

Lemma send_each_chain : ∀ ps l s,
  chain (mem s) (o2sm_incoming s) l → NoDup ps →
  (∀ p, p ∈ ps → is_Some (mem s !! p) ∧ p ∉ l) →
  ∃ s',
    send_each ps s = Some (tt, s') ∧
    chain (mem s') (o2sm_incoming s') (rev ps ++ l) ∧ relinked ps s s' ∧
    outgoing s' = outgoing s.
Proof.
  induction ps as [|p ps IH]; intros l s Hch Hnd Hps.
  - exists s. split; [done|]. split; [done|].
    split; [apply relinked_refl|done].
  - apply NoDup_cons in Hnd as [Hp Hnd].
    destruct (Hps p) as [Hal Hpl]; [by left|].
    destruct (push_chain Incoming p l s Hch Hal Hpl)
      as (s1 & Hrun & Hch1 & Hrel1 & Hq1).
    destruct (IH (p :: l) s1 Hch1 Hnd) as (s' & Hrun' & Hch' & Hrel' & Hout).
    { intros x Hx. destruct (Hps x) as [[mx Hmx] Hxl]; [by right|].
      split.
      - destruct Hrel1 as (_ & Hb & _). destruct (Hb x mx Hmx) as (? & ? & _).
        eauto.
      - intros Hin. apply elem_of_cons in Hin as [->|Hin]; done. }
    exists s'. cbn [send_each]. unfold o2sm_message_send.
    unfold mbind, SM_bind, mret, SM_ret in *. rewrite Hrun.
    split; [done|]. cbn [rev]. rewrite <- app_assoc.
    split; [done|]. split; [by eapply (relinked_trans [p])|].
    rewrite Hout. by apply (Hq1 Outgoing).
Qed.

(** What [o2_message_send] is handed for the message at [p] of the store
    [h]: the message with its link cleared. *)
Definition sent (h : gmap mptr O2message) (p : mptr) : list sm_event :=
  match h !! p with
  | Some m => [SmSend p (set_next None m)]
  | None => []
  end.

Lemma sent_agree h h' p :
  (∀ m, h !! p = Some m →
     ∃ m', h' !! p = Some m' ∧ timestamp m' = timestamp m ∧
           address m' = address m) →
  is_Some (h !! p) → sent h' p = sent h p.
Proof.
  intros H [m Hm]. destruct (H m Hm) as (m' & Hm' & Ht & Ha).
  unfold sent. rewrite Hm, Hm'. destruct m, m'; cbn in *. by subst.
Qed.

Lemma elem_of_rev {A} (x : A) l : x ∈ rev l ↔ x ∈ l.
Proof. rewrite !list_elem_of_In. symmetry. apply in_rev. Qed.

Lemma flat_map_agree {A B} (f g : A → list B) l :
  (∀ x, x ∈ l → f x = g x) → flat_map f l = flat_map g l.
Proof.
  induction l as [|a l IH]; intros H; [done|]. cbn.
  rewrite (H a) by by left. f_equal. apply IH. intros x Hx. apply H.
  by right.
Qed.

Lemma bridge_poll_from_spec fuel : ∀ l msgs s,
  (length l < fuel)%nat → chain (mem s) msgs l →
  ∃ s',
    bridge_poll_from fuel msgs 0 s = Some (0, s') ∧
    sm_trace s' = sm_trace s ++ flat_map (sent (mem s)) l ∧
    (∀ x, x ∈ l → mem s' !! x = None) ∧
    (∀ x, x ∉ l → mem s' !! x = mem s !! x) ∧
    o2sm_incoming s' = o2sm_incoming s ∧ outgoing s' = outgoing s ∧
    schedule_head s' = schedule_head s ∧ schedule_tail s' = schedule_tail s.
Proof.
  induction fuel as [|fuel IH]; intros l msgs s Hfuel Hch; [lia|].
  destruct l as [|p l].
  - cbn in Hch. subst msgs. exists s. cbn. rewrite app_nil_r.
    repeat split; try done. intros x Hx. by inversion Hx.
  - pose proof (chain_NoDup _ _ _ Hch) as Hnd.
    apply NoDup_cons in Hnd as [Hp Hnd].
    destruct Hch as (-> & m & Hm & Hch). cbn [bridge_poll_from].
    unfold mbind at 1, SM_bind at 1, sm_load at 1. rewrite Hm.
    unfold mbind at 1, SM_bind at 1. rewrite (sm_store_run p _ m) by done.
    unfold mbind at 1, SM_bind at 1, o2_message_send at 1.
    unfold mbind at 1, SM_bind at 1, sm_load at 1.
    replace (mem (upd_mem <[p := set_next None m]> s) !! p)
      with (Some (set_next None m))
      by (destruct s; cbn; by rewrite lookup_insert_eq).
    unfold mbind, SM_bind, sm_modify, mret, SM_ret. cbn [negb Z.eqb].
    set (s1 := upd_mem (delete p)
                 (sm_emit (SmSend p (set_next None m))
                    (upd_mem <[p := set_next None m]> s))).
    assert (Hmem1 : ∀ x, x ≠ p → mem s1 !! x = mem s !! x).
    { intros x Hx. subst s1. destruct s; cbn.
      by rewrite lookup_delete_ne, lookup_insert_ne. }
    destruct (IH l (next m) s1) as (s' & Hrun & Htr & Hgone & Hkeep & Hrest).
    + cbn in Hfuel. lia.
    + apply (chain_frame (mem s)); [done|]. intros x Hx. apply Hmem1.
      by intros ->.
    + fold (bridge_poll_from fuel). exists s'. split; [done|].
      split.
      { rewrite Htr. cbn [flat_map]. unfold sent at 2. rewrite Hm.
        replace (sm_trace s1) with
          (sm_trace s ++ [SmSend p (set_next None m)]) by by destruct s.
        rewrite <- app_assoc. f_equal. cbn [app]. f_equal.
        apply flat_map_agree. intros x Hx. unfold sent.
        rewrite Hmem1; [done|]. by intros ->. }
      split.
      { intros x Hx. apply elem_of_cons in Hx as [->|Hx]; [|by apply Hgone].
        rewrite Hkeep by done. subst s1. destruct s; cbn.
        by rewrite lookup_delete_eq. }
      split.
      { intros x Hx. rewrite not_elem_of_cons in Hx. destruct Hx.
        rewrite Hkeep by done. by apply Hmem1. }
      destruct Hrest as (-> & -> & -> & ->). by destruct s.
Qed.

(** The messages that the shared-memory threads hand over with
    [o2sm_message_send] are passed to [o2_message_send] by the next
    [bridge_poll], each once, unlinked, in the order in which they were
    handed over; the queue is empty afterwards.  [bridge_poll] returns
    O2_SUCCESS whatever [o2_message_send] reports. *)
Theorem bridge_poll_sends_in_arrival_order fuel ps s :
  o2sm_incoming s = None → NoDup ps →
  (∀ p, p ∈ ps → is_Some (mem s !! p)) → (length ps < fuel)%nat →
  ∃ s1 s2,
    send_each ps s = Some (tt, s1) ∧
    bridge_poll fuel s1 = Some (0, s2) ∧
    sm_trace s2 = sm_trace s ++ flat_map (sent (mem s)) ps ∧
    o2sm_incoming s2 = None ∧
    (∀ p, p ∈ ps → mem s2 !! p = None) ∧
    (∀ x, x ∉ ps → mem s2 !! x = mem s !! x).
Proof.
  intros Hempty Hnd Hal Hfuel.
  destruct (send_each_chain ps [] s) as (s1 & Hrun1 & Hch1 & Hrel1 & Hout1).
  { by rewrite Hempty. }
  { done. }
  { intros p Hp. split; [by apply Hal|]. intros H. by inversion H. }
  rewrite app_nil_r in Hch1.
  destruct (get_messages_reversed_reverses fuel Incoming (rev ps) s1 Hch1)
    as (s1' & Hrev & Hch' & Hq' & Hrel' & _); [by rewrite length_rev|].
  rewrite rev_involutive in Hrev, Hch'.
  destruct (bridge_poll_from_spec fuel ps (head ps) s1' Hfuel Hch')
    as (s2 & Hrun2 & Htr2 & Hgone & Hkeep & Hin & _).
  exists s1, s2. split; [done|].
  split; [unfold bridge_poll, mbind, SM_bind; by rewrite Hrev|].
  destruct Hrel1 as (Ha1 & Hb1 & _ & _ & Ht1).
  destruct Hrel' as (Ha' & Hb' & _ & _ & Ht').
  split.
  { rewrite Htr2, Ht', Ht1. f_equal. apply flat_map_agree. intros p Hp.
    apply sent_agree; [|by apply Hal].
    intros m Hm. destruct (Hb1 p m Hm) as (m1 & Hm1 & <- & <-).
    destruct (Hb' p m1 Hm1) as (m2 & Hm2 & <- & <-). eauto. }
  split; [by rewrite Hin|]. split; [done|].
  intros x Hx. rewrite Hkeep, Ha', Ha1; try done.
  by rewrite elem_of_rev.
Qed.

(** ** Messages on their way to a thread: [O2sm_info::send],
       [free_outgoing], [poll_outgoing] *)

(** [O2sm_info::send] called for each message of [ps] in turn. *)
Fixpoint info_send_each (ps : list mptr) : SM unit :=
  match ps with
  | [] => mret tt
  | p :: ps' => O2sm_info_send p ;; info_send_each ps'
  end.

Lemma info_send_each_chain : ∀ ps l s,
  chain (mem s) (outgoing s) l → NoDup ps →
  (∀ p, p ∈ ps → is_Some (mem s !! p) ∧ p ∉ l) →
  ∃ s',
    info_send_each ps s = Some (tt, s') ∧
    chain (mem s') (outgoing s') (rev ps ++ l) ∧ relinked ps s s' ∧
    o2sm_incoming s' = o2sm_incoming s.
Proof.
  induction ps as [|p ps IH]; intros l s Hch Hnd Hps.
  - exists s. split; [done|]. split; [done|].
    split; [apply relinked_refl|done].
  - apply NoDup_cons in Hnd as [Hp Hnd].
    destruct (Hps p) as [Hal Hpl]; [by left|].
    destruct (push_chain Outgoing p l s Hch Hal Hpl)
      as (s1 & Hrun & Hch1 & Hrel1 & Hq1).
    destruct (IH (p :: l) s1 Hch1 Hnd) as (s' & Hrun' & Hch' & Hrel' & Hin).
    { intros x Hx. destruct (Hps x) as [[mx Hmx] Hxl]; [by right|].
      split.
      - destruct Hrel1 as (_ & Hb & _). destruct (Hb x mx Hmx) as (? & ? & _).
        eauto.
      - intros Hin. apply elem_of_cons in Hin as [->|Hin]; done. }
    exists s'. cbn [info_send_each]. unfold O2sm_info_send.
    unfold mbind, SM_bind, mret, SM_ret in *. rewrite Hrun.
    split; [done|]. cbn [rev]. rewrite <- app_assoc.
    split; [done|]. split; [by eapply (relinked_trans [p])|].
    rewrite Hin. by apply (Hq1 Incoming).
Qed.

Lemma sm_free_run p m s :
  mem s !! p = Some m →
  sm_free p s = Some (tt, sm_emit (SmFree p) (upd_mem (delete p) s)).
Proof.
  intros Hp. unfold sm_free, mbind, SM_bind, sm_load, sm_modify.
  by rewrite Hp.
Qed.

Lemma free_from_spec fuel : ∀ l all s,
  (length l < fuel)%nat → chain (mem s) all l →
  ∃ s',
    free_from fuel all s = Some (tt, s') ∧
    sm_trace s' = sm_trace s ++ map SmFree l ∧
    (∀ x, x ∈ l → mem s' !! x = None) ∧
    (∀ x, x ∉ l → mem s' !! x = mem s !! x) ∧
    o2sm_incoming s' = o2sm_incoming s ∧ outgoing s' = outgoing s ∧
    schedule_head s' = schedule_head s ∧ schedule_tail s' = schedule_tail s.
Proof.
  induction fuel as [|fuel IH]; intros l all s Hfuel Hch; [lia|].
  destruct l as [|p l].
  - cbn in Hch. subst all. exists s. cbn. rewrite app_nil_r.
    repeat split; try done. intros x Hx. by inversion Hx.
  - pose proof (chain_NoDup _ _ _ Hch) as Hnd.
    apply NoDup_cons in Hnd as [Hp Hnd].
    destruct Hch as (-> & m & Hm & Hch). cbn [free_from].
    unfold mbind at 1, SM_bind at 1, sm_load at 1. rewrite Hm.
    unfold mbind at 1, SM_bind at 1. rewrite (sm_free_run p m) by done.
    set (s1 := sm_emit (SmFree p) (upd_mem (delete p) s)).
    assert (Hmem1 : ∀ x, x ≠ p → mem s1 !! x = mem s !! x).
    { intros x Hx. subst s1. destruct s; cbn. by rewrite lookup_delete_ne. }
    destruct (IH l (next m) s1) as (s' & Hrun & Htr & Hgone & Hkeep & Hrest).
    + cbn in Hfuel. lia.
    + apply (chain_frame (mem s)); [done|]. intros x Hx. apply Hmem1.
      by intros ->.
    + exists s'. split; [done|].
      split.
      { rewrite Htr. cbn [map].
        replace (sm_trace s1) with (sm_trace s ++ [SmFree p])
          by by destruct s.
        by rewrite <- app_assoc. }
      split.
      { intros x Hx. apply elem_of_cons in Hx as [->|Hx]; [|by apply Hgone].
        rewrite Hkeep by done. subst s1. destruct s; cbn.
        by rewrite lookup_delete_eq. }
      split.
      { intros x Hx. rewrite not_elem_of_cons in Hx. destruct Hx.
        rewrite Hkeep by done. by apply Hmem1. }
      destruct Hrest as (-> & -> & -> & ->). by destruct s.
Qed.

(** [free_outgoing] frees every message that is waiting for the thread,
    each once (the last one sent first), and leaves the queue empty;
    nothing else is freed. *)
Theorem free_outgoing_frees_queue fuel ps s :
  outgoing s = None → NoDup ps →
  (∀ p, p ∈ ps → is_Some (mem s !! p)) → (length ps < fuel)%nat →
  ∃ s1 s2,
    info_send_each ps s = Some (tt, s1) ∧
    free_outgoing fuel s1 = Some (tt, s2) ∧
    sm_trace s2 = sm_trace s ++ map SmFree (rev ps) ∧
    outgoing s2 = None ∧
    (∀ p, p ∈ ps → mem s2 !! p = None) ∧
    (∀ x, x ∉ ps → mem s2 !! x = mem s !! x).
Proof.
  intros Hempty Hnd Hal Hfuel.
  destruct (info_send_each_chain ps [] s)
    as (s1 & Hrun1 & Hch1 & Hrel1 & Hin1).
  { by rewrite Hempty. }
  { done. }
  { intros p Hp. split; [by apply Hal|]. intros H. by inversion H. }
  rewrite app_nil_r in Hch1.
  set (s1' := set_outgoing None s1).
  destruct (free_from_spec fuel (rev ps) (outgoing s1) s1')
    as (s2 & Hrun2 & Htr2 & Hgone & Hkeep & _ & Hout & _).
  { by rewrite length_rev. }
  { by destruct s1. }
  exists s1, s2. split; [done|].
  split.
  { unfold free_outgoing, grab, mbind, SM_bind, sm_gets, sm_modify, mret,
      SM_ret. cbn [queue_head set_queue_head]. by fold s1'. }
  destruct Hrel1 as (Ha1 & Hb1 & _ & _ & Ht1).
  split; [rewrite Htr2, <- Ht1; by destruct s1|].
  split; [rewrite Hout; by destruct s1|].
  split; [intros p Hp; apply Hgone; by rewrite elem_of_rev|].
  intros x Hx. rewrite Hkeep by by rewrite elem_of_rev.
  rewrite <- Ha1 by done. by destruct s1.
Qed.

(** What [*prevptr] reads. *)
Definition reads (prevptr : msg_loc) (msgs : option mptr) (s : shm)
  (cur : option mptr) : Prop :=
  match prevptr with
  | LocMsgs => cur = msgs
  | LocNext q => ∃ mq, mem s !! q = Some mq ∧ next mq = cur
  end.

Definition untimestamped (h : gmap mptr O2message) (l : list mptr) : Prop :=
  ∀ x m, x ∈ l → h !! x = Some m → time_eqb (timestamp m) time_zero = true.

(** The sorting loop leaves a list without time stamps as it is. *)
Lemma sort_from_untimestamped fuel : ∀ l prevptr cur msgs s,
  (length l < fuel)%nat → chain (mem s) cur l → untimestamped (mem s) l →
  reads prevptr msgs s cur →
  sort_from fuel prevptr msgs s = Some (msgs, s).
Proof.
  induction fuel as [|fuel IH]; intros l prevptr cur msgs s Hfuel Hch Hun Hrd;
    [lia|].
  cbn [sort_from].
  assert (Hcur : (match prevptr with
                  | LocMsgs => mret msgs
                  | LocNext q => m ← sm_load q; mret (next m)
                  end : SM _) s = Some (cur, s)).
  { destruct prevptr as [|q]; cbn in Hrd.
    - by subst.
    - destruct Hrd as (mq & Hq & <-).
      unfold mbind, SM_bind, sm_load, mret, SM_ret. by rewrite Hq. }
  unfold mbind at 1, SM_bind at 1. rewrite Hcur.
  destruct l as [|p l].
  - cbn in Hch. by subst cur.
  - destruct Hch as (-> & m & Hm & Hch).
    unfold mbind at 1, SM_bind at 1, sm_load at 1. rewrite Hm.
    rewrite (Hun p m) by (done || by left). cbn [negb].
    apply (IH l (LocNext p) (next m)); [cbn in Hfuel; lia|done| |].
    + intros x mx Hx. apply Hun. by right.
    + cbn. eauto.
Qed.

(** What the handler is invoked on, and the release of the message. *)
Definition dispatched (h : gmap mptr O2message) (p : mptr)
  : list sm_event :=
  match h !! p with
  | Some m => [SmDispatch p (timestamp m) (slash_first (address m)); SmFree p]
  | None => []
  end.

Lemma o2sm_dispatch_run p m s :
  mem s !! p = Some m →
  o2sm_dispatch p s =
    Some (0, sm_emit (SmFree p)
               (upd_mem (delete p)
                  (sm_emit (SmDispatch p (timestamp m)
                              (slash_first (address m))) s))).
Proof.
  intros Hp. unfold o2sm_dispatch.
  unfold mbind at 1, SM_bind at 1. rewrite (sm_store_run p _ m) by done.
  unfold mbind at 1, SM_bind at 1, sm_load at 1.
  replace (mem (upd_mem <[p := set_address (slash_first (address m)) m]> s)
             !! p)
    with (Some (set_address (slash_first (address m)) m))
    by (destruct s; cbn; by rewrite lookup_insert_eq).
  unfold mbind at 1, SM_bind at 1, sm_modify at 1.
  unfold mbind at 1, SM_bind at 1.
  rewrite (sm_free_run p (set_address (slash_first (address m)) m))
    by (destruct s; cbn; by rewrite lookup_insert_eq).
  unfold mret, SM_ret. do 2 f_equal. destruct s; unfold sm_emit, upd_mem.
  cbn. by rewrite delete_insert_eq.
Qed.

Lemma dispatch_all_spec fuel : ∀ l msgs s,
  (length l < fuel)%nat → chain (mem s) msgs l →
  ∃ s',
    dispatch_all fuel msgs s = Some (tt, s') ∧
    sm_trace s' = sm_trace s ++ flat_map (dispatched (mem s)) l ∧
    (∀ x, x ∈ l → mem s' !! x = None) ∧
    (∀ x, x ∉ l → mem s' !! x = mem s !! x) ∧
    o2sm_incoming s' = o2sm_incoming s ∧ outgoing s' = outgoing s ∧
    schedule_head s' = schedule_head s ∧ schedule_tail s' = schedule_tail s.
Proof.
  induction fuel as [|fuel IH]; intros l msgs s Hfuel Hch; [lia|].
  destruct l as [|p l].
  - cbn in Hch. subst msgs. exists s. cbn. rewrite app_nil_r.
    repeat split; try done. intros x Hx. by inversion Hx.
  - pose proof (chain_NoDup _ _ _ Hch) as Hnd.
    apply NoDup_cons in Hnd as [Hp Hnd].
    destruct Hch as (-> & m & Hm & Hch). cbn [dispatch_all].
    unfold mbind at 1, SM_bind at 1, sm_load at 1. rewrite Hm.
    unfold mbind at 1, SM_bind at 1. rewrite (o2sm_dispatch_run p m) by done.
    set (s1 := sm_emit (SmFree p)
                 (upd_mem (delete p)
                    (sm_emit (SmDispatch p (timestamp m)
                                (slash_first (address m))) s))).
    assert (Hmem1 : ∀ x, x ≠ p → mem s1 !! x = mem s !! x).
    { intros x Hx. subst s1. destruct s; cbn. by rewrite lookup_delete_ne. }
    destruct (IH l (next m) s1) as (s' & Hrun & Htr & Hgone & Hkeep & Hrest).
    + cbn in Hfuel. lia.
    + apply (chain_frame (mem s)); [done|]. intros x Hx. apply Hmem1.
      by intros ->.
    + exists s'. split; [done|].
      split.
      { rewrite Htr. cbn [flat_map]. unfold dispatched at 2. rewrite Hm.
        replace (sm_trace s1) with
          (sm_trace s ++ [SmDispatch p (timestamp m)
                            (slash_first (address m)); SmFree p])
          by (destruct s; cbn; by rewrite <- app_assoc).
        rewrite <- app_assoc. do 2 f_equal.
        apply flat_map_agree. intros x Hx. unfold dispatched.
        rewrite Hmem1; [done|]. by intros ->. }
      split.
      { intros x Hx. apply elem_of_cons in Hx as [->|Hx]; [|by apply Hgone].
        rewrite Hkeep by done. subst s1. destruct s; cbn.
        by rewrite lookup_delete_eq. }
      split.
      { intros x Hx. rewrite not_elem_of_cons in Hx. destruct Hx.
        rewrite Hkeep by done. by apply Hmem1. }
      destruct Hrest as (-> & -> & -> & ->). by destruct s.
Qed.

Lemma dispatched_agree h h' p :
  (∀ m, h !! p = Some m →
     ∃ m', h' !! p = Some m' ∧ timestamp m' = timestamp m ∧
           address m' = address m) →
  is_Some (h !! p) → dispatched h' p = dispatched h p.
Proof.
  intros H [m Hm]. destruct (H m Hm) as (m' & Hm' & Ht & Ha).
  unfold dispatched. by rewrite Hm, Hm', Ht, Ha.
Qed.

(** With nothing scheduled, [poll_outgoing] hands the messages without a
    time stamp that were sent to the thread to their handlers, each once,
    in the order in which they were sent, and frees each one right after
    its handler; this does not depend on the clock. *)
Theorem poll_outgoing_dispatches_in_order fuel now ps s :
  outgoing s = None → schedule_head s = None → NoDup ps →
  (∀ p, p ∈ ps → ∃ m, mem s !! p = Some m ∧
                      time_eqb (timestamp m) time_zero = true) →
  (length ps < fuel)%nat →
  ∃ s1 s2,
    info_send_each ps s = Some (tt, s1) ∧
    poll_outgoing fuel now s1 = Some (tt, s2) ∧
    sm_trace s2 = sm_trace s ++ flat_map (dispatched (mem s)) ps ∧
    outgoing s2 = None ∧ schedule_head s2 = None ∧
    (∀ p, p ∈ ps → mem s2 !! p = None) ∧
    (∀ x, x ∉ ps → mem s2 !! x = mem s !! x).
Proof.
  intros Hempty Hsched Hnd Hps Hfuel.
  assert (Hfuel0 : (0 < fuel)%nat) by lia.
  destruct (info_send_each_chain ps [] s)
    as (s1 & Hrun1 & Hch1 & Hrel1 & Hin1).
  { by rewrite Hempty. }
  { done. }
  { intros p Hp. destruct (Hps p Hp) as (m & Hm & _).
    split; [eauto|]. intros H. by inversion H. }
  rewrite app_nil_r in Hch1.
  destruct (get_messages_reversed_reverses fuel Outgoing (rev ps) s1 Hch1)
    as (s1' & Hrev & Hch' & Hq' & Hrel' & _); [by rewrite length_rev|].
  rewrite rev_involutive in Hrev, Hch'.
  destruct Hrel1 as (Ha1 & Hb1 & Hh1 & _ & Ht1).
  destruct Hrel' as (Ha' & Hb' & Hh' & _ & Ht').
  assert (Hcontents : ∀ p m, mem s !! p = Some m →
            ∃ m', mem s1' !! p = Some m' ∧ timestamp m' = timestamp m ∧
                  address m' = address m).
  { intros p m Hm. destruct (Hb1 p m Hm) as (m1 & Hm1 & <- & <-).
    destruct (Hb' p m1 Hm1) as (m2 & Hm2 & <- & <-). eauto. }
  assert (Hsort : sort_from fuel LocMsgs (head ps) s1'
                  = Some (head ps, s1')).
  { apply (sort_from_untimestamped fuel ps LocMsgs (head ps));
      [done|done| |done].
    intros x m' Hx Hm'. destruct (Hps x Hx) as (m & Hm & Hts).
    destruct (Hcontents x m Hm) as (m'' & Hm'' & Hts' & _).
    simplify_eq. by rewrite Hts'. }
  assert (Hsched' : schedule_head s1' = None) by congruence.
  assert (Hmid : (if time_ltb now time_zero then free_schedule fuel
                  else dispatch_ready fuel now) s1' = Some (tt, s1')).
  { destruct fuel as [|fuel']; [lia|].
    destruct (time_ltb now time_zero); cbn;
      unfold mbind, SM_bind, sm_gets; by rewrite Hsched'. }
  destruct (dispatch_all_spec fuel ps (head ps) s1' Hfuel Hch')
    as (s2 & Hrun2 & Htr2 & Hgone & Hkeep & _ & Hout & Hsh & _).
  exists s1, s2. split; [done|].
  split.
  { unfold poll_outgoing. unfold mbind at 1, SM_bind at 1. rewrite Hrev.
    unfold mbind at 1, SM_bind at 1. rewrite Hsort.
    unfold mbind at 1, SM_bind at 1. by rewrite Hmid. }
  split.
  { rewrite Htr2, Ht', Ht1. f_equal. apply flat_map_agree. intros p Hp.
    destruct (Hps p Hp) as (m & Hm & _).
    apply dispatched_agree; [|eauto]. intros m0 Hm0. by apply Hcontents. }
  split; [by rewrite Hout|]. split; [by rewrite Hsh|].
  split; [done|].
  intros x Hx. rewrite Hkeep, Ha', Ha1; try done. by rewrite elem_of_rev.
Qed.

(** A time-stamped message that is put on the empty schedule keeps the
    [next] link it had in the batch ([append_to_schedule] clears the link
    only when it appends to a non-empty schedule).  If no other
    time-stamped message of the batch follows it, and it is not due yet,
    it stays scheduled with a link to the message that came after it,
    which [poll_outgoing] has dispatched and freed meanwhile.  If nothing
    is sent to the thread in between, a poll at which the scheduled
    message is due follows the link and reads the freed message: the
    model has no result for it. *)
Theorem schedule_keeps_stale_link fuel now a b rest ma s :
  outgoing s = None → schedule_head s = None → NoDup (a :: b :: rest) →
  mem s !! a = Some ma →
  time_eqb (timestamp ma) time_zero = false →
  time_ltb (timestamp ma) now = false → time_ltb now time_zero = false →
  (∀ p, p ∈ b :: rest → ∃ m, mem s !! p = Some m ∧
                            time_eqb (timestamp m) time_zero = true) →
  (S (S (length rest)) < fuel)%nat →
  ∃ s1 s2 ma',
    info_send_each (a :: b :: rest) s = Some (tt, s1) ∧
    poll_outgoing fuel now s1 = Some (tt, s2) ∧
    schedule_head s2 = Some a ∧ mem s2 !! a = Some ma' ∧
    timestamp ma' = timestamp ma ∧ next ma' = Some b ∧
    mem s2 !! b = None ∧
    ∀ fuel' now',
      time_ltb (timestamp ma) now' = true →
      time_ltb now' time_zero = false →
      poll_outgoing fuel' now' s2 = None.
Proof.
  intros Hempty Hsched Hnd Ha Hstamp Hnotdue Hclock Hrest Hfuel.
  set (ps := a :: b :: rest) in *.
  assert (Hal : ∀ p, p ∈ ps → is_Some (mem s !! p)).
  { intros p Hp. apply elem_of_cons in Hp as [->|Hp]; [eauto|].
    destruct (Hrest p Hp) as (m & Hm & _). eauto. }
  destruct (info_send_each_chain ps [] s)
    as (s1 & Hrun1 & Hch1 & Hrel1 & Hin1).
  { by rewrite Hempty. }
  { done. }
  { intros p Hp. split; [by apply Hal|]. intros H. by inversion H. }
  rewrite app_nil_r in Hch1.
  destruct (get_messages_reversed_reverses fuel Outgoing (rev ps) s1 Hch1)
    as (s1' & Hrev & Hch' & Hq' & Hrel' & _).
  { rewrite length_rev. cbn. lia. }
  rewrite rev_involutive in Hrev, Hch'.
  destruct Hrel1 as (Ha1 & Hb1 & Hh1 & _ & Ht1).
  destruct Hrel' as (Ha' & Hb' & Hh' & _ & Ht').
  assert (Hcontents : ∀ p m, mem s !! p = Some m →
            ∃ m', mem s1' !! p = Some m' ∧ timestamp m' = timestamp m ∧
                  address m' = address m).
  { intros p m Hm. destruct (Hb1 p m Hm) as (m1 & Hm1 & <- & <-).
    destruct (Hb' p m1 Hm1) as (m2 & Hm2 & <- & <-). eauto. }
  cbn [head ps] in Hrev, Hch'.
  destruct Hch' as (_ & ma' & Hma' & Hchb).
  destruct (Hcontents a ma Ha) as (ma'' & Hma'' & Hts & _).
  assert (ma'' = ma') as -> by congruence.
  pose proof Hchb as (Hnext & _).
  assert (Hsched' : schedule_head s1' = None) by congruence.
  set (s1'' := set_schedule_tail (Some a) (set_schedule_head (Some a) s1')).
  assert (Hmem'' : mem s1'' = mem s1') by by destruct s1'.
  destruct fuel as [|fuel]; [lia|].
  assert (Hsort : sort_from (S fuel) LocMsgs (Some a) s1'
                  = Some (Some b, s1'')).
  { cbn [sort_from]. unfold mbind at 1, SM_bind at 1, mret at 1, SM_ret at 1.
    unfold mbind at 1, SM_bind at 1, sm_load at 1. rewrite Hma', Hts, Hstamp.
    cbn [negb]. unfold mbind at 1, SM_bind at 1, append_to_schedule at 1.
    unfold mbind at 1, SM_bind at 1, sm_gets at 1. rewrite Hsched'.
    unfold mbind at 1, SM_bind at 1, sm_modify. fold s1''. rewrite Hnext.
    apply (sort_from_untimestamped fuel (b :: rest) LocMsgs (Some b)).
    - cbn. lia.
    - rewrite Hmem''. by rewrite <- Hnext.
    - intros x m' Hx Hm'. rewrite Hmem'' in Hm'.
      destruct (Hrest x Hx) as (m & Hm & Htsx).
      destruct (Hcontents x m Hm) as (m'' & Hm'' & Hts' & _).
      simplify_eq. by rewrite Hts'.
    - done. }
  assert (Hmid : dispatch_ready (S fuel) now s1'' = Some (tt, s1'')).
  { cbn [dispatch_ready]. unfold mbind at 1, SM_bind at 1, sm_gets at 1.
    replace (schedule_head s1'') with (Some a) by by destruct s1'.
    unfold mbind at 1, SM_bind at 1, sm_load at 1.
    by rewrite Hmem'', Hma', Hts, Hnotdue. }
  destruct (dispatch_all_spec (S fuel) (b :: rest) (Some b) s1'')
    as (s2 & Hrun2 & Htr2 & Hgone & Hkeep & _ & Hout & Hsh & _).
  { cbn. lia. }
  { rewrite Hmem''. by rewrite <- Hnext. }
  apply NoDup_cons in Hnd as [Hab Hnd].
  assert (Hma2 : mem s2 !! a = Some ma') by by rewrite Hkeep, Hmem''.
  assert (Hb2 : mem s2 !! b = None) by (apply Hgone; by left).
  assert (Hsh2 : schedule_head s2 = Some a)
    by (rewrite Hsh; by destruct s1').
  assert (Hout2 : outgoing s2 = None)
    by (rewrite Hout; by destruct s1').
  exists s1, s2, ma'. split; [done|].
  split.
  { unfold poll_outgoing. unfold mbind at 1, SM_bind at 1. rewrite Hrev.
    unfold mbind at 1, SM_bind at 1. rewrite Hsort.
    unfold mbind at 1, SM_bind at 1. by rewrite Hclock, Hmid. }
  split; [done|]. split; [done|]. split; [done|]. split; [done|].
  split; [done|].
  intros fuel' now' Hdue Hclock'.
  set (s3 := set_outgoing None s2).
  assert (Hgrab : grab Outgoing s2 = Some (None, s3)).
  { unfold grab, mbind, SM_bind, sm_gets, sm_modify, mret, SM_ret.
    cbn [queue_head set_queue_head]. by rewrite Hout2. }
  unfold poll_outgoing, get_messages_reversed.
  unfold mbind at 1, SM_bind at 1. unfold mbind at 1, SM_bind at 1.
  rewrite Hgrab. destruct fuel' as [|fuel']; [done|].
  cbn [reverse_from]. unfold mret at 1, SM_ret at 1.
  unfold mbind at 1, SM_bind at 1. cbn [sort_from].
  unfold mbind at 1, SM_bind at 1, mret at 1 2, SM_ret at 1 2.
  unfold mbind at 1, SM_bind at 1. rewrite Hclock'.
  assert (Hready : dispatch_ready (S fuel') now' s3 = None).
  { cbn [dispatch_ready]. unfold mbind at 1, SM_bind at 1, sm_gets at 1.
    replace (schedule_head s3) with (Some a) by by destruct s2.
    unfold mbind at 1, SM_bind at 1, sm_load at 1.
    replace (mem s3 !! a) with (Some ma') by by destruct s2.
    rewrite Hts, Hdue.
    unfold mbind at 1, SM_bind at 1.
    rewrite (o2sm_dispatch_run a ma') by by destruct s2.
    unfold mbind at 1, SM_bind at 1, sm_modify at 1.
    destruct fuel' as [|fuel'']; [done|].
    cbn [dispatch_ready]. unfold mbind at 1, SM_bind at 1, sm_gets at 1.
    cbn [schedule_head set_schedule_head]. rewrite Hnext.
    unfold mbind at 1, SM_bind at 1, sm_load at 1.
    replace (mem _ !! b) with (@None O2message); [done|].
    destruct s2; cbn in *. rewrite lookup_delete_ne; [done|].
    intros ->. apply Hab. by left. }
  by rewrite Hready.
Qed.

(** ** The schedule *)

(** [p] heads a list segment through the messages at [l], the last of
    which links to [q]. *)
Fixpoint lseg (h : gmap mptr O2message) (p : option mptr) (l : list mptr)
  (q : option mptr) : Prop :=
  match l with
  | [] => p = q
  | x :: l' => p = Some x ∧ ∃ m, h !! x = Some m ∧ lseg h (next m) l' q
  end.

Lemma chain_lseg h : ∀ l p, chain h p l ↔ lseg h p l None.
Proof.
  induction l as [|x l IH]; intros p; cbn; [done|].
  split; intros (-> & m & Hm & H); (split; [done|]); exists m;
    (split; [done|]); by apply IH.
Qed.

Lemma lseg_frame h h' : ∀ l p q,
  lseg h p l q → (∀ x, x ∈ l → h' !! x = h !! x) → lseg h' p l q.
Proof.
  induction l as [|x l IH]; intros p q H Hagree; [done|].
  destruct H as (-> & m & Hm & H). split; [done|]. exists m.
  split; [rewrite Hagree; [done|by left]|].
  apply IH; [done|]. intros y Hy. apply Hagree. by right.
Qed.

Lemma lseg_allocated h : ∀ l p q x,
  lseg h p l q → x ∈ l → is_Some (h !! x).
Proof.
  induction l as [|y l IH]; intros p q x H Hx; [by inversion Hx|].
  destruct H as (-> & m & Hm & H).
  apply elem_of_cons in Hx as [->|Hx]; [eauto|by eapply IH].
Qed.

Lemma lseg_set_last h : ∀ l p q q' t mt,
  NoDup l → lseg h p l q → last l = Some t → h !! t = Some mt →
  lseg (<[t := set_next q' mt]> h) p l q'.
Proof.
  induction l as [|x l IH]; intros p q q' t mt Hnd H Hlast Ht; [done|].
  apply NoDup_cons in Hnd as [Hx Hnd].
  destruct H as (-> & m & Hm & H). split; [done|].
  destruct l as [|y l].
  - cbn in Hlast. simplify_eq. exists (set_next q' m).
    split; [by rewrite lookup_insert_eq|done].
  - rewrite last_cons_cons in Hlast.
    assert (Hxt : x ≠ t)
      by (intros ->; apply Hx; by apply last_Some_elem_of).
    exists m. split; [by rewrite lookup_insert_ne|].
    by apply (IH _ q).
Qed.

Lemma lseg_snoc h : ∀ l p x m,
  lseg h p l (Some x) → h !! x = Some m → lseg h p (l ++ [x]) (next m).
Proof.
  induction l as [|y l IH]; intros p x m H Hx.
  - cbn in H. subst p. split; [done|]. by exists m.
  - destruct H as (-> & my & Hy & H). split; [done|]. exists my.
    split; [done|]. by apply IH.
Qed.

Definition timestamped (h : gmap mptr O2message) (l : list mptr) : Prop :=
  ∀ x m, x ∈ l → h !! x = Some m → time_eqb (timestamp m) time_zero = false.

(** [s'] is [s] with the messages of [l] relinked and a new end of the
    schedule. *)
Definition rescheduled (l : list mptr) (s s' : shm) : Prop :=
  (∀ x, x ∉ l → mem s' !! x = mem s !! x) ∧
  (∀ x m, mem s !! x = Some m →
     ∃ m', mem s' !! x = Some m' ∧ timestamp m' = timestamp m ∧
           address m' = address m) ∧
  schedule_head s' = schedule_head s ∧ sm_trace s' = sm_trace s ∧
  o2sm_incoming s' = o2sm_incoming s ∧ outgoing s' = outgoing s.

(** The sorting loop on a list of time-stamped messages, once the
    schedule is not empty: each message is appended to the schedule. *)
Lemma sort_from_timestamped fuel : ∀ r d q msgs s,
  (length r < fuel)%nat → d ≠ [] → NoDup (d ++ r) →
  lseg (mem s) (schedule_head s) d q → schedule_tail s = last d →
  chain (mem s) msgs r → timestamped (mem s) r → (r = [] → q = None) →
  ∃ s',
    sort_from fuel LocMsgs msgs s = Some (None, s') ∧
    chain (mem s') (schedule_head s') (d ++ r) ∧
    rescheduled (d ++ r) s s'.
Proof.
  induction fuel as [|fuel IH];
    intros r d q msgs s Hfuel Hd Hnd Hseg Htail Hch Hts Hq; [lia|].
  cbn [sort_from]. unfold mbind at 1, SM_bind at 1, mret at 1, SM_ret at 1.
  destruct r as [|p r].
  - cbn in Hch. subst msgs. exists s. rewrite app_nil_r.
    split; [done|]. split; [apply chain_lseg; by rewrite <- Hq|].
    repeat split; eauto.
  - destruct Hch as (-> & m & Hm & Hch).
    unfold mbind at 1, SM_bind at 1, sm_load at 1. rewrite Hm.
    rewrite (Hts p m) by (done || by left). cbn [negb].
    destruct (schedule_head s) as [hd|] eqn:Hhd;
      [|destruct d; [done|by destruct Hseg]].
    destruct (last d) as [t|] eqn:Hlast;
      [|by apply last_None in Hlast].
    assert (Htd : t ∈ d) by by apply last_Some_elem_of.
    destruct (lseg_allocated _ _ _ _ t Hseg Htd) as [mt Hmt].
    apply NoDup_app in Hnd as (Hndd & Hdisj & Hndr).
    apply NoDup_cons in Hndr as [Hpr Hndr].
    assert (Hpt : p ≠ t) by (intros ->; apply (Hdisj t); [done|by left]).
    assert (Hpd : p ∉ d) by (intros H; apply (Hdisj p); [done|by left]).
    set (h1 := <[t := set_next (Some p) mt]> (mem s)).
    set (h2 := <[p := set_next None m]> h1).
    set (s2 := set_schedule_tail (Some p) (upd_mem (λ _, h2) s)).
    assert (Happ : append_to_schedule p s = Some (tt, s2)).
    { unfold append_to_schedule.
      unfold mbind at 1, SM_bind at 1, sm_gets at 1. rewrite Hhd.
      unfold mbind at 1, SM_bind at 1, sm_gets at 1. rewrite Htail.
      unfold mbind at 1, SM_bind at 1.
      rewrite (sm_store_run t _ mt) by done.
      unfold mbind at 1, SM_bind at 1.
      rewrite (sm_store_run p _ m)
        by (destruct s; cbn; by rewrite lookup_insert_ne).
      unfold sm_modify. subst s2 h2 h1. by destruct s. }
    unfold mbind at 1, SM_bind at 1. rewrite Happ.
    assert (Hmem2 : mem s2 = h2) by by destruct s.
    assert (Hagree : ∀ x, x ≠ t → x ≠ p → h2 !! x = mem s !! x).
    { intros x H1 H2. subst h2 h1.
      by rewrite lookup_insert_ne, lookup_insert_ne. }
    assert (Hcontents : ∀ x mx, mem s !! x = Some mx →
              ∃ mx', h2 !! x = Some mx' ∧ timestamp mx' = timestamp mx ∧
                     address mx' = address mx).
    { intros x mx Hx. subst h2 h1.
      destruct (decide (x = p)) as [->|Hxp].
      - rewrite lookup_insert_eq. simplify_eq. eauto.
      - rewrite lookup_insert_ne by done.
        destruct (decide (x = t)) as [->|Hxt].
        + rewrite lookup_insert_eq. simplify_eq. eauto.
        + rewrite lookup_insert_ne by done. eauto. }
    destruct (IH r (d ++ [p]) None (next m) s2)
      as (s' & Hrun & Hch' & Hres).
    + cbn in Hfuel. lia.
    + by destruct d.
    + rewrite <- app_assoc. cbn. apply NoDup_app.
      split; [done|]. split; [done|]. by apply NoDup_cons.
    + rewrite Hmem2.
      replace (schedule_head s2) with (Some hd) by by destruct s.
      change None with (next (set_next None m)).
      apply lseg_snoc; [|subst h2; by rewrite lookup_insert_eq].
      apply (lseg_frame h1).
      * subst h1. by apply (lseg_set_last _ _ _ q).
      * intros x Hx. subst h2. rewrite lookup_insert_ne; [done|].
        by intros ->.
    + replace (schedule_tail s2) with (Some p) by by destruct s.
      by rewrite last_snoc.
    + rewrite Hmem2. apply (chain_frame (mem s)); [done|].
      intros x Hx. apply Hagree.
      * intros ->. apply (Hdisj t); [done|by right].
      * by intros ->.
    + intros x mx Hx Hmx. rewrite Hmem2, Hagree in Hmx.
      * apply (Hts x mx); [by right|done].
      * intros ->. apply (Hdisj t); [done|by right].
      * by intros ->.
    + done.
    + exists s'. rewrite <- app_assoc in Hch', Hres. cbn in Hch', Hres.
      split; [done|]. split; [done|].
      destruct Hres as (Hfr & Hco & Hh & Htr & Hin & Hout).
      split; [|split; [|split; [|split; [|split]]]].
      * intros x Hx. rewrite Hfr by done. rewrite Hmem2.
        rewrite not_elem_of_app, not_elem_of_cons in Hx.
        destruct Hx as (Hxd & Hxp & _). apply Hagree; [|done].
        by intros ->.
      * intros x mx Hx. destruct (Hcontents x mx Hx) as (m1 & Hm1 & <- & <-).
        rewrite <- Hmem2 in Hm1. apply (Hco x m1 Hm1).
      * rewrite Hh. by destruct s.
      * rewrite Htr. by destruct s.
      * rewrite Hin. by destruct s.
      * rewrite Hout. by destruct s.
Qed.

(** The messages at the front of the schedule that are due at [now]. *)
Fixpoint due_prefix (h : gmap mptr O2message) (now : O2time)
  (l : list mptr) : list mptr :=
  match l with
  | [] => []
  | p :: l' =>
      match h !! p with
      | Some m =>
          if time_ltb (timestamp m) now then p :: due_prefix h now l' else []
      | None => []
      end
  end.

Lemma due_prefix_agree h h' now : ∀ l,
  (∀ x m, x ∈ l → h !! x = Some m →
     ∃ m', h' !! x = Some m' ∧ timestamp m' = timestamp m) →
  (∀ x, x ∈ l → is_Some (h !! x)) →
  due_prefix h' now l = due_prefix h now l.
Proof.
  induction l as [|p l IH]; intros Hag Hal; [done|]. cbn.
  destruct (Hal p) as [m Hm]; [by left|].
  destruct (Hag p m) as (m' & Hm' & Ht); [by left|done|].
  rewrite Hm, Hm', Ht. destruct (time_ltb (timestamp m) now); [|done].
  f_equal. apply IH.
  - intros x mx Hx. apply Hag. by right.
  - intros x Hx. apply Hal. by right.
Qed.

Lemma due_prefix_sub h now l x : x ∈ due_prefix h now l → x ∈ l.
Proof.
  revert x. induction l as [|p l IH]; intros x Hx; [done|]. cbn in Hx.
  destruct (h !! p) as [m|]; [|by inversion Hx].
  destruct (time_ltb (timestamp m) now); [|by inversion Hx].
  apply elem_of_cons in Hx as [->|Hx]; [by left|]. right. by apply IH.
Qed.

Lemma dispatch_ready_spec now fuel : ∀ l s,
  (length l < fuel)%nat → chain (mem s) (schedule_head s) l →
  ∃ s',
    dispatch_ready fuel now s = Some (tt, s') ∧
    sm_trace s' = sm_trace s
                  ++ flat_map (dispatched (mem s)) (due_prefix (mem s) now l) ∧
    chain (mem s') (schedule_head s')
      (drop (length (due_prefix (mem s) now l)) l) ∧
    (∀ x, x ∈ due_prefix (mem s) now l → mem s' !! x = None) ∧
    (∀ x, x ∉ due_prefix (mem s) now l → mem s' !! x = mem s !! x) ∧
    o2sm_incoming s' = o2sm_incoming s ∧ outgoing s' = outgoing s.
Proof.
  induction fuel as [|fuel IH]; intros l s Hfuel Hch; [lia|].
  cbn [dispatch_ready]. unfold mbind at 1, SM_bind at 1, sm_gets at 1.
  destruct l as [|p l].
  - cbn in Hch. rewrite Hch. exists s. cbn. rewrite app_nil_r.
    repeat split; try done. intros x Hx. by inversion Hx.
  - pose proof (chain_NoDup _ _ _ Hch) as Hnd.
    apply NoDup_cons in Hnd as [Hp Hnd].
    destruct Hch as (Hhd & m & Hm & Hch). rewrite Hhd.
    unfold mbind at 1, SM_bind at 1, sm_load at 1. rewrite Hm.
    cbn [due_prefix]. rewrite Hm.
    destruct (time_ltb (timestamp m) now) eqn:Hdue.
    + unfold mbind at 1, SM_bind at 1.
      rewrite (o2sm_dispatch_run p m) by done.
      unfold mbind at 1, SM_bind at 1, sm_modify at 1.
      set (s1 := set_schedule_head (next m)
                   (sm_emit (SmFree p)
                      (upd_mem (delete p)
                         (sm_emit (SmDispatch p (timestamp m)
                                     (slash_first (address m))) s)))).
      assert (Hmem1 : ∀ x, x ≠ p → mem s1 !! x = mem s !! x).
      { intros x Hx. subst s1. destruct s; cbn. by rewrite lookup_delete_ne. }
      assert (Hdp : due_prefix (mem s1) now l = due_prefix (mem s) now l).
      { apply due_prefix_agree.
        - intros x mx Hx Hmx. exists mx. split; [|done].
          rewrite Hmem1; [done|]. by intros ->.
        - intros x Hx. by eapply chain_allocated. }
      destruct (IH l s1) as (s' & Hrun & Htr & Hch' & Hgone & Hkeep & Hrest).
      * cbn in Hfuel. lia.
      * replace (schedule_head s1) with (next m) by by destruct s.
        apply (chain_frame (mem s)); [done|]. intros x Hx. apply Hmem1.
        by intros ->.
      * rewrite Hdp in Htr, Hch', Hgone, Hkeep.
        exists s'. split; [done|].
        split.
        { rewrite Htr. cbn [flat_map]. unfold dispatched at 2. rewrite Hm.
          replace (sm_trace s1) with
            (sm_trace s ++ [SmDispatch p (timestamp m)
                              (slash_first (address m)); SmFree p])
            by (destruct s; cbn; by rewrite <- app_assoc).
          rewrite <- app_assoc. do 2 f_equal.
          apply flat_map_agree. intros x Hx. unfold dispatched.
          rewrite Hmem1; [done|]. intros ->.
          by apply Hp, (due_prefix_sub (mem s) now). }
        split; [done|].
        split.
        { intros x Hx. apply elem_of_cons in Hx as [->|Hx];
            [|by apply Hgone].
          rewrite Hkeep.
          - subst s1. destruct s; cbn. by rewrite lookup_delete_eq.
          - intros H. by apply Hp, (due_prefix_sub (mem s) now). }
        split.
        { intros x Hx. rewrite not_elem_of_cons in Hx. destruct Hx.
          rewrite Hkeep by done. by apply Hmem1. }
        destruct Hrest as (-> & ->). by destruct s.
    + exists s. cbn. rewrite app_nil_r.
      split; [done|]. split; [done|].
      split; [split; [done|]; eauto|].
      repeat split; try done. intros x Hx. by inversion Hx.
Qed.

Lemma free_schedule_spec fuel : ∀ l s,
  (length l < fuel)%nat → chain (mem s) (schedule_head s) l →
  ∃ s',
    free_schedule fuel s = Some (tt, s') ∧
    sm_trace s' = sm_trace s ++ map SmFree l ∧
    schedule_head s' = None ∧
    (∀ x, x ∈ l → mem s' !! x = None) ∧
    (∀ x, x ∉ l → mem s' !! x = mem s !! x) ∧
    o2sm_incoming s' = o2sm_incoming s ∧ outgoing s' = outgoing s.
Proof.
  induction fuel as [|fuel IH]; intros l s Hfuel Hch; [lia|].
  cbn [free_schedule]. unfold mbind at 1, SM_bind at 1, sm_gets at 1.
  destruct l as [|p l].
  - cbn in Hch. rewrite Hch. exists s. cbn. rewrite app_nil_r.
    repeat split; try done. intros x Hx. by inversion Hx.
  - pose proof (chain_NoDup _ _ _ Hch) as Hnd.
    apply NoDup_cons in Hnd as [Hp Hnd].
    destruct Hch as (Hhd & m & Hm & Hch). rewrite Hhd.
    unfold mbind at 1, SM_bind at 1, sm_load at 1. rewrite Hm.
    unfold mbind at 1, SM_bind at 1. rewrite (sm_free_run p m) by done.
    unfold mbind at 1, SM_bind at 1, sm_modify at 1.
    set (s1 := set_schedule_head (next m)
                 (sm_emit (SmFree p) (upd_mem (delete p) s))).
    assert (Hmem1 : ∀ x, x ≠ p → mem s1 !! x = mem s !! x).
    { intros x Hx. subst s1. destruct s; cbn. by rewrite lookup_delete_ne. }
    destruct (IH l s1) as (s' & Hrun & Htr & Hhd' & Hgone & Hkeep & Hrest).
    + cbn in Hfuel. lia.
    + replace (schedule_head s1) with (next m) by by destruct s.
      apply (chain_frame (mem s)); [done|]. intros x Hx. apply Hmem1.
      by intros ->.
    + exists s'. split; [done|].
      split.
      { rewrite Htr. cbn [map].
        replace (sm_trace s1) with (sm_trace s ++ [SmFree p])
          by by destruct s.
        by rewrite <- app_assoc. }
      split; [done|].
      split.
      { intros x Hx. apply elem_of_cons in Hx as [->|Hx]; [|by apply Hgone].
        rewrite Hkeep by done. subst s1. destruct s; cbn.
        by rewrite lookup_delete_eq. }
      split.
      { intros x Hx. rewrite not_elem_of_cons in Hx. destruct Hx.
        rewrite Hkeep by done. by apply Hmem1. }
      destruct Hrest as (-> & ->). by destruct s.
Qed.

(** Time-stamped messages sent to the thread while nothing is scheduled:
    after the sorting loop of the next [poll_outgoing] they form the
    schedule, in the order in which they were sent. *)
Lemma batch_is_scheduled fuel ps s :
  outgoing s = None → schedule_head s = None → NoDup ps →
  (∀ p, p ∈ ps → ∃ m, mem s !! p = Some m ∧
                      time_eqb (timestamp m) time_zero = false) →
  (length ps < fuel)%nat →
  ∃ s1 s3,
    info_send_each ps s = Some (tt, s1) ∧
    (msgs ← get_messages_reversed fuel Outgoing; sort_from fuel LocMsgs msgs)
      s1 = Some (None, s3) ∧
    chain (mem s3) (schedule_head s3) ps ∧
    (∀ x, x ∉ ps → mem s3 !! x = mem s !! x) ∧
    (∀ x m, mem s !! x = Some m →
       ∃ m', mem s3 !! x = Some m' ∧ timestamp m' = timestamp m ∧
             address m' = address m) ∧
    sm_trace s3 = sm_trace s ∧ outgoing s3 = None.
Proof.
  intros Hempty Hsched Hnd Hps Hfuel.
  destruct (info_send_each_chain ps [] s)
    as (s1 & Hrun1 & Hch1 & Hrel1 & Hin1).
  { by rewrite Hempty. }
  { done. }
  { intros p Hp. destruct (Hps p Hp) as (m & Hm & _).
    split; [eauto|]. intros H. by inversion H. }
  rewrite app_nil_r in Hch1.
  destruct (get_messages_reversed_reverses fuel Outgoing (rev ps) s1 Hch1)
    as (s1' & Hrev & Hch' & Hq' & Hrel' & _); [by rewrite length_rev|].
  rewrite rev_involutive in Hrev, Hch'.
  destruct Hrel1 as (Ha1 & Hb1 & Hh1 & _ & Ht1).
  destruct Hrel' as (Ha' & Hb' & Hh' & _ & Ht').
  assert (Hcontents : ∀ p m, mem s !! p = Some m →
            ∃ m', mem s1' !! p = Some m' ∧ timestamp m' = timestamp m ∧
                  address m' = address m).
  { intros p m Hm. destruct (Hb1 p m Hm) as (m1 & Hm1 & <- & <-).
    destruct (Hb' p m1 Hm1) as (m2 & Hm2 & <- & <-). eauto. }
  assert (Hframe : ∀ x, x ∉ ps → mem s1' !! x = mem s !! x).
  { intros x Hx. rewrite Ha', Ha1; try done. by rewrite elem_of_rev. }
  assert (Hsched' : schedule_head s1' = None) by congruence.
  exists s1. unfold mbind at 1, SM_bind at 1. rewrite Hrev.
  destruct fuel as [|fuel]; [lia|].
  destruct ps as [|a rest].
  - cbn in Hch'. exists s1'. cbn.
    split; [done|]. split; [done|]. split; [done|]. split; [done|].
    split; [done|]. split; [congruence|done].
  - cbn [head] in *. destruct Hch' as (_ & ma & Hma & Hchr).
    destruct (Hps a) as (ma0 & Hma0 & Hstamp); [by left|].
    destruct (Hcontents a ma0 Hma0) as (ma' & Hma' & Hts & _).
    assert (ma' = ma) as -> by congruence.
    set (s2 := set_schedule_tail (Some a)
                 (set_schedule_head (Some a) s1')).
    assert (Hmem2 : mem s2 = mem s1') by by destruct s1'.
    destruct (sort_from_timestamped fuel rest [a] (next ma) (next ma) s2)
      as (s3 & Hsort & Hch3 & Hfr3 & Hco3 & Hh3 & Htr3 & Hin3 & Hout3).
    + cbn in Hfuel. lia.
    + done.
    + done.
    + rewrite Hmem2. split; [by destruct s1'|]. by exists ma.
    + by destruct s1'.
    + by rewrite Hmem2.
    + intros x mx Hx Hmx. rewrite Hmem2 in Hmx.
      destruct (Hps x) as (m0 & Hm0 & Hst0); [by right|].
      destruct (Hcontents x m0 Hm0) as (m0' & Hm0' & Hts0 & _).
      simplify_eq. by rewrite Hts0.
    + intros ->. by cbn in Hchr.
    + exists s3. cbn [app] in *.
      split; [done|].
      split.
      { cbn [sort_from]. unfold mbind at 1, SM_bind at 1, mret at 1,
          SM_ret at 1.
        unfold mbind at 1, SM_bind at 1, sm_load at 1. rewrite Hma, Hts, Hstamp.
        cbn [negb]. unfold mbind at 1, SM_bind at 1, append_to_schedule at 1.
        unfold mbind at 1, SM_bind at 1, sm_gets at 1. rewrite Hsched'.
        unfold mbind at 1, SM_bind at 1, sm_modify. by fold s2. }
      split; [done|].
      split; [intros x Hx; by rewrite Hfr3, Hmem2, Hframe|].
      split.
      { intros x m Hm. destruct (Hcontents x m Hm) as (m1 & Hm1 & <- & <-).
        rewrite <- Hmem2 in Hm1. apply (Hco3 x m1 Hm1). }
      split; [rewrite Htr3; destruct s1'; cbn in *; congruence|].
      rewrite Hout3. by destruct s1'.
Qed.

(** Time-stamped messages sent to the thread while nothing is scheduled,
    with a clock: [poll_outgoing] schedules them in the order in which
    they were sent and dispatches those at the front of the schedule that
    are due, each once and in that order, freeing each after its handler.
    It stops at the first message that is not due: that message and all
    behind it stay scheduled, in order, also those that are due. *)
Theorem poll_outgoing_schedule_is_fifo fuel now ps s :
  outgoing s = None → schedule_head s = None → NoDup ps →
  (∀ p, p ∈ ps → ∃ m, mem s !! p = Some m ∧
                      time_eqb (timestamp m) time_zero = false) →
  time_ltb now time_zero = false → (length ps < fuel)%nat →
  ∃ s1 s2,
    info_send_each ps s = Some (tt, s1) ∧
    poll_outgoing fuel now s1 = Some (tt, s2) ∧
    sm_trace s2 = sm_trace s
                  ++ flat_map (dispatched (mem s)) (due_prefix (mem s) now ps) ∧
    chain (mem s2) (schedule_head s2)
      (drop (length (due_prefix (mem s) now ps)) ps) ∧
    (∀ p, p ∈ due_prefix (mem s) now ps → mem s2 !! p = None) ∧
    outgoing s2 = None.
Proof.
  intros Hempty Hsched Hnd Hps Hclock Hfuel.
  destruct (batch_is_scheduled fuel ps s Hempty Hsched Hnd Hps Hfuel)
    as (s1 & s3 & Hrun1 & Hsort & Hch3 & Hfr3 & Hco3 & Htr3 & Hout3).
  destruct (dispatch_ready_spec now fuel ps s3 Hfuel Hch3)
    as (s2 & Hrun2 & Htr2 & Hch2 & Hgone & Hkeep & _ & Hout2).
  assert (Hdp : due_prefix (mem s3) now ps = due_prefix (mem s) now ps).
  { apply due_prefix_agree.
    - intros x m Hx Hm. destruct (Hco3 x m Hm) as (m' & Hm' & Ht & _). eauto.
    - intros x Hx. destruct (Hps x Hx) as (m & Hm & _). eauto. }
  rewrite Hdp in Htr2, Hch2, Hgone.
  exists s1, s2. split; [done|].
  split.
  { unfold poll_outgoing. unfold mbind at 1, SM_bind at 1.
    unfold mbind at 1, SM_bind at 1 in Hsort.
    destruct (get_messages_reversed fuel Outgoing s1) as [[msgs s1']|];
      [|done].
    unfold mbind at 1, SM_bind at 1. rewrite Hsort.
    unfold mbind at 1, SM_bind at 1. rewrite Hclock, Hrun2.
    destruct fuel; [lia|]. done. }
  split.
  { rewrite Htr2, Htr3. f_equal. apply flat_map_agree. intros p Hp.
    apply due_prefix_sub in Hp. destruct (Hps p Hp) as (m & Hm & _).
    apply dispatched_agree; [|eauto]. intros m0 Hm0. by apply Hco3. }
  split; [done|]. split; [done|]. by rewrite Hout2.
Qed.

(** Without a clock ([o2sm_time_get] negative) the time-stamped messages
    are not delivered: [poll_outgoing] schedules them and then frees the
    whole schedule, each message once, without calling a handler. *)
Theorem poll_outgoing_without_clock_drops fuel now ps s :
  outgoing s = None → schedule_head s = None → NoDup ps →
  (∀ p, p ∈ ps → ∃ m, mem s !! p = Some m ∧
                      time_eqb (timestamp m) time_zero = false) →
  time_ltb now time_zero = true → (length ps < fuel)%nat →
  ∃ s1 s2,
    info_send_each ps s = Some (tt, s1) ∧
    poll_outgoing fuel now s1 = Some (tt, s2) ∧
    sm_trace s2 = sm_trace s ++ map SmFree ps ∧
    schedule_head s2 = None ∧ outgoing s2 = None ∧
    (∀ p, p ∈ ps → mem s2 !! p = None) ∧
    (∀ x, x ∉ ps → mem s2 !! x = mem s !! x).
Proof.
  intros Hempty Hsched Hnd Hps Hclock Hfuel.
  destruct (batch_is_scheduled fuel ps s Hempty Hsched Hnd Hps Hfuel)
    as (s1 & s3 & Hrun1 & Hsort & Hch3 & Hfr3 & Hco3 & Htr3 & Hout3).
  destruct (free_schedule_spec fuel ps s3 Hfuel Hch3)
    as (s2 & Hrun2 & Htr2 & Hhd2 & Hgone & Hkeep & _ & Hout2).
  exists s1, s2. split; [done|].
  split.
  { unfold poll_outgoing. unfold mbind at 1, SM_bind at 1.
    unfold mbind at 1, SM_bind at 1 in Hsort.
    destruct (get_messages_reversed fuel Outgoing s1) as [[msgs s1']|];
      [|done].
    unfold mbind at 1, SM_bind at 1. rewrite Hsort.
    unfold mbind at 1, SM_bind at 1. rewrite Hclock, Hrun2.
    destruct fuel; [lia|]. done. }
  split; [by rewrite Htr2, Htr3|]. split; [done|].
  split; [by rewrite Hout2|]. split; [done|].
  intros x Hx. by rewrite Hkeep, Hfr3.
Qed.

End Sharedmem.

Arguments Msg {O2time}.
Arguments next {O2time}.
Arguments timestamp {O2time}.
Arguments address {O2time}.
Arguments SmSend {O2time}.
Arguments SmDispatch {O2time}.
Arguments SmFree {O2time}.
Arguments Shm {O2time}.
Arguments mem {O2time}.
Arguments o2sm_incoming {O2time}.
Arguments outgoing {O2time}.
Arguments schedule_head {O2time}.
Arguments schedule_tail {O2time}.
Arguments sm_trace {O2time}.
Arguments chain {O2time}.
Arguments relinked {O2time}.
Arguments queue_head {O2time}.
Arguments sent {O2time}.
Arguments dispatched {O2time}.
Arguments due_prefix {O2time}.
Arguments get_messages_reversed {O2time}.
Arguments send_each {O2time}.
Arguments info_send_each {O2time}.
Arguments bridge_poll {O2time}.
Arguments free_outgoing {O2time}.
Arguments poll_outgoing {O2time}.

(** *** Instances with integer time stamps *)

Definition three_messages (t1 t2 t3 : Z) : gmap mptr (O2message Z) :=
  {[ 1%nat := Msg None t1 "!synth/a"; 2%nat := Msg None t2 "!synth/b";
     3%nat := Msg None t3 "!synth/c" ]}.

Definition idle_thread (h : gmap mptr (O2message Z)) : shm Z :=
  Shm h None None None None [].

(** Messages 3, 2, 1 linked in that order. *)
Definition lifo_queue : shm Z :=
  Shm {[ 1%nat := Msg None 0 "!synth/a"; 2%nat := Msg (Some 1%nat) 0 "!synth/b";
         3%nat := Msg (Some 2%nat) 0 "!synth/c" ]}
    (Some 3%nat) None None None [].

Ltac one_of_three H :=
  repeat (apply elem_of_cons in H as [->|H]);
  [..|by apply not_elem_of_nil in H].

Lemma get_messages_reversed_reverses_witness :
  ∃ s',
    get_messages_reversed 4 Incoming lifo_queue
      = Some (head (rev [3; 2; 1]%nat), s') ∧
    chain (mem s') (head (rev [3; 2; 1]%nat)) (rev [3; 2; 1]%nat) ∧
    queue_head Incoming s' = None ∧
    relinked [3; 2; 1]%nat lifo_queue s' ∧
    (∀ q', q' ≠ Incoming → queue_head q' s' = queue_head q' lifo_queue).
Proof.
  apply (get_messages_reversed_reverses Z 4 Incoming [3; 2; 1]%nat
           lifo_queue).
  - cbn. repeat (split; [reflexivity|eexists; split; [reflexivity|]]).
    reflexivity.
  - cbn. lia.
Defined.

Lemma three_distinct : NoDup [1; 2; 3]%nat.
Proof. by apply (bool_decide_unpack _). Qed.

Lemma bridge_poll_sends_in_arrival_order_witness :
  ∃ s1 s2,
    send_each [1; 2; 3]%nat (idle_thread (three_messages 0 0 0))
      = Some (tt, s1) ∧
    bridge_poll (λ _ _, -1) 4 s1 = Some (0, s2) ∧
    sm_trace s2
      = sm_trace (idle_thread (three_messages 0 0 0))
        ++ flat_map (sent (mem (idle_thread (three_messages 0 0 0))))
             [1; 2; 3]%nat ∧
    o2sm_incoming s2 = None ∧
    (∀ p, p ∈ [1; 2; 3]%nat → mem s2 !! p = None) ∧
    (∀ x, x ∉ [1; 2; 3]%nat →
          mem s2 !! x = mem (idle_thread (three_messages 0 0 0)) !! x).
Proof.
  apply (bridge_poll_sends_in_arrival_order Z (λ _ _, -1) 4 [1; 2; 3]%nat
           (idle_thread (three_messages 0 0 0))).
  - reflexivity.
  - exact three_distinct.
  - intros p Hp. one_of_three Hp; by eexists.
  - cbn. lia.
Defined.

Lemma free_outgoing_frees_queue_witness :
  ∃ s1 s2,
    info_send_each [1; 2; 3]%nat (idle_thread (three_messages 0 0 0))
      = Some (tt, s1) ∧
    free_outgoing 4 s1 = Some (tt, s2) ∧
    sm_trace s2
      = sm_trace (idle_thread (three_messages 0 0 0))
        ++ map SmFree (rev [1; 2; 3]%nat) ∧
    outgoing s2 = None ∧
    (∀ p, p ∈ [1; 2; 3]%nat → mem s2 !! p = None) ∧
    (∀ x, x ∉ [1; 2; 3]%nat →
          mem s2 !! x = mem (idle_thread (three_messages 0 0 0)) !! x).
Proof.
  apply (free_outgoing_frees_queue Z 4 [1; 2; 3]%nat
           (idle_thread (three_messages 0 0 0))).
  - reflexivity.
  - exact three_distinct.
  - intros p Hp. one_of_three Hp; by eexists.
  - cbn. lia.
Defined.

Lemma poll_outgoing_dispatches_in_order_witness :
  ∃ s1 s2,
    info_send_each [1; 2; 3]%nat (idle_thread (three_messages 0 0 0))
      = Some (tt, s1) ∧
    poll_outgoing 0 Z.eqb Z.ltb 4 10 s1 = Some (tt, s2) ∧
    sm_trace s2
      = sm_trace (idle_thread (three_messages 0 0 0))
        ++ flat_map (dispatched (mem (idle_thread (three_messages 0 0 0))))
             [1; 2; 3]%nat ∧
    outgoing s2 = None ∧ schedule_head s2 = None ∧
    (∀ p, p ∈ [1; 2; 3]%nat → mem s2 !! p = None) ∧
    (∀ x, x ∉ [1; 2; 3]%nat →
          mem s2 !! x = mem (idle_thread (three_messages 0 0 0)) !! x).
Proof.
  apply (poll_outgoing_dispatches_in_order Z 0 Z.eqb Z.ltb 4 10
           [1; 2; 3]%nat (idle_thread (three_messages 0 0 0))).
  - reflexivity.
  - reflexivity.
  - exact three_distinct.
  - intros p Hp. one_of_three Hp; eexists; (split; reflexivity).
  - cbn. lia.
Defined.

Lemma schedule_keeps_stale_link_witness :
  ∃ s1 s2 ma',
    info_send_each (1 :: 2 :: [3])%nat (idle_thread (three_messages 50 0 0))
      = Some (tt, s1) ∧
    poll_outgoing 0 Z.eqb Z.ltb 4 10 s1 = Some (tt, s2) ∧
    schedule_head s2 = Some 1%nat ∧ mem s2 !! 1%nat = Some ma' ∧
    timestamp ma' = timestamp (Msg None 50 "!synth/a") ∧
    next ma' = Some 2%nat ∧
    mem s2 !! 2%nat = None ∧
    ∀ fuel' now',
      Z.ltb (timestamp (Msg None 50 "!synth/a")) now' = true →
      Z.ltb now' 0 = false →
      poll_outgoing 0 Z.eqb Z.ltb fuel' now' s2 = None.
Proof.
  apply (schedule_keeps_stale_link Z 0 Z.eqb Z.ltb 4 10 1%nat 2%nat [3%nat]
           (Msg None 50 "!synth/a")
           (idle_thread (three_messages 50 0 0))).
  - reflexivity.
  - reflexivity.
  - exact three_distinct.
  - reflexivity.
  - reflexivity.
  - reflexivity.
  - reflexivity.
  - intros p Hp. one_of_three Hp; eexists; (split; reflexivity).
  - cbn. lia.
Defined.

Lemma poll_outgoing_schedule_is_fifo_witness :
  ∃ s1 s2,
    info_send_each [1; 2; 3]%nat (idle_thread (three_messages 5 20 7))
      = Some (tt, s1) ∧
    poll_outgoing 0 Z.eqb Z.ltb 4 10 s1 = Some (tt, s2) ∧
    sm_trace s2
      = sm_trace (idle_thread (three_messages 5 20 7))
        ++ flat_map (dispatched (mem (idle_thread (three_messages 5 20 7))))
             (due_prefix Z.ltb (mem (idle_thread (three_messages 5 20 7)))
                10 [1; 2; 3]%nat) ∧
    chain (mem s2) (schedule_head s2)
      (drop (length (due_prefix Z.ltb
                       (mem (idle_thread (three_messages 5 20 7))) 10
                       [1; 2; 3]%nat))
         [1; 2; 3]%nat) ∧
    (∀ p, p ∈ due_prefix Z.ltb (mem (idle_thread (three_messages 5 20 7)))
                10 [1; 2; 3]%nat → mem s2 !! p = None) ∧
    outgoing s2 = None.
Proof.
  apply (poll_outgoing_schedule_is_fifo Z 0 Z.eqb Z.ltb 4 10 [1; 2; 3]%nat
           (idle_thread (three_messages 5 20 7))).
  - reflexivity.
  - reflexivity.
  - exact three_distinct.
  - intros p Hp. one_of_three Hp; eexists; (split; reflexivity).
  - reflexivity.
  - cbn. lia.
Defined.

(** In the instance above message 3 is due (7 < 10) but waits behind
    message 2. *)
Example due_message_waits :
  due_prefix Z.ltb (three_messages 5 20 7) 10 [1; 2; 3]%nat = [1%nat].
Proof. reflexivity. Qed.

Lemma poll_outgoing_without_clock_drops_witness :
  ∃ s1 s2,
    info_send_each [1; 2; 3]%nat (idle_thread (three_messages 5 20 7))
      = Some (tt, s1) ∧
    poll_outgoing 0 Z.eqb Z.ltb 4 (-1) s1 = Some (tt, s2) ∧
    sm_trace s2
      = sm_trace (idle_thread (three_messages 5 20 7))
        ++ map SmFree [1; 2; 3]%nat ∧
    schedule_head s2 = None ∧ outgoing s2 = None ∧
    (∀ p, p ∈ [1; 2; 3]%nat → mem s2 !! p = None) ∧
    (∀ x, x ∉ [1; 2; 3]%nat →
          mem s2 !! x = mem (idle_thread (three_messages 5 20 7)) !! x).
Proof.
  apply (poll_outgoing_without_clock_drops Z 0 Z.eqb Z.ltb 4 (-1)
           [1; 2; 3]%nat (idle_thread (three_messages 5 20 7))).
  - reflexivity.
  - reflexivity.
  - exact three_distinct.
  - intros p Hp. one_of_three Hp; eexists; (split; reflexivity).
  - reflexivity.
  - cbn. lia.
Defined.
